(** * Nanodbc: result-set column binding and typed extraction

    A shallow embedding of the parts of [src/src/Nanodbc.cpp] that make up the
    result cursor ([Result::ResultImpl]), its error reporting
    ([recent_error], [DatabaseError]) and the typed getters, followed by the
    properties proved about them.

    Conventions of the embedding.
    - C++ integers are [Z].  Unsigned 64-bit arithmetic ([SQLULEN],
      [unsigned long]) is written with its wrap-around; [long] arithmetic on
      the cursor offset is plain [Z] (signed overflow is undefined in C++).
    - Pointers into [bound_columns_] are indices; a null array pointer is
      [None].  An access the C++ standard leaves undefined yields the
      outcome [Undefined].
    - The build modelled is the narrow one ([NANODBC_USE_UNICODE] unset, so
      [StringType] is [std::string] and [convert] is a copy) with the
      asynchronous paths compiled out ([NANODBC_DISABLE_ASYNC]).  Whether
      [_MSC_VER] is defined is a parameter where the source tests it.
    - The ODBC driver manager is not part of the repository: it is the
      interface [NativeAPI], and the numeric values of the ODBC constants are
      those of the ODBC headers [sql.h] / [sqlext.h]. *)

From Stdlib Require Import ZArith Lia Ascii String.
From Stdlib.Strings Require Import Byte.
From stdpp Require Import base tactics option list gmap strings pretty.

Local Open Scope Z_scope.

(** ** ODBC constants (sql.h, sqlext.h) *)

Module ODBC.
Definition SQL_SUCCESS : Z := 0.
Definition SQL_SUCCESS_WITH_INFO : Z := 1.
Definition SQL_STILL_EXECUTING : Z := 2.
Definition SQL_NEED_DATA : Z := 99.
Definition SQL_NO_DATA : Z := 100.
Definition SQL_ERROR : Z := -1.
Definition SQL_INVALID_HANDLE : Z := -2.

Definition SQL_NULL_DATA : Z := -1.
Definition SQL_ROW_NUMBER_UNKNOWN : Z := -2.
Definition SQL_MAX_MESSAGE_LENGTH : Z := 512.

Definition SQL_FETCH_NEXT : Z := 1.
Definition SQL_FETCH_FIRST : Z := 2.
Definition SQL_FETCH_LAST : Z := 3.
Definition SQL_FETCH_PRIOR : Z := 4.
Definition SQL_FETCH_ABSOLUTE : Z := 5.
Definition SQL_FETCH_RELATIVE : Z := 6.

(** SQL data types. *)
Definition SQL_CHAR : Z := 1.
Definition SQL_NUMERIC : Z := 2.
Definition SQL_DECIMAL : Z := 3.
Definition SQL_INTEGER : Z := 4.
Definition SQL_SMALLINT : Z := 5.
Definition SQL_FLOAT : Z := 6.
Definition SQL_REAL : Z := 7.
Definition SQL_DOUBLE : Z := 8.
Definition SQL_DATE : Z := 9.
Definition SQL_TIME : Z := 10.
Definition SQL_TIMESTAMP : Z := 11.
Definition SQL_VARCHAR : Z := 12.
Definition SQL_TYPE_DATE : Z := 91.
Definition SQL_TYPE_TIME : Z := 92.
Definition SQL_TYPE_TIMESTAMP : Z := 93.
Definition SQL_LONGVARCHAR : Z := -1.
Definition SQL_BINARY : Z := -2.
Definition SQL_VARBINARY : Z := -3.
Definition SQL_LONGVARBINARY : Z := -4.
Definition SQL_BIGINT : Z := -5.
Definition SQL_TINYINT : Z := -6.
Definition SQL_BIT : Z := -7.
Definition SQL_WCHAR : Z := -8.
Definition SQL_WVARCHAR : Z := -9.
Definition SQL_GUID : Z := -11.
Definition SQL_SS_UDT : Z := -151.

(** C buffer types. *)
Definition SQL_C_CHAR : Z := 1.
Definition SQL_C_LONG : Z := 4.
Definition SQL_C_FLOAT : Z := 7.
Definition SQL_C_DOUBLE : Z := 8.
Definition SQL_C_DATE : Z := 9.
Definition SQL_C_TIME : Z := 10.
Definition SQL_C_TIMESTAMP : Z := 11.
Definition SQL_C_BINARY : Z := -2.
Definition SQL_C_WCHAR : Z := -8.
Definition SQL_C_GUID : Z := -11.
Definition SQL_C_SSHORT : Z := -15.
Definition SQL_C_SLONG : Z := -16.
Definition SQL_C_USHORT : Z := -17.
Definition SQL_C_ULONG : Z := -18.
Definition SQL_C_SBIGINT : Z := -25.
Definition SQL_C_UBIGINT : Z := -27.
End ODBC.
Import ODBC.

(** ** Machine integers *)

(** [SQLULEN] and [unsigned long] on an LP64 target. *)
Definition ULEN_MOD : Z := 2 ^ 64.

Definition to_ulen (z : Z) : Z := z mod ULEN_MOD.

(** [static_cast<long>] of an [SQLULEN]. *)
Definition to_long (z : Z) : Z :=
  let m := z mod ULEN_MOD in
  if m <? 2 ^ 63 then m else m - ULEN_MOD.

(** ** Error handling *)

(** Easy way to check if a return code signifies success. *)
Definition success (rc : Z) : bool :=
  (rc =? SQL_SUCCESS) || (rc =? SQL_SUCCESS_WITH_INFO).

Definition NUL : ascii := Ascii.zero.
Definition SPACE : ascii := " "%char.

(** [std::replace(first, last, old, new)] on a [std::string]. *)
Fixpoint replace (old new : ascii) (s : string) : string :=
  match s with
  | EmptyString => EmptyString
  | String c s' =>
      String (if Ascii.eqb c old then new else c) (replace old new s')
  end.

(** [std::vector<SQLCHAR>::resize]: truncates, or pads with zero bytes. *)
Definition vector_resize (n : nat) (v : list ascii) : list ascii :=
  take n v ++ replicate (n - length v)%nat NUL.

(** What a driver leaves in a message buffer [buf] when it returns the text
    [text]: as many characters as fit, a terminating zero, and the rest of
    the buffer as it was. *)
Definition write_cstr (text : list ascii) (buf : list ascii) : list ascii :=
  match length buf with
  | O => buf
  | S room =>
      let n := Nat.min (length text) room in
      take n text ++ NUL :: drop (S n) buf
  end.

(** One record of a handle's diagnostics area, as [SQLGetDiagRec] reports it:
    [dg_rc_len] is the return code of the call that asks for the length only
    (null buffer), [dg_rc_get] that of the call that retrieves the text.  A
    call that succeeds stores the state, the native code and the length. *)
Record DiagRecord := {
  dg_rc_len : Z;
  dg_rc_get : Z;
  dg_state : string;       (* five characters *)
  dg_native : Z;
  dg_text : list ascii;    (* message text, without terminator *)
}.

(** The locals of [recent_error] that survive an iteration. *)
Record diag_locals := {
  dl_Result : string;
  dl_sql_message : list ascii;
  dl_sqlState : string;
  dl_nativeError : Z;
}.

Inductive diag_exit :=
  | DiagReturn (rvalue : string)          (* the [return rvalue] inside the loop *)
  | DiagDone (l : diag_locals).           (* left the loop *)

(** The [do ... while (rc != SQL_NO_DATA)] loop of [recent_error].  The
    records still to be reported are [recs]; asking for a record past the
    last one returns [SQL_NO_DATA] and stores nothing.  [msvc] tells whether
    [_MSC_VER] is defined: without it the loop is left after one record. *)
Fixpoint recent_error_loop (msvc : bool) (recs : list DiagRecord)
    (l : diag_locals) : diag_exit :=
  match recs with
  | [] => DiagDone l
  | d :: recs' =>
      (* first SQLGetDiagRec: null buffer, asks for total_bytes *)
      let total_bytes := Z.of_nat (length (dg_text d)) in
      let l1 :=
        if success (dg_rc_len d)
        then {| dl_Result := dl_Result l;
                dl_sql_message :=
                  if 0 <? total_bytes
                  then vector_resize (Z.to_nat (total_bytes + 1)) (dl_sql_message l)
                  else dl_sql_message l;
                dl_sqlState := dg_state d;
                dl_nativeError := dg_native d |}
        else l in
      if dg_rc_len d =? SQL_NO_DATA then DiagDone l1
      else
        (* second SQLGetDiagRec: retrieves the text *)
        if negb (success (dg_rc_get d)) then DiagReturn (dl_Result l1)
        else
          let msg := write_cstr (dg_text d) (dl_sql_message l1) in
          let sep := if String.eqb (dl_Result l1) "" then ""%string else " "%string in
          let l2 := {| dl_Result := dl_Result l1 +:+ sep +:+ string_of_list_ascii msg;
                       dl_sql_message := msg;
                       dl_sqlState := dg_state d;
                       dl_nativeError := dg_native d |} in
          if msvc then recent_error_loop msvc recs' l2 else DiagDone l2
  end.

(** The in/out parameters of [recent_error] and its return value. *)
Record recent_error_result := {
  re_status : string;
  re_native : Z;
  re_state : string;
}.

(** Attempts to get the most recent ODBC error as a string.  [native] and
    [state] are the caller's variables; [sqlState0] and [nativeError0] stand
    for the indeterminate initial contents of the uninitialised locals. *)
Definition recent_error (msvc : bool) (recs : list DiagRecord)
    (sqlState0 : string) (nativeError0 : Z)
    (native : Z) (state : string) : recent_error_result :=
  let l0 := {| dl_Result := "";
               dl_sql_message := replicate (Z.to_nat SQL_MAX_MESSAGE_LENGTH) NUL;
               dl_sqlState := sqlState0;
               dl_nativeError := nativeError0 |} in
  match recent_error_loop msvc recs l0 with
  | DiagReturn rvalue =>
      {| re_status := rvalue; re_native := native; re_state := state |}
  | DiagDone l =>
      let state' := dl_sqlState l in
      let status := state' +:+ ": " +:+ dl_Result l in
      {| re_status := replace NUL SPACE status;
         re_native := dl_nativeError l;
         re_state := state' |}
  end.

(** [Nanodbc::DatabaseError]: [what()], [native()] and [state()]. *)
Record DatabaseError := {
  message : string;
  nativeError : Z;
  sqlState : string;
}.

(** [DatabaseError::DatabaseError(handle, handle_type, info)]; the handle is
    represented by the diagnostics records it holds. *)
Definition DatabaseError_ctor (msvc : bool) (recs : list DiagRecord)
    (sqlState0 : string) (nativeError0 : Z) (info : string) : DatabaseError :=
  let r := recent_error msvc recs sqlState0 nativeError0 0 "00000" in
  {| message := info +:+ re_status r;
     nativeError := re_native r;
     sqlState := re_state r |}.

(** The exception classes of Nanodbc.h, and [std::bad_alloc] from
    [operator new[]]. *)
Inductive exn :=
  | TypeIncompatipleError
  | NullAccessError
  | IndexRangeError
  | ProgrammingError (info : string)
  | ThrowDatabaseError (e : DatabaseError)
  | bad_alloc.

(** How a call ends: it returns, it throws, or it runs into behaviour the
    language leaves undefined (an access through a null or out-of-range
    pointer). [OutOfFuel] is the bounded model of a loop giving up. *)
Inductive outcome (A : Type) :=
  | Returns (a : A)
  | Throws (e : exn)
  | Undefined
  | OutOfFuel.
Arguments Returns {A} a.
Arguments Throws {A} e.
Arguments Undefined {A}.
Arguments OutOfFuel {A}.

(** ** The native layer *)

(** What [SQLFetchScroll] does besides returning [fr_rc]: the value it
    stores through [SQL_ATTR_ROWS_FETCHED_PTR] (if it stores one) and what it
    writes into the indicator array and the data buffer bound for column
    [i]. *)
Record FetchReply := {
  fr_rc : Z;
  fr_row_count : option Z;
  fr_cbdata : nat → list Z → list Z;
  fr_pdata : nat → list byte → list byte;
}.

Record DescribeReply := {
  dc_rc : Z;
  dc_name : string;      (* the C string left in [columnName] *)
  dc_sqltype : Z;
  dc_sqlsize : Z;
  dc_scale : Z;
}.

Record GetDataReply := {
  gd_rc : Z;
  gd_buffer : list byte;        (* the scratch buffer after the call *)
  gd_ValueLenOrInd : Z;
}.

(** The calls [Result::ResultImpl] makes on a statement handle whose state
    is a [D]. *)
Class NativeAPI (D : Type) := {
  SQLGetDiagRec : D → list DiagRecord;
  SQLSetStmtAttr_ROW_ARRAY_SIZE : D → Z → D * Z;
  SQLSetStmtAttr_ROWS_FETCHED_PTR : D → D * Z;
  SQLNumResultCols : D → Z * Z;
  SQLDescribeCol : D → Z → DescribeReply;
  SQLBindCol : D → Z → Z → bool → Z → D * Z;
  SQLFetchScroll : D → Z → Z → D * FetchReply;
  SQLGetStmtAttr_ROW_NUMBER : D → Z * option Z;
  SQLGetData : D → Z → Z → Z → D * GetDataReply;
}.

(** What the C++ program leaves to the platform: the compiler, the contents
    of memory that was never written, and the C library's formatting. *)
Class Platform := {
  msvc : bool;
  indeterminate_sqlState : string;
  indeterminate_nativeError : Z;
  heap_NullType : nat → Z;
  heap_char : nat → byte;
  format_float : list byte → string;          (* "%f" of a float object *)
  format_double : Z → list byte → string;     (* "%.*lf" of a double object *)
  strftime : string → list Z → string;        (* format, tm fields *)
  convert_wide : list Z → string;             (* UTF-16 code units to UTF-8 *)
}.

(** ** Bound columns *)

Record bound_column := {
  name_ : string;
  column_ : Z;
  sqltype_ : Z;
  sqlsize_ : Z;
  scale_ : Z;
  ctype_ : Z;
  clen_ : Z;
  blob_ : bool;
  cbdata_ : option (list Z);
  pdata_ : option (list byte);
}.

(** [bound_column::bound_column()]. *)
Definition bound_column_ctor : bound_column :=
  {| name_ := ""; column_ := 0; sqltype_ := 0; sqlsize_ := 0; scale_ := 0;
     ctype_ := 0; clen_ := 0; blob_ := false; cbdata_ := None; pdata_ := None |}.

Definition set_cbdata (cb : option (list Z)) (c : bound_column) : bound_column :=
  {| name_ := name_ c; column_ := column_ c; sqltype_ := sqltype_ c;
     sqlsize_ := sqlsize_ c; scale_ := scale_ c; ctype_ := ctype_ c;
     clen_ := clen_ c; blob_ := blob_ c; cbdata_ := cb; pdata_ := pdata_ c |}.

Definition set_pdata (p : option (list byte)) (c : bound_column) : bound_column :=
  {| name_ := name_ c; column_ := column_ c; sqltype_ := sqltype_ c;
     sqlsize_ := sqlsize_ c; scale_ := scale_ c; ctype_ := ctype_ c;
     clen_ := clen_ c; blob_ := blob_ c; cbdata_ := cbdata_ c; pdata_ := p |}.

Definition set_clen (n : Z) (c : bound_column) : bound_column :=
  {| name_ := name_ c; column_ := column_ c; sqltype_ := sqltype_ c;
     sqlsize_ := sqlsize_ c; scale_ := scale_ c; ctype_ := ctype_ c;
     clen_ := n; blob_ := blob_ c; cbdata_ := cbdata_ c; pdata_ := pdata_ c |}.

(** [a[j] = v] on an array of known extent. *)
Definition store {A} (l : list A) (j : nat) (v : A) : option (list A) :=
  if decide (j < length l)%nat then Some (<[j:=v]> l) else None.

(** [a[i]] for a signed index. *)
Definition at_Z {A} (l : list A) (i : Z) : option A :=
  if i <? 0 then None else l !! Z.to_nat i.

(** The inner loop of [before_move]:
    [for (long j = 0; j < rowset_size_; ++j) col.cbdata_[j] = 0;]
    [None] is undefined behaviour. *)
Definition clear_indicators (rowset_size : Z) (cb : option (list Z))
    : option (option (list Z)) :=
  match cb with
  | None => if decide (rowset_size ≤ 0) then Some None else None
  | Some l =>
      Some <$> foldl (λ acc j, a ← acc; store a j 0) (Some l)
                     (seq 0 (Z.to_nat rowset_size))
  end.

(** [release_bound_resources], on the column itself. *)
Definition release_bound_resources (c : bound_column) : bound_column :=
  set_clen 0 (set_pdata None c).

(** The body of the outer loop of [before_move]. *)
Definition before_move_col (rowset_size : Z) (c : bound_column)
    : option bound_column :=
  cb ← clear_indicators rowset_size (cbdata_ c);
  let c1 := set_cbdata cb c in
  Some (if blob_ c1 && bool_decide (is_Some (pdata_ c1))
        then release_bound_resources c1 else c1).

Definition one_of (x : Z) (l : list Z) : bool := existsb (Z.eqb x) l.

Definition set_buffer (ctype clen : Z) (blob : bool) (c : bound_column)
    : bound_column :=
  {| name_ := name_ c; column_ := column_ c; sqltype_ := sqltype_ c;
     sqlsize_ := sqlsize_ c; scale_ := scale_ c; ctype_ := ctype;
     clen_ := clen; blob_ := blob; cbdata_ := cbdata_ c; pdata_ := pdata_ c |}.

(** [sizeof] of the buffer representations (LP64, two-byte [SQLWCHAR]). *)
Definition sizeof_int64 : Z := 8.
Definition sizeof_double : Z := 8.
Definition sizeof_date : Z := 6.
Definition sizeof_time : Z := 6.
Definition sizeof_timestamp : Z := 16.
Definition sizeof_SQLCHAR : Z := 1.
Definition sizeof_SQLWCHAR : Z := 2.

(** The [switch (col.sqltype_)] of [auto_bind]: the buffer type, the stride
    and the blob flag chosen for a column whose SQL type and size are already
    stored; [is_blob] is the flag computed from a zero size. *)
Definition choose_buffer (is_blob : bool) (c : bound_column) : bound_column :=
  let t := sqltype_ c in
  if one_of t [SQL_BIT; SQL_TINYINT; SQL_SMALLINT; SQL_INTEGER; SQL_BIGINT]
  then set_buffer SQL_C_SBIGINT sizeof_int64 (blob_ c) c
  else if one_of t [SQL_DOUBLE; SQL_FLOAT; SQL_DECIMAL; SQL_REAL; SQL_NUMERIC]
  then set_buffer SQL_C_DOUBLE sizeof_double (blob_ c) c
  else if one_of t [SQL_DATE; SQL_TYPE_DATE]
  then set_buffer SQL_C_DATE sizeof_date (blob_ c) c
  else if one_of t [SQL_TIME; SQL_TYPE_TIME]
  then set_buffer SQL_C_TIME sizeof_time (blob_ c) c
  else if one_of t [SQL_TIMESTAMP; SQL_TYPE_TIMESTAMP]
  then set_buffer SQL_C_TIMESTAMP sizeof_timestamp (blob_ c) c
  else if one_of t [SQL_CHAR; SQL_VARCHAR]
  then if is_blob then set_buffer SQL_C_CHAR 0 true c
       else set_buffer SQL_C_CHAR (to_ulen ((sqlsize_ c + 1) * sizeof_SQLCHAR)) (blob_ c) c
  else if one_of t [SQL_WCHAR; SQL_WVARCHAR]
  then if is_blob then set_buffer SQL_C_WCHAR 0 true c
       else set_buffer SQL_C_WCHAR (to_ulen ((sqlsize_ c + 1) * sizeof_SQLWCHAR)) (blob_ c) c
  else if t =? SQL_LONGVARCHAR
  then set_buffer SQL_C_CHAR 0 true c
  else if one_of t [SQL_BINARY; SQL_VARBINARY; SQL_LONGVARBINARY; SQL_SS_UDT]
  then set_buffer SQL_C_BINARY 0 true c
  else set_buffer SQL_C_CHAR 128 (blob_ c) c.

(** [new T[n]]: [n] objects whose values are whatever the heap held. *)
Definition new_array {A} (heap : nat → A) (n : Z) : list A :=
  heap <$> seq 0 (Z.to_nat n).

(** ** The result cursor *)

Section ResultImpl.
Context {D : Type} {api : NativeAPI D} {platform : Platform}.

Record ResultImpl := {
  stmt_ : D;
  rowset_size_ : Z;
  row_count_ : Z;
  bound_columns_ : list bound_column;
  bound_columns_size_ : Z;
  rowset_position_ : Z;
  bound_columns_by_name_ : gmap string nat;
  at_end_ : bool;
}.

Definition set_stmt (d : D) (r : ResultImpl) : ResultImpl :=
  {| stmt_ := d; rowset_size_ := rowset_size_ r; row_count_ := row_count_ r;
     bound_columns_ := bound_columns_ r;
     bound_columns_size_ := bound_columns_size_ r;
     rowset_position_ := rowset_position_ r;
     bound_columns_by_name_ := bound_columns_by_name_ r;
     at_end_ := at_end_ r |}.

Definition set_row_count (n : Z) (r : ResultImpl) : ResultImpl :=
  {| stmt_ := stmt_ r; rowset_size_ := rowset_size_ r; row_count_ := n;
     bound_columns_ := bound_columns_ r;
     bound_columns_size_ := bound_columns_size_ r;
     rowset_position_ := rowset_position_ r;
     bound_columns_by_name_ := bound_columns_by_name_ r;
     at_end_ := at_end_ r |}.

Definition set_bound_columns (cs : list bound_column) (r : ResultImpl)
    : ResultImpl :=
  {| stmt_ := stmt_ r; rowset_size_ := rowset_size_ r;
     row_count_ := row_count_ r; bound_columns_ := cs;
     bound_columns_size_ := bound_columns_size_ r;
     rowset_position_ := rowset_position_ r;
     bound_columns_by_name_ := bound_columns_by_name_ r;
     at_end_ := at_end_ r |}.

Definition set_bound_columns_size (n : Z) (r : ResultImpl) : ResultImpl :=
  {| stmt_ := stmt_ r; rowset_size_ := rowset_size_ r;
     row_count_ := row_count_ r; bound_columns_ := bound_columns_ r;
     bound_columns_size_ := n;
     rowset_position_ := rowset_position_ r;
     bound_columns_by_name_ := bound_columns_by_name_ r;
     at_end_ := at_end_ r |}.

Definition set_rowset_position (p : Z) (r : ResultImpl) : ResultImpl :=
  {| stmt_ := stmt_ r; rowset_size_ := rowset_size_ r;
     row_count_ := row_count_ r; bound_columns_ := bound_columns_ r;
     bound_columns_size_ := bound_columns_size_ r;
     rowset_position_ := p;
     bound_columns_by_name_ := bound_columns_by_name_ r;
     at_end_ := at_end_ r |}.

Definition set_by_name (m : gmap string nat) (r : ResultImpl) : ResultImpl :=
  {| stmt_ := stmt_ r; rowset_size_ := rowset_size_ r;
     row_count_ := row_count_ r; bound_columns_ := bound_columns_ r;
     bound_columns_size_ := bound_columns_size_ r;
     rowset_position_ := rowset_position_ r;
     bound_columns_by_name_ := m;
     at_end_ := at_end_ r |}.

Definition set_at_end (b : bool) (r : ResultImpl) : ResultImpl :=
  {| stmt_ := stmt_ r; rowset_size_ := rowset_size_ r;
     row_count_ := row_count_ r; bound_columns_ := bound_columns_ r;
     bound_columns_size_ := bound_columns_size_ r;
     rowset_position_ := rowset_position_ r;
     bound_columns_by_name_ := bound_columns_by_name_ r;
     at_end_ := b |}.

(** A member function: it ends in an [outcome] and leaves the object in a
    new state, also when it throws. *)
Definition M (A : Type) : Type := ResultImpl → outcome A * ResultImpl.

Definition ret {A} (a : A) : M A := λ r, (Returns a, r).
Definition throw {A} (e : exn) : M A := λ r, (Throws e, r).
Definition bind {A B} (m : M A) (k : A → M B) : M B := λ r,
  match m r with
  | (Returns a, r') => k a r'
  | (Throws e, r') => (Throws e, r')
  | (Undefined, r') => (Undefined, r')
  | (OutOfFuel, r') => (OutOfFuel, r')
  end.
(** A [const] member function used from a mutating one. *)
Definition lift {A} (f : ResultImpl → outcome A) : M A := λ r, (f r, r).
Definition modify (f : ResultImpl → ResultImpl) : M unit := λ r, (Returns tt, f r).

(** [NANODBC_THROW_DATABASE_ERROR(handle, SQL_HANDLE_STMT)] at source line
    [line]; [__FILE__] is taken to be [Nanodbc.cpp]. *)
Definition NANODBC_THROW_DATABASE_ERROR (d : D) (line : string) : exn :=
  ThrowDatabaseError
    (DatabaseError_ctor msvc (SQLGetDiagRec d)
       indeterminate_sqlState indeterminate_nativeError
       ("Nanodbc.cpp:" +:+ line +:+ ": ")).

Definition rows (r : ResultImpl) : Z := to_long (row_count_ r).

(** [before_move]; [None] is undefined behaviour. *)
Definition before_move (r : ResultImpl) : option ResultImpl :=
  cols ← foldl (λ acc i,
                  cs ← acc;
                  c ← cs !! i;
                  c' ← before_move_col (rowset_size_ r) c;
                  Some (<[i:=c']> cs))
               (Some (bound_columns_ r))
               (seq 0 (Z.to_nat (bound_columns_size_ r)));
  Some (set_bound_columns cols r).

(** The driver's side of a fetch: it stores the number of rows through the
    registered pointer and fills the buffers bound with [SQLBindCol]; a
    column bound without data buffer only has its indicators written. *)
Definition driver_writes (fr : FetchReply) (cs : list bound_column)
    : list bound_column :=
  imap (λ i c,
          set_pdata (if blob_ c then pdata_ c else fr_pdata fr i <$> pdata_ c)
            (set_cbdata (fr_cbdata fr i <$> cbdata_ c) c)) cs.

Definition after_native_fetch (d : D) (fr : FetchReply) (r : ResultImpl)
    : ResultImpl :=
  set_stmt d
    (set_row_count (default (row_count_ r) (to_ulen <$> fr_row_count fr))
       (set_bound_columns (driver_writes fr (bound_columns_ r)) r)).

Definition fetch (rows orientation : Z) : M bool := λ r,
  match before_move r with
  | None => (Undefined, r)
  | Some r1 =>
      let '(d, fr) := SQLFetchScroll (stmt_ r1) orientation rows in
      let r2 := after_native_fetch d fr r1 in
      if fr_rc fr =? SQL_NO_DATA then (Returns false, set_at_end true r2)
      else if negb (success (fr_rc fr))
           then (Throws (NANODBC_THROW_DATABASE_ERROR d "2330"), r2)
           else (Returns true, r2)
  end.

Definition first : M bool :=
  bind (modify (set_rowset_position 0)) (λ _, fetch 0 SQL_FETCH_FIRST).

Definition last : M bool :=
  bind (modify (set_rowset_position 0)) (λ _, fetch 0 SQL_FETCH_LAST).

Definition next : M bool := λ r,
  if bool_decide (rows r ≠ 0) then
    let r1 := set_rowset_position (rowset_position_ r + 1) r in
    if rowset_position_ r1 <? rowset_size_ r1
    then (Returns (rowset_position_ r1 <? rows r1), r1)
    else fetch 0 SQL_FETCH_NEXT (set_rowset_position 0 r1)
  else fetch 0 SQL_FETCH_NEXT (set_rowset_position 0 r).

Definition prior : M bool := λ r,
  if bool_decide (rows r ≠ 0) then
    let r1 := set_rowset_position (rowset_position_ r - 1) r in
    if 0 <=? rowset_position_ r1
    then (Returns true, r1)
    else fetch 0 SQL_FETCH_PRIOR (set_rowset_position 0 r1)
  else fetch 0 SQL_FETCH_PRIOR (set_rowset_position 0 r).

Definition move (row : Z) : M bool :=
  bind (modify (set_rowset_position 0)) (λ _, fetch row SQL_FETCH_ABSOLUTE).

Definition skip (rows' : Z) : M bool := λ r,
  let r1 := set_rowset_position (rowset_position_ r + rows') r in
  if bool_decide (rows r1 ≠ 0) && (rowset_position_ r1 <? rowset_size_ r1)
  then (Returns (rowset_position_ r1 <? rows r1), r1)
  else fetch rows' SQL_FETCH_RELATIVE (set_rowset_position 0 r1).

(** The value [SQLGetStmtAttr(SQL_ATTR_ROW_NUMBER)] leaves in [pos], which
    is initialised to 0. *)
Definition row_number (r : ResultImpl) : Z * Z :=
  let '(rc, w) := SQLGetStmtAttr_ROW_NUMBER (stmt_ r) in
  (rc, default 0 (to_ulen <$> w)).

Definition position (r : ResultImpl) : outcome Z :=
  let '(rc, pos) := row_number r in
  if negb (success rc)
  then Throws (NANODBC_THROW_DATABASE_ERROR (stmt_ r) "2054")
  else if (pos =? 0) || (pos =? to_ulen SQL_ROW_NUMBER_UNKNOWN)
       then Returns 0
       else Returns (to_ulen (pos + rowset_position_ r)).

Definition atEnd (r : ResultImpl) : bool :=
  if at_end_ r then true
  else
    let '(rc, pos) := row_number r in
    negb (success rc) || (rows r <? 0) || (to_ulen (rows r) <? to_ulen (pos - 1)).

(** [isNull(short column)]. *)
Definition isNull (column : Z) (r : ResultImpl) : outcome bool :=
  if bound_columns_size_ r <=? column then Throws IndexRangeError
  else if rows r <=? rowset_position_ r then Throws IndexRangeError
  else
    match at_Z (bound_columns_ r) column with
    | None => Undefined
    | Some col =>
        match cbdata_ col with
        | None => Undefined
        | Some cb =>
            match at_Z cb (rowset_position_ r) with
            | None => Undefined
            | Some ind => Returns (ind =? SQL_NULL_DATA)
            end
        end
    end.

(** [column(const StringType& columnName)]: the map holds pointers into
    [bound_columns_]; the result is the pointee's [column_]. *)
Definition column (columnName : string) (r : ResultImpl) : outcome Z :=
  match bound_columns_by_name_ r !! columnName with
  | None => Throws IndexRangeError
  | Some i =>
      match bound_columns_ r !! i with
      | None => Undefined
      | Some col => Returns (column_ col)
      end
  end.

Definition isNull_by_name (columnName : string) (r : ResultImpl)
    : outcome bool :=
  match column columnName r with
  | Returns c => isNull c r
  | Throws e => Throws e
  | Undefined => Undefined
  | OutOfFuel => OutOfFuel
  end.

Section Getters.
(** The template parameter [T] together with the specialisation of
    [get_ref_impl<T>] it selects. *)
Context {T : Type} (get_ref_impl : Z → M T).

(** After the null test shared by all [getRef] overloads: [on_null] is
    what the overload does for a null cell. *)
Definition getRef_after_null_check (column : Z) (on_null : outcome T)
    : M T := λ r,
  match isNull column r with
  | Returns true => (on_null, r)
  | Returns false => get_ref_impl column r
  | Throws e => (Throws e, r)
  | Undefined => (Undefined, r)
  | OutOfFuel => (OutOfFuel, r)
  end.

(** [getRef(short column, T& Result)]; the value is the one stored in
    [Result]. *)
Definition getRef (column : Z) : M T := λ r,
  if bound_columns_size_ r <=? column then (Throws IndexRangeError, r)
  else getRef_after_null_check column (Throws NullAccessError) r.

(** [getRef(short column, const T& fallback, T& Result)]. *)
Definition getRef_fallback (column : Z) (fallback : T) : M T := λ r,
  if bound_columns_size_ r <=? column then (Throws IndexRangeError, r)
  else getRef_after_null_check column (Returns fallback) r.

(** [getRef(const StringType& columnName, T& Result)]. *)
Definition getRef_by_name (columnName : string) : M T := λ r,
  match column columnName r with
  | Returns c => getRef_after_null_check c (Throws NullAccessError) r
  | Throws e => (Throws e, r)
  | Undefined => (Undefined, r)
  | OutOfFuel => (OutOfFuel, r)
  end.

(** [getRef(const StringType& columnName, const T& fallback, T& Result)]. *)
Definition getRef_by_name_fallback (columnName : string) (fallback : T)
    : M T := λ r,
  match column columnName r with
  | Returns c => getRef_after_null_check c (Returns fallback) r
  | Throws e => (Throws e, r)
  | Undefined => (Undefined, r)
  | OutOfFuel => (OutOfFuel, r)
  end.

(** [get] declares a [T Result], calls the matching [getRef] and returns
    [Result]. *)
Definition get (column : Z) : M T := getRef column.
Definition get_fallback (column : Z) (fallback : T) : M T :=
  getRef_fallback column fallback.
Definition get_by_name (columnName : string) : M T :=
  getRef_by_name columnName.
Definition get_by_name_fallback (columnName : string) (fallback : T) : M T :=
  getRef_by_name_fallback columnName fallback.
End Getters.

(** *** Auto-binding *)

Definition cleanup_bound_columns (r : ResultImpl) : option ResultImpl :=
  r1 ← before_move r;
  Some (set_by_name ∅ (set_bound_columns_size 0 (set_bound_columns [] r1))).

(** [Statement::columns()]. *)
Definition columns (r : ResultImpl) : outcome Z :=
  let '(rc, cols) := SQLNumResultCols (stmt_ r) in
  if negb (success rc)
  then Throws (NANODBC_THROW_DATABASE_ERROR (stmt_ r) "1556")
  else Returns cols.

(** [for (SQLSMALLINT i = 0; i < n_columns; ++i) body]. *)
Fixpoint for_each (idx : list nat) (body : nat → M unit) : M unit :=
  match idx with
  | [] => ret tt
  | i :: idx' => bind (body i) (λ _, for_each idx' body)
  end.

(** The body of the first loop of [auto_bind]. *)
Definition describe_column (i : nat) : M unit := λ r,
  let dc := SQLDescribeCol (stmt_ r) (Z.of_nat i + 1) in
  if negb (success (dc_rc dc))
  then (Throws (NANODBC_THROW_DATABASE_ERROR (stmt_ r) "2371"), r)
  else
    match bound_columns_ r !! i with
    | None => (Undefined, r)
    | Some col =>
        let sqltype := dc_sqltype dc in
        let sqlsize := to_ulen (dc_sqlsize dc) in
        let is_blob := (sqlsize =? 0) && one_of sqltype [SQL_VARCHAR; SQL_WVARCHAR] in
        let col1 :=
          {| name_ := dc_name dc; column_ := Z.of_nat i; sqltype_ := sqltype;
             sqlsize_ := sqlsize; scale_ := dc_scale dc; ctype_ := ctype_ col;
             clen_ := clen_ col; blob_ := blob_ col; cbdata_ := cbdata_ col;
             pdata_ := pdata_ col |} in
        (Returns tt,
         set_by_name (<[name_ col1 := i]> (bound_columns_by_name_ r))
           (set_bound_columns (<[i := choose_buffer is_blob col1]> (bound_columns_ r)) r))
    end.

(** The body of the second loop of [auto_bind]. *)
Definition bind_column (i : nat) : M unit := λ r,
  match bound_columns_ r !! i with
  | None => (Undefined, r)
  | Some col =>
      if rowset_size_ r <? 0 then (Throws bad_alloc, r)
      else
        let col1 := set_cbdata (Some (new_array heap_NullType (rowset_size_ r))) col in
        if blob_ col1 then
          let r1 := set_bound_columns (<[i := col1]> (bound_columns_ r)) r in
          let '(d, rc) := SQLBindCol (stmt_ r1) (Z.of_nat i + 1) (ctype_ col1) false 0 in
          let r2 := set_stmt d r1 in
          if negb (success rc)
          then (Throws (NANODBC_THROW_DATABASE_ERROR d "2489"), r2)
          else (Returns tt, r2)
        else
          let col2 :=
            set_pdata (Some (new_array heap_char (to_ulen (rowset_size_ r * clen_ col1))))
              col1 in
          let r1 := set_bound_columns (<[i := col2]> (bound_columns_ r)) r in
          let '(d, rc) :=
            SQLBindCol (stmt_ r1) (Z.of_nat i + 1) (ctype_ col2) true (clen_ col2) in
          let r2 := set_stmt d r1 in
          if negb (success rc)
          then (Throws (NANODBC_THROW_DATABASE_ERROR d "2504"), r2)
          else (Returns tt, r2)
  end.

Definition auto_bind : M unit := λ r,
  match cleanup_bound_columns r with
  | None => (Undefined, r)
  | Some r1 =>
      match columns r1 with
      | Returns n_columns =>
          if n_columns <? 1 then (Returns tt, r1)
          else
            let n := Z.to_nat n_columns in
            let r2 :=
              set_bound_columns_size n_columns
                (set_bound_columns (replicate n bound_column_ctor) r1) in
            bind (for_each (seq 0 n) describe_column)
                 (λ _, for_each (seq 0 n) bind_column) r2
      | Throws e => (Throws e, r1)
      | Undefined => (Undefined, r1)
      | OutOfFuel => (OutOfFuel, r1)
      end
  end.

(** [ResultImpl(Statement stmt, long rowsetSize)]. *)
Definition ResultImpl_ctor (stmt : D) (rowsetSize : Z) : outcome ResultImpl :=
  let '(d1, rc1) := SQLSetStmtAttr_ROW_ARRAY_SIZE stmt rowsetSize in
  if negb (success rc1) then Throws (NANODBC_THROW_DATABASE_ERROR d1 "1940")
  else
    let '(d2, rc2) := SQLSetStmtAttr_ROWS_FETCHED_PTR d1 in
    if negb (success rc2) then Throws (NANODBC_THROW_DATABASE_ERROR d2 "1950")
    else
      let r0 :=
        {| stmt_ := d2; rowset_size_ := rowsetSize; row_count_ := 0;
           bound_columns_ := []; bound_columns_size_ := 0;
           rowset_position_ := 0; bound_columns_by_name_ := ∅;
           at_end_ := false |} in
      match auto_bind r0 with
      | (Returns _, r) => Returns r
      | (Throws e, _) => Throws e
      | (Undefined, _) => Undefined
      | (OutOfFuel, _) => OutOfFuel
      end.

End ResultImpl.

(** ** Typed extraction: [get_ref_impl] *)

(** [n] bytes of the buffer [p] from byte offset [off]; [None] when the
    pointer is null or the object does not lie inside the array. *)
Definition read_bytes (p : option (list byte)) (off : Z) (n : nat)
    : option (list byte) :=
  match p with
  | None => None
  | Some b =>
      if off <? 0 then None
      else
        let bs := take n (drop (Z.to_nat off) b) in
        if decide (length bs = n) then Some bs else None
  end.

(** Little-endian integers. *)
Definition le_unsigned (bs : list byte) : Z :=
  foldr (λ b acc, Z.of_N (Byte.to_N b) + 256 * acc) 0 bs.

Definition le_signed (bs : list byte) : Z :=
  let u := le_unsigned bs in
  let m := 2 ^ (8 * Z.of_nat (length bs)) in
  if u <? m / 2 then u else u - m.

(** The object read from a row slot, before the conversion [(T)]: an
    integer, or the bytes of a [float] or [double]. *)
Inductive native_value :=
  | VInt (z : Z)
  | VFloat (obj : list byte)
  | VDouble (obj : list byte).

Record date := { d_year : Z; d_month : Z; d_day : Z }.
Record time := { t_hour : Z; t_min : Z; t_sec : Z }.
Record timestamp := {
  ts_year : Z; ts_month : Z; ts_day : Z;
  ts_hour : Z; ts_min : Z; ts_sec : Z; ts_fract : Z;
}.

(** The [int16_t] field at byte offset [o] of a struct. *)
Definition field16 (bs : list byte) (o : nat) : Z := le_signed (take 2 (drop o bs)).

Definition decode_date (bs : list byte) : date :=
  {| d_year := field16 bs 0; d_month := field16 bs 2; d_day := field16 bs 4 |}.

Definition decode_time (bs : list byte) : time :=
  {| t_hour := field16 bs 0; t_min := field16 bs 2; t_sec := field16 bs 4 |}.

Definition decode_timestamp (bs : list byte) : timestamp :=
  {| ts_year := field16 bs 0; ts_month := field16 bs 2; ts_day := field16 bs 4;
     ts_hour := field16 bs 6; ts_min := field16 bs 8; ts_sec := field16 bs 10;
     ts_fract := le_signed (take 4 (drop 12 bs)) |}.

(** The characters before the first zero: what [strlen] measures.  [None]
    when the array ends before a zero is found. *)
Fixpoint c_string (bs : list byte) : option (list byte) :=
  match bs with
  | [] => None
  | b :: bs' =>
      if Byte.eqb b x00 then Some []
      else (b ::.) <$> c_string bs'
  end.

(** [strlen(buffer.data())] on a [std::string], whose storage ends in a
    zero. *)
Fixpoint c_strlen (cs : list ascii) : nat :=
  match cs with
  | [] => 0
  | c :: cs' => if Ascii.eqb c NUL then 0 else S (c_strlen cs')
  end.

(** [snprintf(buf, size, ...)] for a conversion whose complete output is
    [full]: the return value and the characters stored before the
    terminator. *)
Definition c_snprintf (size : Z) (full : string) : Z * list ascii :=
  (Z.of_nat (String.length full),
   take (Z.to_nat (size - 1)) (list_ascii_of_string full)).

(** The formatting block shared by the numeric cases of
    [get_ref_impl<StringType>]: a zero-filled buffer of [width + 1]
    characters, [snprintf] into it, the two [resize] calls. *)
Definition format_number (columnSize width : Z) (full : string) : outcome string :=
  let capacity := Z.to_nat (width + 1) in
  let '(bytes, written) := c_snprintf (width + 1) full in
  let buffer := take capacity (written ++ replicate capacity NUL) in
  if bytes =? -1 then Throws TypeIncompatipleError
  else
    let buffer1 :=
      if to_ulen bytes <? columnSize then vector_resize (Z.to_nat bytes) buffer
      else buffer in
    let len := c_strlen buffer1 in
    Returns (string_of_list_ascii (vector_resize len buffer1)).

Section TypedExtraction.
Context {D : Type} {api : NativeAPI D} {platform : Platform}.

(** The byte offset of the current row's slot:
    [rowset_position_ * col.clen_]. *)
Definition slot_offset (r : ResultImpl (D:=D)) (col : bound_column) : Z :=
  to_ulen (rowset_position_ r * clen_ col).

(** The generic [get_ref_impl<T>]; [cast] is the conversion [(T)]. *)
Definition get_ref_impl {T : Type} (cast : native_value → T) (column : Z)
    : M (D:=D) T :=
  lift (λ r,
    match at_Z (bound_columns_ r) column with
    | None => Undefined
    | Some col =>
        let read n (decode : list byte → native_value) : outcome T :=
          match read_bytes (pdata_ col) (slot_offset r col) n with
          | Some bs => Returns (cast (decode bs))
          | None => Undefined
          end in
        let t := ctype_ col in
        if t =? SQL_C_CHAR then read 1%nat (λ bs, VInt (le_signed bs))
        else if t =? SQL_C_SSHORT then read 2%nat (λ bs, VInt (le_signed bs))
        else if t =? SQL_C_USHORT then read 2%nat (λ bs, VInt (le_unsigned bs))
        else if t =? SQL_C_LONG then read 4%nat (λ bs, VInt (le_signed bs))
        else if t =? SQL_C_SLONG then read 4%nat (λ bs, VInt (le_signed bs))
        else if t =? SQL_C_ULONG then read 4%nat (λ bs, VInt (le_unsigned bs))
        else if t =? SQL_C_FLOAT then read 4%nat VFloat
        else if t =? SQL_C_DOUBLE then read 8%nat VDouble
        else if t =? SQL_C_SBIGINT then read 8%nat (λ bs, VInt (le_signed bs))
        else if t =? SQL_C_UBIGINT then read 8%nat (λ bs, VInt (le_unsigned bs))
        else Throws TypeIncompatipleError
    end).

(** An object of [n] bytes in the current row's slot. *)
Definition read_slot (r : ResultImpl (D:=D)) (col : bound_column) (n : nat)
    : outcome (list byte) :=
  match read_bytes (pdata_ col) (slot_offset r col) n with
  | Some bs => Returns bs
  | None => Undefined
  end.

Definition map_outcome {A B} (f : A → B) (o : outcome A) : outcome B :=
  match o with
  | Returns a => Returns (f a)
  | Throws e => Throws e
  | Undefined => Undefined
  | OutOfFuel => OutOfFuel
  end.

(** [get_ref_impl<date>]. *)
Definition get_ref_impl_date (column : Z) : M (D:=D) date :=
  lift (λ r,
    match at_Z (bound_columns_ r) column with
    | None => Undefined
    | Some col =>
        if ctype_ col =? SQL_C_DATE
        then map_outcome decode_date (read_slot r col 6)
        else if ctype_ col =? SQL_C_TIMESTAMP
        then map_outcome
               (λ bs, let stamp := decode_timestamp bs in
                      {| d_year := ts_year stamp; d_month := ts_month stamp;
                         d_day := ts_day stamp |})
               (read_slot r col 16)
        else Throws TypeIncompatipleError
    end).

(** [get_ref_impl<time>]. *)
Definition get_ref_impl_time (column : Z) : M (D:=D) time :=
  lift (λ r,
    match at_Z (bound_columns_ r) column with
    | None => Undefined
    | Some col =>
        if ctype_ col =? SQL_C_TIME
        then map_outcome decode_time (read_slot r col 6)
        else if ctype_ col =? SQL_C_TIMESTAMP
        then map_outcome
               (λ bs, let stamp := decode_timestamp bs in
                      {| t_hour := ts_hour stamp; t_min := ts_min stamp;
                         t_sec := ts_sec stamp |})
               (read_slot r col 16)
        else Throws TypeIncompatipleError
    end).

(** [get_ref_impl<timestamp>]. *)
Definition get_ref_impl_timestamp (column : Z) : M (D:=D) timestamp :=
  lift (λ r,
    match at_Z (bound_columns_ r) column with
    | None => Undefined
    | Some col =>
        if ctype_ col =? SQL_C_DATE
        then map_outcome
               (λ bs, let d := decode_date bs in
                      {| ts_year := d_year d; ts_month := d_month d;
                         ts_day := d_day d; ts_hour := 0; ts_min := 0;
                         ts_sec := 0; ts_fract := 0 |})
               (read_slot r col 6)
        else if ctype_ col =? SQL_C_TIMESTAMP
        then map_outcome decode_timestamp (read_slot r col 16)
        else Throws TypeIncompatipleError
    end).

(** What the [do ... while (rc == SQL_SUCCESS_WITH_INFO)] loops over
    [SQLGetData] leave behind: the handle, the last return code, the
    accumulated bytes and whether a null was signalled. *)
Record chunks := {
  ch_stmt : D;
  ch_rc : Z;
  ch_out : list byte;
  ch_null : bool;
}.

(** The loop, at most [fuel] calls; [keep] is the number of bytes appended
    for a positive [ValueLenOrInd]. *)
Fixpoint get_data_loop (fuel : nat) (number ctype buflen : Z) (keep : Z → Z)
    (d : D) (out : list byte) (null : bool) : option chunks :=
  match fuel with
  | O => None
  | S fuel' =>
      let '(d', g) := SQLGetData d number ctype buflen in
      let v := gd_ValueLenOrInd g in
      let out' :=
        if 0 <? v then out ++ take (Z.to_nat (keep v)) (gd_buffer g) else out in
      let null' := null || (negb (0 <? v) && (v =? SQL_NULL_DATA)) in
      if gd_rc g =? SQL_SUCCESS_WITH_INFO
      then get_data_loop fuel' number ctype buflen keep d' out' null'
      else Some {| ch_stmt := d'; ch_rc := gd_rc g; ch_out := out'; ch_null := null' |}
  end.

(** [col.cbdata_[rowset_position_] = SQL_NULL_DATA] for column [i]. *)
Definition mark_null (i : Z) (r : ResultImpl (D:=D)) : option (ResultImpl (D:=D)) :=
  col ← at_Z (bound_columns_ r) i;
  cb ← cbdata_ col;
  if rowset_position_ r <? 0 then None
  else
    cb' ← store cb (Z.to_nat (rowset_position_ r)) SQL_NULL_DATA;
    Some (set_bound_columns
            (<[Z.to_nat i := set_cbdata (Some cb') col]> (bound_columns_ r)) r).

(** The part of [get_ref_impl<StringType>] after a blob loop.  The loop is
    left with a return code other than [SQL_SUCCESS_WITH_INFO], so the last
    branch, in which [Result] keeps the empty string [get] constructed, is
    never taken. *)
Definition finish_blob (column : Z) (line : string) (decode : list byte → string)
    (c : option chunks) : M (D:=D) string := λ r,
  match c with
  | None => (OutOfFuel, r)
  | Some c =>
      let r1 := set_stmt (ch_stmt c) r in
      match (if ch_null c then mark_null column r1 else Some r1) with
      | None => (Undefined, r1)
      | Some r2 =>
          if (ch_rc c =? SQL_SUCCESS) || (ch_rc c =? SQL_NO_DATA)
          then (Returns (decode (ch_out c)), r2)
          else if negb (success (ch_rc c))
               then (Throws (NANODBC_THROW_DATABASE_ERROR (ch_stmt c) line), r2)
               else (Returns ""%string, r2)
      end
  end.

(** UTF-16 code units of a little-endian byte sequence. *)
Fixpoint code_units (bs : list byte) : list Z :=
  match bs with
  | a :: b :: bs' => le_unsigned [a; b] :: code_units bs'
  | _ => []
  end.

(** [get_ref_impl<StringType>]; the loops over [SQLGetData] make at most
    [fuel] calls. *)
Definition get_ref_impl_string (fuel : nat) (column : Z) : M (D:=D) string := λ r,
  match at_Z (bound_columns_ r) column with
  | None => (Undefined, r)
  | Some col =>
      let columnSize := sqlsize_ col in
      let t := ctype_ col in
      let fixed (n : nat) (k : list byte → outcome string) :=
        (match read_slot r col n with
         | Returns bs => k bs
         | Throws e => Throws e
         | Undefined => Undefined
         | OutOfFuel => OutOfFuel
         end, r) in
      if (t =? SQL_C_CHAR) || (t =? SQL_C_BINARY) then
        if blob_ col then
          finish_blob column "2636" string_of_list_byte
            (get_data_loop fuel (column + 1) t 1024
               (λ v, Z.min (to_ulen v) (if t =? SQL_C_BINARY then 1024 else 1023))
               (stmt_ r) [] false) r
        else
          (match pdata_ col with
           | None => Undefined
           | Some b =>
               match c_string (drop (Z.to_nat (slot_offset r col)) b) with
               | Some s => Returns (string_of_list_byte s)
               | None => Undefined
               end
           end, r)
      else if t =? SQL_C_WCHAR then
        if blob_ col then
          finish_blob column "2692" (λ bs, convert_wide (code_units bs))
            (get_data_loop fuel (column + 1) t 1024
               (λ v, 2 * Z.min (to_ulen v / sizeof_SQLWCHAR) 511)
               (stmt_ r) [] false) r
        else
          match cbdata_ col with
          | None => (Undefined, r)
          | Some cb =>
              match at_Z cb (rowset_position_ r) with
              | None => (Undefined, r)
              | Some ind =>
                  let str_size := to_ulen ind / sizeof_SQLWCHAR in
                  fixed (Z.to_nat (2 * str_size))
                    (λ bs, Returns (convert_wide (code_units bs)))
              end
          end
      else if t =? SQL_C_GUID then
        fixed (Z.to_nat columnSize) (λ bs, Returns (string_of_list_byte bs))
      else if t =? SQL_C_LONG then
        fixed 4%nat (λ bs, format_number columnSize columnSize
                             (pretty (le_signed bs)))
      else if t =? SQL_C_SBIGINT then
        fixed 8%nat (λ bs, format_number columnSize columnSize
                             (pretty (le_signed bs)))
      else if t =? SQL_C_FLOAT then
        fixed 4%nat (λ bs, format_number columnSize columnSize
                             (format_float bs))
      else if t =? SQL_C_DOUBLE then
        fixed 8%nat (λ bs, format_number columnSize (to_ulen (columnSize + 2))
                             (format_double (scale_ col) bs))
      else if t =? SQL_C_DATE then
        fixed 6%nat (λ bs, let d := decode_date bs in
                   Returns (strftime "%Y-%m-%d"
                              [d_year d - 1900; d_month d - 1; d_day d; 0; 0; 0]))
      else if t =? SQL_C_TIME then
        fixed 6%nat (λ bs, let t := decode_time bs in
                   Returns (strftime "%H:%M:%S"
                              [0; 0; 0; t_hour t; t_min t; t_sec t]))
      else if t =? SQL_C_TIMESTAMP then
        fixed 16%nat (λ bs, let s := decode_timestamp bs in
                   Returns (strftime "%Y-%m-%d %H:%M:%S %z"
                              [ts_year s - 1900; ts_month s - 1; ts_day s;
                               ts_hour s; ts_min s; ts_sec s]))
      else (Throws TypeIncompatipleError, r)
  end.
End TypedExtraction.

(** ** A reference statement handle

    The driver manager is outside the repository.  To run the cursor on a
    result of known size, [RefDriver] implements [NativeAPI] the way the ODBC
    reference describes a scrollable statement: cursor positioning follows the
    positioning tables of [SQLFetchScroll] (rowset start, "before start" and
    "after end"), the rows-fetched buffer receives the size of the rowset (0
    with [SQL_NO_DATA]), [SQL_ATTR_ROW_NUMBER] is the number of the first row
    of the rowset (0 without a current row), and the bound buffers receive the
    cells of the rows fetched.  The handle records the [SQLFetchScroll] calls
    it receives, so that native round trips can be counted. *)
Module RefDriver.

Record stmt := {
  cols : list DescribeReply;          (* metadata, in ordinal order *)
  n_rows : Z;                         (* rows of the result *)
  cell : Z → nat → Z * list byte;     (* row number from 1, column: indicator and bytes *)
  array_size : Z;                     (* SQL_ATTR_ROW_ARRAY_SIZE *)
  rowset_start : Z;                   (* 0: before start; n_rows + 1: after end *)
  bound_len : gmap nat Z;             (* BufferLength of the columns bound with a buffer *)
  getdata_done : gmap Z nat;          (* bytes SQLGetData already returned per column *)
  fetch_calls : list (Z * Z);         (* (orientation, offset), most recent first *)
  diag : list DiagRecord;
}.

Definition absolute_start (N B k : Z) : Z :=
  if k <? 0 then
    if - k <=? N then N + k + 1 else if B <? - k then 0 else 1
  else if k =? 0 then 0
  else if k <=? N then k else N + 1.

(** The rowset start after a fetch, from the start before it. *)
Definition next_start (s : stmt) (orientation offset : Z) : Z :=
  let N := n_rows s in
  let B := array_size s in
  let cur := rowset_start s in
  if orientation =? SQL_FETCH_NEXT then
    if cur =? 0 then 1 else if cur + B <=? N then cur + B else N + 1
  else if orientation =? SQL_FETCH_PRIOR then
    if cur <=? 1 then 0
    else if N <? cur then (if N <? B then 1 else N - B + 1)
    else if cur <=? B then 1 else cur - B
  else if orientation =? SQL_FETCH_FIRST then 1
  else if orientation =? SQL_FETCH_LAST then
    if B <=? N then N - B + 1 else 1
  else if orientation =? SQL_FETCH_ABSOLUTE then absolute_start N B offset
  else if orientation =? SQL_FETCH_RELATIVE then
    if ((cur =? 0) && (0 <? offset)) || ((N <? cur) && (offset <? 0))
    then absolute_start N B offset
    else if cur =? 0 then 0
    else if N <? cur then N + 1
    else if cur + offset <? 1 then
      (if cur =? 1 then 0 else if B <? - offset then 0 else 1)
    else if cur + offset <=? N then cur + offset else N + 1
  else cur.

Definition with_position (start : Z) (call : Z * Z) (s : stmt) : stmt :=
  {| cols := cols s; n_rows := n_rows s; cell := cell s;
     array_size := array_size s; rowset_start := start;
     bound_len := bound_len s; getdata_done := ∅;
     fetch_calls := call :: fetch_calls s; diag := diag s |}.

Definition fetched (s : stmt) (start : Z) : Z :=
  if (1 <=? start) && (start <=? n_rows s)
  then Z.min (array_size s) (n_rows s - start + 1) else 0.

(** Indicator array of column [i] after a fetch that starts at [start]. *)
Definition write_indicators (s : stmt) (start : Z) (i : nat) (old : list Z)
    : list Z :=
  imap (λ j v, if Z.of_nat j <? fetched s start
               then (cell s (start + Z.of_nat j) i).1 else v) old.

(** Data buffer of column [i] after that fetch: row [j] of the rowset
    occupies the bytes from [j * len]; a null cell is not written. *)
Definition write_data (s : stmt) (start : Z) (i : nat) (old : list byte)
    : list byte :=
  match bound_len s !! i with
  | None => old
  | Some len =>
      if len <=? 0 then old
      else
        imap (λ k b,
                let j := Z.of_nat k / len in
                let o := Z.to_nat (Z.of_nat k mod len) in
                let c := cell s (start + j) i in
                if (j <? fetched s start) && negb (c.1 =? SQL_NULL_DATA)
                then default x00 (c.2 !! o) else b) old
  end.

Definition fetch_scroll (s : stmt) (orientation offset : Z) : stmt * FetchReply :=
  let start := next_start s orientation offset in
  let n := fetched s start in
  (with_position start (orientation, offset) s,
   {| fr_rc := if 0 <? n then SQL_SUCCESS else SQL_NO_DATA;
      fr_row_count := Some n;
      fr_cbdata := write_indicators s start;
      fr_pdata := write_data s start |}).

Definition set_array_size (s : stmt) (n : Z) : stmt * Z :=
  if n <? 1 then (s, SQL_ERROR)
  else ({| cols := cols s; n_rows := n_rows s; cell := cell s;
           array_size := n; rowset_start := rowset_start s;
           bound_len := bound_len s; getdata_done := getdata_done s;
           fetch_calls := fetch_calls s; diag := diag s |}, SQL_SUCCESS).

Definition describe_col (s : stmt) (number : Z) : DescribeReply :=
  match at_Z (cols s) (number - 1) with
  | Some d => d
  | None => {| dc_rc := SQL_ERROR; dc_name := ""; dc_sqltype := 0;
               dc_sqlsize := 0; dc_scale := 0 |}
  end.

Definition bind_col (s : stmt) (number ctype : Z) (has_buffer : bool) (len : Z)
    : stmt * Z :=
  if (1 <=? number) && (number <=? Z.of_nat (length (cols s))) then
    ({| cols := cols s; n_rows := n_rows s; cell := cell s;
        array_size := array_size s; rowset_start := rowset_start s;
        bound_len :=
          if has_buffer then <[Z.to_nat (number - 1) := len]> (bound_len s)
          else delete (Z.to_nat (number - 1)) (bound_len s);
        getdata_done := getdata_done s;
        fetch_calls := fetch_calls s; diag := diag s |}, SQL_SUCCESS)
  else (s, SQL_ERROR).

Definition row_number (s : stmt) : Z * option Z :=
  (SQL_SUCCESS,
   Some (if (1 <=? rowset_start s) && (rowset_start s <=? n_rows s)
         then rowset_start s else 0)).

(** [SQLGetData] on the first row of the rowset: the next part of the
    cell, with the length still available before the call. *)
Definition get_data (s : stmt) (number ctype buflen : Z) : stmt * GetDataReply :=
  let c := cell s (rowset_start s) (Z.to_nat (number - 1)) in
  let scratch := replicate (Z.to_nat buflen) x00 in
  if c.1 =? SQL_NULL_DATA then
    (s, {| gd_rc := SQL_SUCCESS; gd_buffer := scratch;
           gd_ValueLenOrInd := SQL_NULL_DATA |})
  else
    let done := default 0%nat (getdata_done s !! number) in
    let rest := drop done c.2 in
    let room := Z.to_nat (if ctype =? SQL_C_BINARY then buflen else buflen - 1) in
    let part := take room rest in
    let s' :=
      {| cols := cols s; n_rows := n_rows s; cell := cell s;
         array_size := array_size s; rowset_start := rowset_start s;
         bound_len := bound_len s;
         getdata_done := <[number := (done + length part)%nat]> (getdata_done s);
         fetch_calls := fetch_calls s; diag := diag s |} in
    if bool_decide (is_Some (getdata_done s !! number)) && bool_decide (rest = [])
    then (s, {| gd_rc := SQL_NO_DATA; gd_buffer := scratch; gd_ValueLenOrInd := 0 |})
    else
      (s', {| gd_rc := if bool_decide (length rest ≤ room)%nat
                       then SQL_SUCCESS else SQL_SUCCESS_WITH_INFO;
              gd_buffer := part ++ drop (length part) scratch;
              gd_ValueLenOrInd := Z.of_nat (length rest) |}).

#[global] Instance api : NativeAPI stmt := {|
  SQLGetDiagRec := diag;
  SQLSetStmtAttr_ROW_ARRAY_SIZE := set_array_size;
  SQLSetStmtAttr_ROWS_FETCHED_PTR := λ s, (s, SQL_SUCCESS);
  SQLNumResultCols := λ s, (SQL_SUCCESS, Z.of_nat (length (cols s)));
  SQLDescribeCol := describe_col;
  SQLBindCol := bind_col;
  SQLFetchScroll := fetch_scroll;
  SQLGetStmtAttr_ROW_NUMBER := row_number;
  SQLGetData := get_data;
|}.

(** A statement that has just been executed: [columns] describes the result,
    [rows] gives the cells of each row in order. *)
Definition executed (columns : list DescribeReply) (n : Z)
    (cells : Z → nat → Z * list byte) : stmt :=
  {| cols := columns; n_rows := n; cell := cells; array_size := 1;
     rowset_start := 0; bound_len := ∅; getdata_done := ∅;
     fetch_calls := []; diag := [] |}.

End RefDriver.

(** ** Concrete instances for evaluation *)

(** A GCC-like platform with a zero-filled heap.  The floating-point and
    locale-dependent formatting of the C library is outside the embedding;
    this instance leaves those texts empty. *)
Definition gcc_platform : Platform := {|
  msvc := false;
  indeterminate_sqlState := "?????";
  indeterminate_nativeError := 0;
  heap_NullType := λ _, 0;
  heap_char := λ _, x00;
  format_float := λ _, ""%string;
  format_double := λ _ _, ""%string;
  strftime := λ _ _, ""%string;
  convert_wide := λ _, ""%string;
|}.

(** Little-endian bytes of a two's-complement integer of [n] bytes. *)
Fixpoint le_bytes (n : nat) (z : Z) : list byte :=
  match n with
  | O => []
  | S n' =>
      default x00 (Byte.of_N (Z.to_N (z mod 256))) :: le_bytes n' (z / 256)
  end.

(** A result with one BIGINT column named [id]; row [k] holds the
    integer [k], and the rows listed in [nulls] are null. *)
Definition id_column : DescribeReply :=
  {| dc_rc := SQL_SUCCESS; dc_name := "id"; dc_sqltype := SQL_BIGINT;
     dc_sqlsize := 19; dc_scale := 0 |}.

Definition id_table (n : Z) (nulls : list Z) : RefDriver.stmt :=
  RefDriver.executed [id_column] n
    (λ k _, if one_of k nulls then (SQL_NULL_DATA, []) else (8, le_bytes 8 k)).

(** Running a sequence of member functions, keeping the outcomes. *)
Section Run.
Context {D : Type} {api : NativeAPI D} {platform : Platform}.

Fixpoint run {A} (ops : list (M (D:=D) A)) (r : ResultImpl (D:=D))
    : list (outcome A) * ResultImpl (D:=D) :=
  match ops with
  | [] => ([], r)
  | op :: ops' =>
      let '(o, r1) := op r in
      let '(os, r2) := run ops' r1 in
      (o :: os, r2)
  end.

End Run.

(** A result with the columns [id] (BIGINT), [name] (VARCHAR(10)) and [bio]
    (VARCHAR of unbounded size, reported as size 0): three rows, the third
    [bio] is null. *)
Definition person_columns : list DescribeReply :=
  [ id_column;
    {| dc_rc := SQL_SUCCESS; dc_name := "name"; dc_sqltype := SQL_VARCHAR;
       dc_sqlsize := 10; dc_scale := 0 |};
    {| dc_rc := SQL_SUCCESS; dc_name := "bio"; dc_sqltype := SQL_VARCHAR;
       dc_sqlsize := 0; dc_scale := 0 |} ].

Definition text_cell (s : string) : Z * list byte :=
  (Z.of_nat (String.length s), list_byte_of_string s ++ [x00]).

Definition person_cells (k : Z) (i : nat) : Z * list byte :=
  match i with
  | 0%nat => (8, le_bytes 8 k)
  | 1%nat => if k =? 1 then text_cell "Ann" else if k =? 2 then text_cell "Bob"
             else text_cell "Cy"
  | _ => if k =? 1 then (5, list_byte_of_string "first")
         else if k =? 2 then (6, list_byte_of_string "second")
         else (SQL_NULL_DATA, [])
  end.

Definition person_table : RefDriver.stmt :=
  RefDriver.executed person_columns 3 person_cells.

(** A result whose first and third column are both named [a]. *)
Definition duplicate_columns : list DescribeReply :=
  [ {| dc_rc := SQL_SUCCESS; dc_name := "a"; dc_sqltype := SQL_BIGINT;
       dc_sqlsize := 19; dc_scale := 0 |};
    {| dc_rc := SQL_SUCCESS; dc_name := "b"; dc_sqltype := SQL_BIGINT;
       dc_sqlsize := 19; dc_scale := 0 |};
    {| dc_rc := SQL_SUCCESS; dc_name := "a"; dc_sqltype := SQL_BIGINT;
       dc_sqlsize := 19; dc_scale := 0 |} ].

Definition duplicate_table : RefDriver.stmt :=
  RefDriver.executed duplicate_columns 1 (λ k i, (8, le_bytes 8 (Z.of_nat i + 10))).

(** The navigation calls of the public interface. *)
Inductive nav :=
  | First | Last | Next | Prior | Move (row : Z) | Skip (rows : Z).

Definition nav_op {D : Type} {api : NativeAPI D} {platform : Platform} (c : nav)
    : M (D:=D) bool :=
  match c with
  | First => first
  | Last => last
  | Next => next
  | Prior => prior
  | Move row => move row
  | Skip n => skip n
  end.

(** The outcomes of the navigation calls [ops], made in order on a cursor of
    batch size [B] created on [s], and the cursor they leave ([gcc_platform]). *)
Definition session (s : RefDriver.stmt) (B : Z) (ops : list nav)
    : list (outcome bool) * ResultImpl (D:=RefDriver.stmt) :=
  match ResultImpl_ctor (platform:=gcc_platform) s B with
  | Returns r => run (nav_op (platform:=gcc_platform) <$> ops) r
  | _ => ([],
          {| stmt_ := s; rowset_size_ := B; row_count_ := 0;
             bound_columns_ := []; bound_columns_size_ := 0;
             rowset_position_ := 0; bound_columns_by_name_ := ∅;
             at_end_ := false |})
  end.

Definition cursor_after (s : RefDriver.stmt) (B : Z) (ops : list nav)
    : ResultImpl (D:=RefDriver.stmt) :=
  (session s B ops).2.


Definition context_record : DiagRecord :=
  {| dg_rc_len := SQL_SUCCESS; dg_rc_get := SQL_SUCCESS; dg_state := "01000";
     dg_native := 5701; dg_text := list_ascii_of_string "context changed" |}.

(** ** States and invariants used in the statements *)

(** What [before_move] leaves of a column whose indicator array has
    [rowset_size] entries. *)
Definition cleared (rowset_size : Z) (c : bound_column) : bound_column :=
  let c1 := set_cbdata (Some (replicate (Z.to_nat rowset_size) 0)) c in
  if blob_ c && bool_decide (is_Some (pdata_ c))
  then release_bound_resources c1 else c1.

(** The state [auto_bind] establishes: the column array has
    [bound_columns_size_] elements and every column owns an indicator array
    of [rowset_size_] entries. *)
Definition indicators_allocated (rowset_size : Z) (c : bound_column) : Prop :=
  ∃ cb, cbdata_ c = Some cb ∧ length cb = Z.to_nat rowset_size.

Definition bound_ok {D : Type} (r : ResultImpl (D:=D)) : Prop :=
  bound_columns_size_ r = Z.of_nat (length (bound_columns_ r)) ∧
  Forall (indicators_allocated (rowset_size_ r)) (bound_columns_ r).

(** The name map after the first [j] columns have been described: the
    assignments [bound_columns_by_name_[name] = &col] in ordinal order. *)
Definition names_registered (name : nat → string) (j : nat) : gmap string nat :=
  foldl (λ m i, <[name i := i]> m) ∅ (seq 0 j).

Section Invariants.
Context {D : Type} {api : NativeAPI D} {platform : Platform}.

(** The fields [auto_bind] never assigns. *)
Definition same_cursor (r r' : ResultImpl (D:=D)) : Prop :=
  rowset_size_ r' = rowset_size_ r ∧ row_count_ r' = row_count_ r ∧
  rowset_position_ r' = rowset_position_ r ∧ at_end_ r' = at_end_ r.

(** After [j] iterations of the describing loop. *)
Definition described (r0 : ResultImpl (D:=D)) (n : nat) (j : nat)
    (r : ResultImpl (D:=D)) : Prop :=
  same_cursor r0 r ∧ stmt_ r = stmt_ r0 ∧
  bound_columns_size_ r = Z.of_nat n ∧ length (bound_columns_ r) = n ∧
  bound_columns_by_name_ r
  = names_registered (λ i, dc_name (SQLDescribeCol (stmt_ r0) (Z.of_nat i + 1))) j ∧
  (∀ i c, (i < j)%nat → bound_columns_ r !! i = Some c →
     column_ c = Z.of_nat i ∧
     name_ c = dc_name (SQLDescribeCol (stmt_ r0) (Z.of_nat i + 1))).

(** After [j] iterations of the binding loop. *)
Definition bound (r0 : ResultImpl (D:=D)) (n : nat) (j : nat)
    (r : ResultImpl (D:=D)) : Prop :=
  same_cursor r0 r ∧
  bound_columns_size_ r = Z.of_nat n ∧ length (bound_columns_ r) = n ∧
  bound_columns_by_name_ r
  = names_registered (λ i, dc_name (SQLDescribeCol (stmt_ r0) (Z.of_nat i + 1))) n ∧
  (∀ i c, bound_columns_ r !! i = Some c →
     column_ c = Z.of_nat i ∧
     name_ c = dc_name (SQLDescribeCol (stmt_ r0) (Z.of_nat i + 1))) ∧
  (∀ i c, (i < j)%nat → bound_columns_ r !! i = Some c →
     indicators_allocated (rowset_size_ r) c).

(** The state in which [auto_bind] starts its loops over [n] columns. *)
Definition columns_created (n : nat) (r1 : ResultImpl (D:=D)) : ResultImpl (D:=D) :=
  set_bound_columns_size (Z.of_nat n)
    (set_bound_columns (replicate n bound_column_ctor) r1).
End Invariants.

Section OnRefDriverStates.
Implicit Types r : ResultImpl (D:=RefDriver.stmt).
Implicit Types s : RefDriver.stmt.

(** The handles that hold the same result at the same cursor position;
    only the bindings may differ. *)
Definition same_result s s' : Prop :=
  RefDriver.cols s' = RefDriver.cols s ∧
  RefDriver.n_rows s' = RefDriver.n_rows s ∧
  RefDriver.array_size s' = RefDriver.array_size s ∧
  RefDriver.rowset_start s' = RefDriver.rowset_start s ∧
  RefDriver.fetch_calls s' = RefDriver.fetch_calls s.

(** A cursor of batch size [B] freshly created on a result of [N] rows. *)
Definition created (N B : Z) r : Prop :=
  bound_ok r ∧ rowset_size_ r = B ∧ row_count_ r = 0 ∧
  rowset_position_ r = 0 ∧ at_end_ r = false ∧
  RefDriver.n_rows (stmt_ r) = N ∧ RefDriver.array_size (stmt_ r) = B ∧
  RefDriver.rowset_start (stmt_ r) = 0 ∧ RefDriver.fetch_calls (stmt_ r) = [].

(** The cursor stands on row [k] (counted from 0) of a result of [N] rows
    fetched in batches of [B]: the rowset starts at row number [start]. *)
Definition on_row (N B k : Z) r : Prop :=
  bound_ok r ∧ rowset_size_ r = B ∧
  RefDriver.n_rows (stmt_ r) = N ∧ RefDriver.array_size (stmt_ r) = B ∧
  1 ≤ RefDriver.rowset_start (stmt_ r) ≤ N ∧
  row_count_ r = Z.min B (N - RefDriver.rowset_start (stmt_ r) + 1) ∧
  0 ≤ rowset_position_ r < row_count_ r ∧
  RefDriver.rowset_start (stmt_ r) + rowset_position_ r = k + 1.
End OnRefDriverStates.





(** ** Further parts of the program *)

(** ** Column metadata and further results *)

(** [static_cast<int>] of a [long]. *)
Definition to_int (z : Z) : Z :=
  let m := z mod 2 ^ 32 in
  if m <? 2 ^ 31 then m else m - 2 ^ 32.

(** The call [auto_bind] and [nextResult] make to move to the next result
    of a batch. *)
Class MoreResultsAPI (D : Type) := {
  SQLMoreResults : D → D * Z;
}.

Section Metadata.
Context {D : Type} {api : NativeAPI D} {platform : Platform}.
Implicit Types r : ResultImpl (D:=D).

(** [columnName(short column)]. *)
Definition columnName (column : Z) r : outcome string :=
  if bound_columns_size_ r <=? column then Throws IndexRangeError
  else
    match at_Z (bound_columns_ r) column with
    | None => Undefined
    | Some col => Returns (name_ col)
    end.

(** [long columnSize(short column)]. *)
Definition columnSize (column : Z) r : outcome Z :=
  if bound_columns_size_ r <=? column then Throws IndexRangeError
  else
    match at_Z (bound_columns_ r) column with
    | None => Undefined
    | Some col => Returns (to_long (sqlsize_ col))
    end.

(** [int columnSize(const StringType& columnName)]. *)
Definition columnSize_by_name (name : string) r : outcome Z :=
  match column name r with
  | Returns c => map_outcome to_int (columnSize c r)
  | Throws e => Throws e
  | Undefined => Undefined
  | OutOfFuel => OutOfFuel
  end.

(** [columnDecimalDigits(short column)]. *)
Definition columnDecimalDigits (column : Z) r : outcome Z :=
  if bound_columns_size_ r <=? column then Throws IndexRangeError
  else
    match at_Z (bound_columns_ r) column with
    | None => Undefined
    | Some col => Returns (scale_ col)
    end.

(** [columnDatatype(short column)]. *)
Definition columnDatatype (column : Z) r : outcome Z :=
  if bound_columns_size_ r <=? column then Throws IndexRangeError
  else
    match at_Z (bound_columns_ r) column with
    | None => Undefined
    | Some col => Returns (sqltype_ col)
    end.

(** [columnCDatatype(short column)]. *)
Definition columnCDatatype (column : Z) r : outcome Z :=
  if bound_columns_size_ r <=? column then Throws IndexRangeError
  else
    match at_Z (bound_columns_ r) column with
    | None => Undefined
    | Some col => Returns (ctype_ col)
    end.

(** The overloads [columnDecimalDigits], [columnDatatype] and
    [columnCDatatype] that take a name: they index [bound_columns_] with the
    ordinal [column(columnName)] returns, without a test, and read the field
    [f]. *)
Definition field_by_name (f : bound_column → Z) (name : string) r : outcome Z :=
  match column name r with
  | Returns c =>
      match at_Z (bound_columns_ r) c with
      | None => Undefined
      | Some col => Returns (f col)
      end
  | Throws e => Throws e
  | Undefined => Undefined
  | OutOfFuel => OutOfFuel
  end.

Definition columnDecimalDigits_by_name := field_by_name scale_.
Definition columnDatatype_by_name := field_by_name sqltype_.
Definition columnCDatatype_by_name := field_by_name ctype_.

(** [nextResult]. *)
Definition nextResult {more : MoreResultsAPI D} : M (D:=D) bool := λ r,
  let '(d, rc) := SQLMoreResults (stmt_ r) in
  let r1 := set_stmt d r in
  if rc =? SQL_NO_DATA then (Returns false, r1)
  else if negb (success rc)
       then (Throws (NANODBC_THROW_DATABASE_ERROR d "2191"), r1)
       else bind auto_bind (λ _, ret true) r1.
End Metadata.

(** The column [auto_bind] makes of the description [dc] of ordinal [i]:
    what the describing loop stores in a column the constructor has just
    initialised ... *)
Definition described_column (dc : DescribeReply) (i : nat) : bound_column :=
  let sqlsize := to_ulen (dc_sqlsize dc) in
  choose_buffer ((sqlsize =? 0) && one_of (dc_sqltype dc) [SQL_VARCHAR; SQL_WVARCHAR])
    {| name_ := dc_name dc; column_ := Z.of_nat i; sqltype_ := dc_sqltype dc;
       sqlsize_ := sqlsize; scale_ := dc_scale dc; ctype_ := 0; clen_ := 0;
       blob_ := false; cbdata_ := None; pdata_ := None |}.

(** ... and after the binding loop, for the batch size [B]. *)
Definition bound_column_of {platform : Platform} (B : Z) (dc : DescribeReply)
    (i : nat) : bound_column :=
  let c := set_cbdata (Some (new_array heap_NullType B)) (described_column dc i) in
  if blob_ c then c
  else set_pdata (Some (new_array heap_char (to_ulen (B * clen_ c)))) c.

(** A statement that produced several results: the handle of the current
    result and the results still pending.  [SQLMoreResults] discards the
    current result and makes the first pending one current; the statement
    attributes are kept. *)
Module RefBatch.

Definition stmt : Type := RefDriver.stmt * list RefDriver.stmt.

Definition on_current {A} (f : RefDriver.stmt → RefDriver.stmt * A) (b : stmt)
    : stmt * A :=
  let '(s, a) := f b.1 in ((s, b.2), a).

Definition more_results (b : stmt) : stmt * Z :=
  match b.2 with
  | [] => (b, SQL_NO_DATA)
  | s :: rest =>
      (((RefDriver.set_array_size s (RefDriver.array_size b.1)).1, rest),
       SQL_SUCCESS)
  end.

#[global] Instance api : NativeAPI stmt := {|
  SQLGetDiagRec b := RefDriver.diag b.1;
  SQLSetStmtAttr_ROW_ARRAY_SIZE b n := on_current (λ s, RefDriver.set_array_size s n) b;
  SQLSetStmtAttr_ROWS_FETCHED_PTR b := (b, SQL_SUCCESS);
  SQLNumResultCols b := (SQL_SUCCESS, Z.of_nat (length (RefDriver.cols b.1)));
  SQLDescribeCol b := RefDriver.describe_col b.1;
  SQLBindCol b number ctype has_buffer len :=
    on_current (λ s, RefDriver.bind_col s number ctype has_buffer len) b;
  SQLFetchScroll b orientation offset :=
    on_current (λ s, RefDriver.fetch_scroll s orientation offset) b;
  SQLGetStmtAttr_ROW_NUMBER b := RefDriver.row_number b.1;
  SQLGetData b number ctype buflen :=
    on_current (λ s, RefDriver.get_data s number ctype buflen) b;
|}.

#[global] Instance more : MoreResultsAPI stmt := {|
  SQLMoreResults := more_results;
|}.

End RefBatch.

Section FurtherResults.
#[local] Existing Instance gcc_platform.

(** A statement with two results: one row of [id_table], then the persons. *)
Definition two_results : RefBatch.stmt := (id_table 1 [], [person_table]).

(** The cursor of batch size 1 on [two_results] after the first result has
    been read to its end. *)
Definition first_result_read : ResultImpl (D:=RefBatch.stmt) :=
  match ResultImpl_ctor two_results 1 with
  | Returns r => (run [next; next] r).2
  | _ => {| stmt_ := two_results; rowset_size_ := 1; row_count_ := 0;
            bound_columns_ := []; bound_columns_size_ := 0;
            rowset_position_ := 0; bound_columns_by_name_ := ∅;
            at_end_ := false |}
  end.
End FurtherResults.

(** ** Binary extraction *)

Section Binary.
Context {D : Type} {api : NativeAPI D} {platform : Platform}.

(** [get_ref_impl<std::vector<std::uint8_t>>]; the loop over [SQLGetData]
    makes at most [fuel] calls.  As in [finish_blob], the loop is left with
    a return code other than [SQL_SUCCESS_WITH_INFO], so that one of the
    first two branches after it is taken. *)
Definition get_ref_impl_binary (fuel : nat) (column : Z) : M (D:=D) (list byte) := λ r,
  match at_Z (bound_columns_ r) column with
  | None => (Undefined, r)
  | Some col =>
      let columnSize := sqlsize_ col in
      if ctype_ col =? SQL_C_BINARY then
        if blob_ col then
          match get_data_loop fuel (column + 1) SQL_C_BINARY 1024
                  (λ v, Z.min (to_ulen v) 1024) (stmt_ r) [] false with
          | None => (OutOfFuel, r)
          | Some c =>
              let r1 := set_stmt (ch_stmt c) r in
              match (if ch_null c then mark_null column r1 else Some r1) with
              | None => (Undefined, r1)
              | Some r2 =>
                  if (ch_rc c =? SQL_SUCCESS) || (ch_rc c =? SQL_NO_DATA)
                  then (Returns (ch_out c), r2)
                  else if negb (success (ch_rc c))
                       then (Throws (NANODBC_THROW_DATABASE_ERROR (ch_stmt c) "2912"), r2)
                       else (Returns [], r2)
              end
          end
        else
          (read_slot r col (Z.to_nat columnSize), r)
      else (Throws TypeIncompatipleError, r)
  end.
End Binary.

(** ** States of a cursor on the reference statement *)

(** A cursor of batch size [B] on a reference statement of [N] rows, at
    any position. *)
Definition attached (N B : Z) (r : ResultImpl (D:=RefDriver.stmt)) : Prop :=
  bound_ok r ∧ rowset_size_ r = B ∧
  RefDriver.n_rows (stmt_ r) = N ∧ RefDriver.array_size (stmt_ r) = B.

(** The handle after the [SQLBindCol] call [auto_bind] makes for column [c]
    at ordinal [i]: without buffer for a blob column, otherwise with the
    column's stride as buffer length. *)
Definition native_bind {D : Type} {api : NativeAPI D} (d : D) (i : nat)
    (c : bound_column) : D :=
  (SQLBindCol d (Z.of_nat i + 1) (ctype_ c) (negb (blob_ c))
     (if blob_ c then 0 else clen_ c)).1.

(** What the driver leaves in a slot of [len] bytes for a cell of bytes
    [bs]: the bytes that fit, padded with zeros. *)
Definition cell_slot (len : Z) (bs : list byte) : list byte :=
  (λ o, default x00 (bs !! o)) <$> seq 0 (Z.to_nat len).

Section SyncedDef.
Implicit Types r : ResultImpl (D:=RefDriver.stmt).

(** The buffers hold the rows of the current rowset: for every row [j] of
    the batch the indicator of a column is the one of the cell, and the slot
    of a column bound with a buffer holds the bytes of a cell that is not
    null. *)
Definition loaded r : Prop :=
  ∀ i c j, bound_columns_ r !! i = Some c → 0 ≤ j < row_count_ r →
    let cl := RefDriver.cell (stmt_ r) (RefDriver.rowset_start (stmt_ r) + j) i in
    (∃ cb, cbdata_ c = Some cb ∧ at_Z cb j = Some cl.1) ∧
    (blob_ c = false → cl.1 ≠ SQL_NULL_DATA →
     read_bytes (pdata_ c) (j * clen_ c) (Z.to_nat (clen_ c))
     = Some (cell_slot (clen_ c) cl.2)).

(** The invariant of a cursor of batch size [B] over the result
    ([columns], [N], [cells]) on the reference statement: the columns are
    bound as [auto_bind] chose, the statement knows these bindings, and the
    buffers hold the current rowset. *)
Definition synced (columns : list DescribeReply) (N : Z)
    (cells : Z → nat → Z * list byte) (B : Z) r : Prop :=
  bound_ok r ∧ rowset_size_ r = B ∧
  RefDriver.cols (stmt_ r) = columns ∧ RefDriver.n_rows (stmt_ r) = N ∧
  RefDriver.cell (stmt_ r) = cells ∧ RefDriver.array_size (stmt_ r) = B ∧
  length (bound_columns_ r) = length columns ∧
  0 ≤ row_count_ r ≤ B ∧
  (0 < row_count_ r →
   1 ≤ RefDriver.rowset_start (stmt_ r) ∧
   RefDriver.rowset_start (stmt_ r) + row_count_ r - 1 ≤ N) ∧
  (∀ i c, bound_columns_ r !! i = Some c →
     ∃ dc, columns !! i = Some dc ∧
       ctype_ c = ctype_ (described_column dc i) ∧
       blob_ c = blob_ (described_column dc i) ∧
       (blob_ c = false →
        clen_ c = clen_ (described_column dc i) ∧
        0 < clen_ c ∧ B * clen_ c < 2 ^ 64 ∧
        RefDriver.bound_len (stmt_ r) !! i = Some (clen_ c) ∧
        ∃ p, pdata_ c = Some p ∧ Z.of_nat (length p) = B * clen_ c)) ∧
  loaded r.
End SyncedDef.

(** A result with an INTEGER column of ten digits and a DATE column: one row,
    holding the least 32-bit integer and the 29th of February 2024. *)
Definition reading_columns : list DescribeReply :=
  [ {| dc_rc := SQL_SUCCESS; dc_name := "n"; dc_sqltype := SQL_INTEGER;
       dc_sqlsize := 10; dc_scale := 0 |};
    {| dc_rc := SQL_SUCCESS; dc_name := "day"; dc_sqltype := SQL_TYPE_DATE;
       dc_sqlsize := 10; dc_scale := 0 |} ].

Definition reading_cells (k : Z) (i : nat) : Z * list byte :=
  match i with
  | 0%nat => (8, le_bytes 8 (-2147483648))
  | _ => (6, le_bytes 2 2024 ++ le_bytes 2 2 ++ le_bytes 2 29)
  end.


(** ** Connections and transactions *)

(** The attribute, its values and the completion types of the connection
    calls. *)
Definition SQL_ATTR_AUTOCOMMIT : Z := 102.
Definition SQL_AUTOCOMMIT_OFF : Z := 0.
Definition SQL_AUTOCOMMIT_ON : Z := 1.
Definition SQL_COMMIT : Z := 0.
Definition SQL_ROLLBACK : Z := 1.

(** The driver calls made on a connection handle whose state is an [H]:
    [SQLSetConnectAttr h attribute value], [SQLEndTran h completion],
    [SQLDisconnect h], and the diagnostic records of the handle.  The handle
    type [SQL_HANDLE_DBC] and the length [SQL_IS_UINTEGER], the same at every
    call, are left out. *)
Class ConnectionAPI (H : Type) := {
  SQLSetConnectAttr : H → Z → Z → H * Z;
  SQLEndTran : H → Z → H * Z;
  SQLDisconnect : H → H * Z;
  SQLGetDiagRec_dbc : H → list DiagRecord;
}.

Module Connection.
Section ConnectionImpl.
Context {H : Type} {capi : ConnectionAPI H} {platform : Platform}.

(** The members of [Connection::ConnectionImpl] that the functions below
    use; [transactions_] is a [std::size_t]. *)
Record ConnectionImpl := {
  conn_ : H;
  connected_ : bool;
  transactions_ : Z;
  rollback_ : bool;
}.

Definition set_conn (h : H) (c : ConnectionImpl) : ConnectionImpl :=
  {| conn_ := h; connected_ := connected_ c;
     transactions_ := transactions_ c; rollback_ := rollback_ c |}.

Definition set_connected (b : bool) (c : ConnectionImpl) : ConnectionImpl :=
  {| conn_ := conn_ c; connected_ := b;
     transactions_ := transactions_ c; rollback_ := rollback_ c |}.

Definition set_transactions (n : Z) (c : ConnectionImpl) : ConnectionImpl :=
  {| conn_ := conn_ c; connected_ := connected_ c;
     transactions_ := n; rollback_ := rollback_ c |}.

(** [NANODBC_THROW_DATABASE_ERROR(conn_, SQL_HANDLE_DBC)] at source line
    [line]. *)
Definition NANODBC_THROW_DATABASE_ERROR (h : H) (line : string) : exn :=
  ThrowDatabaseError
    (DatabaseError_ctor msvc (SQLGetDiagRec_dbc h)
       indeterminate_sqlState indeterminate_nativeError
       ("Nanodbc.cpp:" +:+ line +:+ ": ")).

Definition connected (c : ConnectionImpl) : bool := connected_ c.

Definition disconnect (c : ConnectionImpl) : outcome unit * ConnectionImpl :=
  if connected c then
    let '(h, rc) := SQLDisconnect (conn_ c) in
    let c1 := set_conn h c in
    if negb (success rc)
    then (Throws (NANODBC_THROW_DATABASE_ERROR h "873"), c1)
    else (Returns tt, set_connected false c1)
  else (Returns tt, set_connected false c).

Definition transactions (c : ConnectionImpl) : Z := transactions_ c.

Definition nativeDbcHandle (c : ConnectionImpl) : H := conn_ c.

(** [return ++transactions_;] *)
Definition refTransaction (c : ConnectionImpl) : Z * ConnectionImpl :=
  let n := to_ulen (transactions_ c + 1) in
  (n, set_transactions n c).

Definition unrefTransaction (c : ConnectionImpl) : Z * ConnectionImpl :=
  let c1 :=
    if 0 <? transactions_ c
    then set_transactions (transactions_ c - 1) c else c in
  (transactions_ c1, c1).

(** [rollback() const] and [rollback(bool onoff)]. *)
Definition rollback (c : ConnectionImpl) : bool := rollback_ c.

Definition rollback_set (onoff : bool) (c : ConnectionImpl) : ConnectionImpl :=
  {| conn_ := conn_ c; connected_ := connected_ c;
     transactions_ := transactions_ c; rollback_ := onoff |}.

(** [NANODBC_CALL] on the connection handle: the return code is dropped. *)
Definition NANODBC_CALL (f : H → H * Z) (c : ConnectionImpl) : ConnectionImpl :=
  set_conn (f (nativeDbcHandle c)).1 c.

End ConnectionImpl.
Arguments ConnectionImpl H : clear implicits.
End Connection.

Module Transaction.
Import Connection.
Section TransactionImpl.
Context {H : Type} {capi : ConnectionAPI H} {platform : Platform}.

(** [Transaction::TransactionImpl].  Its member [conn_] shares the
    [ConnectionImpl] of the connection it was created on, so the member
    functions take and return the state of that object. *)
Record TransactionImpl := { committed_ : bool }.

Definition TransactionImpl_ctor (c : ConnectionImpl H)
    : outcome TransactionImpl * ConnectionImpl H :=
  let t := {| committed_ := false |} in
  if (transactions c =? 0) && connected c then
    let '(h, rc) :=
      SQLSetConnectAttr (nativeDbcHandle c) SQL_ATTR_AUTOCOMMIT
        SQL_AUTOCOMMIT_OFF in
    let c1 := set_conn h c in
    if negb (success rc)
    then (Throws (NANODBC_THROW_DATABASE_ERROR (nativeDbcHandle c1) "1040"), c1)
    else (Returns t, (refTransaction c1).2)
  else (Returns t, (refTransaction c).2).

Definition TransactionImpl_dtor (t : TransactionImpl) (c : ConnectionImpl H)
    : ConnectionImpl H :=
  let c1 :=
    if negb (committed_ t)
    then (unrefTransaction (rollback_set true c)).2 else c in
  if (transactions c1 =? 0) && connected c1 then
    let c2 :=
      if rollback c1
      then rollback_set false (NANODBC_CALL (λ h, SQLEndTran h SQL_ROLLBACK) c1)
      else c1 in
    NANODBC_CALL (λ h, SQLSetConnectAttr h SQL_ATTR_AUTOCOMMIT SQL_AUTOCOMMIT_ON) c2
  else c1.

Definition commit (t : TransactionImpl) (c : ConnectionImpl H)
    : outcome unit * TransactionImpl * ConnectionImpl H :=
  if committed_ t then (Returns tt, t, c)
  else
    let t1 := {| committed_ := true |} in
    let '(n, c1) := unrefTransaction c in
    if (n =? 0) && connected c1 then
      let '(h, rc) := SQLEndTran (nativeDbcHandle c1) SQL_COMMIT in
      let c2 := set_conn h c1 in
      if negb (success rc)
      then (Throws (NANODBC_THROW_DATABASE_ERROR (nativeDbcHandle c2) "1080"),
            t1, c2)
      else (Returns tt, t1, c2)
    else (Returns tt, t1, c1).

Definition rollback (t : TransactionImpl) (c : ConnectionImpl H)
    : ConnectionImpl H :=
  if committed_ t then c else rollback_set true c.

(** *** Client code *)

(** The calls of a client that holds transaction objects on one connection;
    the objects are numbered in the order of their creation.  [End i] is the
    end of the life of object [i]; a call on an object that does not exist or
    has ended is no call. *)
Inductive client_call :=
  | Begin | Commit (i : nat) | Rollback (i : nat) | End (i : nat) | Disconnect.

Definition client_step
    (st : ConnectionImpl H * list (option TransactionImpl))
    (o : client_call) : ConnectionImpl H * list (option TransactionImpl) :=
  let '(c, ts) := st in
  match o with
  | Begin =>
      match TransactionImpl_ctor c with
      | (Returns t, c') => (c', ts ++ [Some t])
      | (_, c') => (c', ts)
      end
  | Commit i =>
      match ts !! i with
      | Some (Some t) =>
          let '(_, t', c') := commit t c in (c', <[i:=Some t']> ts)
      | _ => (c, ts)
      end
  | Rollback i =>
      match ts !! i with
      | Some (Some t) => (rollback t c, ts)
      | _ => (c, ts)
      end
  | End i =>
      match ts !! i with
      | Some (Some t) => (TransactionImpl_dtor t c, <[i:=None]> ts)
      | _ => (c, ts)
      end
  | Disconnect => ((disconnect c).2, ts)
  end.

Definition client_run (ops : list client_call) (c : ConnectionImpl H)
    : ConnectionImpl H * list (option TransactionImpl) :=
  foldl client_step (c, []) ops.

(** The transaction objects that are alive and not committed. *)
Definition uncommitted (o : option TransactionImpl) : bool :=
  match o with
  | Some t => negb (committed_ t)
  | None => false
  end.

Definition open_transactions (ts : list (option TransactionImpl)) : Z :=
  Z.of_nat (length (List.filter uncommitted ts)).

(** Nested scopes, outermost first: each declares a transaction, runs the
    scopes inside it and, when its flag is set, ends with [commit()]; the
    transaction object dies at the end of its scope, also when an exception
    passes through. *)
Fixpoint scoped (levels : list bool) (c : ConnectionImpl H)
    : outcome unit * ConnectionImpl H :=
  match levels with
  | [] => (Returns tt, c)
  | commits :: inner =>
      match TransactionImpl_ctor c with
      | (Returns t, c1) =>
          let '(o2, c2) := scoped inner c1 in
          let '(o3, t3, c3) :=
            match o2 with
            | Returns _ =>
                if commits : bool then commit t c2 else (Returns tt, t, c2)
            | _ => (o2, t, c2)
            end in
          (o3, TransactionImpl_dtor t3 c3)
      | (Throws e, c1) => (Throws e, c1)
      | (Undefined, c1) => (Undefined, c1)
      | (OutOfFuel, c1) => (OutOfFuel, c1)
      end
  end.

End TransactionImpl.
End Transaction.

(** A reference connection handle: it records the calls made on it, oldest
    first, and its autocommit mode; every call succeeds. *)
Module RefConnection.

Inductive call :=
  | SetConnectAttr (attribute value : Z)
  | EndTran (completion : Z)
  | Disconnected.

Record handle := { autocommit : bool; calls : list call }.

Definition made (k : call) (h : handle) : handle :=
  {| autocommit :=
       match k with
       | SetConnectAttr a v =>
           if a =? SQL_ATTR_AUTOCOMMIT then negb (v =? SQL_AUTOCOMMIT_OFF)
           else autocommit h
       | _ => autocommit h
       end;
     calls := calls h ++ [k] |}.

#[global] Instance api : ConnectionAPI handle := {
  SQLSetConnectAttr h a v := (made (SetConnectAttr a v) h, SQL_SUCCESS);
  SQLEndTran h k := (made (EndTran k) h, SQL_SUCCESS);
  SQLDisconnect h := (made Disconnected h, SQL_SUCCESS);
  SQLGetDiagRec_dbc _ := [];
}.

(** A connected connection without transactions on a handle in autocommit
    mode, after the calls [log]. *)
Definition idle (log : list call) : Connection.ConnectionImpl handle :=
  {| Connection.conn_ := {| autocommit := true; calls := log |};
     Connection.connected_ := true;
     Connection.transactions_ := 0;
     Connection.rollback_ := false |}.

(** What holds of a connected reference connection between the calls of a
    client that holds the transaction objects [ts]. *)
Definition settled (c : Connection.ConnectionImpl handle)
    (ts : list (option Transaction.TransactionImpl)) : Prop :=
  Connection.connected_ c = true →
  (0 < Connection.transactions_ c → autocommit (Connection.conn_ c) = false) ∧
  (Forall (λ o, o = None) ts →
   autocommit (Connection.conn_ c) = true ∧ Connection.rollback_ c = false).

End RefConnection.

(** A connection handle on which every call fails without diagnostics. *)
Definition refusing_api : ConnectionAPI unit := {|
  SQLSetConnectAttr h _ _ := (h, SQL_ERROR);
  SQLEndTran h _ := (h, SQL_ERROR);
  SQLDisconnect h := (h, SQL_ERROR);
  SQLGetDiagRec_dbc _ := [];
|}.

(** ** Parameter binding *)

Module Statement.

Inductive ParamDirection := PARAM_IN | PARAM_OUT | PARAM_INOUT | PARAM_RETURN.

Definition SQL_PARAM_INPUT : Z := 1.
Definition SQL_PARAM_INPUT_OUTPUT : Z := 2.
Definition SQL_PARAM_OUTPUT : Z := 4.
Definition SQL_NTS : Z := -3.

(** What [SQLDescribeParam] writes through its pointers, and its return
    code; nothing reads [nullable]. *)
Record DescribeParamReply := {
  dp_rc : Z;
  dp_dataType : Z;
  dp_parameterSize : Z;
  dp_scale : Z;
}.

(** The arguments of one [SQLBindParameter] call after the handle.  Of the
    value pointer the call sees whether it is null; of the indicator pointer,
    whether it is null and the array it points to. *)
Record BindParameterArgs := {
  bp_number : Z;
  bp_param_type : Z;
  bp_ctype : Z;
  bp_dataType : Z;
  bp_columnSize : Z;
  bp_scale : Z;
  bp_data : bool;
  bp_bufferLength : Z;
  bp_indicator : option (list Z);
}.

(** The driver calls made on a statement handle whose state is an [S]. *)
Class StatementAPI (S : Type) := {
  SQLDescribeParam : S → Z → DescribeParamReply;
  SQLBindParameter : S → BindParameterArgs → S * Z;
  SQLGetDiagRec_stmt : S → list DiagRecord;
}.

(** [std::vector<NullType>::max_size()]. *)
Class VectorLimits := { max_size : Z }.

(** An element type [T] of the [bind] templates: [sql_ctype<T>::value],
    whether [T] is [StringType::value_type] (which selects the specialisation
    of [bind_parameter]), and [equals<T>].  The instances are the character,
    integer and temporal types; [float] and [double], compared with [==],
    have none here. *)
Class BoundType (T : Type) := {
  sql_ctype : Z;
  character : bool;
  equals : T → T → bool;
}.

#[global] Instance char_type : BoundType ascii :=
  {| sql_ctype := SQL_C_CHAR; character := true; equals := Ascii.eqb |}.
#[global] Instance short_type : BoundType Z | 10 :=
  {| sql_ctype := SQL_C_SSHORT; character := false; equals := Z.eqb |}.
Definition unsigned_short_type : BoundType Z :=
  {| sql_ctype := SQL_C_USHORT; character := false; equals := Z.eqb |}.
Definition int32_type : BoundType Z :=
  {| sql_ctype := SQL_C_SLONG; character := false; equals := Z.eqb |}.
Definition uint32_type : BoundType Z :=
  {| sql_ctype := SQL_C_ULONG; character := false; equals := Z.eqb |}.
Definition int64_type : BoundType Z :=
  {| sql_ctype := SQL_C_SBIGINT; character := false; equals := Z.eqb |}.
Definition uint64_type : BoundType Z :=
  {| sql_ctype := SQL_C_UBIGINT; character := false; equals := Z.eqb |}.
#[global] Instance date_type : BoundType date :=
  {| sql_ctype := SQL_C_DATE; character := false;
     equals lhs rhs :=
       (d_year lhs =? d_year rhs) && (d_month lhs =? d_month rhs)
       && (d_day lhs =? d_day rhs) |}.
#[global] Instance time_type : BoundType time :=
  {| sql_ctype := SQL_C_TIME; character := false;
     equals lhs rhs :=
       (t_hour lhs =? t_hour rhs) && (t_min lhs =? t_min rhs)
       && (t_sec lhs =? t_sec rhs) |}.
#[global] Instance timestamp_type : BoundType timestamp :=
  {| sql_ctype := SQL_C_TIMESTAMP; character := false;
     equals lhs rhs :=
       (ts_year lhs =? ts_year rhs) && (ts_month lhs =? ts_month rhs)
       && (ts_day lhs =? ts_day rhs) && (ts_hour lhs =? ts_hour rhs)
       && (ts_min lhs =? ts_min rhs) && (ts_sec lhs =? ts_sec rhs)
       && (ts_fract lhs =? ts_fract rhs) |}.

(** How a binding call ends; [LengthError] is the [std::length_error] of
    [vector::reserve]. *)
Inductive result (A : Type) :=
  | Ok (a : A)
  | Thrown (e : exn)
  | LengthError
  | Undef.
Arguments Ok {A} a.
Arguments Thrown {A} e.
Arguments LengthError {A}.
Arguments Undef {A}.

(** [strncmp(a, b, n) == 0] for two arrays that end in a zero, given
    without it. *)
Fixpoint strncmp_equal (a b : list ascii) (n : nat) : bool :=
  match n with
  | O => true
  | S n' =>
      let ca := hd NUL a in
      let cb := hd NUL b in
      if Ascii.eqb ca cb
      then if Ascii.eqb ca NUL then true else strncmp_equal (tl a) (tl b) n'
      else false
  end.

(** The characters of the C string that starts an array: [None] when the
    array holds no zero. *)
Fixpoint c_str_of (a : list ascii) : option (list ascii) :=
  match a with
  | [] => None
  | c :: a' => if Ascii.eqb c NUL then Some [] else cons c <$> c_str_of a'
  end.

Section StatementImpl.
Context {Stmt : Type} {sapi : StatementAPI Stmt} {platform : Platform}
  {limits : VectorLimits}.

(** The members of [Statement::StatementImpl] that binding uses. *)
Record StatementImpl := {
  stmt_ : Stmt;
  bind_len_or_null_ : gmap Z (list Z);
}.

Definition set_stmt (s : Stmt) (st : StatementImpl) : StatementImpl :=
  {| stmt_ := s; bind_len_or_null_ := bind_len_or_null_ st |}.

Definition set_bind_len_or_null (m : gmap Z (list Z)) (st : StatementImpl)
    : StatementImpl :=
  {| stmt_ := stmt_ st; bind_len_or_null_ := m |}.

(** [bind_len_or_null_[param]] of an entry that exists. *)
Definition indicators (param : Z) (st : StatementImpl) : list Z :=
  default [] (bind_len_or_null_ st !! param).

(** [bind_len_or_null_[param][i] = v] inside the vector. *)
Definition set_indicator (param : Z) (v : Z) (st : StatementImpl) (i : nat)
    : StatementImpl :=
  set_bind_len_or_null
    (<[param := <[i := v]> (indicators param st)]> (bind_len_or_null_ st)) st.

Definition NANODBC_THROW_DATABASE_ERROR (s : Stmt) (line : string) : exn :=
  ThrowDatabaseError
    (DatabaseError_ctor msvc (SQLGetDiagRec_stmt s)
       indeterminate_sqlState indeterminate_nativeError
       ("Nanodbc.cpp:" +:+ line +:+ ": ")).

(** The enumeration has no other value, so the [default] label is not
    reached. *)
Definition param_type_from_direction (direction : ParamDirection) : Z :=
  match direction with
  | PARAM_IN => SQL_PARAM_INPUT
  | PARAM_OUT => SQL_PARAM_OUTPUT
  | PARAM_INOUT => SQL_PARAM_INPUT_OUTPUT
  | PARAM_RETURN => SQL_PARAM_OUTPUT
  end.

(** The [SQLUSMALLINT] parameter number [param + 1]. *)
Definition parameter_number (param : Z) : Z := (param + 1) mod 2 ^ 16.

(** [prepare_bind]: the values it leaves in [dataType], [param_type],
    [parameterSize] and [scale]. *)
Definition prepare_bind (param elements : Z) (direction : ParamDirection)
    (st : StatementImpl) : result (Z * Z * Z * Z) * StatementImpl :=
  let reply := SQLDescribeParam (stmt_ st) (parameter_number param) in
  if negb (success (dp_rc reply))
  then (Thrown (NANODBC_THROW_DATABASE_ERROR (stmt_ st) "1624"), st)
  else
    let param_type := param_type_from_direction direction in
    let indicator_size := if 8 <? elements then elements else 8 in
    if max_size <? indicator_size
    then (LengthError,
          set_bind_len_or_null (<[param := []]> (bind_len_or_null_ st)) st)
    else (Ok (dp_dataType reply, param_type, dp_parameterSize reply,
              dp_scale reply),
          set_bind_len_or_null
            (<[param := replicate (Z.to_nat indicator_size) SQL_NULL_DATA]>
               (bind_len_or_null_ st)) st).

(** [bind_parameter<T>] and its specialisation for
    [StringType::value_type]; it is called after [prepare_bind], so the
    indicator vector exists. *)
Definition bind_parameter {T} {bt : BoundType T} (param : Z)
    (data : option (list T)) (elements : Z)
    (dataType param_type parameterSize scale : Z) (st : StatementImpl)
    : result unit * StatementImpl :=
  let '(s, rc) :=
    SQLBindParameter (stmt_ st)
      {| bp_number := parameter_number param;
         bp_param_type := param_type;
         bp_ctype := sql_ctype;
         bp_dataType := dataType;
         bp_columnSize := parameterSize;
         bp_scale := scale;
         bp_data := bool_decide (is_Some data);
         bp_bufferLength := to_long parameterSize;
         bp_indicator :=
           if character && (elements <=? 1) then None
           else Some (indicators param st) |} in
  let st1 := set_stmt s st in
  if negb (success rc)
  then (Thrown (NANODBC_THROW_DATABASE_ERROR s
                  (if character then "1780" else "1666")), st1)
  else (Ok tt, st1).

(** [bind(param, values, elements, direction)]. *)
Definition bind {T} {bt : BoundType T} (param : Z) (values : option (list T))
    (elements : Z) (direction : ParamDirection) (st : StatementImpl)
    : result unit * StatementImpl :=
  match prepare_bind param elements direction st with
  | (Ok (dataType, param_type, parameterSize, scale), st1) =>
      let st2 :=
        foldl (set_indicator param (to_long parameterSize)) st1
          (seq 0 (Z.to_nat elements)) in
      bind_parameter param values elements dataType param_type parameterSize
        scale st2
  | (Thrown e, st1) => (Thrown e, st1)
  | (LengthError, st1) => (LengthError, st1)
  | (Undef, st1) => (Undef, st1)
  end.

(** [bind_null]. *)
Definition bind_null (param elements : Z) (st : StatementImpl)
    : result unit * StatementImpl :=
  match prepare_bind param elements PARAM_IN st with
  | (Ok (dataType, param_type, parameterSize, _), st1) =>
      let '(s, rc) :=
        SQLBindParameter (stmt_ st1)
          {| bp_number := parameter_number param;
             bp_param_type := param_type;
             bp_ctype := SQL_C_CHAR;
             bp_dataType := dataType;
             bp_columnSize := parameterSize;
             bp_scale := 0;
             bp_data := false;
             bp_bufferLength := 0;
             bp_indicator := Some (indicators param st1) |} in
      let st2 := set_stmt s st1 in
      if negb (success rc)
      then (Thrown (NANODBC_THROW_DATABASE_ERROR s "1708"), st2)
      else (Ok tt, st2)
  | (Thrown e, st1) => (Thrown e, st1)
  | (LengthError, st1) => (LengthError, st1)
  | (Undef, st1) => (Undef, st1)
  end.

(** The condition
    [(nullSentry && !equals(values[i], *nullSentry)) || (nulls && !nulls[i]) || !nulls]
    with its order of evaluation; [None] when it reads through a null
    pointer or past an array. *)
Definition holds_value {T} {bt : BoundType T} (values : option (list T))
    (nulls : option (list bool)) (nullSentry : option T) (i : nat)
    : option bool :=
  differs ←
    match nullSentry with
    | Some sentry =>
        v ← values ≫= (.!! i);
        Some (negb (equals v sentry))
    | None => Some false
    end;
  if differs : bool then Some true
  else
    match nulls with
    | Some flags => flag ← flags !! i; Some (negb flag || false)
    | None => Some true
    end.

(** A loop over the elements that stops at undefined behaviour. *)
Definition for_elements (elements : Z)
    (body : StatementImpl → nat → option StatementImpl)
    (st : StatementImpl) : option StatementImpl :=
  foldl (λ acc i, st' ← acc; body st' i) (Some st) (seq 0 (Z.to_nat elements)).

(** [bind(param, values, elements, nulls, nullSentry, direction)]. *)
Definition bind_nullable {T} {bt : BoundType T} (param : Z)
    (values : option (list T)) (elements : Z) (nulls : option (list bool))
    (nullSentry : option T) (direction : ParamDirection) (st : StatementImpl)
    : result unit * StatementImpl :=
  match prepare_bind param elements direction st with
  | (Ok (dataType, param_type, parameterSize, scale), st1) =>
      match
        for_elements elements
          (λ st' i,
             keep ← holds_value values nulls nullSentry i;
             Some (if keep : bool
                   then set_indicator param (to_long parameterSize) st' i
                   else st')) st1
      with
      | Some st2 =>
          bind_parameter param values elements dataType param_type
            parameterSize scale st2
      | None => (Undef, st1)
      end
  | (Thrown e, st1) => (Thrown e, st1)
  | (LengthError, st1) => (LengthError, st1)
  | (Undef, st1) => (Undef, st1)
  end.

(** The string built from the range [values + i * length] to
    [values + (i + 1) * length]; the products are [std::size_t].  [None] when
    the range is not inside the array. *)
Definition string_element (values : option (list ascii)) (length : Z) (i : nat)
    : option (list ascii) :=
  let first := to_ulen (Z.of_nat i * length) in
  let last := to_ulen ((Z.of_nat i + 1) * length) in
  match values with
  | Some vs =>
      if (first <=? last) && (last <=? Z.of_nat (List.length vs))
      then Some (take (Z.to_nat (last - first)) (drop (Z.to_nat first) vs))
      else None
  | None => if (first =? 0) && (last =? 0) then Some [] else None
  end.

(** [bindStrings(param, values, length, elements, nulls, nullSentry,
    direction)] without [NANODBC_USE_UNICODE]. *)
Definition bindStrings_nullable (param : Z) (values : option (list ascii))
    (length elements : Z) (nulls : option (list bool))
    (nullSentry : option (list ascii)) (direction : ParamDirection)
    (st : StatementImpl) : result unit * StatementImpl :=
  match prepare_bind param elements direction st with
  | (Ok (dataType, param_type, parameterSize, scale), st1) =>
      let marked :=
        match nullSentry, nulls with
        | Some sentry, _ =>
            for_elements elements
              (λ st' i,
                 s_lhs ← string_element values length i;
                 s_rhs ← c_str_of sentry;
                 Some (if strncmp_equal s_lhs s_rhs (Z.to_nat length)
                       then st'
                       else set_indicator param (to_long parameterSize) st' i))
              st1
        | None, Some flags =>
            for_elements elements
              (λ st' i,
                 flag ← flags !! i;
                 Some (if flag : bool then st'
                       else set_indicator param SQL_NTS st' i)) st1
        | None, None => Some st1
        end in
      match marked with
      | Some st2 =>
          bind_parameter param values elements dataType param_type
            parameterSize scale st2
      | None => (Undef, st1)
      end
  | (Thrown e, st1) => (Thrown e, st1)
  | (LengthError, st1) => (LengthError, st1)
  | (Undef, st1) => (Undef, st1)
  end.

(** [bindStrings(param, values, length, elements, direction)]. *)
Definition bindStrings (param : Z) (values : option (list ascii))
    (length elements : Z) (direction : ParamDirection)
    : StatementImpl → result unit * StatementImpl :=
  bind param values elements direction.

(** *** The forwarding members of [Statement] *)

Definition Statement_bind {T} {bt : BoundType T} (param : Z)
    (value : option (list T)) (direction : ParamDirection) :=
  bind param value 1 direction.

Definition Statement_bind_n {T} {bt : BoundType T} (param : Z)
    (values : option (list T)) (elements : Z) (direction : ParamDirection) :=
  bind param values elements direction.

Definition Statement_bind_sentry {T} {bt : BoundType T} (param : Z)
    (values : option (list T)) (elements : Z) (nullSentry : option T)
    (direction : ParamDirection) :=
  bind_nullable param values elements None nullSentry direction.

Definition Statement_bind_flags {T} {bt : BoundType T} (param : Z)
    (values : option (list T)) (elements : Z) (nulls : option (list bool))
    (direction : ParamDirection) :=
  bind_nullable param values elements nulls None direction.

Definition Statement_bindStrings_sentry (param : Z)
    (values : option (list ascii)) (length elements : Z)
    (nullSentry : option (list ascii)) (direction : ParamDirection) :=
  bindStrings_nullable param values length elements None nullSentry direction.

Definition Statement_bindStrings_flags (param : Z)
    (values : option (list ascii)) (length elements : Z)
    (nulls : option (list bool)) (direction : ParamDirection) :=
  bindStrings_nullable param values length elements nulls None direction.


(** The call that [bind_parameter] makes for [elements] values of type [T]
    with the indicator array [array]. *)
Definition bind_call {T} {bt : BoundType T} (param : Z) (data : option (list T))
    (elements : Z) (direction : ParamDirection) (array : list Z)
    (st : StatementImpl) : Stmt * Z :=
  let reply := SQLDescribeParam (stmt_ st) (parameter_number param) in
  SQLBindParameter (stmt_ st)
    {| bp_number := parameter_number param;
       bp_param_type := param_type_from_direction direction;
       bp_ctype := sql_ctype;
       bp_dataType := dp_dataType reply;
       bp_columnSize := dp_parameterSize reply;
       bp_scale := dp_scale reply;
       bp_data := bool_decide (is_Some data);
       bp_bufferLength := to_long (dp_parameterSize reply);
       bp_indicator :=
         if character && (elements <=? 1) then None else Some array |}.

(** How a binding ends after that call, and the statement it leaves. *)
Definition bound_with (T : Type) {bt : BoundType T} (call : Stmt * Z)
    (param : Z)
    (array : list Z) (st : StatementImpl)
    : result unit * StatementImpl :=
  (if success call.2 then Ok tt
   else Thrown (NANODBC_THROW_DATABASE_ERROR call.1
                  (if character then "1780" else "1666")),
   {| stmt_ := call.1;
      bind_len_or_null_ := <[param := array]> (bind_len_or_null_ st) |}).

End StatementImpl.

(** The indicator array of the elements [keeps], of which those flagged hold
    [v] and the others are null, filled up with nulls to [size] entries. *)
Definition indicator_array (v : Z) (keeps : list bool) (size : nat) : list Z :=
  ((λ k : bool, if k then v else SQL_NULL_DATA) <$> keeps)
  ++ replicate (size - length keeps) SQL_NULL_DATA.

Arguments StatementImpl Stmt : clear implicits.
End Statement.

(** A reference statement for binding: the parameter markers of the prepared
    text as the driver describes them, and the bindings made so far, oldest
    first.  A parameter number without marker is refused. *)
Module RefStatement.

Record stmt := {
  markers : list Statement.DescribeParamReply;
  bindings : list Statement.BindParameterArgs;
}.

Definition has_marker (s : stmt) (number : Z) : bool :=
  (1 <=? number) && (number <=? Z.of_nat (length (markers s))).

Definition no_marker : Statement.DescribeParamReply :=
  {| Statement.dp_rc := SQL_ERROR; Statement.dp_dataType := 0;
     Statement.dp_parameterSize := 0; Statement.dp_scale := 0 |}.

#[global] Instance api : Statement.StatementAPI stmt := {
  Statement.SQLDescribeParam s number :=
    if has_marker s number
    then default no_marker (markers s !! Z.to_nat (number - 1))
    else no_marker;
  Statement.SQLBindParameter s args :=
    if has_marker s (Statement.bp_number args)
    then ({| markers := markers s; bindings := bindings s ++ [args] |},
          SQL_SUCCESS)
    else (s, SQL_ERROR);
  Statement.SQLGetDiagRec_stmt _ := [];
}.

(** [max_size()] of a vector of 8-byte elements in libstdc++ on LP64. *)
Definition libstdcxx_limits : Statement.VectorLimits :=
  {| Statement.max_size := 2 ^ 60 - 1 |}.

(** A statement with two markers, an INTEGER and a CHAR(3), and nothing
    bound. *)
Definition prepared : Statement.StatementImpl stmt :=
  {| Statement.stmt_ :=
       {| markers :=
            [ {| Statement.dp_rc := SQL_SUCCESS;
                 Statement.dp_dataType := SQL_INTEGER;
                 Statement.dp_parameterSize := 10; Statement.dp_scale := 0 |};
              {| Statement.dp_rc := SQL_SUCCESS;
                 Statement.dp_dataType := SQL_CHAR;
                 Statement.dp_parameterSize := 3; Statement.dp_scale := 0 |} ];
          bindings := [] |};
     Statement.bind_len_or_null_ := ∅ |}.

End RefStatement.

(** ** The list of drivers *)

Module Drivers.

(** [Driver::Attribute] and [Driver] of Nanodbc.h. *)
Record Attribute := { keyword : string; value : string }.
Record Driver := { name : string; attributes : list Attribute }.

(** What one [SQLDrivers] call leaves: the return code, the two buffers of
    1024 characters and [attrs_len_ret]; nothing reads [descr_len_ret]. *)
Record DriversReply := {
  dr_rc : Z;
  dr_descr : list ascii;
  dr_attrs : list ascii;
  dr_attrs_len_ret : Z;
}.

(** The calls on the driver manager, whose state is an [E]; the environment
    handle is part of that state. *)
Class EnvironmentAPI (E : Type) := {
  SQLAllocHandle_ENV : E → E * Z;
  SQLSetEnvAttr_ODBC_VERSION : E → E * Z;
  SQLFreeHandle_ENV : E → E;
  SQLDrivers : E → Z → list ascii → list ascii → E * DriversReply;
  SQLGetDiagRec_env : E → list DiagRecord;
}.

(** [strarrlen(a)] on the array [a]: the loop reads [a[i]] before it tests
    [i < N], so an array without zero is read at [a[N]]; [None] is that
    read. *)
Fixpoint strarrlen (a : list ascii) : option nat :=
  match a with
  | [] => None
  | c :: a' => if Ascii.eqb c NUL then Some 0%nat else S <$> strarrlen a'
  end.

(** [std::find(a + beg, a + beg + n, c) - a]; [None] when the search leaves
    the array. *)
Fixpoint find_char (c : ascii) (a : list ascii) (beg n : nat) : option nat :=
  match n with
  | O => Some beg
  | S n' =>
      match a !! beg with
      | None => None
      | Some x => if Ascii.eqb x c then Some beg else find_char c a (S beg) n'
      end
  end.

(** The characters [a + first] up to [a + last]. *)
Definition range (a : list ascii) (first last : nat) : string :=
  string_of_list_ascii (take (last - first) (drop first a)).

(** The loop of [listDrivers] that splits the attributes in
    [attrs[0 .. end)], from [beg] on.  A pair without [=] makes the value
    a string from [pair_end + 1] to [pair_end], which is undefined. *)
Fixpoint split_attributes (fuel : nat) (attrs : list ascii) (beg end_ : nat)
    : outcome (list Attribute) :=
  match fuel with
  | O => OutOfFuel
  | S fuel' =>
      match find_char NUL attrs beg (end_ - beg) with
      | None => Undefined
      | Some pair_end =>
          if (pair_end =? end_)%nat then Returns []
          else
            match find_char "="%char attrs beg (pair_end - beg) with
            | None => Undefined
            | Some eq_pos =>
                if (eq_pos =? end_)%nat then Returns []
                else if (pair_end <? eq_pos + 1)%nat then Undefined
                else
                  let attr :=
                    {| keyword := range attrs beg eq_pos;
                       value := range attrs (eq_pos + 1) pair_end |} in
                  match split_attributes fuel' attrs (pair_end + 1) end_ with
                  | Returns rest => Returns (attr :: rest)
                  | other => other
                  end
            end
      end
  end.

Section ListDrivers.
Context {E : Type} {eapi : EnvironmentAPI E} {platform : Platform}.

Definition NANODBC_THROW_DATABASE_ERROR (e : E) (line : string) : exn :=
  ThrowDatabaseError
    (DatabaseError_ctor msvc (SQLGetDiagRec_env e)
       indeterminate_sqlState indeterminate_nativeError
       ("Nanodbc.cpp:" +:+ line +:+ ": ")).

(** [allocate_environment_handle]. *)
Definition allocate_environment_handle (e : E) : outcome unit * E :=
  let '(e1, rc) := SQLAllocHandle_ENV e in
  if negb (success rc)
  then (Throws (NANODBC_THROW_DATABASE_ERROR e1 "600"), e1)
  else
    let '(e2, rc2) := SQLSetEnvAttr_ODBC_VERSION e1 in
    if negb (success rc2)
    then (Throws (NANODBC_THROW_DATABASE_ERROR e2 "612"), SQLFreeHandle_ENV e2)
    else (Returns tt, e2).

(** The [do ... while (success(rc))] loop of [listDrivers]; an assertion
    is taken to hold. *)
Fixpoint listDrivers_loop (fuel : nat) (e : E) (direction : Z)
    (descr attrs : list ascii) (drivers : list Driver)
    : outcome (list Driver) * E :=
  match fuel with
  | O => (OutOfFuel, e)
  | S fuel' =>
      let '(e1, reply) := SQLDrivers e direction descr attrs in
      let descr1 := take 1024 (dr_descr reply) in
      let attrs1 := take 1024 (dr_attrs reply) in
      if dr_rc reply =? SQL_SUCCESS then
        match strarrlen descr1 with
        | None => (Undefined, e1)
        | Some n =>
            let len := dr_attrs_len_ret reply in
            if (len <? 0) || (1024 <? len) then (Undefined, e1)
            else
              match
                split_attributes (S (Z.to_nat len)) attrs1 0 (Z.to_nat len)
              with
              | Returns attributes =>
                  let drv := {| name := range descr1 0 n;
                                attributes := attributes |} in
                  listDrivers_loop fuel' e1 SQL_FETCH_NEXT descr1 attrs1
                    (drivers ++ [drv])
              | Throws x => (Throws x, e1)
              | Undefined => (Undefined, e1)
              | OutOfFuel => (OutOfFuel, e1)
              end
        end
      else if negb (dr_rc reply =? SQL_NO_DATA)
      then (Throws (NANODBC_THROW_DATABASE_ERROR e1 "3045"), e1)
      else (Returns drivers, e1)
  end.

Definition listDrivers (fuel : nat) (e : E) : outcome (list Driver) * E :=
  match allocate_environment_handle e with
  | (Returns _, e1) =>
      listDrivers_loop fuel e1 SQL_FETCH_FIRST (replicate 1024 NUL)
        (replicate 1024 NUL) []
  | (Throws x, e1) => (Throws x, e1)
  | (Undefined, e1) => (Undefined, e1)
  | (OutOfFuel, e1) => (OutOfFuel, e1)
  end.

End ListDrivers.

(** The text of an attribute list: every pair as [keyword=value] and a
    zero. *)
Definition attribute_text (l : list Attribute) : list ascii :=
  flat_map (λ a, list_ascii_of_string (keyword a) ++ "="%char
                 :: list_ascii_of_string (value a) ++ [NUL]) l.

(** A pair that the text represents: no zero in it and no [=] in the
    keyword. *)
Definition plain_attribute (a : Attribute) : Prop :=
  (NUL ∉ list_ascii_of_string (keyword a)) ∧
  ("="%char ∉ list_ascii_of_string (keyword a)) ∧
  (NUL ∉ list_ascii_of_string (value a)).

(** What a driver manager writes into a buffer [buf]: the text, and behind
    it the buffer as it was. *)
Definition written (text buf : list ascii) : list ascii :=
  take (length buf) (text ++ drop (length text) buf).

(** A driver that fits the buffers of [listDrivers]. *)
Definition fits (d : Driver) : Prop :=
  (NUL ∉ list_ascii_of_string (name d)) ∧
  (String.length (name d) < 1024)%nat ∧
  Forall plain_attribute (attributes d) ∧
  (length (attribute_text (attributes d)) < 1024)%nat.

End Drivers.

(** A reference driver manager: the installed drivers and how many of them
    have been listed; [env] counts the environment handles that are
    allocated. *)
Module RefManager.

Record manager := {
  installed : list Drivers.Driver;
  listed : nat;
  env : nat;
}.

Definition no_data (descr attrs : list ascii) : Drivers.DriversReply :=
  {| Drivers.dr_rc := SQL_NO_DATA; Drivers.dr_descr := descr;
     Drivers.dr_attrs := attrs; Drivers.dr_attrs_len_ret := 0 |}.

Definition drivers (m : manager) (direction : Z) (descr attrs : list ascii)
    : manager * Drivers.DriversReply :=
  let at_ := if direction =? SQL_FETCH_FIRST then 0%nat else listed m in
  match installed m !! at_ with
  | Some d =>
      let text := Drivers.attribute_text (Drivers.attributes d) in
      ({| installed := installed m; listed := S at_; env := env m |},
       {| Drivers.dr_rc := SQL_SUCCESS;
          Drivers.dr_descr :=
            Drivers.written (list_ascii_of_string (Drivers.name d) ++ [NUL])
              descr;
          Drivers.dr_attrs := Drivers.written (text ++ [NUL]) attrs;
          Drivers.dr_attrs_len_ret := Z.of_nat (length text) |})
  | None => (m, no_data descr attrs)
  end.

#[global] Instance api : Drivers.EnvironmentAPI manager := {
  Drivers.SQLAllocHandle_ENV m :=
    ({| installed := installed m; listed := listed m; env := S (env m) |},
     SQL_SUCCESS);
  Drivers.SQLSetEnvAttr_ODBC_VERSION m := (m, SQL_SUCCESS);
  Drivers.SQLFreeHandle_ENV m :=
    {| installed := installed m; listed := listed m; env := pred (env m) |};
  Drivers.SQLDrivers := drivers;
  Drivers.SQLGetDiagRec_env _ := [];
}.

(** Two installed drivers, none listed, no environment allocated. *)
Definition sqlite_driver : Drivers.Driver :=
  {| Drivers.name := "SQLite3";
     Drivers.attributes :=
       [ {| Drivers.keyword := "Driver"; Drivers.value := "libsqlite3odbc.so" |};
         {| Drivers.keyword := "UsageCount"; Drivers.value := "1" |} ] |}.

Definition postgres_driver : Drivers.Driver :=
  {| Drivers.name := "PostgreSQL";
     Drivers.attributes :=
       [ {| Drivers.keyword := "Driver"; Drivers.value := "psqlodbcw.so" |};
         {| Drivers.keyword := "Options"; Drivers.value := "a=1;b=2" |} ] |}.

Definition two_drivers : manager :=
  {| installed := [sqlite_driver; postgres_driver]; listed := 0; env := 0 |}.

End RefManager.

(** ** The statement handle *)

Module StatementHandle.

Definition SQL_ATTR_QUERY_TIMEOUT : Z := 0.
Definition SQL_ATTR_PARAMSET_SIZE : Z := 22.
Definition SQL_CLOSE : Z := 0.
Definition SQL_RESET_PARAMS : Z := 3.

(** The driver calls on a statement handle.  Handles are numbers, 0 is the
    null handle, and [W] is the state of the driver manager.
    [SQLAllocHandle_STMT w dbc] gives the return code and what it stores in
    the output handle. *)
Class HandleAPI (W : Type) := {
  SQLAllocHandle_STMT : W → Z → W * (Z * Z);
  SQLCancel : W → Z → W * Z;
  SQLFreeStmt : W → Z → Z → W * Z;
  SQLFreeHandle_STMT : W → Z → W * Z;
  SQLPrepare : W → Z → string → W * Z;
  SQLSetStmtAttr : W → Z → Z → Z → W * Z;
  SQLExecute : W → Z → W * Z;
  SQLExecDirect : W → Z → string → W * Z;
  SQLGetDiagRec_stmt : W → Z → list DiagRecord;
}.

Section Life.
Context {W : Type} {hapi : HandleAPI W} {platform : Platform}.

(** [Connection::connected()] of the connection object that owns a
    connection handle. *)
Variable connected_dbc : Z → bool.

(** The members of [Statement::StatementImpl] that the life cycle uses;
    [conn_] is given by the connection handle of the object it shares. *)
Record StatementImpl := {
  stmt_ : Z;
  open_ : bool;
  conn_ : Z;
}.

(** A member function ends in an outcome and leaves the object and the
    driver manager in new states. *)
Definition member (A : Type) : Type :=
  StatementImpl → W → outcome A * StatementImpl * W.

Definition NANODBC_THROW_DATABASE_ERROR (w : W) (stmt : Z) (line : string)
    : exn :=
  ThrowDatabaseError
    (DatabaseError_ctor msvc (SQLGetDiagRec_stmt w stmt)
       indeterminate_sqlState indeterminate_nativeError
       ("Nanodbc.cpp:" +:+ line +:+ ": ")).

Definition is_open (st : StatementImpl) : bool := open_ st.

Definition connected (st : StatementImpl) : bool := connected_dbc (conn_ st).

Definition resetParameters (st : StatementImpl) (w : W) : W :=
  (SQLFreeStmt w (stmt_ st) SQL_RESET_PARAMS).1.

Definition close : member unit := λ st w,
  let closed := {| stmt_ := 0; open_ := false; conn_ := conn_ st |} in
  if is_open st && connected st then
    let '(w1, rc) := SQLCancel w (stmt_ st) in
    if negb (success rc)
    then (Throws (NANODBC_THROW_DATABASE_ERROR w1 (stmt_ st) "1205"), st, w1)
    else
      let w2 := resetParameters st w1 in
      let '(w3, rc3) := SQLFreeHandle_STMT w2 (stmt_ st) in
      if negb (success rc3)
      then (Throws (NANODBC_THROW_DATABASE_ERROR w3 (stmt_ st) "1211"), st, w3)
      else (Returns tt, closed, w3)
  else (Returns tt, closed, w).

(** [open(conn)]; [conn] is the connection handle of the argument. *)
Definition open (conn : Z) : member unit := λ st w,
  match close st w with
  | (Returns _, st1, w1) =>
      let '(w2, (rc, handle)) := SQLAllocHandle_STMT w1 conn in
      let st2 := {| stmt_ := handle; open_ := success rc; conn_ := conn_ st1 |} in
      if negb (success rc)
      then (Throws (NANODBC_THROW_DATABASE_ERROR w2 handle "1184"), st2, w2)
      else (Returns tt,
            {| stmt_ := handle; open_ := success rc; conn_ := conn |}, w2)
  | other => other
  end.

(** [~StatementImpl()]. *)
Definition StatementImpl_dtor (st : StatementImpl) (w : W) : W :=
  if is_open st && connected st then
    let w1 := (SQLCancel w (stmt_ st)).1 in
    let w2 := resetParameters st w1 in
    (SQLFreeHandle_STMT w2 (stmt_ st)).1
  else w.

Definition cancel : member unit := λ st w,
  let '(w1, rc) := SQLCancel w (stmt_ st) in
  if negb (success rc)
  then (Throws (NANODBC_THROW_DATABASE_ERROR w1 (stmt_ st) "1223"), st, w1)
  else (Returns tt, st, w1).

Definition timeout (t : Z) : member unit := λ st w,
  let '(w1, rc) := SQLSetStmtAttr w (stmt_ st) SQL_ATTR_QUERY_TIMEOUT t in
  if negb (success rc) && negb (t =? 0)
  then (Throws (NANODBC_THROW_DATABASE_ERROR w1 (stmt_ st) "1273"), st, w1)
  else (Returns tt, st, w1).

(** [prepare(query, timeout)]. *)
Definition prepare (query : string) (t : Z) : member Z := λ st w,
  if negb (is_open st)
  then (Throws (ProgrammingError "Statement has no associated open Connection"),
        st, w)
  else
    let '(w1, rc) := SQLPrepare w (stmt_ st) query in
    if negb (success rc) && negb (rc =? SQL_STILL_EXECUTING)
    then (Throws (NANODBC_THROW_DATABASE_ERROR w1 (stmt_ st) "1252"), st, w1)
    else
      match timeout t st w1 with
      | (Returns _, st2, w2) => (Returns rc, st2, w2)
      | (Throws e, st2, w2) => (Throws e, st2, w2)
      | (Undefined, st2, w2) => (Undefined, st2, w2)
      | (OutOfFuel, st2, w2) => (OutOfFuel, st2, w2)
      end.

(** [prepare(conn, query, timeout)]. *)
Definition prepare_on (conn : Z) (query : string) (t : Z) : member unit :=
  λ st w,
  match open conn st w with
  | (Returns _, st1, w1) =>
      match prepare query t st1 w1 with
      | (Returns _, st2, w2) => (Returns tt, st2, w2)
      | (Throws e, st2, w2) => (Throws e, st2, w2)
      | (Undefined, st2, w2) => (Undefined, st2, w2)
      | (OutOfFuel, st2, w2) => (OutOfFuel, st2, w2)
      end
  | other => other
  end.

Definition justExecuteDirect (conn : Z) (query : string)
    (batchOperations t : Z) : member Z := λ st w,
  match open conn st w with
  | (Returns _, st1, w1) =>
      let '(w2, rc) :=
        SQLSetStmtAttr w1 (stmt_ st1) SQL_ATTR_PARAMSET_SIZE batchOperations in
      if negb (success rc)
      then (Throws (NANODBC_THROW_DATABASE_ERROR w2 (stmt_ st1) "1427"), st1, w2)
      else
        match timeout t st1 w2 with
        | (Returns _, st3, w3) =>
            let '(w4, rc4) := SQLExecDirect w3 (stmt_ st3) query in
            if negb (success rc4) && negb (rc4 =? SQL_NO_DATA)
               && negb (rc4 =? SQL_STILL_EXECUTING)
            then (Throws (NANODBC_THROW_DATABASE_ERROR w4 (stmt_ st3) "1434"),
                  st3, w4)
            else (Returns rc4, st3, w4)
        | (Throws e, st3, w3) => (Throws e, st3, w3)
        | (Undefined, st3, w3) => (Undefined, st3, w3)
        | (OutOfFuel, st3, w3) => (OutOfFuel, st3, w3)
        end
  | (Throws e, st1, w1) => (Throws e, st1, w1)
  | (Undefined, st1, w1) => (Undefined, st1, w1)
  | (OutOfFuel, st1, w1) => (OutOfFuel, st1, w1)
  end.

Definition justExecute (batchOperations t : Z) : member Z := λ st w,
  let '(o0, w0) :=
    if is_open st then
      let '(w1, rc) := SQLFreeStmt w (stmt_ st) SQL_CLOSE in
      if negb (success rc)
      then (Throws (NANODBC_THROW_DATABASE_ERROR w1 (stmt_ st) "1471"), w1)
      else (Returns tt, w1)
    else (Returns tt, w) in
  match o0 with
  | Returns _ =>
      let '(w2, rc) :=
        SQLSetStmtAttr w0 (stmt_ st) SQL_ATTR_PARAMSET_SIZE batchOperations in
      if negb (success rc) && negb (rc =? SQL_NO_DATA)
      then (Throws (NANODBC_THROW_DATABASE_ERROR w2 (stmt_ st) "1489"), st, w2)
      else
        match timeout t st w2 with
        | (Returns _, st3, w3) =>
            let '(w4, rc4) := SQLExecute w3 (stmt_ st3) in
            if negb (success rc4) && negb (rc4 =? SQL_NO_DATA)
               && negb (rc4 =? SQL_STILL_EXECUTING)
            then (Throws (NANODBC_THROW_DATABASE_ERROR w4 (stmt_ st3) "1495"),
                  st3, w4)
            else (Returns rc4, st3, w4)
        | (Throws e, st3, w3) => (Throws e, st3, w3)
        | (Undefined, st3, w3) => (Undefined, st3, w3)
        | (OutOfFuel, st3, w3) => (OutOfFuel, st3, w3)
        end
  | Throws e => (Throws e, st, w0)
  | Undefined => (Undefined, st, w0)
  | OutOfFuel => (OutOfFuel, st, w0)
  end.

(** *** Client code *)

(** The calls of a client on one statement object. *)
Inductive client_call :=
  | Open (conn : Z)
  | Close
  | Cancel
  | Timeout (t : Z)
  | Prepare (query : string) (t : Z)
  | PrepareOn (conn : Z) (query : string) (t : Z)
  | JustExecuteDirect (conn : Z) (query : string) (batchOperations t : Z)
  | JustExecute (batchOperations t : Z).

(** The connection a call names, if any. *)
Definition names (o : client_call) : option Z :=
  match o with
  | Open conn | PrepareOn conn _ _ | JustExecuteDirect conn _ _ _ => Some conn
  | _ => None
  end.

(** The connection that the call names, if any, is connected. *)
Definition on_connected (o : client_call) : bool :=
  match names o with
  | Some conn => connected_dbc conn
  | None => true
  end.

Definition client_step (s : StatementImpl * W) (o : client_call)
    : StatementImpl * W :=
  let '(st, w) := s in
  match o with
  | Open conn => let '(_, st', w') := open conn st w in (st', w')
  | Close => let '(_, st', w') := close st w in (st', w')
  | Cancel => let '(_, st', w') := cancel st w in (st', w')
  | Timeout t => let '(_, st', w') := timeout t st w in (st', w')
  | Prepare q t => let '(_, st', w') := prepare q t st w in (st', w')
  | PrepareOn conn q t => let '(_, st', w') := prepare_on conn q t st w in (st', w')
  | JustExecuteDirect conn q b t =>
      let '(_, st', w') := justExecuteDirect conn q b t st w in (st', w')
  | JustExecute b t => let '(_, st', w') := justExecute b t st w in (st', w')
  end.

(** [StatementImpl()] on the connection object with handle [conn], then the
    calls [ops]. *)
Definition client_run (conn : Z) (ops : list client_call) (w : W)
    : StatementImpl * W :=
  foldl client_step ({| stmt_ := 0; open_ := false; conn_ := conn |}, w) ops.

End Life.
End StatementHandle.

(** A reference driver manager for statement handles: the handles that are
    allocated, the next one to hand out, and whether a call was ever made on
    a handle that is neither null nor allocated. *)
Module RefHandles.

Record world := {
  live : list Z;
  next : Z;
  misused : bool;
}.

Definition allocated (w : world) (h : Z) : bool := one_of h (live w).

(** A call that needs an allocated handle. *)
Definition on_handle (w : world) (h : Z) : world * Z :=
  if allocated w h then (w, SQL_SUCCESS)
  else ({| live := live w; next := next w;
           misused := misused w || negb (h =? 0) |}, SQL_INVALID_HANDLE).

Definition alloc (w : world) : world * (Z * Z) :=
  ({| live := next w :: live w; next := next w + 1; misused := misused w |},
   (SQL_SUCCESS, next w)).

Definition free (w : world) (h : Z) : world * Z :=
  if allocated w h
  then ({| live := List.filter (λ x, negb (x =? h)) (live w); next := next w;
           misused := misused w |}, SQL_SUCCESS)
  else on_handle w h.

#[global] Instance api : StatementHandle.HandleAPI world := {
  StatementHandle.SQLAllocHandle_STMT w _ := alloc w;
  StatementHandle.SQLCancel := on_handle;
  StatementHandle.SQLFreeStmt w h _ := on_handle w h;
  StatementHandle.SQLFreeHandle_STMT := free;
  StatementHandle.SQLPrepare w h _ := on_handle w h;
  StatementHandle.SQLSetStmtAttr w h _ _ := on_handle w h;
  StatementHandle.SQLExecute := on_handle;
  StatementHandle.SQLExecDirect w h _ := on_handle w h;
  StatementHandle.SQLGetDiagRec_stmt _ _ := [];
}.

Definition fresh : world := {| live := []; next := 1; misused := false |}.

(** The handle of an open statement is the one allocated handle, a closed
    statement holds the null handle and nothing is allocated; no call was
    made on a stale handle. *)
Definition accounted (connected_dbc : Z → bool)
    (st : StatementHandle.StatementImpl) (w : world) : Prop :=
  misused w = false ∧ 0 < next w ∧
  (if StatementHandle.open_ st
   then live w = [StatementHandle.stmt_ st] ∧
        0 < StatementHandle.stmt_ st < next w ∧
        connected_dbc (StatementHandle.conn_ st) = true
   else live w = [] ∧ StatementHandle.stmt_ st = 0).

End RefHandles.

(** ** The result iterator of Nanodbc.h *)

(** A [Result] is a shared pointer to a [ResultImpl].  The iterator's
    [result_] is a copy of the [Result] it was made from: it is empty, or it
    points to the same cursor object as that [Result].  So an iterator is the
    flag that tells whether [result_] is non-empty, and its member functions
    act on the state of the shared cursor. *)
Module ResultIterator.
Section Iterator.
Context {D : Type} {api : NativeAPI D} {platform : Platform}.

(** [operator++()]: an exception of [next()] is caught and ends the
    iteration like a false result; incrementing an empty iterator calls
    [next()] through a null pointer. *)
Definition increment (result_ : bool) (r : ResultImpl (D:=D))
    : outcome bool * ResultImpl (D:=D) :=
  if result_ then
    match next r with
    | (Returns more, r') => (Returns more, r')
    | (Throws _, r') => (Returns false, r')
    | (Undefined, r') => (Undefined, r')
    | (OutOfFuel, r') => (OutOfFuel, r')
    end
  else (Undefined, r).

(** [ResultIterator(Result& r)] for a non-empty [r]. *)
Definition ResultIterator_ctor (r : ResultImpl (D:=D))
    : outcome bool * ResultImpl (D:=D) :=
  increment true r.

(** [operator==]: two non-empty iterators point to the one cursor, whose
    native statement handle they compare. *)
Definition equal (lhs rhs : bool) : bool :=
  if lhs && rhs then true else negb lhs && negb rhs.

(** [it != end(r)]; the end iterator is empty. *)
Definition differs_from_end (result_ : bool) : bool :=
  negb (equal result_ false).

(** [for (auto& row : r) body(row)] from the test of the loop on; [body]
    reads the cursor. *)
Fixpoint range_for_loop {A} (fuel : nat) (body : ResultImpl (D:=D) → A)
    (result_ : bool) (r : ResultImpl (D:=D))
    : outcome (list A) * ResultImpl (D:=D) :=
  match fuel with
  | O => (OutOfFuel, r)
  | S fuel' =>
      if differs_from_end result_ then
        let a := body r in
        match increment result_ r with
        | (Returns result1, r1) =>
            match range_for_loop fuel' body result1 r1 with
            | (Returns rest, r2) => (Returns (a :: rest), r2)
            | other => other
            end
        | (Throws e, r1) => (Throws e, r1)
        | (Undefined, r1) => (Undefined, r1)
        | (OutOfFuel, r1) => (OutOfFuel, r1)
        end
      else (Returns [], r)
  end.

Definition range_for {A} (fuel : nat) (body : ResultImpl (D:=D) → A)
    (r : ResultImpl (D:=D)) : outcome (list A) * ResultImpl (D:=D) :=
  match ResultIterator_ctor r with
  | (Returns result_, r1) => range_for_loop fuel body result_ r1
  | (Throws e, r1) => (Throws e, r1)
  | (Undefined, r1) => (Undefined, r1)
  | (OutOfFuel, r1) => (OutOfFuel, r1)
  end.

End Iterator.
End ResultIterator.

(** A statement whose connection is lost: every call fails, without
    diagnostics. *)
Module LostStatement.

Definition failed_fetch : FetchReply :=
  {| fr_rc := SQL_ERROR; fr_row_count := None;
     fr_cbdata := λ _ old, old; fr_pdata := λ _ old, old |}.

#[global] Instance api : NativeAPI unit := {|
  SQLGetDiagRec _ := [];
  SQLSetStmtAttr_ROW_ARRAY_SIZE d _ := (d, SQL_ERROR);
  SQLSetStmtAttr_ROWS_FETCHED_PTR d := (d, SQL_ERROR);
  SQLNumResultCols _ := (SQL_ERROR, 0);
  SQLDescribeCol _ _ :=
    {| dc_rc := SQL_ERROR; dc_name := ""; dc_sqltype := 0; dc_sqlsize := 0;
       dc_scale := 0 |};
  SQLBindCol d _ _ _ _ := (d, SQL_ERROR);
  SQLFetchScroll d _ _ := (d, failed_fetch);
  SQLGetStmtAttr_ROW_NUMBER _ := (SQL_ERROR, None);
  SQLGetData d _ _ _ :=
    (d, {| gd_rc := SQL_ERROR; gd_buffer := []; gd_ValueLenOrInd := 0 |});
|}.

(** A cursor without columns on it. *)
Definition cursor : ResultImpl (D:=unit) :=
  {| stmt_ := tt; rowset_size_ := 1; row_count_ := 0; bound_columns_ := [];
     bound_columns_size_ := 0; rowset_position_ := 0;
     bound_columns_by_name_ := ∅; at_end_ := false |}.

End LostStatement.

(** * Properties *)

(** ** Machine integers *)

Lemma to_long_small z : 0 ≤ z < 2 ^ 63 → to_long z = z.
Proof.
  intros Hz. unfold to_long, ULEN_MOD.
  rewrite Z.mod_small by lia.
  destruct (Z.ltb_spec z (2 ^ 63)); lia.
Qed.

Lemma to_ulen_small z : 0 ≤ z < 2 ^ 64 → to_ulen z = z.
Proof. intros Hz. unfold to_ulen, ULEN_MOD. apply Z.mod_small. lia. Qed.

(** ** [before_move] *)

Lemma store_lt {A} (l : list A) j v :
  (j < length l)%nat → store l j v = Some (<[j:=v]> l).
Proof. intros Hj. unfold store. by rewrite decide_True. Qed.

Lemma take_S_insert {A} (l : list A) k v :
  (k < length l)%nat → take (S k) (<[k:=v]> l) = take k l ++ [v].
Proof.
  revert k. induction l as [|a l IH]; intros k Hk; simpl in *; [lia|].
  destruct k as [|k]; simpl; [done|].
  f_equal. apply IH. lia.
Qed.

Lemma drop_S_insert {A} (l : list A) k v :
  drop (S k) (<[k:=v]> l) = drop (S k) l.
Proof.
  revert k. induction l as [|a l IH]; intros k; [by destruct k|].
  destruct k as [|k]; simpl; [done|]. apply IH.
Qed.

(** The zeroing loop, started at index [k] with [m] indices to go. *)
Lemma zero_loop (m k : nat) (l : list Z) :
  length l = (k + m)%nat →
  foldl (λ acc j, a ← acc; store a j 0) (Some l) (seq k m)
  = Some (take k l ++ replicate m 0).
Proof.
  revert k l. induction m as [|m IH]; intros k l Hlen; simpl.
  - rewrite app_nil_r, firstn_all2 by lia. done.
  - rewrite store_lt by lia. simpl.
    rewrite IH by (rewrite length_insert; lia).
    rewrite take_S_insert by lia.
    by rewrite <- app_assoc.
Qed.

Lemma clear_indicators_allocated n (l : list Z) :
  length l = Z.to_nat n →
  clear_indicators n (Some l) = Some (Some (replicate (Z.to_nat n) 0)).
Proof.
  intros Hlen. unfold clear_indicators.
  rewrite (zero_loop (Z.to_nat n) 0 l) by lia. done.
Qed.

Lemma before_move_col_cleared n c :
  indicators_allocated n c → before_move_col n c = Some (cleared n c).
Proof.
  intros (cb & Hcb & Hlen). unfold before_move_col, cleared.
  rewrite Hcb, clear_indicators_allocated by done. simpl.
  done.
Qed.

(** The column loop, started at index [k] with [m] columns to go. *)
Lemma column_loop (f : bound_column → option bound_column)
    (g : bound_column → bound_column) (m k : nat) (cs : list bound_column) :
  length cs = (k + m)%nat →
  Forall (λ c, f c = Some (g c)) (drop k cs) →
  foldl (λ acc i, cs0 ← acc; c ← cs0 !! i; c' ← f c; Some (<[i:=c']> cs0))
        (Some cs) (seq k m)
  = Some (take k cs ++ (g <$> drop k cs)).
Proof.
  revert k cs. induction m as [|m IH]; intros k cs Hlen Hall; simpl.
  - rewrite (drop_ge cs k) by lia. simpl. rewrite app_nil_r, firstn_all2 by lia. done.
  - destruct (lookup_lt_is_Some_2 cs k) as [c Hc]; [lia|].
    rewrite Hc. simpl.
    rewrite (drop_S cs c k Hc) in Hall. inversion Hall as [|? ? Hfc Hrest]; subst.
    rewrite Hfc. simpl.
    rewrite IH.
    + rewrite take_S_insert by lia. rewrite drop_S_insert.
      rewrite (drop_S cs c k Hc). simpl. by rewrite <- app_assoc.
    + rewrite length_insert. lia.
    + by rewrite drop_S_insert.
Qed.

Section BeforeMove.
Context {D : Type} {api : NativeAPI D} {platform : Platform}.
Implicit Types r : ResultImpl (D:=D).

Lemma before_move_ok r :
  bound_ok r →
  before_move r
  = Some (set_bound_columns (cleared (rowset_size_ r) <$> bound_columns_ r) r).
Proof.
  intros [Hsize Hall]. unfold before_move.
  rewrite Hsize, Nat2Z.id.
  rewrite (column_loop (before_move_col (rowset_size_ r))
             (cleared (rowset_size_ r)) (length (bound_columns_ r)) 0).
  - done.
  - done.
  - simpl. eapply Forall_impl; [exact Hall|].
    intros c Hc. by apply before_move_col_cleared.
Qed.
End BeforeMove.

(** ** Fetching *)

Section Fetch.
Context {D : Type} {api : NativeAPI D} {platform : Platform}.
Implicit Types r : ResultImpl (D:=D).

(** [fetch] with [before_move] and the native call spelled out. *)
Lemma fetch_bound_ok r k o :
  bound_ok r →
  fetch k o r =
    let r1 := set_bound_columns (cleared (rowset_size_ r) <$> bound_columns_ r) r in
    let r2 := after_native_fetch (SQLFetchScroll (stmt_ r) o k).1
                (SQLFetchScroll (stmt_ r) o k).2 r1 in
    if fr_rc (SQLFetchScroll (stmt_ r) o k).2 =? SQL_NO_DATA
    then (Returns false, set_at_end true r2)
    else if negb (success (fr_rc (SQLFetchScroll (stmt_ r) o k).2))
         then (Throws (NANODBC_THROW_DATABASE_ERROR
                         (SQLFetchScroll (stmt_ r) o k).1 "2330"), r2)
         else (Returns true, r2).
Proof.
  intros Hok. unfold fetch. rewrite (before_move_ok r Hok). simpl.
  destruct (SQLFetchScroll (stmt_ r) o k) as [d fr]. simpl. done.
Qed.

Lemma driver_writes_lookup fr cs i c :
  cs !! i = Some c →
  driver_writes fr cs !! i
  = Some (set_pdata (if blob_ c then pdata_ c else fr_pdata fr i <$> pdata_ c)
            (set_cbdata (fr_cbdata fr i <$> cbdata_ c) c)).
Proof. intros Hc. unfold driver_writes. rewrite list_lookup_imap, Hc. done. Qed.

Lemma fetch_stmt r k o :
  bound_ok r → stmt_ (fetch k o r).2 = (SQLFetchScroll (stmt_ r) o k).1.
Proof.
  intros Hok. rewrite (fetch_bound_ok r k o Hok). simpl.
  destruct (fr_rc _ =? SQL_NO_DATA); [done|].
  by destruct (negb (success _)).
Qed.

Lemma fetch_rowset_position r k o :
  bound_ok r → rowset_position_ (fetch k o r).2 = rowset_position_ r.
Proof.
  intros Hok. rewrite (fetch_bound_ok r k o Hok). simpl.
  destruct (fr_rc _ =? SQL_NO_DATA); [done|].
  by destruct (negb (success _)).
Qed.

Lemma bound_ok_set_rowset_position r p :
  bound_ok r → bound_ok (set_rowset_position p r).
Proof. intros [? ?]. by split. Qed.

(** C5 (amended).  Before the native call every fetch sets all
    [rowset_size_] indicators of every bound column to 0 and releases the
    buffer of a variable-length column ([pdata_] null); the data buffer of a
    fixed-length column is left as it is.  The native call is made on that
    cleared state [r1]: the fetch is defined, the object it leaves is the
    driver's reply applied to [r1] (with the end flag set on
    [SQL_NO_DATA]), so every indicator array after the fetch is what the
    driver wrote over [rowset_size_] zeros and a variable-length column
    still has no buffer.  Across the whole fetch the rowset size, the
    column count, the name map, the in-batch offset and each column's
    description are unchanged. *)
Theorem fetch_clears_indicators r k o :
  bound_ok r →
  ∃ r1,
    before_move r = Some r1 ∧
    (stmt_ r1 = stmt_ r ∧ rowset_size_ r1 = rowset_size_ r ∧
     row_count_ r1 = row_count_ r ∧
     bound_columns_size_ r1 = bound_columns_size_ r ∧
     rowset_position_ r1 = rowset_position_ r ∧
     bound_columns_by_name_ r1 = bound_columns_by_name_ r ∧
     at_end_ r1 = at_end_ r) ∧
    length (bound_columns_ r1) = length (bound_columns_ r) ∧
    (∀ i c, bound_columns_ r !! i = Some c →
       ∃ c1, bound_columns_ r1 !! i = Some c1 ∧
         cbdata_ c1 = Some (replicate (Z.to_nat (rowset_size_ r)) 0) ∧
         (blob_ c = true → pdata_ c1 = None) ∧
         (blob_ c = false → pdata_ c1 = pdata_ c ∧ clen_ c1 = clen_ c)) ∧
    (let reply := (SQLFetchScroll (stmt_ r) o k).2 in
     (fetch k o r).1 ≠ Undefined ∧
     (fetch k o r).2
     = (if fr_rc reply =? SQL_NO_DATA then set_at_end true else id)
         (after_native_fetch (SQLFetchScroll (stmt_ r) o k).1 reply r1) ∧
     bound_columns_ (fetch k o r).2 = driver_writes reply (bound_columns_ r1) ∧
     (∀ i c, bound_columns_ r !! i = Some c →
        ∃ c', bound_columns_ (fetch k o r).2 !! i = Some c' ∧
          cbdata_ c'
          = Some (fr_cbdata reply i (replicate (Z.to_nat (rowset_size_ r)) 0)) ∧
          (blob_ c = true → pdata_ c' = None) ∧
          (blob_ c = false → pdata_ c' = fr_pdata reply i <$> pdata_ c))) ∧
    stmt_ (fetch k o r).2 = (SQLFetchScroll (stmt_ r) o k).1 ∧
    (rowset_size_ (fetch k o r).2 = rowset_size_ r ∧
     bound_columns_size_ (fetch k o r).2 = bound_columns_size_ r ∧
     rowset_position_ (fetch k o r).2 = rowset_position_ r ∧
     bound_columns_by_name_ (fetch k o r).2 = bound_columns_by_name_ r) ∧
    (∀ i c, bound_columns_ r !! i = Some c →
       ∃ c', bound_columns_ (fetch k o r).2 !! i = Some c' ∧
         name_ c' = name_ c ∧ column_ c' = column_ c ∧
         sqltype_ c' = sqltype_ c ∧ sqlsize_ c' = sqlsize_ c ∧
         scale_ c' = scale_ c ∧ ctype_ c' = ctype_ c ∧ blob_ c' = blob_ c).
Proof.
  intros Hok.
  eexists. split; [by apply before_move_ok|].
  split; [done|]. split; [simpl; by rewrite length_fmap|].
  split.
  { intros i c Hc. eexists. split.
    - simpl. rewrite list_lookup_fmap, Hc. done.
    - unfold cleared.
      destruct (blob_ c) eqn:Hb, (pdata_ c) as [p|] eqn:Hp; simpl;
        repeat split; intros; simpl; congruence. }
  rewrite (fetch_bound_ok r k o Hok).
  destruct (SQLFetchScroll (stmt_ r) o k) as [d fr]. simpl.
  assert (Hwrites : ∀ i c, bound_columns_ r !! i = Some c →
    ∃ c', driver_writes fr (cleared (rowset_size_ r) <$> bound_columns_ r) !! i
          = Some c' ∧
      cbdata_ c' = Some (fr_cbdata fr i (replicate (Z.to_nat (rowset_size_ r)) 0)) ∧
      (blob_ c = true → pdata_ c' = None) ∧
      (blob_ c = false → pdata_ c' = fr_pdata fr i <$> pdata_ c)).
  { intros i c Hc. eexists. split.
    - apply driver_writes_lookup. rewrite list_lookup_fmap, Hc. done.
    - unfold cleared. destruct c as [? ? ? ? ? ? ? [] ? [p|]]; simpl;
        repeat split; intros; simpl; congruence. }
  assert (Hcols : ∀ i c, bound_columns_ r !! i = Some c →
    ∃ c', driver_writes fr (cleared (rowset_size_ r) <$> bound_columns_ r) !! i
          = Some c' ∧
      name_ c' = name_ c ∧ column_ c' = column_ c ∧
      sqltype_ c' = sqltype_ c ∧ sqlsize_ c' = sqlsize_ c ∧
      scale_ c' = scale_ c ∧ ctype_ c' = ctype_ c ∧ blob_ c' = blob_ c).
  { intros i c Hc. eexists. split.
    - apply driver_writes_lookup. rewrite list_lookup_fmap, Hc. done.
    - unfold cleared.
      destruct (blob_ c && bool_decide (is_Some (pdata_ c))); simpl;
        by repeat split. }
  destruct (fr_rc fr =? SQL_NO_DATA); [by repeat split|].
  destruct (negb (success (fr_rc fr))); by repeat split.
Qed.

(** C4 (amended).  [first], [last] and [move] always set the in-batch
    offset to 0 and issue one native fetch with their orientation
    (first, last, absolute).  [prior] does so (orientation prior) only when
    the batch is empty or the offset is 0 or negative; otherwise it only
    decrements the in-batch offset and makes no native call. *)
Theorem navigation_refetch r row :
  bound_ok r →
  (rowset_position_ (first r).2 = 0 ∧
   stmt_ (first r).2 = (SQLFetchScroll (stmt_ r) SQL_FETCH_FIRST 0).1) ∧
  (rowset_position_ (last r).2 = 0 ∧
   stmt_ (last r).2 = (SQLFetchScroll (stmt_ r) SQL_FETCH_LAST 0).1) ∧
  (rowset_position_ (move row r).2 = 0 ∧
   stmt_ (move row r).2 = (SQLFetchScroll (stmt_ r) SQL_FETCH_ABSOLUTE row).1) ∧
  (if bool_decide (rows r ≠ 0 ∧ 1 ≤ rowset_position_ r)
   then prior r = (Returns true, set_rowset_position (rowset_position_ r - 1) r)
   else rowset_position_ (prior r).2 = 0 ∧
        stmt_ (prior r).2 = (SQLFetchScroll (stmt_ r) SQL_FETCH_PRIOR 0).1).
Proof.
  intros Hok.
  pose proof (bound_ok_set_rowset_position r 0 Hok) as Hok0.
  repeat split.
  - unfold first, bind, modify. simpl. by rewrite fetch_rowset_position.
  - unfold first, bind, modify. simpl. by rewrite fetch_stmt.
  - unfold last, bind, modify. simpl. by rewrite fetch_rowset_position.
  - unfold last, bind, modify. simpl. by rewrite fetch_stmt.
  - unfold move, bind, modify. simpl. by rewrite fetch_rowset_position.
  - unfold move, bind, modify. simpl. by rewrite fetch_stmt.
  - unfold prior. case_bool_decide as Hc.
    + destruct Hc as [Hrows Hpos].
      rewrite bool_decide_true by done. simpl.
      destruct (Z.leb_spec 0 (rowset_position_ r - 1)); [done|lia].
    + case_bool_decide as Hrows.
      * simpl. destruct (Z.leb_spec 0 (rowset_position_ r - 1)); [lia|].
        rewrite fetch_rowset_position, fetch_stmt; done.
      * rewrite fetch_rowset_position, fetch_stmt; done.
Qed.
End Fetch.

(** ** Auto-binding *)

Lemma names_registered_S name j :
  names_registered name (S j) = <[name j := j]> (names_registered name j).
Proof. unfold names_registered. by rewrite seq_S, foldl_app. Qed.

(** A name resolves to the last ordinal that carries it. *)
Lemma names_registered_last name n i :
  (i < n)%nat →
  (∀ j, (i < j < n)%nat → name j ≠ name i) →
  names_registered name n !! name i = Some i.
Proof.
  induction n as [|n IH]; intros Hi Hlast; [lia|].
  rewrite names_registered_S.
  destruct (decide (i = n)) as [->|Hne].
  - apply lookup_insert_eq.
  - rewrite lookup_insert_ne by (apply Hlast; lia).
    apply IH; [lia|]. intros j Hj. apply Hlast. lia.
Qed.

Lemma names_registered_none name n s :
  (∀ j, (j < n)%nat → name j ≠ s) → names_registered name n !! s = None.
Proof.
  induction n as [|n IH]; intros Hno; [apply lookup_empty|].
  rewrite names_registered_S, lookup_insert_ne by (apply Hno; lia).
  apply IH. intros j Hj. apply Hno. lia.
Qed.

Section AutoBind.
Context {D : Type} {api : NativeAPI D} {platform : Platform}.
Implicit Types r : ResultImpl (D:=D).

(** Loop invariants: if every iteration that returns re-establishes the
    invariant, a loop that returns ends in it. *)
Lemma for_each_seq_inv (I : nat → ResultImpl (D:=D) → Prop) body m :
  ∀ k r r',
    I k r →
    (∀ j r1 r1', (k ≤ j < k + m)%nat → I j r1 →
                 body j r1 = (Returns tt, r1') → I (S j) r1') →
    for_each (seq k m) body r = (Returns tt, r') →
    I (k + m)%nat r'.
Proof.
  induction m as [|m IH]; intros k r r' HI Hstep Hrun; simpl in Hrun.
  - unfold ret in Hrun. inversion Hrun; subst. by rewrite Nat.add_0_r.
  - unfold bind in Hrun.
    destruct (body k r) as [[[]| | |] r1] eqn:Hbody; try discriminate.
    replace (k + S m)%nat with (S k + m)%nat by lia.
    apply (IH (S k) r1 r').
    + apply (Hstep k r r1); [lia|done|done].
    + intros j r2 r2' Hj. apply Hstep. lia.
    + done.
Qed.

(** ... and if every iteration returns, so does the loop. *)
Lemma for_each_seq_returns (I : nat → ResultImpl (D:=D) → Prop) body m :
  ∀ k r,
    I k r →
    (∀ j r1, (k ≤ j < k + m)%nat → I j r1 →
             ∃ r1', body j r1 = (Returns tt, r1') ∧ I (S j) r1') →
    ∃ r', for_each (seq k m) body r = (Returns tt, r') ∧ I (k + m)%nat r'.
Proof.
  induction m as [|m IH]; intros k r HI Hstep; simpl.
  - exists r. rewrite Nat.add_0_r. done.
  - destruct (Hstep k r) as (r1 & Hbody & HI1); [lia|done|].
    unfold bind. rewrite Hbody.
    replace (k + S m)%nat with (S k + m)%nat by lia.
    apply IH; [done|]. intros j r2 Hj. apply Hstep. lia.
Qed.

Lemma describe_column_step r0 n j r r' :
  (j < n)%nat → described r0 n j r →
  describe_column j r = (Returns tt, r') → described r0 n (S j) r'.
Proof.
  intros Hj (Hsame & Hstmt & Hsize & Hlen & Hmap & Hcols) Hstep.
  unfold describe_column in Hstep. rewrite Hstmt in Hstep.
  destruct (negb (success _)); [discriminate|].
  destruct (bound_columns_ r !! j) as [col|] eqn:Hcol; [|discriminate].
  inversion Hstep; subst r'; clear Hstep.
  unfold described, same_cursor in *. simpl.
  split; [done|]. split; [done|]. split; [done|].
  split; [by rewrite length_insert|].
  split; [by rewrite names_registered_S, Hmap|].
  intros i c Hi Hc.
  destruct (decide (i = j)) as [->|Hne].
  - rewrite list_lookup_insert_eq in Hc by lia. inversion Hc; subst c.
    unfold choose_buffer.
    repeat (match goal with |- context [if ?b then _ else _] => destruct b end);
      simpl; done.
  - rewrite list_lookup_insert_ne in Hc by done. apply Hcols; [lia|done].
Qed.

Lemma new_array_length {A} (heap : nat → A) n :
  length (new_array heap n) = Z.to_nat n.
Proof. unfold new_array. by rewrite length_fmap, length_seq. Qed.

Lemma bind_column_step r0 n j r r' :
  (j < n)%nat → bound r0 n j r →
  bind_column j r = (Returns tt, r') → bound r0 n (S j) r'.
Proof.
  intros Hj (Hsame & Hsize & Hlen & Hmap & Hcols & Hind) Hstep.
  unfold bind_column in Hstep.
  destruct (bound_columns_ r !! j) as [col|] eqn:Hcol; [|discriminate].
  destruct (rowset_size_ r <? 0); [discriminate|].
  destruct (Hcols j col Hcol) as [Hc1 Hc2].
  assert (Hgoal : ∀ d (c' : bound_column),
    column_ c' = column_ col → name_ c' = name_ col →
    indicators_allocated (rowset_size_ r) c' →
    bound r0 n (S j)
      (set_stmt d (set_bound_columns (<[j:=c']> (bound_columns_ r)) r))).
  { intros d c' Hcol' Hname' Hind'.
    unfold bound, same_cursor in *. simpl.
    split; [done|]. split; [done|]. split; [by rewrite length_insert|].
    split; [done|]. split.
    - intros i c Hc. destruct (decide (i = j)) as [->|Hne].
      + rewrite list_lookup_insert_eq in Hc by lia. inversion Hc; subst c.
        by rewrite Hcol', Hname'.
      + rewrite list_lookup_insert_ne in Hc by done. by apply Hcols.
    - intros i c Hi Hc. simpl. destruct (decide (i = j)) as [->|Hne].
      + rewrite list_lookup_insert_eq in Hc by lia. by inversion Hc; subst c.
      + rewrite list_lookup_insert_ne in Hc by done. apply (Hind i); [lia|done]. }
  simpl in Hstep. destruct (blob_ col).
  - destruct (SQLBindCol _ _ _ _ _) as [d rc].
    destruct (negb (success rc)); [discriminate|].
    inversion Hstep; subst r'. apply Hgoal; [done|done|].
    eexists. split; [done|]. apply new_array_length.
  - destruct (SQLBindCol _ _ _ _ _) as [d rc].
    destruct (negb (success rc)); [discriminate|].
    inversion Hstep; subst r'. apply Hgoal; [done|done|].
    eexists. split; [done|]. apply new_array_length.
Qed.

Lemma before_move_some r r1 :
  before_move r = Some r1 → ∃ cs, r1 = set_bound_columns cs r.
Proof.
  unfold before_move. intros Hbm.
  destruct (foldl _ _ _) as [cs|]; [|discriminate].
  simpl in Hbm. inversion Hbm. by exists cs.
Qed.

Lemma described_0 r1 n :
  bound_columns_by_name_ r1 = ∅ →
  described r1 n 0 (columns_created n r1).
Proof.
  intros Hmap. unfold described, same_cursor, columns_created. simpl.
  rewrite length_replicate. repeat split; try done; lia.
Qed.

Lemma described_bound r0 n r : described r0 n n r → bound r0 n 0 r.
Proof.
  intros (Hsame & Hstmt & Hsize & Hlen & Hmap & Hcols).
  unfold bound.
  split; [done|]. split; [done|]. split; [done|]. split; [done|]. split.
  - intros i c Hc. apply Hcols; [|done].
    apply lookup_lt_Some in Hc. lia.
  - intros; lia.
Qed.

(** What holds when [auto_bind] returns: [n] is the column count the
    statement reports. *)
Lemma auto_bind_post r r' :
  auto_bind r = (Returns tt, r') →
  same_cursor r r' ∧
  if (SQLNumResultCols (stmt_ r)).2 <? 1
  then bound_columns_ r' = [] ∧ bound_columns_size_ r' = 0 ∧
       bound_columns_by_name_ r' = ∅ ∧ stmt_ r' = stmt_ r
  else
    let n := Z.to_nat (SQLNumResultCols (stmt_ r)).2 in
    bound_columns_size_ r' = Z.of_nat n ∧ length (bound_columns_ r') = n ∧
    bound_columns_by_name_ r'
    = names_registered (λ i, dc_name (SQLDescribeCol (stmt_ r) (Z.of_nat i + 1))) n ∧
    (∀ i c, bound_columns_ r' !! i = Some c →
       column_ c = Z.of_nat i ∧
       name_ c = dc_name (SQLDescribeCol (stmt_ r) (Z.of_nat i + 1)) ∧
       indicators_allocated (rowset_size_ r) c).
Proof.
  unfold auto_bind, cleanup_bound_columns. intros Hab.
  destruct (before_move r) as [rb|] eqn:Hbm; [|discriminate].
  apply before_move_some in Hbm as [cs ->]. simpl in Hab.
  unfold columns in Hab. simpl in Hab.
  destruct (SQLNumResultCols (stmt_ r)) as [rc nc] eqn:Hnc. simpl.
  destruct (negb (success rc)); [discriminate|].
  destruct (nc <? 1) eqn:Hlt.
  - inversion Hab; subst r'. by repeat split.
  - apply Z.ltb_ge in Hlt.
    set (r1 := set_by_name ∅ (set_bound_columns_size 0
                (set_bound_columns [] (set_bound_columns cs r)))) in *.
    set (n := Z.to_nat nc) in *.
    unfold bind in Hab.
    destruct (for_each (seq 0 n) describe_column _) as [[[]| | |] r2] eqn:Hloop1;
      try discriminate.
    assert (Hcreated :
      set_bound_columns_size nc (set_bound_columns (replicate n bound_column_ctor) r1)
      = columns_created n r1).
    { unfold columns_created. subst n. by rewrite Z2Nat.id by lia. }
    rewrite Hcreated in Hloop1.
    pose proof (for_each_seq_inv (described r1 n) describe_column n 0 _ r2
                  (described_0 r1 n eq_refl)) as H1.
    specialize (H1 (λ j ra rb Hj, describe_column_step r1 n j ra rb (proj2 Hj)) Hloop1).
    simpl in H1. apply described_bound in H1.
    pose proof (for_each_seq_inv (bound r1 n) bind_column n 0 r2 r' H1) as H2.
    specialize (H2 (λ j ra rb Hj, bind_column_step r1 n j ra rb (proj2 Hj)) Hab).
    simpl in H2.
    destruct H2 as (Hsame & Hsize & Hlen & Hmap & Hcols & Hind).
    split; [exact Hsame|].
    split; [done|]. split; [done|]. split; [done|].
    intros i c Hc. destruct (Hcols i c Hc) as [? ?].
    split; [done|]. split; [done|].
    destruct Hsame as (Hrs & _). rewrite Hrs in Hind. simpl in Hind.
    apply (Hind i); [|done]. apply lookup_lt_Some in Hc. lia.
Qed.

(** A successful [auto_bind] establishes [bound_ok]. *)
Lemma auto_bind_bound_ok r r' :
  auto_bind r = (Returns tt, r') → bound_ok r'.
Proof.
  intros Hab. destruct (auto_bind_post r r' Hab) as [(Hrs & _) Hpost].
  destruct (_ <? 1).
  - destruct Hpost as (Hcs & Hsize & _). unfold bound_ok.
    rewrite Hcs, Hsize. split; [done|constructor].
  - destruct Hpost as (Hsize & Hlen & _ & Hcols). split.
    + by rewrite Hsize, Hlen.
    + apply Forall_lookup. intros i c Hc. rewrite Hrs.
      by destruct (Hcols i c Hc) as (_ & _ & ?).
Qed.

(** C6 (amended).  For every bound column, auto-bind allocates the
    indicator array with exactly [rowset_size_] entries (the requested batch
    size); there is no minimum of 8. *)
Theorem auto_bind_indicator_size r r' :
  auto_bind r = (Returns tt, r') →
  rowset_size_ r' = rowset_size_ r ∧
  ∀ i c, bound_columns_ r' !! i = Some c →
    ∃ cb, cbdata_ c = Some cb ∧ length cb = Z.to_nat (rowset_size_ r).
Proof.
  intros Hab. destruct (auto_bind_post r r' Hab) as [(Hrs & _) Hpost].
  split; [done|]. intros i c Hc.
  destruct (_ <? 1).
  - destruct Hpost as (Hcs & _). rewrite Hcs in Hc. done.
  - destruct Hpost as (_ & _ & _ & Hcols).
    by destruct (Hcols i c Hc) as (_ & _ & ?).
Qed.

(** C7 (amended).  When several columns of a result carry the same name,
    [column(name)], and with it [isNull] and [get] by name, resolve to the
    last of them in ordinal order (each column overwrites the map entry of
    its name); a name no column carries raises the index-range error.
    Duplicates are not an error. *)
Theorem column_name_last_wins r r' :
  auto_bind r = (Returns tt, r') →
  let n := (SQLNumResultCols (stmt_ r)).2 in
  let name i := dc_name (SQLDescribeCol (stmt_ r) (i + 1)) in
  (∀ i, 0 ≤ i < n →
     (∀ j, i < j < n → name j ≠ name i) →
     column (name i) r' = Returns i ∧
     isNull_by_name (name i) r' = isNull i r' ∧
     ∀ (T : Type) (impl : Z → M (D:=D) T) (fallback : T),
       get_by_name impl (name i) r' = get impl i r' ∧
       get_by_name_fallback impl (name i) fallback r'
       = get_fallback impl i fallback r') ∧
  (∀ s, (∀ j, 0 ≤ j < n → name j ≠ s) → column s r' = Throws IndexRangeError).
Proof.
  intros Hab n name. destruct (auto_bind_post r r' Hab) as [_ Hpost].
  fold n in Hpost. destruct (Z.ltb_spec n 1) as [Hlt|Hge].
  - destruct Hpost as (_ & _ & Hmap & _). split; [intros; lia|].
    intros s _. unfold column. by rewrite Hmap, lookup_empty.
  - simpl in Hpost. destruct Hpost as (Hsize & Hlen & Hmap & Hcols). split.
    + intros i Hi Hlast.
      assert (Hcolumn : column (name i) r' = Returns i).
      { unfold column. rewrite Hmap.
        pose proof (names_registered_last
          (λ i, dc_name (SQLDescribeCol (stmt_ r) (Z.of_nat i + 1)))
          (Z.to_nat n) (Z.to_nat i)) as Hreg.
        simpl in Hreg. rewrite Z2Nat.id in Hreg by lia.
        fold (name i) in Hreg. rewrite Hreg.
        - destruct (lookup_lt_is_Some_2 (bound_columns_ r') (Z.to_nat i)) as [c Hc];
            [lia|].
          rewrite Hc. destruct (Hcols _ c Hc) as (Hcol & _).
          rewrite Hcol. f_equal. lia.
        - lia.
        - intros j Hj. specialize (Hlast (Z.of_nat j)). apply Hlast. lia. }
      split; [exact Hcolumn|].
      split; [unfold isNull_by_name; by rewrite Hcolumn|].
      intros T impl fallback.
      unfold get_by_name, get_by_name_fallback, getRef_by_name,
        getRef_by_name_fallback, get, get_fallback, getRef, getRef_fallback.
      rewrite Hcolumn, Hsize.
      destruct (Z.leb_spec (Z.of_nat (Z.to_nat n)) i); [lia|done].
    + intros s Hno. unfold column. rewrite Hmap, names_registered_none; [done|].
      intros j Hj. apply (Hno (Z.of_nat j)). lia.
Qed.
End AutoBind.

(** ** The cursor on the reference statement *)

Section OnRefDriver.
Context {platform : Platform}.
Implicit Types r : ResultImpl (D:=RefDriver.stmt).
Implicit Types s : RefDriver.stmt.

Lemma ref_describe_returns r0 n j r :
  (j < n)%nat → length (RefDriver.cols (stmt_ r0)) = n →
  Forall (λ d, success (dc_rc d) = true) (RefDriver.cols (stmt_ r0)) →
  described r0 n j r →
  ∃ r', describe_column j r = (Returns tt, r') ∧ described r0 n (S j) r'.
Proof.
  intros Hj Hn Hall Hd.
  assert (∃ r', describe_column j r = (Returns tt, r')) as [r' Hr'].
  { destruct Hd as (_ & Hstmt & _ & Hlen & _).
    unfold describe_column. rewrite Hstmt. simpl.
    unfold RefDriver.describe_col, at_Z.
    destruct (Z.ltb_spec (Z.of_nat j + 1 - 1) 0); [lia|].
    replace (Z.to_nat (Z.of_nat j + 1 - 1)) with j by lia.
    destruct (lookup_lt_is_Some_2 (RefDriver.cols (stmt_ r0)) j) as [d Hd];
      [lia|].
    rewrite Hd. rewrite Forall_lookup in Hall. rewrite (Hall j d Hd). simpl.
    destruct (lookup_lt_is_Some_2 (bound_columns_ r) j) as [c Hc]; [lia|].
    rewrite Hc. eauto. }
  exists r'. split; [done|]. by eapply describe_column_step.
Qed.

Lemma ref_bind_returns r0 n j r s0 :
  (j < n)%nat → length (RefDriver.cols s0) = n →
  0 ≤ rowset_size_ r →
  bound r0 n j r ∧ same_result s0 (stmt_ r) →
  ∃ r', bind_column j r = (Returns tt, r') ∧
        (bound r0 n (S j) r' ∧ same_result s0 (stmt_ r')).
Proof.
  intros Hj Hn HB [Hb Hs].
  assert (∃ r', bind_column j r = (Returns tt, r') ∧ same_result s0 (stmt_ r'))
    as (r' & Hr' & Hs').
  { destruct Hb as (_ & _ & Hlen & _).
    destruct Hs as (Hcols & Hrest).
    unfold bind_column.
    destruct (lookup_lt_is_Some_2 (bound_columns_ r) j) as [c Hc]; [lia|].
    rewrite Hc. destruct (Z.ltb_spec (rowset_size_ r) 0); [lia|].
    simpl. unfold RefDriver.bind_col.
    destruct (blob_ c); simpl; rewrite Hcols, Hn;
      (destruct (Z.leb_spec 1 (Z.of_nat j + 1)); [|lia]);
      (destruct (Z.leb_spec (Z.of_nat j + 1) (Z.of_nat n)); [|lia]);
      simpl; eexists; (split; [done|]); by split. }
  exists r'. split; [done|]. split; [|done]. by eapply bind_column_step.
Qed.

(** The constructor returns on every executed statement whose columns can
    be described, and the cursor is [created]. *)
Lemma ref_ctor_created columns N cells B :
  1 ≤ B →
  Forall (λ d, success (dc_rc d) = true) columns →
  ∃ r0, ResultImpl_ctor (RefDriver.executed columns N cells) B = Returns r0 ∧
        created N B r0.
Proof.
  intros HB Hall. unfold ResultImpl_ctor. simpl.
  unfold RefDriver.set_array_size.
  destruct (Z.ltb_spec B 1); [lia|]. simpl.
  match goal with |- context [auto_bind ?r] => set (r0 := r) end.
  assert (∃ r', auto_bind r0 = (Returns tt, r') ∧
                same_result (stmt_ r0) (stmt_ r')) as (r' & Hab & Hs).
  { unfold auto_bind, cleanup_bound_columns. simpl.
    destruct (Z.ltb_spec (Z.of_nat (length columns)) 1) as [Hlt|Hge].
    { eexists. split; [done|]. by repeat split. }
    rewrite Nat2Z.id.
    set (r1 := set_by_name ∅ (set_bound_columns_size 0
                 (set_bound_columns [] (set_bound_columns [] r0)))).
    set (n := length columns) in *.
    change (set_bound_columns_size (Z.of_nat n)
              (set_bound_columns (replicate n bound_column_ctor) r1))
      with (columns_created n r1).
    destruct (for_each_seq_returns (described r1 n) describe_column n 0
                (columns_created n r1) (described_0 r1 n eq_refl))
      as (ra & Hloop1 & Hda).
    { intros j rj Hj Hdj. apply (ref_describe_returns r1 n j rj); try done. lia. }
    simpl in Hda.
    destruct (for_each_seq_returns
                (λ j r, bound r1 n j r ∧ same_result (stmt_ r0) (stmt_ r))
                bind_column n 0 ra) as (rb & Hloop2 & Hdb & Hsb).
    { split; [by apply described_bound|].
      destruct Hda as (_ & Hstmt & _). rewrite Hstmt. by repeat split. }
    { intros j rj Hj [Hbj Hsj].
      apply (ref_bind_returns r1 n j rj (stmt_ r0)); try done; [lia|].
      destruct Hbj as ((Hrs & _) & _). rewrite Hrs. simpl. lia. }
    exists rb. split; [|done].
    unfold bind. rewrite Hloop1. exact Hloop2. }
  rewrite Hab. exists r'. split; [done|].
  destruct (auto_bind_post r0 r' Hab) as [(Hrs & Hrc & Hpos & Hend) _].
  destruct Hs as (_ & HN & HBs & Hstart & Hcalls).
  unfold created. split; [by eapply auto_bind_bound_ok|].
  by repeat split.
Qed.

Lemma fetched_range s start :
  1 ≤ RefDriver.array_size s →
  0 ≤ RefDriver.fetched s start ≤ RefDriver.array_size s.
Proof.
  intros HB. unfold RefDriver.fetched.
  destruct (Z.leb_spec 1 start), (Z.leb_spec start (RefDriver.n_rows s));
    simpl; lia.
Qed.

Lemma driver_writes_allocated (fr : FetchReply) n cs :
  (∀ i l, length (fr_cbdata fr i l) = length l) →
  Forall (indicators_allocated n) cs →
  Forall (indicators_allocated n) (driver_writes fr cs).
Proof.
  intros Hlen Hall. apply Forall_lookup. intros i c' Hc'.
  unfold driver_writes in Hc'. rewrite list_lookup_imap in Hc'.
  destruct (cs !! i) as [c|] eqn:Hc; [|discriminate].
  simpl in Hc'. inversion Hc'; subst c'; clear Hc'.
  rewrite Forall_lookup in Hall. destruct (Hall i c Hc) as (cb & Hcb & Hl).
  unfold indicators_allocated. simpl. rewrite Hcb. simpl.
  eexists. split; [done|]. by rewrite Hlen.
Qed.

Lemma cleared_allocated n c :
  indicators_allocated n (cleared n c).
Proof.
  unfold indicators_allocated, cleared.
  destruct (blob_ c && _); simpl; eexists; (split; [done|]);
    by rewrite length_replicate.
Qed.

(** A fetch on the reference statement. *)
Lemma ref_fetch r k o :
  bound_ok r → 1 ≤ RefDriver.array_size (stmt_ r) < 2 ^ 64 →
  let start := RefDriver.next_start (stmt_ r) o k in
  let n := RefDriver.fetched (stmt_ r) start in
  ∃ r', fetch k o r = (Returns (0 <? n), r') ∧
        bound_ok r' ∧ rowset_size_ r' = rowset_size_ r ∧
        rowset_position_ r' = rowset_position_ r ∧ row_count_ r' = n ∧
        at_end_ r' = at_end_ r || negb (0 <? n) ∧
        stmt_ r' = RefDriver.with_position start (o, k) (stmt_ r).
Proof.
  intros Hok HB start n.
  pose proof (fetched_range (stmt_ r) start (proj1 HB)) as Hn. fold n in Hn.
  rewrite (fetch_bound_ok r k o Hok). simpl.
  fold start. fold n.
  assert (Hok' : ∀ b, bound_ok (set_at_end b (set_stmt
      (RefDriver.with_position start (o, k) (stmt_ r))
      (set_row_count (to_ulen n)
         (set_bound_columns
            (driver_writes
               {| fr_rc := if 0 <? n then SQL_SUCCESS else SQL_NO_DATA;
                  fr_row_count := Some n;
                  fr_cbdata := RefDriver.write_indicators (stmt_ r) start;
                  fr_pdata := RefDriver.write_data (stmt_ r) start |}
               (cleared (rowset_size_ r) <$> bound_columns_ r))
            (set_bound_columns (cleared (rowset_size_ r) <$> bound_columns_ r) r)))))).
  { intros b. destruct Hok as [Hsize Hall]. split; simpl.
    - unfold driver_writes. by rewrite length_imap, length_fmap.
    - apply driver_writes_allocated.
      + intros i l. simpl. unfold RefDriver.write_indicators.
        by rewrite length_imap.
      + apply Forall_fmap, Forall_true. intros c. apply cleared_allocated. }
  assert (Hu : to_ulen n = n) by (apply to_ulen_small; lia).
  destruct (Z.ltb_spec 0 n) as [Hpos|Hzero]; simpl.
  - eexists. split; [done|]. simpl. rewrite Hu, orb_false_r.
    split; [|done].
    specialize (Hok' (at_end_ r)). destruct Hok' as [? ?]. by split.
  - eexists. split; [done|]. simpl. rewrite Hu, orb_true_r.
    split; [|done]. apply (Hok' true).
Qed.










(** [position()] on row [k]: the row number, from 1. *)
Lemma position_on_row N B k r :
  N < 2 ^ 63 → on_row N B k r → position r = Returns (k + 1).
Proof.
  intros HN63 (Hok & Hrs & HN & HBs & Hs & Hcnt & Hpos & Hk).
  unfold position, row_number. simpl. unfold RefDriver.row_number.
  rewrite HN.
  destruct (Z.leb_spec 1 (RefDriver.rowset_start (stmt_ r))); [|lia].
  destruct (Z.leb_spec (RefDriver.rowset_start (stmt_ r)) N); [|lia].
  simpl. rewrite (to_ulen_small (RefDriver.rowset_start (stmt_ r))) by lia.
  destruct (Z.eqb_spec (RefDriver.rowset_start (stmt_ r)) 0); [lia|].
  assert (Hunk : to_ulen SQL_ROW_NUMBER_UNKNOWN = 2 ^ 64 - 2) by done.
  rewrite Hunk.
  destruct (Z.eqb_spec (RefDriver.rowset_start (stmt_ r)) (2 ^ 64 - 2)); [lia|].
  simpl. rewrite to_ulen_small by lia. f_equal. lia.
Qed.


End OnRefDriver.

(** ** The end-of-data flag *)

Section AtEnd.
Context {D : Type} {api : NativeAPI D} {platform : Platform}.
Implicit Types r : ResultImpl (D:=D).





End AtEnd.

Section CursorOrder.
Context {platform : Platform}.

End CursorOrder.

(** ** Typed access: range and null checks *)

Section Access.
Context {D : Type} {api : NativeAPI D} {platform : Platform}.
Context {T : Type} (get_ref_impl : Z → M (D:=D) T).
Implicit Types r : ResultImpl (D:=D).

Lemma isNull_null r column col cb :
  column < bound_columns_size_ r →
  rowset_position_ r < rows r →
  at_Z (bound_columns_ r) column = Some col →
  cbdata_ col = Some cb →
  at_Z cb (rowset_position_ r) = Some SQL_NULL_DATA →
  isNull column r = Returns true.
Proof.
  intros Hcol Hpos Hc Hcb Hind. unfold isNull.
  destruct (Z.leb_spec (bound_columns_size_ r) column); [lia|].
  destruct (Z.leb_spec (rows r) (rowset_position_ r)); [lia|].
  by rewrite Hc, Hcb, Hind.
Qed.

Lemma ctor_no_rows (stmt : D) rowsetSize r0 :
  ResultImpl_ctor stmt rowsetSize = Returns r0 →
  rows r0 = 0 ∧ rowset_position_ r0 = 0.
Proof.
  intros Hctor. unfold ResultImpl_ctor in Hctor.
  destruct (SQLSetStmtAttr_ROW_ARRAY_SIZE stmt rowsetSize) as [d1 rc1].
  destruct (negb (success rc1)); [discriminate|].
  destruct (SQLSetStmtAttr_ROWS_FETCHED_PTR d1) as [d2 rc2].
  destruct (negb (success rc2)); [discriminate|].
  match type of Hctor with
  | context [auto_bind ?ri] =>
      destruct (auto_bind ri) as [[[]| | |] r1] eqn:Hab; try discriminate;
      destruct (auto_bind_post ri r1 Hab) as [(_ & Hrc & Hp & _) _]
  end.
  inversion Hctor; subst r0. unfold rows. by rewrite Hrc, Hp.
Qed.

(** C2.  On a bound column whose indicator for the current row is
    [SQL_NULL_DATA], [get<T>(ordinal)] and [getRef<T>(ordinal)] raise the
    null-access error and [get<T>(ordinal, fallback)] returns [fallback];
    [get_ref_impl] is not called, and the outcome is the same whatever the
    column's data buffer holds. *)
Theorem null_cell_access r column fallback col cb :
  column < bound_columns_size_ r →
  rowset_position_ r < rows r →
  at_Z (bound_columns_ r) column = Some col →
  cbdata_ col = Some cb →
  at_Z cb (rowset_position_ r) = Some SQL_NULL_DATA →
  (getRef get_ref_impl column r = (Throws NullAccessError, r) ∧
   get get_ref_impl column r = (Throws NullAccessError, r) ∧
   getRef_fallback get_ref_impl column fallback r = (Returns fallback, r) ∧
   get_fallback get_ref_impl column fallback r = (Returns fallback, r)) ∧
  (∀ p,
     let r' := set_bound_columns
                 (<[Z.to_nat column := set_pdata p col]> (bound_columns_ r)) r in
     get get_ref_impl column r' = (Throws NullAccessError, r') ∧
     get_fallback get_ref_impl column fallback r' = (Returns fallback, r')).
Proof.
  intros Hcol Hpos Hc Hcb Hind.
  assert (Hgen : ∀ r1 : ResultImpl (D:=D),
    column < bound_columns_size_ r1 →
    isNull column r1 = Returns true →
    getRef get_ref_impl column r1 = (Throws NullAccessError, r1) ∧
    getRef_fallback get_ref_impl column fallback r1 = (Returns fallback, r1)).
  { intros r1 Hc1 Hn. unfold getRef, getRef_fallback, getRef_after_null_check.
    destruct (Z.leb_spec (bound_columns_size_ r1) column); [lia|].
    by rewrite Hn. }
  split.
  - destruct (Hgen r Hcol (isNull_null r column col cb Hcol Hpos Hc Hcb Hind))
      as [H1 H2].
    unfold get, get_fallback. by repeat split.
  - intros p r'. unfold get, get_fallback. apply Hgen; [done|].
    apply (isNull_null r' column (set_pdata p col) cb); try done.
    unfold at_Z in *. simpl.
    destruct (column <? 0); [done|].
    apply list_lookup_insert_eq. by eapply lookup_lt_Some.
Qed.

(** C10.  Whenever the in-batch offset is at or past the number of rows
    fetched, [isNull], [getRef] and [get], with or without fallback, raise
    the index-range error for every ordinal and leave the cursor as it is;
    [get_ref_impl] is not called, so no buffer is read.  This is the state
    of a cursor right after construction: no rows fetched, offset 0. *)
Theorem access_without_row r column fallback :
  rows r ≤ rowset_position_ r →
  isNull column r = Throws IndexRangeError ∧
  getRef get_ref_impl column r = (Throws IndexRangeError, r) ∧
  get get_ref_impl column r = (Throws IndexRangeError, r) ∧
  getRef_fallback get_ref_impl column fallback r = (Throws IndexRangeError, r) ∧
  get_fallback get_ref_impl column fallback r = (Throws IndexRangeError, r) ∧
  (∀ stmt rowsetSize r0,
     ResultImpl_ctor stmt rowsetSize = Returns r0 →
     rows r0 = 0 ∧ rowset_position_ r0 = 0).
Proof.
  intros Hpos.
  assert (Hn : isNull column r = Throws IndexRangeError).
  { unfold isNull. destruct (_ <=? column); [done|].
    destruct (Z.leb_spec (rows r) (rowset_position_ r)); [done|lia]. }
  unfold get, get_fallback, getRef, getRef_fallback, getRef_after_null_check.
  rewrite Hn. split; [done|].
  split; [by destruct (_ <=? column)|]. split; [by destruct (_ <=? column)|].
  split; [by destruct (_ <=? column)|]. split; [by destruct (_ <=? column)|].
  apply ctor_no_rows.
Qed.
End Access.

(** ** Typed extraction: supported conversions *)

Section Conversions.
Context {D : Type} {api : NativeAPI D} {platform : Platform}.
Context {T : Type} (cast : native_value → T).
Implicit Types r : ResultImpl (D:=D).

Lemma get_not_null {U} (impl : Z → M (D:=D) U) r column :
  column < bound_columns_size_ r →
  isNull column r = Returns false →
  get impl column r = impl column r.
Proof.
  intros Hc Hn. unfold get, getRef, getRef_after_null_check.
  destruct (Z.leb_spec (bound_columns_size_ r) column); [lia|].
  by rewrite Hn.
Qed.




End Conversions.

(** ** Diagnostics *)

Lemma string_app_cons x (a b : string) : String x a +:+ b = String x (a +:+ b).
Proof. reflexivity. Qed.


(** After [std::replace] the replaced character is gone. *)
Lemma replace_removes old new (s : string) :
  old ≠ new → old ∉ list_ascii_of_string (replace old new s).
Proof.
  intros Hne. induction s as [|c s IH]; simpl.
  - apply not_elem_of_nil.
  - apply not_elem_of_cons. split; [|done].
    destruct (Ascii.eqb_spec c old); congruence.
Qed.












(** ** The properties at concrete inputs *)

Section Evaluation.
#[local] Existing Instance gcc_platform.

(** The rows of a three-row result, fetched in batches of two, are read in
    fetch order. *)
Example ids_in_fetch_order :
  (λ ops, (get (get_ref_impl id) 0 (cursor_after (id_table 3 []) 2 ops)).1)
    <$> [[First]; [First; Next]; [First; Next; Next]]
  = [Returns (VInt 1); Returns (VInt 2); Returns (VInt 3)].
Proof. vm_compute. reflexivity. Qed.

(** Columns (id, name, bio), batch size 2, three rows, the third [bio] null:
    from a new cursor [next()] returns true three times and then false; on
    the third row [get<string>] of [bio] raises the null-access error and
    with a fallback returns it; [get<int64>] of [id] on the first row
    returns the stored integer. *)
Example three_persons :
  (session person_table 2 [Next; Next; Next; Next]).1
  = [Returns true; Returns true; Returns true; Returns false] ∧
  let r3 := cursor_after person_table 2 [Next; Next; Next] in
  (get (get_ref_impl_string 8) 2 r3).1 = Throws NullAccessError ∧
  (get_fallback (get_ref_impl_string 8) 2 "n/a"%string r3).1 = Returns "n/a"%string ∧
  (get (get_ref_impl_string 8) 1 r3).1 = Returns "Cy"%string ∧
  (get (get_ref_impl id) 0 (cursor_after person_table 2 [Next])).1
  = Returns (VInt 1) ∧
  (get (get_ref_impl_string 8) 2 (cursor_after person_table 2 [Next])).1
  = Returns "first"%string.
Proof. vm_compute. repeat split. Qed.

(** C4: on the second row of a batch, [prior] returns true and decrements
    the in-batch offset; the statement has received no fetch besides the
    one of [first]. *)
Lemma prior_inside_batch_makes_no_fetch :
  let r := cursor_after (id_table 3 []) 2 [First; Next] in
  rowset_position_ r = 1 ∧
  (prior r).1 = Returns true ∧
  rowset_position_ (prior r).2 = 0 ∧
  RefDriver.fetch_calls (stmt_ (prior r).2) = [(SQL_FETCH_FIRST, 0)].
Proof. vm_compute. repeat split. Qed.

(** C5: [before_move] leaves the data buffer of a fixed-length column as it
    is, and after the fetch of a one-row second batch the slot of the second
    row still holds the previous batch's value. *)
Lemma fetch_keeps_stale_data :
  (before_move (cursor_after (id_table 3 []) 2 [First])
     ≫= λ r1, Some (pdata_ <$> bound_columns_ r1, cbdata_ <$> bound_columns_ r1))
  = Some ([Some (le_bytes 8 1 ++ le_bytes 8 2)], [Some [0; 0]]) ∧
  let r := cursor_after (id_table 3 []) 2 [First; Next; Next] in
  rows r = 1 ∧
  pdata_ <$> bound_columns_ r = [Some (le_bytes 8 3 ++ le_bytes 8 2)].
Proof. vm_compute. repeat split. Qed.

(** C6: with batch size 1 the indicator array has one entry. *)
Lemma indicator_array_of_batch_size_1 :
  (λ c, length <$> cbdata_ c) <$> bound_columns_ (cursor_after (id_table 3 []) 1 [])
  = [Some 1%nat].
Proof. vm_compute. reflexivity. Qed.

(** C7: of two columns named [a], at ordinals 0 and 2, the name resolves to
    ordinal 2. *)
Lemma duplicate_name_resolves_to_last :
  name_ <$> bound_columns_ (cursor_after duplicate_table 1 []) = ["a"; "b"; "a"]%string ∧
  column "a" (cursor_after duplicate_table 1 []) = Returns 2.
Proof. vm_compute. repeat split. Qed.





(** C2 on the null [bio] of the third person. *)
Lemma null_cell_access_witness :
  let r := cursor_after person_table 2 [First; Next; Next] in
  isNull 2 r = Returns true ∧
  get (get_ref_impl_string 8) 2 r = (Throws NullAccessError, r) ∧
  get_fallback (get_ref_impl_string 8) 2 "n/a"%string r = (Returns "n/a"%string, r).
Proof.
  intros r.
  destruct (null_cell_access (get_ref_impl_string 8) r 2 "n/a"%string
              (default bound_column_ctor (bound_columns_ r !! 2%nat))
              [SQL_NULL_DATA; 0])
    as [(_ & H2 & _ & H4) _]; [vm_compute; reflexivity ..|].
  split; [vm_compute; reflexivity|]. split; assumption.
Defined.


Lemma bound_ok_second_row :
  bound_ok (cursor_after (id_table 3 []) 2 [First; Next]).
Proof.
  vm_compute. split; [reflexivity|].
  repeat constructor. exists [8; 8]. split; reflexivity.
Qed.

(** C4 on the second row of the first batch. *)
Lemma navigation_refetch_witness :
  let r := cursor_after (id_table 3 []) 2 [First; Next] in
  (rowset_position_ (move 3 r).2 = 0 ∧
   stmt_ (move 3 r).2 = (SQLFetchScroll (stmt_ r) SQL_FETCH_ABSOLUTE 3).1) ∧
  prior r = (Returns true, set_rowset_position (rowset_position_ r - 1) r).
Proof.
  intros r.
  destruct (navigation_refetch r 3 bound_ok_second_row) as (_ & _ & Hmove & Hprior).
  split; [exact Hmove|exact Hprior].
Defined.

(** C5 on the same cursor. *)
Lemma fetch_clears_indicators_witness :
  let r := cursor_after (id_table 3 []) 2 [First; Next] in
  ∃ r1, before_move r = Some r1 ∧
        (∀ i c, bound_columns_ r !! i = Some c →
           ∃ c1, bound_columns_ r1 !! i = Some c1 ∧
                 cbdata_ c1 = Some (replicate (Z.to_nat (rowset_size_ r)) 0) ∧
                 (blob_ c = true → pdata_ c1 = None) ∧
                 (blob_ c = false → pdata_ c1 = pdata_ c ∧ clen_ c1 = clen_ c)) ∧
        bound_columns_ (fetch 0 SQL_FETCH_NEXT r).2
        = driver_writes (SQLFetchScroll (stmt_ r) SQL_FETCH_NEXT 0).2
            (bound_columns_ r1).
Proof.
  intros r.
  destruct (fetch_clears_indicators r 0 SQL_FETCH_NEXT bound_ok_second_row)
    as (r1 & Hbm & _ & _ & Hcols & (_ & _ & Hwrites & _) & _).
  exists r1. repeat split; assumption.
Defined.

(** C6 on a cursor of batch size 1 that is bound again. *)
Lemma auto_bind_indicator_size_witness :
  let r := cursor_after (id_table 3 []) 1 [] in
  auto_bind r = (Returns tt, (auto_bind r).2) ∧
  ∀ i c, bound_columns_ (auto_bind r).2 !! i = Some c →
    ∃ cb, cbdata_ c = Some cb ∧ length cb = Z.to_nat (rowset_size_ r).
Proof.
  intros r.
  assert (Hab : auto_bind r = (Returns tt, (auto_bind r).2))
    by (vm_compute; reflexivity).
  split; [exact Hab|].
  exact (proj2 (auto_bind_indicator_size r _ Hab)).
Defined.

(** C7 on the result with two columns named [a]. *)
Lemma column_name_last_wins_witness :
  let r := cursor_after duplicate_table 1 [] in
  auto_bind r = (Returns tt, (auto_bind r).2) ∧
  column "a" (auto_bind r).2 = Returns 2.
Proof.
  intros r.
  assert (Hab : auto_bind r = (Returns tt, (auto_bind r).2))
    by (vm_compute; reflexivity).
  split; [exact Hab|].
  assert (Hn : (SQLNumResultCols (stmt_ r)).2 = 3) by (vm_compute; reflexivity).
  refine (proj1 (proj1 (column_name_last_wins r _ Hab) 2 _ _)).
  - rewrite Hn. lia.
  - rewrite Hn. intros j Hj. lia.
Defined.



(** C10 on a cursor that has not fetched yet. *)
Lemma access_without_row_witness :
  let r := cursor_after person_table 2 [] in
  rows r ≤ rowset_position_ r ∧
  isNull 0 r = Throws IndexRangeError ∧
  get (get_ref_impl id) 0 r = (Throws IndexRangeError, r) ∧
  get_fallback (get_ref_impl_string 8) 2 "n/a"%string r
  = (Throws IndexRangeError, r).
Proof.
  intros r.
  assert (Hpos : rows r ≤ rowset_position_ r)
    by (vm_compute; intros H; discriminate H).
  split; [exact Hpos|].
  destruct (access_without_row (get_ref_impl id) r 0 (VInt 0) Hpos)
    as (Hn & _ & Hg & _).
  destruct (access_without_row (get_ref_impl_string 8) r 2 "n/a"%string Hpos)
    as (_ & _ & _ & _ & Hf & _).
  split; [exact Hn|]. split; [exact Hg|exact Hf].
Defined.

End Evaluation.

(** * Further properties *)

(** ** The columns [auto_bind] creates *)

Section AutoBindColumns.
Context {D : Type} {api : NativeAPI D} {platform : Platform}.
Implicit Types r : ResultImpl (D:=D).

Lemma insert_described {A} (l : list A) (c x : A) (j n : nat) :
  length l = j → (j < n)%nat →
  <[j := x]> (l ++ replicate (n - j) c) = (l ++ [x]) ++ replicate (n - S j) c.
Proof.
  intros Hl Hj. rewrite insert_app_r_alt by lia.
  replace (j - length l)%nat with 0%nat by lia.
  replace (n - j)%nat with (S (n - S j)) by lia. simpl.
  by rewrite <- app_assoc.
Qed.

Lemma describe_column_exact r0 n j r r' :
  (j < n)%nat →
  stmt_ r = stmt_ r0 ∧ rowset_size_ r = rowset_size_ r0 ∧
  bound_columns_ r
  = ((λ i, described_column (SQLDescribeCol (stmt_ r0) (Z.of_nat i + 1)) i) <$> seq 0 j)
    ++ replicate (n - j) bound_column_ctor →
  describe_column j r = (Returns tt, r') →
  stmt_ r' = stmt_ r0 ∧ rowset_size_ r' = rowset_size_ r0 ∧
  bound_columns_ r'
  = ((λ i, described_column (SQLDescribeCol (stmt_ r0) (Z.of_nat i + 1)) i) <$> seq 0 (S j))
    ++ replicate (n - S j) bound_column_ctor.
Proof.
  intros Hj (Hstmt & Hrs & Hcols) Hstep.
  unfold describe_column in Hstep. rewrite Hstmt in Hstep.
  destruct (negb (success _)); [discriminate|].
  assert (Hcol : bound_columns_ r !! j = Some bound_column_ctor).
  { rewrite Hcols, lookup_app_r by (rewrite length_fmap, length_seq; lia).
    rewrite length_fmap, length_seq, Nat.sub_diag.
    apply lookup_replicate_2. lia. }
  rewrite Hcol in Hstep. inversion Hstep; subst r'; clear Hstep.
  cbn [stmt_ rowset_size_ bound_columns_ set_by_name set_bound_columns].
  split; [done|]. split; [done|].
  rewrite Hcols, insert_described by (rewrite ?length_fmap, ?length_seq; lia).
  by rewrite seq_S, fmap_app.
Qed.

Lemma insert_bound {A} (l : list A) (f : nat → A) (x : A) (j n : nat) :
  length l = j → (j < n)%nat →
  <[j := x]> (l ++ (f <$> seq j (n - j)))
  = (l ++ [x]) ++ (f <$> seq (S j) (n - S j)).
Proof.
  intros Hl Hj. rewrite insert_app_r_alt by lia.
  replace (j - length l)%nat with 0%nat by lia.
  replace (n - j)%nat with (S (n - S j)) by lia. simpl.
  by rewrite <- app_assoc.
Qed.

Lemma bind_column_exact r0 n j r r' :
  (j < n)%nat →
  rowset_size_ r = rowset_size_ r0 ∧
  bound_columns_ r
  = ((λ i, bound_column_of (rowset_size_ r0)
             (SQLDescribeCol (stmt_ r0) (Z.of_nat i + 1)) i) <$> seq 0 j)
    ++ ((λ i, described_column (SQLDescribeCol (stmt_ r0) (Z.of_nat i + 1)) i)
          <$> seq j (n - j)) →
  bind_column j r = (Returns tt, r') →
  rowset_size_ r' = rowset_size_ r0 ∧
  bound_columns_ r'
  = ((λ i, bound_column_of (rowset_size_ r0)
             (SQLDescribeCol (stmt_ r0) (Z.of_nat i + 1)) i) <$> seq 0 (S j))
    ++ ((λ i, described_column (SQLDescribeCol (stmt_ r0) (Z.of_nat i + 1)) i)
          <$> seq (S j) (n - S j)).
Proof.
  intros Hj (Hrs & Hcols) Hstep.
  unfold bind_column in Hstep.
  assert (Hcol : bound_columns_ r !! j
                 = Some (described_column (SQLDescribeCol (stmt_ r0) (Z.of_nat j + 1)) j)).
  { rewrite Hcols, lookup_app_r by (rewrite length_fmap, length_seq; lia).
    rewrite length_fmap, length_seq, Nat.sub_diag.
    replace (n - j)%nat with (S (n - S j)) by lia. done. }
  rewrite Hcol in Hstep.
  destruct (rowset_size_ r <? 0); [discriminate|].
  set (dcol := described_column _ j) in *.
  assert (Hgoal : ∀ d c',
    c' = bound_column_of (rowset_size_ r0)
           (SQLDescribeCol (stmt_ r0) (Z.of_nat j + 1)) j →
    rowset_size_ (set_stmt d (set_bound_columns (<[j := c']> (bound_columns_ r)) r))
    = rowset_size_ r0 ∧
    bound_columns_ (set_stmt d (set_bound_columns (<[j := c']> (bound_columns_ r)) r))
    = ((λ i, bound_column_of (rowset_size_ r0)
               (SQLDescribeCol (stmt_ r0) (Z.of_nat i + 1)) i) <$> seq 0 (S j))
      ++ ((λ i, described_column (SQLDescribeCol (stmt_ r0) (Z.of_nat i + 1)) i)
            <$> seq (S j) (n - S j))).
  { intros d c' ->.
    cbn [stmt_ rowset_size_ bound_columns_ set_stmt set_bound_columns].
    split; [done|].
    rewrite Hcols, insert_bound by (rewrite ?length_fmap, ?length_seq; lia).
    by rewrite seq_S, fmap_app. }
  cbn [blob_ set_cbdata] in Hstep.
  destruct (blob_ dcol) eqn:Hblob.
  - destruct (SQLBindCol _ _ _ _ _) as [d rc].
    destruct (negb (success rc)); [discriminate|].
    inversion Hstep; subst r'. apply Hgoal.
    unfold bound_column_of. fold dcol. cbn [blob_ set_cbdata].
    by rewrite Hblob, Hrs.
  - destruct (SQLBindCol _ _ _ _ _) as [d rc].
    destruct (negb (success rc)); [discriminate|].
    inversion Hstep; subst r'. apply Hgoal.
    unfold bound_column_of. fold dcol. cbn [blob_ set_cbdata clen_].
    by rewrite Hblob, Hrs.
Qed.

(** The columns a successful [auto_bind] leaves. *)
Lemma auto_bind_columns r r' :
  auto_bind r = (Returns tt, r') →
  bound_columns_ r'
  = (λ i, bound_column_of (rowset_size_ r)
            (SQLDescribeCol (stmt_ r) (Z.of_nat i + 1)) i)
    <$> seq 0 (Z.to_nat (SQLNumResultCols (stmt_ r)).2).
Proof.
  unfold auto_bind, cleanup_bound_columns. intros Hab.
  destruct (before_move r) as [rb|] eqn:Hbm; [|discriminate].
  apply before_move_some in Hbm as [cs ->]. simpl in Hab.
  unfold columns in Hab. simpl in Hab.
  destruct (SQLNumResultCols (stmt_ r)) as [rc nc] eqn:Hnc. simpl.
  destruct (negb (success rc)); [discriminate|].
  destruct (Z.ltb_spec nc 1) as [Hlt|Hge].
  - inversion Hab; subst r'. simpl.
    replace (Z.to_nat nc) with 0%nat by lia. done.
  - set (r1 := set_by_name ∅ (set_bound_columns_size 0
                (set_bound_columns [] (set_bound_columns cs r)))) in *.
    set (n := Z.to_nat nc) in *.
    unfold bind in Hab.
    destruct (for_each (seq 0 n) describe_column _) as [[[]| | |] r2] eqn:Hloop1;
      try discriminate.
    pose proof (for_each_seq_inv
      (λ j ra, stmt_ ra = stmt_ r1 ∧ rowset_size_ ra = rowset_size_ r1 ∧
               bound_columns_ ra
               = ((λ i, described_column (SQLDescribeCol (stmt_ r1) (Z.of_nat i + 1)) i)
                    <$> seq 0 j) ++ replicate (n - j) bound_column_ctor)
      describe_column n 0
      (set_bound_columns_size nc
         (set_bound_columns (replicate n bound_column_ctor) r1)) r2) as H1.
    cbn beta in H1. rewrite Nat.sub_0_r in H1.
    specialize (H1 (conj eq_refl (conj eq_refl eq_refl))
                   (λ j ra rb Hj, describe_column_exact r1 n j ra rb (proj2 Hj)) Hloop1).
    destruct H1 as (Hstmt2 & Hrs2 & Hcols2).
    rewrite Nat.sub_diag, app_nil_r in Hcols2.
    pose proof (for_each_seq_inv
      (λ j ra, rowset_size_ ra = rowset_size_ r1 ∧
               bound_columns_ ra
               = ((λ i, bound_column_of (rowset_size_ r1)
                          (SQLDescribeCol (stmt_ r1) (Z.of_nat i + 1)) i) <$> seq 0 j)
                 ++ ((λ i, described_column (SQLDescribeCol (stmt_ r1) (Z.of_nat i + 1)) i)
                       <$> seq j (n - j)))
      bind_column n 0 r2 r') as H2.
    cbn beta in H2. rewrite Nat.sub_0_r in H2.
    specialize (H2 (conj Hrs2 Hcols2)
                   (λ j ra rb Hj, bind_column_exact r1 n j ra rb (proj2 Hj)) Hab).
    destruct H2 as (_ & Hcols'). rewrite Nat.sub_diag, app_nil_r in Hcols'.
    exact Hcols'.
Qed.
End AutoBindColumns.

Lemma choose_buffer_description b c :
  name_ (choose_buffer b c) = name_ c ∧ column_ (choose_buffer b c) = column_ c ∧
  sqltype_ (choose_buffer b c) = sqltype_ c ∧ sqlsize_ (choose_buffer b c) = sqlsize_ c ∧
  scale_ (choose_buffer b c) = scale_ c ∧ cbdata_ (choose_buffer b c) = cbdata_ c ∧
  pdata_ (choose_buffer b c) = pdata_ c.
Proof.
  unfold choose_buffer.
  repeat (match goal with |- context [if ?b then _ else _] => destruct b end);
    simpl; done.
Qed.

Lemma bound_column_of_description {platform : Platform} B dc i :
  let c := bound_column_of B dc i in
  name_ c = dc_name dc ∧ column_ c = Z.of_nat i ∧ sqltype_ c = dc_sqltype dc ∧
  sqlsize_ c = to_ulen (dc_sqlsize dc) ∧ scale_ c = dc_scale dc.
Proof.
  unfold bound_column_of, described_column. cbn zeta.
  match goal with |- context [choose_buffer ?b ?c] =>
    destruct (choose_buffer_description b c) as (H1 & H2 & H3 & H4 & H5 & _);
    destruct (blob_ (set_cbdata _ (choose_buffer b c)))
  end; cbn [name_ column_ sqltype_ sqlsize_ scale_ set_pdata set_cbdata];
    rewrite H1, H2, H3, H4, H5; done.
Qed.

Lemma names_registered_lookup name n s i :
  names_registered name n !! s = Some i → (i < n)%nat ∧ name i = s.
Proof.
  induction n as [|n IH]; intros Hl.
  - unfold names_registered in Hl. simpl in Hl. by rewrite lookup_empty in Hl.
  - rewrite names_registered_S in Hl.
    destruct (decide (name n = s)) as [Heq|Hne].
    + rewrite Heq, lookup_insert_eq in Hl. inversion Hl; subst. split; [lia|done].
    + rewrite lookup_insert_ne in Hl by done.
      destruct (IH Hl). split; [lia|done].
Qed.

Section MetadataProps.
Context {D : Type} {api : NativeAPI D} {platform : Platform}.
Implicit Types r : ResultImpl (D:=D).

(** The column at ordinal [i] after a successful [auto_bind]. *)
Lemma auto_bind_lookup r r' i :
  auto_bind r = (Returns tt, r') →
  0 ≤ i < (SQLNumResultCols (stmt_ r)).2 →
  bound_columns_size_ r' = (SQLNumResultCols (stmt_ r)).2 ∧
  at_Z (bound_columns_ r') i
  = Some (bound_column_of (rowset_size_ r) (SQLDescribeCol (stmt_ r) (i + 1))
            (Z.to_nat i)).
Proof.
  intros Hab Hi. split.
  - destruct (auto_bind_post r r' Hab) as [_ Hpost].
    destruct (Z.ltb_spec (SQLNumResultCols (stmt_ r)).2 1); [lia|].
    destruct Hpost as (Hsize & _). rewrite Hsize. lia.
  - rewrite (auto_bind_columns r r' Hab). unfold at_Z.
    destruct (Z.ltb_spec i 0); [lia|].
    rewrite list_lookup_fmap, lookup_seq_lt by lia. simpl.
    by rewrite Z2Nat.id by lia.
Qed.

Lemma auto_bind_size r r' :
  auto_bind r = (Returns tt, r') →
  bound_columns_size_ r' = Z.max 0 (SQLNumResultCols (stmt_ r)).2.
Proof.
  intros Hab. destruct (auto_bind_post r r' Hab) as [_ Hpost].
  destruct (Z.ltb_spec (SQLNumResultCols (stmt_ r)).2 1).
  - destruct Hpost as (_ & Hsize & _). rewrite Hsize. lia.
  - destruct Hpost as (Hsize & _). rewrite Hsize. lia.
Qed.


(** X2.  Name lookup and [columnName] are inverse to each other on the
    names a result carries: whatever ordinal [column(name)] returns, the
    column at that ordinal is named [name].  The accessors that take a name
    return what the accessors that take this ordinal return ([columnSize]
    narrowed to [int]). *)
Theorem name_lookup_round_trip r r' s i :
  auto_bind r = (Returns tt, r') →
  column s r' = Returns i →
  columnName i r' = Returns s ∧
  columnSize_by_name s r' = map_outcome to_int (columnSize i r') ∧
  columnDecimalDigits_by_name s r' = columnDecimalDigits i r' ∧
  columnDatatype_by_name s r' = columnDatatype i r' ∧
  columnCDatatype_by_name s r' = columnCDatatype i r' ∧
  isNull_by_name s r' = isNull i r'.
Proof.
  intros Hab Hcol.
  assert (Hi : 0 ≤ i < (SQLNumResultCols (stmt_ r)).2 ∧
               dc_name (SQLDescribeCol (stmt_ r) (i + 1)) = s).
  { destruct (auto_bind_post r r' Hab) as [_ Hpost].
    unfold column in Hcol.
    destruct (Z.ltb_spec (SQLNumResultCols (stmt_ r)).2 1).
    - destruct Hpost as (_ & _ & Hmap & _).
      by rewrite Hmap, lookup_empty in Hcol.
    - destruct Hpost as (_ & Hlen & Hmap & Hcols). rewrite Hmap in Hcol.
      destruct (names_registered _ _ !! s) as [j|] eqn:Hj; [|discriminate].
      apply names_registered_lookup in Hj as [Hjn Hname].
      destruct (bound_columns_ r' !! j) as [c|] eqn:Hc; [|discriminate].
      destruct (Hcols j c Hc) as (Hcj & _).
      inversion Hcol; subst i. rewrite Hcj. split; [lia|done]. }
  destruct Hi as [Hi Hname].
  destruct (auto_bind_lookup r r' i Hab Hi) as [Hsize Hc].
  destruct (bound_column_of_description (rowset_size_ r)
              (SQLDescribeCol (stmt_ r) (i + 1)) (Z.to_nat i)) as (Hn & _).
  unfold columnSize_by_name, columnDecimalDigits_by_name, columnDatatype_by_name,
    columnCDatatype_by_name, field_by_name, isNull_by_name.
  rewrite Hcol.
  unfold columnName, columnSize, columnDecimalDigits, columnDatatype,
    columnCDatatype.
  rewrite Hsize, Hc.
  destruct (Z.leb_spec (SQLNumResultCols (stmt_ r)).2 i); [lia|].
  rewrite Hn, Hname. done.
Qed.
End MetadataProps.

(** The buffer [choose_buffer] selects. *)
Lemma described_column_buffer dc i :
  let c := described_column dc i in
  one_of (ctype_ c) [SQL_C_SBIGINT; SQL_C_DOUBLE; SQL_C_DATE; SQL_C_TIME;
                     SQL_C_TIMESTAMP; SQL_C_CHAR; SQL_C_WCHAR; SQL_C_BINARY] = true ∧
  blob_ c
  = one_of (sqltype_ c) [SQL_LONGVARCHAR; SQL_BINARY; SQL_VARBINARY;
                         SQL_LONGVARBINARY; SQL_SS_UDT]
    || ((sqlsize_ c =? 0) && one_of (sqltype_ c) [SQL_VARCHAR; SQL_WVARCHAR]) ∧
  (blob_ c = true → clen_ c = 0) ∧
  (ctype_ c = SQL_C_SBIGINT ∨ ctype_ c = SQL_C_DOUBLE → blob_ c = false ∧ clen_ c = 8) ∧
  (ctype_ c = SQL_C_DATE ∨ ctype_ c = SQL_C_TIME → blob_ c = false ∧ clen_ c = 6) ∧
  (ctype_ c = SQL_C_TIMESTAMP → blob_ c = false ∧ clen_ c = 16).
Proof.
  unfold described_column.
  generalize (to_ulen (dc_sqlsize dc)) as size. generalize (dc_sqltype dc) as t.
  intros t size. cbn zeta.
  destruct (size =? 0) eqn:Hsize;
  unfold choose_buffer, one_of, existsb;
  cbn [sqltype_ sqlsize_ blob_];
  repeat (match goal with
          | |- context [Z.eqb t ?k] =>
              destruct (Z.eqb_spec t k) as [->|?]
          end);
  cbn; rewrite ?Hsize; cbn;
  repeat split; try done; intros;
  repeat (match goal with H : _ ∨ _ |- _ => destruct H end);
  try done;
  try (match goal with H : _ = _ |- _ => by vm_compute in H end);
  repeat (match goal with
          | H : t ≠ ?k |- _ => rewrite (proj2 (Z.eqb_neq t k) H)
          end);
  done.
Qed.

Section BufferLayout.
Context {D : Type} {api : NativeAPI D} {platform : Platform}.
Implicit Types r : ResultImpl (D:=D).

Lemma read_bytes_in_bounds (p : list byte) off n :
  0 ≤ off → off + Z.of_nat n ≤ Z.of_nat (length p) →
  ∃ bs, read_bytes (Some p) off n = Some bs ∧ length bs = n.
Proof.
  intros Hoff Hn. unfold read_bytes.
  destruct (Z.ltb_spec off 0); [lia|].
  assert (Hlen : length (take n (drop (Z.to_nat off) p)) = n).
  { rewrite length_take, length_drop. lia. }
  rewrite decide_True by done. eauto.
Qed.

(** X3.  The buffers of a column after a successful [auto_bind].  The
    buffer type is one of eight (64-bit integer, double, date, time,
    timestamp, narrow or wide characters, binary).  A column is bound without
    data buffer, to be read with [SQLGetData], exactly when its SQL type is
    LONGVARCHAR, BINARY, VARBINARY, LONGVARBINARY or a UDT, or it is a
    VARCHAR or WVARCHAR of reported size 0; its stride is then 0.  Every other
    column owns a data buffer of [rowset_size_ * clen_] bytes (modulo 2^64),
    with stride 8 for integers and doubles, 6 for dates and times and 16 for
    timestamps; if the product does not overflow, the slot of every row of a
    batch lies inside the buffer. *)
Theorem auto_bind_buffer_layout r r' i c :
  auto_bind r = (Returns tt, r') →
  bound_columns_ r' !! i = Some c →
  one_of (ctype_ c) [SQL_C_SBIGINT; SQL_C_DOUBLE; SQL_C_DATE; SQL_C_TIME;
                     SQL_C_TIMESTAMP; SQL_C_CHAR; SQL_C_WCHAR; SQL_C_BINARY] = true ∧
  blob_ c
  = one_of (sqltype_ c) [SQL_LONGVARCHAR; SQL_BINARY; SQL_VARBINARY;
                         SQL_LONGVARBINARY; SQL_SS_UDT]
    || ((sqlsize_ c =? 0) && one_of (sqltype_ c) [SQL_VARCHAR; SQL_WVARCHAR]) ∧
  (ctype_ c = SQL_C_SBIGINT ∨ ctype_ c = SQL_C_DOUBLE → blob_ c = false ∧ clen_ c = 8) ∧
  (ctype_ c = SQL_C_DATE ∨ ctype_ c = SQL_C_TIME → blob_ c = false ∧ clen_ c = 6) ∧
  (ctype_ c = SQL_C_TIMESTAMP → blob_ c = false ∧ clen_ c = 16) ∧
  (if blob_ c then clen_ c = 0 ∧ pdata_ c = None
   else ∃ p, pdata_ c = Some p ∧
             Z.of_nat (length p) = to_ulen (rowset_size_ r * clen_ c) ∧
             (0 ≤ clen_ c → rowset_size_ r * clen_ c < 2 ^ 64 →
              ∀ row, 0 ≤ row < rowset_size_ r →
                ∃ bs, read_bytes (pdata_ c) (to_ulen (row * clen_ c))
                        (Z.to_nat (clen_ c)) = Some bs ∧
                      length bs = Z.to_nat (clen_ c))).
Proof.
  intros Hab Hc. rewrite (auto_bind_columns r r' Hab) in Hc.
  rewrite list_lookup_fmap in Hc.
  destruct (seq 0 _ !! i) as [j|] eqn:Hj; [|discriminate].
  apply lookup_seq in Hj as [-> _]. simpl in Hc. inversion Hc; subst c; clear Hc.
  set (dc := SQLDescribeCol (stmt_ r) (Z.of_nat i + 1)).
  destruct (described_column_buffer dc i) as (Hct & Hblob & Hzero & H8 & H6 & H16).
  cbn zeta in *.
  assert (Hp : pdata_ (described_column dc i) = None).
  { unfold described_column.
    match goal with |- context [choose_buffer ?b ?c] =>
      by destruct (choose_buffer_description b c) as (_ & _ & _ & _ & _ & _ & ->)
    end. }
  unfold bound_column_of. cbn [blob_ set_cbdata clen_].
  destruct (blob_ (described_column dc i)) eqn:Hb;
    cbn [ctype_ blob_ sqltype_ sqlsize_ clen_ pdata_ set_cbdata set_pdata];
    rewrite ?Hb.
  - split; [done|]. split; [done|]. split; [done|]. split; [done|]. split; [done|].
    split; [by apply Hzero|done].
  - split; [done|]. split; [done|]. split; [done|]. split; [done|]. split; [done|].
    eexists. split; [done|].
    rewrite new_array_length.
    assert (Hu : 0 ≤ to_ulen (rowset_size_ r * clen_ (described_column dc i))).
    { unfold to_ulen, ULEN_MOD. apply Z.mod_pos_bound. lia. }
    split; [lia|].
    intros Hclen Hsmall row Hrow.
    assert (Hin : 0 ≤ row * clen_ (described_column dc i)
                  ∧ row * clen_ (described_column dc i) + clen_ (described_column dc i)
                    ≤ rowset_size_ r * clen_ (described_column dc i)) by nia.
    rewrite (to_ulen_small (row * _)) by lia.
    rewrite (to_ulen_small (rowset_size_ r * _)) by lia.
    apply read_bytes_in_bounds; [lia|].
    rewrite new_array_length. lia.
Qed.
End BufferLayout.

Section NextResult.
Context {D : Type} {api : NativeAPI D} {platform : Platform}.
Context {more : MoreResultsAPI D}.
Implicit Types r : ResultImpl (D:=D).

(** X4.  [nextResult] returns false when the statement has no further
    result and then only the handle has changed; when it returns true the
    columns are those of the new result, bound as by [auto_bind].  In both
    cases the batch size, the row count of the last fetch, the in-batch
    offset and the at-end flag are what they were before the call: a cursor
    that had reached the end of the previous result still reports
    [atEnd()]. *)
Theorem nextResult_rebinds r b r' :
  nextResult r = (Returns b, r') →
  let d := (SQLMoreResults (stmt_ r)).1 in
  let rc := (SQLMoreResults (stmt_ r)).2 in
  (rowset_size_ r' = rowset_size_ r ∧ row_count_ r' = row_count_ r ∧
   rowset_position_ r' = rowset_position_ r ∧ at_end_ r' = at_end_ r) ∧
  (at_end_ r = true → atEnd r' = true) ∧
  if b then
    success rc = true ∧ bound_ok r' ∧
    bound_columns_size_ r' = Z.max 0 (SQLNumResultCols d).2 ∧
    bound_columns_ r'
    = (λ i, bound_column_of (rowset_size_ r) (SQLDescribeCol d (Z.of_nat i + 1)) i)
      <$> seq 0 (Z.to_nat (SQLNumResultCols d).2)
  else rc = SQL_NO_DATA ∧ r' = set_stmt d r.
Proof.
  intros Hnr. cbn zeta. unfold nextResult in Hnr.
  destruct (SQLMoreResults (stmt_ r)) as [d rc]. cbn [fst snd].
  destruct (Z.eqb_spec rc SQL_NO_DATA) as [Hnd|Hnd].
  - inversion Hnr; subst b r'. split; [done|]. split; [|done].
    intros Hend. unfold atEnd. simpl. by rewrite Hend.
  - destruct (success rc) eqn:Hs; [|discriminate]. simpl in Hnr.
    unfold bind in Hnr.
    destruct (auto_bind (set_stmt d r)) as [[[]| | |] r1] eqn:Hab; try discriminate.
    unfold ret in Hnr. inversion Hnr; subst b r1.
    destruct (auto_bind_post _ _ Hab) as [(Hrs & Hrc & Hpos & Hend) _].
    simpl in Hrs, Hrc, Hpos, Hend.
    split; [done|]. split.
    { intros He. unfold atEnd. by rewrite Hend, He. }
    split; [done|]. split; [by eapply auto_bind_bound_ok|].
    split; [exact (auto_bind_size _ _ Hab)|].
    exact (auto_bind_columns _ _ Hab).
Qed.
End NextResult.

(** ** Positioning on the reference statement *)

Section Navigation.
Context {platform : Platform}.
Implicit Types r : ResultImpl (D:=RefDriver.stmt).



(** A fetch that lands on a rowset starting at row number [start]. *)
Lemma fetch_lands N B r k o :
  1 ≤ B < 2 ^ 63 → attached N B r → rowset_position_ r = 0 →
  let start := RefDriver.next_start (stmt_ r) o k in
  ∃ r', fetch k o r = (Returns (bool_decide (1 ≤ start ≤ N)), r') ∧
        attached N B r' ∧ rowset_position_ r' = 0 ∧
        RefDriver.fetch_calls (stmt_ r') = (o, k) :: RefDriver.fetch_calls (stmt_ r) ∧
        if bool_decide (1 ≤ start ≤ N)
        then on_row N B (start - 1) r' ∧ at_end_ r' = at_end_ r ∧
             row_count_ r' = Z.min B (N - start + 1)
        else at_end_ r' = true ∧ row_count_ r' = 0.
Proof.
  intros HB (Hok & Hrs & HN & HBs) Hp start.
  destruct (ref_fetch r k o Hok) as (r' & Hf & Hok' & Hrs' & Hpos' & Hrc' & Hend' & Hstmt');
    [lia|].
  fold start in Hf, Hrc', Hend', Hstmt'.
  assert (Hn : RefDriver.fetched (stmt_ r) start
               = if bool_decide (1 ≤ start ≤ N) then Z.min B (N - start + 1) else 0).
  { unfold RefDriver.fetched. rewrite HN, HBs.
    case_bool_decide as Hin.
    - destruct (Z.leb_spec 1 start), (Z.leb_spec start N); simpl; lia.
    - destruct (Z.leb_spec 1 start), (Z.leb_spec start N); simpl; lia. }
  rewrite Hn in *.
  assert (Hatt : attached N B r').
  { unfold attached. rewrite Hstmt'. simpl.
    split; [done|]. split; [congruence|]. split; done. }
  exists r'. case_bool_decide as Hin.
  - destruct (Z.ltb_spec 0 (Z.min B (N - start + 1))); [|lia].
    split; [done|]. split; [done|]. split; [congruence|].
    split; [by rewrite Hstmt'|].
    rewrite orb_false_r in Hend'. split; [|done].
    unfold on_row. rewrite Hstmt'. simpl. rewrite HN, HBs, Hrc', Hpos', Hp.
    split; [done|]. split; [congruence|].
    split; [done|]. split; [done|]. split; [lia|]. split; [done|]. lia.
  - split; [done|]. split; [done|]. split; [congruence|].
    split; [by rewrite Hstmt'|].
    simpl in Hend'. rewrite orb_true_r in Hend'. done.
Qed.
End Navigation.

Section Navigation2.
Context {platform : Platform}.
Implicit Types r : ResultImpl (D:=RefDriver.stmt).

Lemma attached_set_rowset_position N B r p :
  attached N B r → attached N B (set_rowset_position p r).
Proof.
  intros (Hok & ? & ? & ?). unfold attached.
  split; [by apply bound_ok_set_rowset_position|]. auto.
Qed.

Lemma on_row_rows_min N B k r :
  on_row N B k r →
  row_count_ r = Z.min B (N - (k + 1 - rowset_position_ r) + 1).
Proof.
  intros (_ & _ & _ & _ & _ & Hcnt & _ & Hk). rewrite Hcnt. f_equal. lia.
Qed.

(** X5.  Absolute positioning on a result of [N >= 1] rows read in batches
    of [B]: [first()] stands on row 1; [last()] stands on the first row of
    the last batch, row [max 1 (N - B + 1)]; [move(row)] with
    [1 <= row <= N] stands on that row.  Each leaves the in-batch offset 0
    and [rows()] is the number of rows from there to the end, at most [B].
    [move(0)] and [move(row)] with [row > N] return false, leave no rows and
    set the at-end flag. *)
Theorem absolute_positioning N B r row :
  1 ≤ B < 2 ^ 63 → 1 ≤ N < 2 ^ 63 → attached N B r →
  (∃ r', first r = (Returns true, r') ∧ rowset_position_ r' = 0 ∧
         position r' = Returns 1 ∧ rows r' = Z.min B N) ∧
  (∃ r', last r = (Returns true, r') ∧ rowset_position_ r' = 0 ∧
         position r' = Returns (Z.max 1 (N - B + 1)) ∧ rows r' = Z.min B N) ∧
  (1 ≤ row ≤ N →
   ∃ r', move row r = (Returns true, r') ∧ rowset_position_ r' = 0 ∧
         position r' = Returns row ∧ rows r' = Z.min B (N - row + 1)) ∧
  (row = 0 ∨ N < row →
   ∃ r', move row r = (Returns false, r') ∧ at_end_ r' = true ∧ rows r' = 0).
Proof.
  intros HB HN Hatt.
  pose proof (attached_set_rowset_position N B r 0 Hatt) as Hatt0.
  assert (Hland : ∀ k o start,
    RefDriver.next_start (stmt_ r) o k = start →
    ∃ r', fetch k o (set_rowset_position 0 r)
          = (Returns (bool_decide (1 ≤ start ≤ N)), r') ∧
          rowset_position_ r' = 0 ∧
          if bool_decide (1 ≤ start ≤ N)
          then position r' = Returns start ∧ rows r' = Z.min B (N - start + 1)
          else at_end_ r' = true ∧ rows r' = 0).
  { intros k o start Hst.
    destruct (fetch_lands N B (set_rowset_position 0 r) k o HB Hatt0 eq_refl)
      as (r' & Hf & _ & Hpos & _ & Hres).
    simpl in Hf, Hres. rewrite Hst in Hf, Hres.
    exists r'. split; [done|]. split; [done|].
    case_bool_decide.
    - destruct Hres as (Hrow & _ & Hrc). split.
      + rewrite (position_on_row N B (start - 1) r') by (done || lia).
        f_equal. lia.
      + unfold rows. rewrite Hrc. apply to_long_small. lia.
    - destruct Hres as [Hend Hrc]. split; [done|].
      unfold rows. by rewrite Hrc. }
  destruct Hatt as (_ & _ & HNs & HBs).
  split; [|split; [|split]].
  - destruct (Hland 0 SQL_FETCH_FIRST 1 eq_refl) as (r' & Hf & Hp & Hres).
    rewrite bool_decide_true in Hf, Hres by lia.
    exists r'. unfold first, bind, modify. rewrite Hf.
    destruct Hres as [? Hrows]. rewrite Hrows.
    split; [done|]. split; [done|]. split; [done|]. lia.
  - destruct (Hland 0 SQL_FETCH_LAST (Z.max 1 (N - B + 1))) as (r' & Hf & Hp & Hres).
    { unfold RefDriver.next_start. simpl. rewrite HNs, HBs.
      destruct (Z.leb_spec B N); lia. }
    rewrite bool_decide_true in Hf, Hres by lia.
    exists r'. unfold last, bind, modify. rewrite Hf.
    destruct Hres as [? Hrows]. rewrite Hrows.
    split; [done|]. split; [done|]. split; [done|]. lia.
  - intros Hrow.
    destruct (Hland row SQL_FETCH_ABSOLUTE row) as (r' & Hf & Hp & Hres).
    { unfold RefDriver.next_start, RefDriver.absolute_start. simpl.
      rewrite HNs, HBs.
      destruct (Z.ltb_spec row 0); [lia|].
      destruct (Z.eqb_spec row 0); [lia|].
      destruct (Z.leb_spec row N); [done|lia]. }
    rewrite bool_decide_true in Hf, Hres by lia.
    exists r'. unfold move, bind, modify. rewrite Hf.
    destruct Hres as [? Hrows]. by rewrite Hrows.
  - intros Hrow.
    destruct (Hland row SQL_FETCH_ABSOLUTE (if row =? 0 then 0 else N + 1))
      as (r' & Hf & Hp & Hres).
    { unfold RefDriver.next_start, RefDriver.absolute_start. simpl.
      rewrite HNs, HBs.
      destruct (Z.ltb_spec row 0); [lia|].
      destruct (Z.eqb_spec row 0); [done|].
      destruct (Z.leb_spec row N); [lia|done]. }
    rewrite bool_decide_false in Hf, Hres by (destruct (Z.eqb_spec row 0); lia).
    exists r'. unfold move, bind, modify. rewrite Hf. by destruct Hres.
Qed.

End Navigation2.

Section InBatch.
Context {D : Type} {api : NativeAPI D} {platform : Platform}.
Implicit Types r : ResultImpl (D:=D).

(** X7.  [next()] and [prior()] inside a batch, for any driver.  While the
    batch is not empty and the offset after [next()] is below the batch
    size, [next()] makes no native call and returns whether the new offset
    is below [rows()].  From an offset that is not negative a following
    [prior()] returns true and restores the cursor exactly, also when
    [next()] had returned false.  From a negative offset, which [skip] with
    a negative count leaves behind, the following [prior()] does not
    restore: it is the fetch with orientation prior from offset 0. *)
Theorem prior_undoes_next_in_batch r :
  rows r ≠ 0 →
  rowset_position_ r + 1 < rowset_size_ r →
  (next r).1 = Returns (rowset_position_ r + 1 <? rows r) ∧
  stmt_ (next r).2 = stmt_ r ∧
  (0 ≤ rowset_position_ r → prior (next r).2 = (Returns true, r)) ∧
  (rowset_position_ r < 0 →
   prior (next r).2 = fetch 0 SQL_FETCH_PRIOR (set_rowset_position 0 r)).
Proof.
  intros Hrows Hin.
  assert (Hnext : next r
                  = (Returns (rowset_position_ r + 1 <? rows r),
                     set_rowset_position (rowset_position_ r + 1) r)).
  { unfold next. rewrite bool_decide_true by done. simpl.
    destruct (Z.ltb_spec (rowset_position_ r + 1) (rowset_size_ r)); [done|lia]. }
  rewrite Hnext. simpl. split; [done|]. split; [done|].
  unfold prior. simpl. unfold rows in *. simpl.
  rewrite bool_decide_true by done.
  split.
  - intros Hp.
    destruct (Z.leb_spec 0 (rowset_position_ r + 1 - 1)); [|lia].
    replace (rowset_position_ r + 1 - 1) with (rowset_position_ r) by lia.
    by destruct r.
  - intros Hp.
    destruct (Z.leb_spec 0 (rowset_position_ r + 1 - 1)); [lia|].
    done.
Qed.
End InBatch.

(** ** The rows a cursor reads *)

Section AutoBindStmt.
Context {D : Type} {api : NativeAPI D} {platform : Platform}.
Implicit Types r : ResultImpl (D:=D).

Lemma bind_column_stmt r0 n j r r' :
  (j < n)%nat →
  (rowset_size_ r = rowset_size_ r0 ∧
   bound_columns_ r
   = ((λ i, bound_column_of (rowset_size_ r0)
              (SQLDescribeCol (stmt_ r0) (Z.of_nat i + 1)) i) <$> seq 0 j)
     ++ ((λ i, described_column (SQLDescribeCol (stmt_ r0) (Z.of_nat i + 1)) i)
           <$> seq j (n - j))) ∧
  stmt_ r
  = foldl (λ d i, native_bind d i
                    (described_column (SQLDescribeCol (stmt_ r0) (Z.of_nat i + 1)) i))
      (stmt_ r0) (seq 0 j) →
  bind_column j r = (Returns tt, r') →
  (rowset_size_ r' = rowset_size_ r0 ∧
   bound_columns_ r'
   = ((λ i, bound_column_of (rowset_size_ r0)
              (SQLDescribeCol (stmt_ r0) (Z.of_nat i + 1)) i) <$> seq 0 (S j))
     ++ ((λ i, described_column (SQLDescribeCol (stmt_ r0) (Z.of_nat i + 1)) i)
           <$> seq (S j) (n - S j))) ∧
  stmt_ r'
  = foldl (λ d i, native_bind d i
                    (described_column (SQLDescribeCol (stmt_ r0) (Z.of_nat i + 1)) i))
      (stmt_ r0) (seq 0 (S j)).
Proof.
  intros Hj [Hex Hstmt] Hstep.
  split; [by eapply bind_column_exact|].
  destruct Hex as [Hrs Hcols].
  unfold bind_column in Hstep.
  assert (Hcol : bound_columns_ r !! j
                 = Some (described_column (SQLDescribeCol (stmt_ r0) (Z.of_nat j + 1)) j)).
  { rewrite Hcols, lookup_app_r by (rewrite length_fmap, length_seq; lia).
    rewrite length_fmap, length_seq, Nat.sub_diag.
    replace (n - j)%nat with (S (n - S j)) by lia. done. }
  rewrite Hcol in Hstep.
  destruct (rowset_size_ r <? 0); [discriminate|].
  rewrite seq_S, foldl_app, Nat.add_0_l. cbn [foldl].
  rewrite <- Hstmt. unfold native_bind.
  set (dcol := described_column _ j) in *.
  cbn [blob_ set_cbdata] in Hstep.
  destruct (blob_ dcol) eqn:Hblob.
  - cbn [stmt_ set_bound_columns ctype_ set_cbdata] in Hstep. cbn [negb].
    destruct (SQLBindCol _ _ _ _ _) as [d rc].
    destruct (negb (success rc)); [discriminate|].
    by inversion Hstep; subst r'.
  - cbn [stmt_ set_bound_columns ctype_ clen_ set_cbdata set_pdata] in Hstep.
    cbn [negb].
    destruct (SQLBindCol _ _ _ _ _) as [d rc].
    destruct (negb (success rc)); [discriminate|].
    by inversion Hstep; subst r'.
Qed.

(** The handle a successful [auto_bind] leaves: every column has been bound
    once, in ordinal order. *)
Lemma auto_bind_stmt r r' :
  auto_bind r = (Returns tt, r') →
  stmt_ r'
  = foldl (λ d i, native_bind d i
                    (described_column (SQLDescribeCol (stmt_ r) (Z.of_nat i + 1)) i))
      (stmt_ r) (seq 0 (Z.to_nat (SQLNumResultCols (stmt_ r)).2)).
Proof.
  unfold auto_bind, cleanup_bound_columns. intros Hab.
  destruct (before_move r) as [rb|] eqn:Hbm; [|discriminate].
  apply before_move_some in Hbm as [cs ->]. simpl in Hab.
  unfold columns in Hab. simpl in Hab.
  destruct (SQLNumResultCols (stmt_ r)) as [rc nc] eqn:Hnc. simpl.
  destruct (negb (success rc)); [discriminate|].
  destruct (Z.ltb_spec nc 1) as [Hlt|Hge].
  - inversion Hab; subst r'. simpl.
    replace (Z.to_nat nc) with 0%nat by lia. done.
  - set (r1 := set_by_name ∅ (set_bound_columns_size 0
                (set_bound_columns [] (set_bound_columns cs r)))) in *.
    set (n := Z.to_nat nc) in *.
    unfold bind in Hab.
    destruct (for_each (seq 0 n) describe_column _) as [[[]| | |] r2] eqn:Hloop1;
      try discriminate.
    pose proof (for_each_seq_inv
      (λ j ra, stmt_ ra = stmt_ r1 ∧ rowset_size_ ra = rowset_size_ r1 ∧
               bound_columns_ ra
               = ((λ i, described_column (SQLDescribeCol (stmt_ r1) (Z.of_nat i + 1)) i)
                    <$> seq 0 j) ++ replicate (n - j) bound_column_ctor)
      describe_column n 0
      (set_bound_columns_size nc
         (set_bound_columns (replicate n bound_column_ctor) r1)) r2) as H1.
    cbn beta in H1. rewrite Nat.sub_0_r in H1.
    specialize (H1 (conj eq_refl (conj eq_refl eq_refl))
                   (λ j ra rb Hj, describe_column_exact r1 n j ra rb (proj2 Hj)) Hloop1).
    destruct H1 as (Hstmt2 & Hrs2 & Hcols2).
    rewrite Nat.sub_diag, app_nil_r in Hcols2.
    pose proof (for_each_seq_inv
      (λ j ra,
         (rowset_size_ ra = rowset_size_ r1 ∧
          bound_columns_ ra
          = ((λ i, bound_column_of (rowset_size_ r1)
                     (SQLDescribeCol (stmt_ r1) (Z.of_nat i + 1)) i) <$> seq 0 j)
            ++ ((λ i, described_column (SQLDescribeCol (stmt_ r1) (Z.of_nat i + 1)) i)
                  <$> seq j (n - j))) ∧
         stmt_ ra
         = foldl (λ d i, native_bind d i
                    (described_column (SQLDescribeCol (stmt_ r1) (Z.of_nat i + 1)) i))
             (stmt_ r1) (seq 0 j))
      bind_column n 0 r2 r') as H2.
    cbn beta in H2. rewrite Nat.sub_0_r in H2.
    specialize (H2 (conj (conj Hrs2 Hcols2) Hstmt2)
                   (λ j ra rb Hj, bind_column_stmt r1 n j ra rb (proj2 Hj)) Hab).
    destruct H2 as (_ & Hstmt'). exact Hstmt'.
Qed.
End AutoBindStmt.

Lemma cell_slot_length len bs : length (cell_slot len bs) = Z.to_nat len.
Proof. unfold cell_slot. by rewrite length_fmap, length_seq. Qed.

Lemma write_data_length s start i p :
  length (RefDriver.write_data s start i p) = length p.
Proof.
  unfold RefDriver.write_data.
  destruct (RefDriver.bound_len s !! i) as [len|]; [|done].
  destruct (len <=? 0); [done|]. by rewrite length_imap.
Qed.

Lemma write_data_slot s start i p len rows j :
  RefDriver.bound_len s !! i = Some len → 0 < len →
  Z.of_nat (length p) = rows * len →
  0 ≤ j < RefDriver.fetched s start → j < rows →
  (RefDriver.cell s (start + j) i).1 ≠ SQL_NULL_DATA →
  read_bytes (Some (RefDriver.write_data s start i p)) (j * len) (Z.to_nat len)
  = Some (cell_slot len (RefDriver.cell s (start + j) i).2).
Proof.
  intros Hlen Hpos Hp Hj Hrows Hnn.
  assert (Hfit : j * len + len ≤ rows * len) by nia.
  assert (H0 : 0 ≤ j * len) by nia.
  unfold read_bytes. destruct (Z.ltb_spec (j * len) 0); [lia|].
  assert (Heq : take (Z.to_nat len)
                  (drop (Z.to_nat (j * len)) (RefDriver.write_data s start i p))
                = cell_slot len (RefDriver.cell s (start + j) i).2).
  { apply list_eq. intros o. unfold cell_slot.
    rewrite list_lookup_fmap.
    destruct (decide (o < Z.to_nat len)%nat) as [Ho|Ho].
    - rewrite lookup_take_lt by done. rewrite lookup_drop, lookup_seq_lt by done.
      simpl. unfold RefDriver.write_data. rewrite Hlen.
      destruct (Z.leb_spec len 0); [lia|].
      rewrite list_lookup_imap.
      destruct (lookup_lt_is_Some_2 p (Z.to_nat (j * len) + o)) as [b Hb]; [lia|].
      rewrite Hb. simpl. f_equal.
      assert (Hk : Z.of_nat (Z.to_nat (j * len) + o) = Z.of_nat o + j * len) by lia.
      rewrite Hk, Z.div_add, Z.mod_add by lia.
      rewrite Z.div_small, Z.mod_small, Z.add_0_l by lia.
      destruct (Z.ltb_spec j (RefDriver.fetched s start)); [|lia].
      destruct (Z.eqb_spec (RefDriver.cell s (start + j) i).1 SQL_NULL_DATA); [done|].
      simpl. by rewrite Nat2Z.id.
    - rewrite lookup_take_ge by lia. by rewrite lookup_seq_ge by lia. }
  rewrite Heq, decide_True by apply cell_slot_length. done.
Qed.

Lemma write_indicators_lookup s start i (old : list Z) j :
  0 ≤ j < RefDriver.fetched s start → j < Z.of_nat (length old) →
  at_Z (RefDriver.write_indicators s start i old) j
  = Some (RefDriver.cell s (start + j) i).1.
Proof.
  intros Hj Hlen. unfold at_Z, RefDriver.write_indicators.
  destruct (Z.ltb_spec j 0); [lia|].
  rewrite list_lookup_imap.
  destruct (lookup_lt_is_Some_2 old (Z.to_nat j)) as [v Hv]; [lia|].
  rewrite Hv. simpl. rewrite Z2Nat.id by lia.
  destruct (Z.ltb_spec j (RefDriver.fetched s start)); [done|lia].
Qed.

Section Synced.
Context {platform : Platform}.
Implicit Types r : ResultImpl (D:=RefDriver.stmt).

Lemma synced_attached columns N cells B r :
  synced columns N cells B r → attached N B r.
Proof. intros (? & ? & _ & ? & _ & ? & _). unfold attached. auto. Qed.

Lemma synced_set_rowset_position columns N cells B r p :
  synced columns N cells B r → synced columns N cells B (set_rowset_position p r).
Proof.
  intros (Hok & Hrest). split; [by apply bound_ok_set_rowset_position|]. exact Hrest.
Qed.

Lemma synced_set_at_end columns N cells B r b :
  synced columns N cells B r → synced columns N cells B (set_at_end b r).
Proof.
  intros ([? ?] & Hrest). split; [by split|]. exact Hrest.
Qed.

(** The cursor a fetch leaves, whatever its return code. *)
Lemma fetch_state r k o :
  bound_ok r →
  ∃ b, (fetch k o r).2
       = set_at_end b
           (after_native_fetch (SQLFetchScroll (stmt_ r) o k).1
              (SQLFetchScroll (stmt_ r) o k).2
              (set_bound_columns (cleared (rowset_size_ r) <$> bound_columns_ r) r)).
Proof.
  intros Hok. rewrite (fetch_bound_ok r k o Hok). cbn zeta.
  destruct (fr_rc _ =? SQL_NO_DATA).
  - by exists true.
  - exists (at_end_ r). destruct (negb (success _)); simpl; by destruct r.
Qed.

Lemma fetch_synced columns N cells B r k o :
  1 ≤ B < 2 ^ 63 → synced columns N cells B r →
  synced columns N cells B (fetch k o r).2.
Proof.
  intros HB (Hok & Hrs & Hcols & HN & Hcell & HBs & Hlength & Hrc & Hin & Hbind & Hload).
  destruct (fetch_state r k o Hok) as [b ->].
  apply synced_set_at_end.
  simpl. set (s := stmt_ r). set (start := RefDriver.next_start s o k).
  fold s in HN, HBs, Hcols, Hcell, Hbind.
  clearbody s. clearbody start.
  pose proof (fetched_range s start) as Hn.
  rewrite HBs in Hn. specialize (Hn (proj1 HB)).
  set (fr := {| fr_rc := if 0 <? RefDriver.fetched s start then SQL_SUCCESS else SQL_NO_DATA;
                fr_row_count := Some (RefDriver.fetched s start);
                fr_cbdata := RefDriver.write_indicators s start;
                fr_pdata := RefDriver.write_data s start |}).
  unfold after_native_fetch. cbn [fr_row_count fr default fmap option_fmap option_map].
  assert (Hu : to_ulen (RefDriver.fetched s start) = RefDriver.fetched s start).
  { apply to_ulen_small. lia. }
  assert (Hcol' : ∀ i c', driver_writes fr (cleared (rowset_size_ r) <$> bound_columns_ r)
                            !! i = Some c' →
    ∃ c, bound_columns_ r !! i = Some c ∧
         c' = set_pdata (if blob_ (cleared B c) then pdata_ (cleared B c)
                         else RefDriver.write_data s start i <$> pdata_ (cleared B c))
                (set_cbdata (RefDriver.write_indicators s start i
                               <$> cbdata_ (cleared B c)) (cleared B c))).
  { intros i c' Hc'. unfold driver_writes in Hc'.
    rewrite list_lookup_imap, list_lookup_fmap in Hc'.
    destruct (bound_columns_ r !! i) as [c|] eqn:Hc; [|discriminate].
    simpl in Hc'. inversion Hc'. rewrite Hrs. by exists c. }
  unfold synced.
  cbn [stmt_ rowset_size_ row_count_ bound_columns_ set_stmt set_row_count
       set_bound_columns RefDriver.cols RefDriver.n_rows RefDriver.cell
       RefDriver.array_size RefDriver.rowset_start RefDriver.bound_len
       RefDriver.with_position].
  rewrite Hu.
  split.
  { destruct Hok as [Hsize Hall]. split; cbn [bound_columns_size_ bound_columns_
      rowset_size_ set_stmt set_row_count set_bound_columns].
    - unfold driver_writes. by rewrite length_imap, length_fmap.
    - apply driver_writes_allocated.
      + intros i l. simpl. unfold RefDriver.write_indicators. by rewrite length_imap.
      + apply Forall_fmap, Forall_true. intros c. apply cleared_allocated. }
  split; [done|]. split; [done|]. split; [done|]. split; [done|]. split; [done|].
  split; [unfold driver_writes; by rewrite length_imap, length_fmap|].
  unfold id. split; [lia|]. split.
  { intros Hpos. unfold RefDriver.fetched in *.
    rewrite HN, HBs in *.
    destruct (Z.leb_spec 1 start), (Z.leb_spec start N); simpl in *; lia. }
  split.
  - intros i c' Hc'. destruct (Hcol' i c' Hc') as (c & Hc & ->).
    destruct (Hbind i c Hc) as (dc & Hdc & Hct & Hbl & Hfix).
    exists dc. split; [done|].
    unfold cleared.
    destruct (blob_ c) eqn:Hb.
    + destruct (bool_decide (is_Some (pdata_ c))); simpl; rewrite Hb; simpl;
        (split; [done|]); (split; [done|]); intros; discriminate.
    + simpl. rewrite Hb. simpl.
      split; [done|]. split; [done|]. intros _.
      destruct (Hfix eq_refl) as (Hcl & Hpos & Hsmall & Hbound & p & Hp & Hlen).
      split; [done|]. split; [done|]. split; [done|]. split; [done|].
      rewrite Hp. simpl. eexists. split; [done|].
      by rewrite write_data_length.
  - unfold loaded.
    cbn [stmt_ rowset_size_ row_count_ bound_columns_ set_stmt set_row_count
         set_bound_columns RefDriver.cell RefDriver.rowset_start
         RefDriver.with_position].
    intros i c' j Hc' Hj. destruct (Hcol' i c' Hc') as (c & Hc & ->).
    destruct (Hbind i c Hc) as (dc & Hdc & Hct & Hbl & Hfix).
    cbn zeta. split.
    + cbn [cbdata_ set_pdata set_cbdata].
      destruct (cleared_allocated B c) as (cb & Hcb & Hlen).
      rewrite Hcb. simpl. eexists. split; [done|].
      apply write_indicators_lookup; lia.
    + unfold cleared. destruct (blob_ c) eqn:Hb.
      * destruct (bool_decide (is_Some (pdata_ c))); simpl; rewrite Hb; simpl;
          intros; discriminate.
      * simpl. rewrite Hb. simpl. intros _ Hnn.
        destruct (Hfix eq_refl) as (Hcl & Hpos & Hsmall & Hbound & p & Hp & Hlen).
        rewrite Hp. simpl.
        apply (write_data_slot s start i p (clen_ c) B j); try done; lia.
Qed.
End Synced.

(** The cases of the [switch] over the SQL type exclude each other. *)
Lemma sql_type_cases t :
  (one_of t [SQL_DOUBLE; SQL_FLOAT; SQL_DECIMAL; SQL_REAL; SQL_NUMERIC] = true →
   one_of t [SQL_BIT; SQL_TINYINT; SQL_SMALLINT; SQL_INTEGER; SQL_BIGINT] = false) ∧
  (one_of t [SQL_DATE; SQL_TYPE_DATE] = true →
   one_of t [SQL_BIT; SQL_TINYINT; SQL_SMALLINT; SQL_INTEGER; SQL_BIGINT] = false ∧
   one_of t [SQL_DOUBLE; SQL_FLOAT; SQL_DECIMAL; SQL_REAL; SQL_NUMERIC] = false) ∧
  (one_of t [SQL_TIME; SQL_TYPE_TIME] = true →
   one_of t [SQL_BIT; SQL_TINYINT; SQL_SMALLINT; SQL_INTEGER; SQL_BIGINT] = false ∧
   one_of t [SQL_DOUBLE; SQL_FLOAT; SQL_DECIMAL; SQL_REAL; SQL_NUMERIC] = false ∧
   one_of t [SQL_DATE; SQL_TYPE_DATE] = false) ∧
  (one_of t [SQL_TIMESTAMP; SQL_TYPE_TIMESTAMP] = true →
   one_of t [SQL_BIT; SQL_TINYINT; SQL_SMALLINT; SQL_INTEGER; SQL_BIGINT] = false ∧
   one_of t [SQL_DOUBLE; SQL_FLOAT; SQL_DECIMAL; SQL_REAL; SQL_NUMERIC] = false ∧
   one_of t [SQL_DATE; SQL_TYPE_DATE] = false ∧
   one_of t [SQL_TIME; SQL_TYPE_TIME] = false).
Proof.
  unfold one_of, existsb.
  repeat (match goal with
          | |- context [Z.eqb t ?k] => destruct (Z.eqb_spec t k) as [->|?]
          end);
  vm_compute; intuition discriminate.
Qed.

(** The buffer type by SQL type, and the stride of a column with a buffer. *)
Lemma described_column_by_type dc i :
  let c := described_column dc i in
  let t := dc_sqltype dc in
  (one_of t [SQL_BIT; SQL_TINYINT; SQL_SMALLINT; SQL_INTEGER; SQL_BIGINT] = true →
   ctype_ c = SQL_C_SBIGINT) ∧
  (one_of t [SQL_DOUBLE; SQL_FLOAT; SQL_DECIMAL; SQL_REAL; SQL_NUMERIC] = true →
   ctype_ c = SQL_C_DOUBLE) ∧
  (one_of t [SQL_DATE; SQL_TYPE_DATE] = true → ctype_ c = SQL_C_DATE) ∧
  (one_of t [SQL_TIME; SQL_TYPE_TIME] = true → ctype_ c = SQL_C_TIME) ∧
  (one_of t [SQL_TIMESTAMP; SQL_TYPE_TIMESTAMP] = true → ctype_ c = SQL_C_TIMESTAMP).
Proof.
  cbn zeta. destruct (sql_type_cases (dc_sqltype dc)) as (Hd & Hda & Hti & Hts).
  unfold described_column, choose_buffer. cbn [sqltype_].
  split; [by intros ->|].
  split; [intros H; by rewrite H, (Hd H)|].
  split; [intros H; destruct (Hda H) as [-> ->]; by rewrite H|].
  split; [intros H; destruct (Hti H) as (-> & -> & ->); by rewrite H|].
  intros H; destruct (Hts H) as (-> & -> & -> & ->); by rewrite H.
Qed.

Lemma described_column_stride dc i :
  let c := described_column dc i in
  blob_ c = false → 0 ≤ dc_sqlsize dc < 2 ^ 31 → 0 < clen_ c ≤ 2 ^ 32.
Proof.
  cbn zeta. intros Hb Hsz. revert Hb.
  unfold described_column, choose_buffer. cbn [sqltype_ sqlsize_ blob_].
  rewrite (to_ulen_small (dc_sqlsize dc)) by lia.
  unfold sizeof_int64, sizeof_double, sizeof_date, sizeof_time, sizeof_timestamp,
    sizeof_SQLCHAR, sizeof_SQLWCHAR.
  repeat (match goal with
          | |- context [if ?b then _ else _] => destruct b
          end);
  cbn [blob_ clen_ set_buffer]; intros Hb; try discriminate;
  rewrite ?to_ulen_small by lia; lia.
Qed.

(** The reference statement after the columns [0..j) have been bound. *)
Lemma ref_bind_fold (s : RefDriver.stmt) (f : nat → bound_column) j :
  (j ≤ length (RefDriver.cols s))%nat →
  let s' := foldl (λ d i, native_bind d i (f i)) s (seq 0 j) in
  (RefDriver.cols s' = RefDriver.cols s ∧ RefDriver.n_rows s' = RefDriver.n_rows s ∧
   RefDriver.cell s' = RefDriver.cell s ∧
   RefDriver.array_size s' = RefDriver.array_size s) ∧
  ∀ i, (i < j)%nat → blob_ (f i) = false →
       RefDriver.bound_len s' !! i = Some (clen_ (f i)).
Proof.
  induction j as [|j IH]; intros Hj; cbn zeta.
  - split; [done|]. intros; lia.
  - rewrite seq_S, foldl_app, Nat.add_0_l. cbn [foldl].
    destruct IH as [(Hc & Hn & Hce & Ha) Hb]; [lia|].
    set (s1 := foldl _ s (seq 0 j)) in *.
    unfold native_bind. simpl. unfold RefDriver.bind_col.
    rewrite Hc.
    destruct (Z.leb_spec 1 (Z.of_nat j + 1)); [|lia].
    destruct (Z.leb_spec (Z.of_nat j + 1) (Z.of_nat (length (RefDriver.cols s))));
      [|lia].
    simpl. split; [done|].
    intros i Hi Hblob.
    replace (Z.to_nat (Z.of_nat j + 1 - 1)) with j by lia.
    destruct (decide (i = j)) as [->|Hne].
    + rewrite Hblob. simpl. apply lookup_insert_eq.
    + destruct (blob_ (f j)); simpl.
      * rewrite lookup_delete_ne by done. apply Hb; [lia|done].
      * rewrite lookup_insert_ne by done. apply Hb; [lia|done].
Qed.

Section Ctor.
Context {D : Type} {api : NativeAPI D} {platform : Platform}.

(** A constructor that returns has gone through [auto_bind]. *)
Lemma ctor_auto_bind (s : D) B r0 :
  ResultImpl_ctor s B = Returns r0 →
  auto_bind
    {| stmt_ := (SQLSetStmtAttr_ROWS_FETCHED_PTR (SQLSetStmtAttr_ROW_ARRAY_SIZE s B).1).1;
       rowset_size_ := B; row_count_ := 0; bound_columns_ := [];
       bound_columns_size_ := 0; rowset_position_ := 0;
       bound_columns_by_name_ := ∅; at_end_ := false |}
  = (Returns tt, r0).
Proof.
  unfold ResultImpl_ctor.
  destruct (SQLSetStmtAttr_ROW_ARRAY_SIZE s B) as [d1 rc1]. cbn [fst].
  destruct (negb (success rc1)); [discriminate|].
  destruct (SQLSetStmtAttr_ROWS_FETCHED_PTR d1) as [d2 rc2]. cbn [fst].
  destruct (negb (success rc2)); [discriminate|].
  destruct (auto_bind _) as [[[]| | |] r]; try discriminate.
  intros H. by inversion H.
Qed.
End Ctor.

Section Data.
Context {platform : Platform}.
Implicit Types r : ResultImpl (D:=RefDriver.stmt).

Lemma ref_ctor_synced columns N cells B :
  1 ≤ B < 2 ^ 31 →
  Forall (λ d, success (dc_rc d) = true ∧ 0 ≤ dc_sqlsize d < 2 ^ 31) columns →
  ∃ r0, ResultImpl_ctor (RefDriver.executed columns N cells) B = Returns r0 ∧
        synced columns N cells B r0.
Proof.
  intros HB Hall.
  destruct (ref_ctor_created columns N cells B) as (r0 & Hctor & Hcr); [lia| |].
  { eapply Forall_impl; [exact Hall|]. by intros d [? _]. }
  exists r0. split; [done|].
  pose proof (ctor_auto_bind _ _ _ Hctor) as Hab.
  destruct Hcr as (Hok & Hrs & Hrc & Hpos & Hend & HN & HBs & Hstart & Hcalls).
  pose proof (auto_bind_columns _ _ Hab) as Hcols.
  pose proof (auto_bind_stmt _ _ Hab) as Hstmt.
  cbn [stmt_ rowset_size_] in Hcols, Hstmt.
  set (s0 := (SQLSetStmtAttr_ROWS_FETCHED_PTR
                (SQLSetStmtAttr_ROW_ARRAY_SIZE (RefDriver.executed columns N cells) B).1).1)
    in *.
  assert (Hs0 : RefDriver.cols s0 = columns ∧ RefDriver.n_rows s0 = N ∧
                RefDriver.cell s0 = cells ∧ RefDriver.array_size s0 = B).
  { subst s0. simpl. unfold RefDriver.set_array_size.
    destruct (Z.ltb_spec B 1); [lia|]. done. }
  destruct Hs0 as (Hc0 & Hn0 & Hce0 & Ha0).
  assert (Hnum : Z.to_nat (SQLNumResultCols s0).2 = length columns).
  { simpl. rewrite Hc0. lia. }
  rewrite Hnum in Hcols, Hstmt.
  assert (Hdesc : ∀ i dc, columns !! i = Some dc →
                          SQLDescribeCol s0 (Z.of_nat i + 1) = dc).
  { intros i dc Hdc. simpl. unfold RefDriver.describe_col, at_Z.
    destruct (Z.ltb_spec (Z.of_nat i + 1 - 1) 0); [lia|].
    replace (Z.to_nat (Z.of_nat i + 1 - 1)) with i by lia.
    by rewrite Hc0, Hdc. }
  destruct (ref_bind_fold s0
              (λ i, described_column (SQLDescribeCol s0 (Z.of_nat i + 1)) i)
              (length columns)) as [(Hc1 & Hn1 & Hce1 & Ha1) Hbl]; [by rewrite Hc0|].
  rewrite <- Hstmt in Hc1, Hn1, Hce1, Ha1, Hbl.
  unfold synced.
  split; [done|]. split; [done|]. split; [congruence|]. split; [congruence|].
  split; [congruence|]. split; [congruence|].
  split; [by rewrite Hcols, length_fmap, length_seq|].
  rewrite Hrc. split; [lia|]. split; [lia|]. split.
  - intros i c Hc. rewrite Hcols, list_lookup_fmap in Hc.
    destruct (seq 0 _ !! i) as [i'|] eqn:Hi; [|discriminate].
    apply lookup_seq in Hi as [-> Hilt]. simpl in Hilt.
    cbn [fmap option_fmap option_map Nat.add] in Hc.
    destruct (lookup_lt_is_Some_2 columns i Hilt) as [dc Hdc].
    rewrite (Hdesc i dc Hdc) in Hc. inversion Hc; subst c; clear Hc.
    exists dc. split; [done|].
    unfold bound_column_of. cbn [blob_ set_cbdata clen_].
    destruct (blob_ (described_column dc i)) eqn:Hb.
    + cbn [ctype_ blob_ set_cbdata]. split; [done|]. split; [done|].
      rewrite Hb. discriminate.
    + cbn [ctype_ blob_ clen_ pdata_ set_cbdata set_pdata].
      split; [done|]. split; [done|]. intros _.
      assert (Hsz : 0 ≤ dc_sqlsize dc < 2 ^ 31).
      { rewrite Forall_lookup in Hall. by destruct (Hall i dc Hdc). }
      pose proof (described_column_stride dc i Hb Hsz) as Hcl.
      split; [done|]. split; [lia|]. split; [nia|]. split.
      * specialize (Hbl i Hilt). rewrite (Hdesc i dc Hdc) in Hbl. by apply Hbl.
      * eexists. split; [done|]. rewrite new_array_length.
        rewrite to_ulen_small by nia. nia.
  - unfold loaded. rewrite Hrc. intros; lia.
Qed.

Lemma nav_synced columns N cells B c r :
  1 ≤ B < 2 ^ 63 → synced columns N cells B r →
  synced columns N cells B (nav_op c r).2.
Proof.
  intros HB Hs.
  assert (Hf : ∀ k o p, synced columns N cells B
                          (fetch k o (set_rowset_position p r)).2).
  { intros. by apply fetch_synced, synced_set_rowset_position. }
  destruct c as [| | | |row|n]; simpl.
  - apply Hf.
  - apply Hf.
  - unfold next. case_bool_decide.
    + cbn zeta. destruct (_ <? _).
      * by apply synced_set_rowset_position.
      * apply (Hf 0 SQL_FETCH_NEXT 0).
    + apply Hf.
  - unfold prior. case_bool_decide.
    + cbn zeta. destruct (_ <=? _).
      * by apply synced_set_rowset_position.
      * apply (Hf 0 SQL_FETCH_PRIOR 0).
    + apply Hf.
  - apply Hf.
  - unfold skip. cbn zeta. destruct (_ && _).
    + by apply synced_set_rowset_position.
    + apply (Hf n SQL_FETCH_RELATIVE 0).
Qed.

Lemma run_synced columns N cells B (ops : list nav) : ∀ r,
  1 ≤ B < 2 ^ 63 → synced columns N cells B r →
  synced columns N cells B (run (nav_op <$> ops) r).2.
Proof.
  induction ops as [|c ops IH]; intros r HB Hs; [done|].
  rewrite fmap_cons. cbn [run].
  pose proof (nav_synced columns N cells B c r HB Hs) as H1.
  destruct (nav_op c r) as [o r1]. simpl in H1.
  specialize (IH r1 HB H1).
  destruct (run (nav_op <$> ops) r1) as [os r2]. done.
Qed.
End Data.

Section DataPath.
Context {platform : Platform}.
Implicit Types r : ResultImpl (D:=RefDriver.stmt).

(** On a synchronised cursor whose offset lies inside the batch. *)
Lemma synced_current_row columns N cells B r :
  1 ≤ B < 2 ^ 63 → N < 2 ^ 63 →
  synced columns N cells B r →
  0 ≤ rowset_position_ r < rows r →
  let row := RefDriver.rowset_start (stmt_ r) + rowset_position_ r in
  1 ≤ row ≤ N ∧ position r = Returns row ∧
  ∀ i dc, columns !! i = Some dc →
    ∃ c, at_Z (bound_columns_ r) (Z.of_nat i) = Some c ∧
         Z.of_nat i < bound_columns_size_ r ∧
         ctype_ c = ctype_ (described_column dc i) ∧
         blob_ c = blob_ (described_column dc i) ∧
         isNull (Z.of_nat i) r = Returns ((cells row i).1 =? SQL_NULL_DATA) ∧
         (blob_ (described_column dc i) = false →
          (cells row i).1 ≠ SQL_NULL_DATA →
          clen_ c = clen_ (described_column dc i) ∧
          read_bytes (pdata_ c) (slot_offset r c) (Z.to_nat (clen_ c))
          = Some (cell_slot (clen_ c) (cells row i).2)).
Proof.
  intros HB HN (Hok & Hrs & Hcols & HNs & Hcell & HBs & Hlen & Hrc & Hin & Hbind & Hload)
    Hp row.
  assert (Hrows : rows r = row_count_ r).
  { unfold rows. apply to_long_small. lia. }
  rewrite Hrows in Hp.
  destruct Hin as [Hs1 Hs2]; [lia|].
  split; [subst row; lia|]. split.
  { unfold position, row_number. simpl. unfold RefDriver.row_number.
    rewrite HNs.
    destruct (Z.leb_spec 1 (RefDriver.rowset_start (stmt_ r))); [|lia].
    destruct (Z.leb_spec (RefDriver.rowset_start (stmt_ r)) N); [|lia].
    simpl. rewrite (to_ulen_small (RefDriver.rowset_start (stmt_ r))) by lia.
    destruct (Z.eqb_spec (RefDriver.rowset_start (stmt_ r)) 0); [lia|].
    assert (Hunk : to_ulen SQL_ROW_NUMBER_UNKNOWN = 2 ^ 64 - 2) by done.
    rewrite Hunk.
    destruct (Z.eqb_spec (RefDriver.rowset_start (stmt_ r)) (2 ^ 64 - 2)); [lia|].
    simpl. rewrite to_ulen_small by lia. done. }
  intros i dc Hdc.
  destruct (lookup_lt_is_Some_2 (bound_columns_ r) i) as [c Hc].
  { rewrite Hlen. by apply lookup_lt_Some in Hdc. }
  destruct (Hbind i c Hc) as (dc' & Hdc' & Hct & Hbl & Hfix).
  assert (dc' = dc) by congruence. subst dc'.
  destruct (Hload i c (rowset_position_ r) Hc Hp) as [(cb & Hcb & Hind) Hdata].
  rewrite Hcell in Hind, Hdata. fold row in Hind, Hdata.
  assert (Hat : at_Z (bound_columns_ r) (Z.of_nat i) = Some c).
  { unfold at_Z. destruct (Z.ltb_spec (Z.of_nat i) 0); [lia|]. by rewrite Nat2Z.id. }
  assert (Hsize : Z.of_nat i < bound_columns_size_ r).
  { destruct Hok as [-> _]. apply lookup_lt_Some in Hc. lia. }
  exists c. split; [done|]. split; [done|]. split; [done|]. split; [done|]. split.
  - unfold isNull. rewrite Hrows, Hat, Hcb, Hind.
    destruct (Z.leb_spec (bound_columns_size_ r) (Z.of_nat i)); [lia|].
    destruct (Z.leb_spec (row_count_ r) (rowset_position_ r)); [lia|]. done.
  - intros Hb Hnn. rewrite <- Hbl in Hb.
    destruct (Hfix Hb) as (Hcl & Hpos & Hsmall & _ & p & Hpd & Hplen).
    split; [done|].
    unfold slot_offset. rewrite to_ulen_small by nia.
    by apply Hdata.
Qed.

(** X8.  The cursor reads the row it stands on.  On the reference
    statement, after any sequence of navigation calls that leaves the
    in-batch offset inside [rows()], [position()] is a row number [row] of
    the result, [isNull] of a column tells whether the cell of that row is
    null, and for a cell that is not null [get] returns the value the driver
    delivered for that row: the 8-byte integer of an integer column, the
    double of a floating or decimal column, and the date, time or timestamp
    structure of a temporal column. *)
Theorem cursor_reads_current_row columns N cells B ops :
  1 ≤ B < 2 ^ 31 → N < 2 ^ 63 →
  Forall (λ d, success (dc_rc d) = true ∧ 0 ≤ dc_sqlsize d < 2 ^ 31) columns →
  ∃ r0, ResultImpl_ctor (RefDriver.executed columns N cells) B = Returns r0 ∧
    let r := (run (nav_op <$> ops) r0).2 in
    0 ≤ rowset_position_ r < rows r →
    ∃ row, 1 ≤ row ≤ N ∧ position r = Returns row ∧
      ∀ (i : nat) dc, columns !! i = Some dc →
        let cl := cells row i in
        let t := dc_sqltype dc in
        isNull (Z.of_nat i) r = Returns (cl.1 =? SQL_NULL_DATA) ∧
        (cl.1 ≠ SQL_NULL_DATA →
         (one_of t [SQL_BIT; SQL_TINYINT; SQL_SMALLINT; SQL_INTEGER; SQL_BIGINT] = true →
          ∀ (T : Type) (cast : native_value → T),
            get (get_ref_impl cast) (Z.of_nat i) r
            = (Returns (cast (VInt (le_signed (cell_slot 8 cl.2)))), r)) ∧
         (one_of t [SQL_DOUBLE; SQL_FLOAT; SQL_DECIMAL; SQL_REAL; SQL_NUMERIC] = true →
          ∀ (T : Type) (cast : native_value → T),
            get (get_ref_impl cast) (Z.of_nat i) r
            = (Returns (cast (VDouble (cell_slot 8 cl.2))), r)) ∧
         (one_of t [SQL_DATE; SQL_TYPE_DATE] = true →
          get get_ref_impl_date (Z.of_nat i) r
          = (Returns (decode_date (cell_slot 6 cl.2)), r)) ∧
         (one_of t [SQL_TIME; SQL_TYPE_TIME] = true →
          get get_ref_impl_time (Z.of_nat i) r
          = (Returns (decode_time (cell_slot 6 cl.2)), r)) ∧
         (one_of t [SQL_TIMESTAMP; SQL_TYPE_TIMESTAMP] = true →
          get get_ref_impl_timestamp (Z.of_nat i) r
          = (Returns (decode_timestamp (cell_slot 16 cl.2)), r))).
Proof.
  intros HB HN Hall.
  destruct (ref_ctor_synced columns N cells B HB Hall) as (r0 & Hctor & Hs0).
  exists r0. split; [done|]. intros r Hp.
  assert (HB63 : 1 ≤ B < 2 ^ 63) by lia.
  pose proof (run_synced columns N cells B ops r0 HB63 Hs0) as Hs. fold r in Hs.
  destruct (synced_current_row columns N cells B r HB63 HN Hs Hp)
    as (Hrow & Hposn & Hcells).
  eexists. split; [exact Hrow|]. split; [exact Hposn|].
  intros i dc Hdc. cbn zeta.
  destruct (Hcells i dc Hdc) as (c & Hat & Hsize & Hct & _ & Hnull & Hdata).
  split; [exact Hnull|]. intros Hnn.
  assert (Hfalse : isNull (Z.of_nat i) r = Returns false).
  { rewrite Hnull. f_equal. by apply Z.eqb_neq. }
  destruct (described_column_by_type dc i) as (Hti & Htd & Htda & Htt & Hts).
  destruct (described_column_buffer dc i) as (_ & _ & _ & H8 & H6 & H16).
  cbn zeta in *.
  assert (Hread : ∀ ct n,
    ctype_ (described_column dc i) = ct →
    (ctype_ (described_column dc i) = ct →
     blob_ (described_column dc i) = false ∧ clen_ (described_column dc i) = n) →
    ctype_ c = ct ∧
    read_bytes (pdata_ c) (slot_offset r c) (Z.to_nat n)
    = Some (cell_slot n (cells (RefDriver.rowset_start (stmt_ r) + rowset_position_ r) i).2)).
  { intros ct n Hc1 Hc2. destruct (Hc2 Hc1) as [Hb Hcl].
    destruct (Hdata Hb Hnn) as [Hcl' Hrd].
    split; [congruence|]. rewrite Hcl', Hcl in Hrd. exact Hrd. }
  split; [|split; [|split; [|split]]].
  - intros Ht T cast. rewrite get_not_null by done.
    destruct (Hread SQL_C_SBIGINT 8 (Hti Ht)) as [Hc Hrd].
    { intros H. apply H8. by left. }
    unfold get_ref_impl, lift. rewrite Hat, Hc.
    change (Z.to_nat 8) with 8%nat in Hrd. by rewrite Hrd.
  - intros Ht T cast. rewrite get_not_null by done.
    destruct (Hread SQL_C_DOUBLE 8 (Htd Ht)) as [Hc Hrd].
    { intros H. apply H8. by right. }
    unfold get_ref_impl, lift. rewrite Hat, Hc.
    change (Z.to_nat 8) with 8%nat in Hrd. by rewrite Hrd.
  - intros Ht. rewrite get_not_null by done.
    destruct (Hread SQL_C_DATE 6 (Htda Ht)) as [Hc Hrd].
    { intros H. apply H6. by left. }
    unfold get_ref_impl_date, lift, read_slot. rewrite Hat, Hc.
    change (Z.to_nat 6) with 6%nat in Hrd. by rewrite Hrd.
  - intros Ht. rewrite get_not_null by done.
    destruct (Hread SQL_C_TIME 6 (Htt Ht)) as [Hc Hrd].
    { intros H. apply H6. by right. }
    unfold get_ref_impl_time, lift, read_slot. rewrite Hat, Hc.
    change (Z.to_nat 6) with 6%nat in Hrd. by rewrite Hrd.
  - intros Ht. rewrite get_not_null by done.
    destruct (Hread SQL_C_TIMESTAMP 16 (Hts Ht)) as [Hc Hrd].
    { intros H. by apply H16. }
    unfold get_ref_impl_timestamp, lift, read_slot. rewrite Hat, Hc.
    change (Z.to_nat 16) with 16%nat in Hrd. by rewrite Hrd.
Qed.
End DataPath.

Section GetData.
Context {platform : Platform}.

(** The loop over [SQLGetData] on the reference statement: whatever part of
    the cell has been returned before, the loop appends the rest, in pieces
    of [room] bytes. *)
Lemma get_data_loop_rest (number ctype ind : Z) (data : list byte) (room : nat)
    (keep : Z → Z) :
  ind ≠ SQL_NULL_DATA → (0 < room)%nat →
  room = Z.to_nat (if ctype =? SQL_C_BINARY then 1024 else 1024 - 1) →
  (∀ n : nat, (n ≤ length data)%nat →
              Z.to_nat (keep (Z.of_nat n)) = (n `min` room)%nat) →
  ∀ fuel (s : RefDriver.stmt) out,
    RefDriver.cell s (RefDriver.rowset_start s) (Z.to_nat (number - 1)) = (ind, data) →
    let rest := drop (default 0%nat (RefDriver.getdata_done s !! number)) data in
    RefDriver.getdata_done s !! number = None ∨ rest ≠ [] →
    (length rest ≤ fuel * room)%nat → (0 < fuel)%nat →
    ∃ c, get_data_loop fuel number ctype 1024 keep s out false = Some c ∧
         ch_out c = out ++ rest ∧ ch_rc c = SQL_SUCCESS ∧ ch_null c = false.
Proof.
  intros Hnn Hroom Hr Hkeep fuel.
  induction fuel as [|fuel IH]; intros s out Hcell rest Hfresh Hlen Hfuel; [lia|].
  cbn [get_data_loop]. simpl SQLGetData. unfold RefDriver.get_data.
  rewrite Hcell. cbn [fst snd].
  destruct (Z.eqb_spec ind SQL_NULL_DATA); [done|].
  rewrite <- Hr. fold rest.
  assert (Hno : bool_decide (is_Some (RefDriver.getdata_done s !! number))
                && bool_decide (rest = []) = false).
  { destruct Hfresh as [Hnone|Hne].
    - rewrite Hnone. rewrite bool_decide_false; [done|]. by intros [? ?].
    - rewrite (bool_decide_false (rest = [])) by done. apply andb_false_r. }
  rewrite Hno. cbn [gd_ValueLenOrInd gd_buffer gd_rc].
  assert (Hout : ∀ pad,
    (if 0 <? Z.of_nat (length rest)
     then out ++ take (Z.to_nat (keep (Z.of_nat (length rest))))
                   (take room rest ++ pad)
     else out) = out ++ take room rest).
  { intros pad. destruct (Z.ltb_spec 0 (Z.of_nat (length rest))) as [Hpos|Hz].
    - f_equal. rewrite Hkeep by (subst rest; rewrite length_drop; lia).
      apply take_app_length'.
      rewrite length_take. lia.
    - destruct rest; [by rewrite take_nil, app_nil_r|simpl in Hz; lia]. }
  rewrite Hout.
  assert (Hnull : (negb (0 <? Z.of_nat (length rest))
                   && (Z.of_nat (length rest) =? SQL_NULL_DATA)) = false).
  { destruct (Z.eqb_spec (Z.of_nat (length rest)) SQL_NULL_DATA) as [He|];
      [unfold SQL_NULL_DATA in He; lia|]. apply andb_false_r. }
  rewrite Hnull. cbn [orb].
  destruct (decide (length rest ≤ room)%nat) as [Hfit|Hfit];
    [rewrite bool_decide_true by done|rewrite bool_decide_false by done].
  - replace (SQL_SUCCESS =? SQL_SUCCESS_WITH_INFO) with false by done.
    eexists. split; [done|].
    cbn [ch_out ch_rc ch_null]. rewrite take_ge by lia. done.
  - replace (SQL_SUCCESS_WITH_INFO =? SQL_SUCCESS_WITH_INFO) with true by done.
    match goal with |- context [get_data_loop fuel _ _ _ _ ?s1 _ _] =>
      destruct (IH s1 (out ++ take room rest)) as (c & Hloop & Hc & Hrc & Hn)
    end.
    + done.
    + right. cbn [RefDriver.getdata_done]. rewrite lookup_insert_eq. simpl.
      rewrite length_take, <- drop_drop. fold rest.
      rewrite (Nat.min_l room (length rest)) by lia.
      intros Hnil. apply (f_equal length) in Hnil.
      rewrite length_drop in Hnil. simpl in Hnil. lia.
    + cbn [RefDriver.getdata_done]. rewrite lookup_insert_eq. simpl.
      rewrite length_take, <- drop_drop. fold rest.
      rewrite (Nat.min_l room (length rest)) by lia.
      rewrite length_drop. lia.
    + destruct fuel; [simpl in Hlen; lia|lia].
    + exists c. split; [done|]. split; [|done].
      rewrite Hc. cbn [RefDriver.getdata_done]. rewrite lookup_insert_eq. simpl.
      rewrite length_take, <- drop_drop. fold rest.
      rewrite (Nat.min_l room (length rest)) by lia.
      by rewrite <- app_assoc, take_drop.
Qed.
End GetData.

(** The buffer type of the columns read with [SQLGetData]. *)
Lemma described_column_blob dc i :
  let c := described_column dc i in
  let t := dc_sqltype dc in
  (t = SQL_LONGVARCHAR ∨ (t = SQL_VARCHAR ∧ dc_sqlsize dc = 0) →
   ctype_ c = SQL_C_CHAR ∧ blob_ c = true) ∧
  (one_of t [SQL_BINARY; SQL_VARBINARY; SQL_LONGVARBINARY; SQL_SS_UDT] = true →
   ctype_ c = SQL_C_BINARY ∧ blob_ c = true).
Proof.
  cbn zeta. unfold described_column. split.
  - intros [Ht|[Ht Hs]]; rewrite Ht; [|rewrite Hs]; by vm_compute.
  - unfold one_of at 1, existsb.
    destruct (Z.eqb_spec (dc_sqltype dc) SQL_BINARY) as [->|?]; [by vm_compute|].
    destruct (Z.eqb_spec (dc_sqltype dc) SQL_VARBINARY) as [->|?]; [by vm_compute|].
    destruct (Z.eqb_spec (dc_sqltype dc) SQL_LONGVARBINARY) as [->|?]; [by vm_compute|].
    destruct (Z.eqb_spec (dc_sqltype dc) SQL_SS_UDT) as [->|?]; [by vm_compute|].
    discriminate.
Qed.

Lemma ref_bind_fold_getdata (s : RefDriver.stmt) (f : nat → bound_column) j :
  RefDriver.getdata_done
    (foldl (λ d i, native_bind d i (f i)) s (seq 0 j))
  = RefDriver.getdata_done s.
Proof.
  induction j as [|j IH]; [done|].
  rewrite seq_S, foldl_app, Nat.add_0_l. cbn [foldl].
  unfold native_bind. simpl. unfold RefDriver.bind_col.
  destruct (_ && _); simpl; exact IH.
Qed.

Section Blob.
Context {platform : Platform}.
Implicit Types r : ResultImpl (D:=RefDriver.stmt).

Lemma ref_ctor_fresh columns N cells B r0 :
  ResultImpl_ctor (RefDriver.executed columns N cells) B = Returns r0 →
  RefDriver.getdata_done (stmt_ r0) = ∅.
Proof.
  intros Hctor. pose proof (ctor_auto_bind _ _ _ Hctor) as Hab.
  rewrite (auto_bind_stmt _ _ Hab). cbn [stmt_].
  rewrite ref_bind_fold_getdata. simpl. unfold RefDriver.set_array_size.
  by destruct (B <? 1).
Qed.

Lemma nav_fresh c r :
  bound_ok r → RefDriver.getdata_done (stmt_ r) = ∅ →
  RefDriver.getdata_done (stmt_ (nav_op c r).2) = ∅.
Proof.
  intros Hok Hfresh.
  assert (Hf : ∀ k o p, RefDriver.getdata_done
                          (stmt_ (fetch k o (set_rowset_position p r)).2) = ∅).
  { intros. rewrite fetch_stmt by by apply bound_ok_set_rowset_position. done. }
  destruct c as [| | | |row|n]; simpl.
  - apply Hf.
  - apply Hf.
  - unfold next. case_bool_decide.
    + cbn zeta. destruct (_ <? _); [done|]. apply (Hf 0 SQL_FETCH_NEXT 0).
    + apply Hf.
  - unfold prior. case_bool_decide.
    + cbn zeta. destruct (_ <=? _); [done|]. apply (Hf 0 SQL_FETCH_PRIOR 0).
    + apply Hf.
  - apply Hf.
  - unfold skip. cbn zeta. destruct (_ && _); [done|].
    apply (Hf n SQL_FETCH_RELATIVE 0).
Qed.

Lemma run_synced_fresh columns N cells B (ops : list nav) : ∀ r,
  1 ≤ B < 2 ^ 63 → synced columns N cells B r →
  RefDriver.getdata_done (stmt_ r) = ∅ →
  synced columns N cells B (run (nav_op <$> ops) r).2 ∧
  RefDriver.getdata_done (stmt_ (run (nav_op <$> ops) r).2) = ∅.
Proof.
  induction ops as [|c ops IH]; intros r HB Hs Hfresh; [done|].
  rewrite fmap_cons. cbn [run].
  pose proof (nav_synced columns N cells B c r HB Hs) as H1.
  pose proof (nav_fresh c r (proj1 Hs) Hfresh) as H2.
  destruct (nav_op c r) as [o r1]. simpl in H1, H2.
  specialize (IH r1 HB H1 H2).
  destruct (run (nav_op <$> ops) r1) as [os r2]. done.
Qed.

(** X9.  Columns read with [SQLGetData], on the reference statement, which
    returns a cell in pieces that fill the buffer and reports with every
    piece the length still to come.  With the cursor on the first row of a
    batch, on a cell that is not null, [get<string>] of a LONGVARCHAR column
    or of a VARCHAR column of reported size 0 returns all bytes of the
    cell, however many pieces that takes, and [get<std::vector<uint8_t>>]
    and [get<string>] of a binary column return all bytes of the cell,
    provided [fuel] calls suffice (1023 bytes are taken per call for
    characters).  A driver that reports no length with a piece is not
    covered. *)
Theorem blob_read_returns_cell columns N cells B ops fuel :
  1 ≤ B < 2 ^ 31 → N < 2 ^ 63 →
  Forall (λ d, success (dc_rc d) = true ∧ 0 ≤ dc_sqlsize d < 2 ^ 31) columns →
  ∃ r0, ResultImpl_ctor (RefDriver.executed columns N cells) B = Returns r0 ∧
    let r := (run (nav_op <$> ops) r0).2 in
    rowset_position_ r = 0 → 0 < rows r →
    ∃ row, 1 ≤ row ≤ N ∧ position r = Returns row ∧
      ∀ (i : nat) dc, columns !! i = Some dc →
        let cl := cells row i in
        let t := dc_sqltype dc in
        cl.1 ≠ SQL_NULL_DATA →
        Z.of_nat (length cl.2) < 2 ^ 63 →
        (length cl.2 < fuel * 1023)%nat →
        (t = SQL_LONGVARCHAR ∨ (t = SQL_VARCHAR ∧ dc_sqlsize dc = 0) →
         (get (get_ref_impl_string fuel) (Z.of_nat i) r).1
         = Returns (string_of_list_byte cl.2)) ∧
        (one_of t [SQL_BINARY; SQL_VARBINARY; SQL_LONGVARBINARY; SQL_SS_UDT] = true →
         (get (get_ref_impl_binary fuel) (Z.of_nat i) r).1 = Returns cl.2 ∧
         (get (get_ref_impl_string fuel) (Z.of_nat i) r).1
         = Returns (string_of_list_byte cl.2)).
Proof.
  intros HB HN Hall.
  destruct (ref_ctor_synced columns N cells B HB Hall) as (r0 & Hctor & Hs0).
  exists r0. split; [done|]. intros r Hp0 Hrows.
  assert (HB63 : 1 ≤ B < 2 ^ 63) by lia.
  destruct (run_synced_fresh columns N cells B ops r0 HB63 Hs0
              (ref_ctor_fresh _ _ _ _ _ Hctor)) as [Hs Hfresh].
  fold r in Hs, Hfresh.
  destruct (synced_current_row columns N cells B r HB63 HN Hs)
    as (Hrow & Hposn & Hcells); [lia|].
  rewrite Hp0, Z.add_0_r in Hrow, Hposn, Hcells.
  eexists. split; [exact Hrow|]. split; [exact Hposn|].
  intros i dc Hdc. cbn zeta. intros Hnn Hlen63 Hfuel.
  destruct (Hcells i dc Hdc) as (c & Hat & Hsize & Hct & Hbl & Hnull & _).
  assert (Hfalse : isNull (Z.of_nat i) r = Returns false).
  { rewrite Hnull. f_equal. by apply Z.eqb_neq. }
  destruct (described_column_blob dc i) as [Hchar Hbin]. cbn zeta in *.
  destruct Hs as (_ & _ & _ & _ & Hcell & _).
  assert (Hloop : ∀ ctype room,
    room = Z.to_nat (if ctype =? SQL_C_BINARY then 1024 else 1024 - 1) →
    (0 < room)%nat → (1023 ≤ room)%nat →
    ∃ ch, get_data_loop fuel (Z.of_nat i + 1) ctype 1024
            (λ v, Z.min (to_ulen v) (Z.of_nat room)) (stmt_ r) [] false = Some ch ∧
          ch_out ch = (cells (RefDriver.rowset_start (stmt_ r)) i).2 ∧
          ch_rc ch = SQL_SUCCESS ∧ ch_null ch = false).
  { intros ctype room Hroom Hpos Hge.
    destruct (get_data_loop_rest (Z.of_nat i + 1) ctype
                (cells (RefDriver.rowset_start (stmt_ r)) i).1
                (cells (RefDriver.rowset_start (stmt_ r)) i).2 room
                (λ v, Z.min (to_ulen v) (Z.of_nat room)) Hnn Hpos Hroom)
      with (fuel := fuel) (s := stmt_ r) (out := @nil byte)
      as (ch & Hl & Hout & Hrc & Hn).
    - intros n Hn. rewrite to_ulen_small by lia. lia.
    - rewrite Hcell. replace (Z.to_nat (Z.of_nat i + 1 - 1)) with i by lia.
      by destruct (cells _ i).
    - left. by rewrite Hfresh, lookup_empty.
    - rewrite Hfresh, lookup_empty. cbn [default]. rewrite drop_0.
      assert (fuel * 1023 ≤ fuel * room)%nat by (apply Nat.mul_le_mono_l; lia).
      lia.
    - destruct fuel; [simpl in Hfuel; lia|lia].
    - exists ch. split; [done|]. split; [|done].
      rewrite Hout, Hfresh, lookup_empty. cbn [default]. by rewrite drop_0. }
  assert (Hstring : ∀ ct,
    ct = SQL_C_CHAR ∨ ct = SQL_C_BINARY →
    ctype_ (described_column dc i) = ct ∧ blob_ (described_column dc i) = true →
    (get (get_ref_impl_string fuel) (Z.of_nat i) r).1
    = Returns (string_of_list_byte
                 (cells (RefDriver.rowset_start (stmt_ r)) i).2)).
  { intros ct Hcases [Hc Hb]. rewrite get_not_null by done.
    unfold get_ref_impl_string. rewrite Hat, Hct, Hbl, Hc, Hb.
    destruct Hcases as [-> | ->].
    - destruct (Hloop SQL_C_CHAR 1023%nat) as (ch & Hl & Hout & Hrc & Hn);
        [done|lia|lia|].
      cbn [Z.eqb orb]. replace (SQL_C_CHAR =? SQL_C_CHAR) with true by done.
      replace (SQL_C_CHAR =? SQL_C_BINARY) with false by done.
      cbn [orb]. change (Z.of_nat 1023) with 1023 in Hl. rewrite Hl.
      unfold finish_blob. by rewrite Hn, Hrc, Hout.
    - destruct (Hloop SQL_C_BINARY 1024%nat) as (ch & Hl & Hout & Hrc & Hn);
        [done|lia|lia|].
      replace (SQL_C_BINARY =? SQL_C_CHAR) with false by done.
      replace (SQL_C_BINARY =? SQL_C_BINARY) with true by done.
      cbn [orb]. change (Z.of_nat 1024) with 1024 in Hl. rewrite Hl.
      unfold finish_blob. by rewrite Hn, Hrc, Hout. }
  split.
  - intros Ht. apply (Hstring SQL_C_CHAR); [by left|by apply Hchar].
  - intros Ht. split; [|apply (Hstring SQL_C_BINARY); [by right|by apply Hbin]].
    destruct (Hbin Ht) as [Hc Hb].
    rewrite get_not_null by done.
    unfold get_ref_impl_binary. rewrite Hat, Hct, Hbl, Hc, Hb.
    destruct (Hloop SQL_C_BINARY 1024%nat) as (ch & Hl & Hout & Hrc & Hn);
      [done|lia|lia|].
    replace (SQL_C_BINARY =? SQL_C_BINARY) with true by done.
    change (Z.of_nat 1024) with 1024 in Hl. rewrite Hl.
    by rewrite Hn, Hrc, Hout.
Qed.
End Blob.

(** ** Numbers as text, temporal values and diagnostics *)













Section Text.
Context {D : Type} {api : NativeAPI D} {platform : Platform}.
Implicit Types r : ResultImpl (D:=D).

End Text.

(** A column whose SQL type is not temporal gets no temporal buffer type. *)
Lemma described_column_not_temporal dc i :
  one_of (dc_sqltype dc) [SQL_DATE; SQL_TYPE_DATE; SQL_TIME; SQL_TYPE_TIME;
                          SQL_TIMESTAMP; SQL_TYPE_TIMESTAMP] = false →
  one_of (ctype_ (described_column dc i))
    [SQL_C_DATE; SQL_C_TIME; SQL_C_TIMESTAMP] = false.
Proof.
  intros Ht.
  assert (one_of (dc_sqltype dc) [SQL_DATE; SQL_TYPE_DATE] = false ∧
          one_of (dc_sqltype dc) [SQL_TIME; SQL_TYPE_TIME] = false ∧
          one_of (dc_sqltype dc) [SQL_TIMESTAMP; SQL_TYPE_TIMESTAMP] = false)
    as (Hd & Hti & Hts).
  { revert Ht. unfold one_of, existsb.
    repeat (match goal with
            | |- context [Z.eqb (dc_sqltype dc) ?k] =>
                destruct (Z.eqb (dc_sqltype dc) k)
            end); done. }
  unfold described_column, choose_buffer. cbn [sqltype_].
  rewrite Hd, Hti, Hts.
  repeat (match goal with
          | |- context [if ?b then _ else _] => destruct b
          end); reflexivity.
Qed.

Section TemporalColumns.
Context {platform : Platform}.
Implicit Types r : ResultImpl (D:=RefDriver.stmt).

(** X11.  Reading a temporal column as another temporal type.  On the
    reference statement, after any sequence of navigation calls that leaves
    the in-batch offset inside [rows()], for a cell of the current row that
    is not null: a TIMESTAMP column read as a date or as a time gives the
    date fields or the time fields of the timestamp the driver delivered for
    that row; a DATE column read as a timestamp gives midnight of the
    delivered day, with fraction 0, and read as a time throws the type
    error; a TIME column read as a date or as a timestamp throws it; and a
    column of any other SQL type throws it for all three reads. *)
Theorem temporal_conversions columns N cells B ops :
  1 ≤ B < 2 ^ 31 → N < 2 ^ 63 →
  Forall (λ d, success (dc_rc d) = true ∧ 0 ≤ dc_sqlsize d < 2 ^ 31) columns →
  ∃ r0, ResultImpl_ctor (RefDriver.executed columns N cells) B = Returns r0 ∧
    let r := (run (nav_op <$> ops) r0).2 in
    0 ≤ rowset_position_ r < rows r →
    ∃ row, 1 ≤ row ≤ N ∧ position r = Returns row ∧
      ∀ (i : nat) dc, columns !! i = Some dc →
        let cl := cells row i in
        let t := dc_sqltype dc in
        cl.1 ≠ SQL_NULL_DATA →
        (one_of t [SQL_TIMESTAMP; SQL_TYPE_TIMESTAMP] = true →
         let s := decode_timestamp (cell_slot 16 cl.2) in
         get get_ref_impl_date (Z.of_nat i) r
         = (Returns {| d_year := ts_year s; d_month := ts_month s;
                       d_day := ts_day s |}, r) ∧
         get get_ref_impl_time (Z.of_nat i) r
         = (Returns {| t_hour := ts_hour s; t_min := ts_min s;
                       t_sec := ts_sec s |}, r)) ∧
        (one_of t [SQL_DATE; SQL_TYPE_DATE] = true →
         let d := decode_date (cell_slot 6 cl.2) in
         get get_ref_impl_timestamp (Z.of_nat i) r
         = (Returns {| ts_year := d_year d; ts_month := d_month d;
                       ts_day := d_day d; ts_hour := 0; ts_min := 0;
                       ts_sec := 0; ts_fract := 0 |}, r) ∧
         get get_ref_impl_time (Z.of_nat i) r
         = (Throws TypeIncompatipleError, r)) ∧
        (one_of t [SQL_TIME; SQL_TYPE_TIME] = true →
         get get_ref_impl_date (Z.of_nat i) r
         = (Throws TypeIncompatipleError, r) ∧
         get get_ref_impl_timestamp (Z.of_nat i) r
         = (Throws TypeIncompatipleError, r)) ∧
        (one_of t [SQL_DATE; SQL_TYPE_DATE; SQL_TIME; SQL_TYPE_TIME;
                   SQL_TIMESTAMP; SQL_TYPE_TIMESTAMP] = false →
         get get_ref_impl_date (Z.of_nat i) r
         = (Throws TypeIncompatipleError, r) ∧
         get get_ref_impl_time (Z.of_nat i) r
         = (Throws TypeIncompatipleError, r) ∧
         get get_ref_impl_timestamp (Z.of_nat i) r
         = (Throws TypeIncompatipleError, r)).
Proof.
  intros HB HN Hall.
  destruct (ref_ctor_synced columns N cells B HB Hall) as (r0 & Hctor & Hs0).
  exists r0. split; [done|]. intros r Hp.
  assert (HB63 : 1 ≤ B < 2 ^ 63) by lia.
  pose proof (run_synced columns N cells B ops r0 HB63 Hs0) as Hs. fold r in Hs.
  destruct (synced_current_row columns N cells B r HB63 HN Hs Hp)
    as (Hrow & Hposn & Hcells).
  eexists. split; [exact Hrow|]. split; [exact Hposn|].
  intros i dc Hdc. cbn zeta. intros Hnn.
  destruct (Hcells i dc Hdc) as (c & Hat & Hsize & Hct & _ & Hnull & Hdata).
  assert (Hfalse : isNull (Z.of_nat i) r = Returns false).
  { rewrite Hnull. f_equal. by apply Z.eqb_neq. }
  destruct (described_column_by_type dc i) as (_ & _ & Htda & Htt & Hts).
  destruct (described_column_buffer dc i) as (_ & _ & _ & _ & H6 & H16).
  cbn zeta in *.
  assert (Hread : ∀ ct n,
    ctype_ (described_column dc i) = ct →
    (ctype_ (described_column dc i) = ct →
     blob_ (described_column dc i) = false ∧ clen_ (described_column dc i) = n) →
    ctype_ c = ct ∧
    read_bytes (pdata_ c) (slot_offset r c) (Z.to_nat n)
    = Some (cell_slot n (cells (RefDriver.rowset_start (stmt_ r) + rowset_position_ r) i).2)).
  { intros ct n Hc1 Hc2. destruct (Hc2 Hc1) as [Hb Hcl].
    destruct (Hdata Hb Hnn) as [Hcl' Hrd].
    split; [congruence|]. rewrite Hcl', Hcl in Hrd. exact Hrd. }
  split; [|split; [|split]].
  - intros Ht. rewrite !get_not_null by done.
    destruct (Hread SQL_C_TIMESTAMP 16 (Hts Ht)) as [Hc Hrd]; [exact H16|].
    unfold get_ref_impl_date, get_ref_impl_time, lift, read_slot.
    rewrite Hat, Hc. change (Z.to_nat 16) with 16%nat in Hrd.
    replace (SQL_C_TIMESTAMP =? SQL_C_DATE) with false by done.
    replace (SQL_C_TIMESTAMP =? SQL_C_TIME) with false by done.
    replace (SQL_C_TIMESTAMP =? SQL_C_TIMESTAMP) with true by done.
    by rewrite Hrd.
  - intros Ht. rewrite !get_not_null by done.
    destruct (Hread SQL_C_DATE 6 (Htda Ht)) as [Hc Hrd].
    { intros H. apply H6. by left. }
    unfold get_ref_impl_timestamp, get_ref_impl_time, lift, read_slot.
    rewrite Hat, Hc. change (Z.to_nat 6) with 6%nat in Hrd.
    replace (SQL_C_DATE =? SQL_C_DATE) with true by done.
    replace (SQL_C_DATE =? SQL_C_TIME) with false by done.
    replace (SQL_C_DATE =? SQL_C_TIMESTAMP) with false by done.
    by rewrite Hrd.
  - intros Ht. rewrite !get_not_null by done.
    unfold get_ref_impl_date, get_ref_impl_timestamp, lift.
    rewrite Hat, Hct, (Htt Ht).
    replace (SQL_C_TIME =? SQL_C_DATE) with false by done.
    replace (SQL_C_TIME =? SQL_C_TIMESTAMP) with false by done.
    done.
  - intros Ht. rewrite !get_not_null by done.
    pose proof (described_column_not_temporal dc i Ht) as Hno.
    rewrite <- Hct in Hno. unfold one_of, existsb in Hno.
    apply orb_false_elim in Hno as [Hd Hno].
    apply orb_false_elim in Hno as [Hti Hno].
    apply orb_false_elim in Hno as [Hst _].
    unfold get_ref_impl_date, get_ref_impl_time, get_ref_impl_timestamp, lift.
    rewrite Hat, Hd, Hti, Hst. done.
Qed.
End TemporalColumns.


(** X12. The diagnostics of a [DatabaseError] built without the Microsoft
    compiler.  The message is the caller's text followed by a status text in
    which every zero character has been replaced; and when the first
    diagnostic record has a length but cannot be fetched, the message is the
    caller's text alone, with state [00000] and native error 0. *)
Theorem database_error_on_other_builds recs s0 n0 info :
  let e := DatabaseError_ctor false recs s0 n0 info in
  (∃ status, message e = info +:+ status ∧
             NUL ∉ list_ascii_of_string status) ∧
  (∀ d rest, recs = d :: rest →
     dg_rc_len d ≠ SQL_NO_DATA → success (dg_rc_get d) = false →
     message e = info ∧ sqlState e = "00000"%string ∧ nativeError e = 0).
Proof.
  cbn zeta. unfold DatabaseError_ctor, recent_error.
  cbn [message sqlState nativeError]. split.
  - destruct (recent_error_loop false recs _) as [rv|l] eqn:Hloop.
    + exists rv. split; [done|].
      destruct recs as [|d rest]; [discriminate|].
      cbn [recent_error_loop] in Hloop.
      destruct (dg_rc_len d =? SQL_NO_DATA); [discriminate|].
      destruct (negb (success (dg_rc_get d))); [|discriminate].
      inversion Hloop; subst rv.
      destruct (success (dg_rc_len d)); simpl; apply not_elem_of_nil.
    + eexists. split; [done|]. by apply replace_removes.
  - intros d rest -> Hnd Hfail.
    cbn [recent_error_loop].
    rewrite (proj2 (Z.eqb_neq _ _) Hnd), Hfail. cbn [negb re_status re_state re_native].
    destruct (success (dg_rc_len d)); cbn [dl_Result].
    + split; [|done]. induction info as [|c info IH]; [done|].
      rewrite string_app_cons. by rewrite IH.
    + split; [|done]. induction info as [|c info IH]; [done|].
      rewrite string_app_cons. by rewrite IH.
Qed.

(** ** Connections and transactions: the properties *)

Lemma filter_length_insert {A} (f : A → bool) (l : list A) i x y :
  l !! i = Some y →
  Z.of_nat (length (List.filter f (<[i:=x]> l)))
  = Z.of_nat (length (List.filter f l))
    - (if f y then 1 else 0) + (if f x then 1 else 0).
Proof.
  revert i. induction l as [|a l IH]; intros i Hi; [done|].
  destruct i as [|i].
  - injection Hi as ->. cbn [list_insert insert List.filter].
    destruct (f y), (f x); cbn [length]; lia.
  - cbn [lookup list_lookup] in Hi. specialize (IH i Hi).
    change (<[S i:=x]> (a :: l)) with (a :: <[i:=x]> l).
    cbn [List.filter]. destruct (f a); cbn [length]; lia.
Qed.

Lemma filter_length_le {A} (f : A → bool) (l : list A) :
  (length (List.filter f l) ≤ length l)%nat.
Proof.
  induction l as [|a l IH]; [done|]. cbn [List.filter].
  destruct (f a); cbn [length]; lia.
Qed.

Lemma filter_length_pos {A} (f : A → bool) (l : list A) i y :
  l !! i = Some y → f y = true → (0 < length (List.filter f l))%nat.
Proof.
  revert i. induction l as [|a l IH]; intros i Hi Hy; [done|].
  destruct i as [|i].
  - injection Hi as ->. cbn [List.filter]. rewrite Hy. cbn [length]. lia.
  - cbn [List.filter]. specialize (IH i Hi Hy).
    destruct (f a); cbn [length]; lia.
Qed.

Section Transactions.
Import Connection Transaction.
Context {H : Type} {capi : ConnectionAPI H} {platform : Platform}.
Implicit Types c : ConnectionImpl H.
Implicit Types ts : list (option TransactionImpl).

Lemma ctor_transactions c :
  transactions_ c + 1 < 2 ^ 64 → 0 ≤ transactions_ c →
  match TransactionImpl_ctor c with
  | (Returns t, c') =>
      committed_ t = false ∧ transactions_ c' = transactions_ c + 1 ∧
      connected_ c' = connected_ c ∧ rollback_ c' = rollback_ c
  | (_, c') =>
      transactions_ c' = transactions_ c ∧ connected_ c' = connected_ c ∧
      rollback_ c' = rollback_ c
  end.
Proof.
  intros Hlt Hge. unfold TransactionImpl_ctor.
  assert (Hu : to_ulen (transactions_ c + 1) = transactions_ c + 1)
    by (apply to_ulen_small; lia).
  destruct (_ && _).
  - destruct (SQLSetConnectAttr _ _ _) as [h rc].
    destruct (negb (success rc)); cbn; [done|]. by rewrite Hu.
  - cbn. by rewrite Hu.
Qed.

Lemma commit_transactions t c :
  0 ≤ transactions_ c →
  let '(_, t', c') := commit t c in
  committed_ t' = true ∧
  transactions_ c'
  = (if committed_ t then transactions_ c
     else if 0 <? transactions_ c then transactions_ c - 1 else transactions_ c) ∧
  connected_ c' = connected_ c ∧ rollback_ c' = rollback_ c.
Proof.
  intros Hge. unfold commit. destruct (committed_ t) eqn:Hc; [done|].
  unfold unrefTransaction.
  destruct (0 <? transactions_ c) eqn:Hpos; cbn [set_transactions transactions_].
  - destruct (_ && _); [|done].
    destruct (SQLEndTran _ _) as [h rc]. by destruct (negb (success rc)).
  - destruct (_ && _); [|done].
    destruct (SQLEndTran _ _) as [h rc]. by destruct (negb (success rc)).
Qed.

Lemma dtor_transactions t c :
  transactions_ (TransactionImpl_dtor t c)
  = (if committed_ t then transactions_ c
     else if 0 <? transactions_ c then transactions_ c - 1 else transactions_ c) ∧
  connected_ (TransactionImpl_dtor t c) = connected_ c.
Proof.
  unfold TransactionImpl_dtor.
  destruct (committed_ t); cbn [negb].
  - destruct (_ && _); [|done]. by destruct (Connection.rollback c).
  - unfold unrefTransaction. cbn [rollback_set transactions_].
    destruct (0 <? transactions_ c); cbn [snd].
    + destruct (_ && _); [|done]. by destruct (Connection.rollback _).
    + destruct (_ && _); [|done]. by destruct (Connection.rollback _).
Qed.

Lemma disconnect_transactions c :
  transactions_ (disconnect c).2 = transactions_ c.
Proof.
  unfold disconnect. destruct (connected c); [|done].
  destruct (SQLDisconnect _) as [h rc]. by destruct (negb (success rc)).
Qed.

Lemma open_transactions_app ts o :
  open_transactions (ts ++ [o])
  = open_transactions ts + (if uncommitted o then 1 else 0).
Proof.
  unfold open_transactions. rewrite List.filter_app, length_app.
  cbn [List.filter]. destruct (uncommitted o); cbn [length]; lia.
Qed.

Lemma open_transactions_insert ts i o o' :
  ts !! i = Some o →
  open_transactions (<[i:=o']> ts)
  = open_transactions ts - (if uncommitted o then 1 else 0)
    + (if uncommitted o' then 1 else 0).
Proof. apply filter_length_insert. Qed.

Lemma open_transactions_pos ts i t :
  ts !! i = Some (Some t) → committed_ t = false → 0 < open_transactions ts.
Proof.
  intros Hi Hc. unfold open_transactions.
  assert (0 < length (List.filter uncommitted ts))%nat; [|lia].
  eapply filter_length_pos; [exact Hi|]. cbn. by rewrite Hc.
Qed.

Lemma open_transactions_le ts : 0 ≤ open_transactions ts ≤ Z.of_nat (length ts).
Proof.
  unfold open_transactions.
  pose proof (filter_length_le uncommitted ts). lia.
Qed.

(** One call of the client keeps the counter equal to the number of open
    transaction objects. *)
Lemma client_step_counts c ts o :
  transactions_ c = open_transactions ts →
  Z.of_nat (length ts) + 1 < 2 ^ 64 →
  transactions_ (client_step (c, ts) o).1
  = open_transactions (client_step (c, ts) o).2 ∧
  (length (client_step (c, ts) o).2 ≤ length ts + 1)%nat.
Proof.
  intros Hinv Hlen.
  pose proof (open_transactions_le ts) as Hle.
  destruct o as [|i|i|i|]; cbn [client_step].
  - pose proof (ctor_transactions c ltac:(lia) ltac:(lia)) as Hctor.
    destruct (TransactionImpl_ctor c) as [[t| | |] c'];
      cbn [fst snd]; try (split; [lia|lia]).
    destruct Hctor as (Hc & Ht & _).
    rewrite open_transactions_app, length_app. cbn [uncommitted length].
    rewrite Hc. cbn [negb]. split; lia.
  - destruct (ts !! i) as [[t|]|] eqn:Hi; cbn [fst snd]; try (split; [lia|lia]).
    pose proof (commit_transactions t c ltac:(lia)) as Hcommit.
    destruct (commit t c) as [[o t'] c']. cbn [fst snd].
    destruct Hcommit as (Hc' & Ht & _).
    rewrite (open_transactions_insert ts i (Some t) (Some t') Hi).
    rewrite length_insert. cbn [uncommitted]. rewrite Hc'. cbn [negb].
    split; [|lia]. rewrite Ht.
    destruct (committed_ t) eqn:Hc; cbn [negb]; [lia|].
    pose proof (open_transactions_pos ts i t Hi Hc) as Hpos.
    destruct (Z.ltb_spec 0 (transactions_ c)); lia.
  - destruct (ts !! i) as [[t|]|] eqn:Hi; cbn [fst snd]; try (split; [lia|lia]).
    split; [|lia]. rewrite <- Hinv. unfold Transaction.rollback.
    by destruct (committed_ t).
  - destruct (ts !! i) as [[t|]|] eqn:Hi; cbn [fst snd]; try (split; [lia|lia]).
    destruct (dtor_transactions t c) as [Ht _].
    rewrite (open_transactions_insert ts i (Some t) None Hi).
    rewrite length_insert. cbn [uncommitted].
    split; [|lia]. rewrite Ht.
    destruct (committed_ t) eqn:Hc; cbn [negb]; [lia|].
    pose proof (open_transactions_pos ts i t Hi Hc) as Hpos.
    destruct (Z.ltb_spec 0 (transactions_ c)); lia.
  - cbn [fst snd]. rewrite disconnect_transactions. split; lia.
Qed.

Lemma client_run_snoc ops o c :
  client_run (ops ++ [o]) c = client_step (client_run ops c) o.
Proof. unfold client_run. by rewrite foldl_app. Qed.

Lemma client_run_counts ops c :
  transactions_ c = 0 → Z.of_nat (length ops) < 2 ^ 64 →
  transactions_ (client_run ops c).1 = open_transactions (client_run ops c).2 ∧
  (length (client_run ops c).2 ≤ length ops)%nat.
Proof.
  intros H0. induction ops as [|o ops IH] using rev_ind; intros Hlen.
  - by cbn.
  - rewrite length_app in Hlen. cbn [length] in Hlen.
    destruct IH as [Hinv Hl]; [lia|].
    rewrite client_run_snoc. destruct (client_run ops c) as [c' ts].
    cbn [fst snd] in Hinv, Hl.
    destruct (client_step_counts c' ts o Hinv ltac:(lia)) as [Hinv' Hl'].
    split; [exact Hinv'|]. rewrite length_app. cbn [length]. lia.
Qed.

(** X13. The transaction counter of a connection is the number of
    transaction objects that are alive and not committed.  It holds on any
    driver after any sequence of constructions, [commit()], [rollback()],
    ends of life and [disconnect()], also when calls of the driver fail:
    a constructor that throws takes no reference, [commit()] gives its
    reference back before it throws, a committed object gives none back at
    its end. *)
Theorem transactions_counts_open_objects (ops : list client_call) c :
  transactions c = 0 → Z.of_nat (length ops) < 2 ^ 64 →
  transactions (client_run ops c).1 = open_transactions (client_run ops c).2.
Proof. intros H0 Hlen. by apply client_run_counts. Qed.

(** X16. When the COMMIT of the last open transaction fails, [commit()]
    throws a [DatabaseError], but the object is committed all the same and the
    counter is back at 0: a second [commit()] returns without any call, and so
    does [rollback()]; at its end the object sends no ROLLBACK (unless the
    connection was marked before), it only turns autocommit on. *)
Theorem failed_commit_is_final (t : TransactionImpl) c :
  committed_ t = false → transactions c = 1 → connected c = true →
  success (SQLEndTran (nativeDbcHandle c) SQL_COMMIT).2 = false →
  ∃ e t1 c1,
    commit t c = (Throws (ThrowDatabaseError e), t1, c1) ∧
    transactions c1 = 0 ∧
    commit t1 c1 = (Returns tt, t1, c1) ∧
    Transaction.rollback t1 c1 = c1 ∧
    (Connection.rollback c = false →
     TransactionImpl_dtor t1 c1
     = NANODBC_CALL (λ h, SQLSetConnectAttr h SQL_ATTR_AUTOCOMMIT SQL_AUTOCOMMIT_ON) c1).
Proof.
  unfold transactions, connected, nativeDbcHandle, Connection.rollback.
  intros Hc Ht Hconn Hfail.
  unfold commit at 1. rewrite Hc. unfold unrefTransaction. rewrite Ht.
  cbn [Z.ltb Z.compare set_transactions transactions_ connected connected_
       Z.sub Z.add Z.opp Z.pos_sub Z.eqb andb nativeDbcHandle conn_].
  rewrite Hconn.
  destruct (SQLEndTran (conn_ c) SQL_COMMIT) as [h rc]. cbn [snd] in Hfail.
  rewrite Hfail. cbn [negb].
  eexists _, _, _. split; [reflexivity|].
  split; [done|]. split; [done|]. split; [done|].
  intros Hrb. unfold TransactionImpl_dtor. cbn. by rewrite Hconn, Hrb.
Qed.

End Transactions.

Section ReferenceConnection.
Import Connection Transaction RefConnection.
Context {platform : Platform}.
Implicit Types c : ConnectionImpl handle.
Implicit Types ts : list (option TransactionImpl).


Lemma Forall_None_insert_Some ts i (t : TransactionImpl) :
  (i < length ts)%nat → ¬ Forall (λ o, o = None) (<[i:=Some t]> ts).
Proof.
  intros Hi Hall. rewrite Forall_lookup in Hall.
  specialize (Hall i (Some t)). rewrite list_lookup_insert_eq in Hall by done.
  by specialize (Hall eq_refl).
Qed.

Lemma Forall_None_lookup ts i (t : TransactionImpl) :
  ts !! i = Some (Some t) → ¬ Forall (λ o, o = None) ts.
Proof.
  intros Hi Hall. rewrite Forall_lookup in Hall. by specialize (Hall i _ Hi).
Qed.

Lemma Forall_None_open ts :
  Forall (λ o, o = None) ts → open_transactions ts = 0.
Proof.
  unfold open_transactions. induction 1 as [|o ts -> _ IH]; [done|].
  cbn [List.filter uncommitted]. exact IH.
Qed.

Lemma client_step_settled c ts o :
  transactions_ c = open_transactions ts →
  Z.of_nat (length ts) + 1 < 2 ^ 64 →
  settled c ts →
  settled (client_step (c, ts) o).1 (client_step (c, ts) o).2.
Proof.
  intros Hinv Hlen Hset.
  destruct (client_step_counts c ts o Hinv Hlen) as [Hinv' _].
  pose proof (open_transactions_le ts) as Hle.
  revert Hinv'. unfold settled in *.
  destruct o as [|i|i|i|]; cbn [client_step].
  - unfold TransactionImpl_ctor, transactions, connected, nativeDbcHandle.
    cbn [SQLSetConnectAttr api]. change (negb (success SQL_SUCCESS)) with false.
    destruct (Z.eqb_spec (transactions_ c) 0) as [H0|H0];
      destruct (connected_ c) eqn:Hconn; cbn [andb negb fst snd];
      unfold refTransaction;
      cbn [snd set_transactions set_conn conn_ connected_ rollback_ transactions_];
      intros Hinv' Hconn'; try congruence.
    + split; [done|]. intros Hall. apply Forall_app in Hall as [_ Hall].
      by inversion Hall.
    + destruct Hset as [Hoff _]; [done|]. split.
      * intros _. apply Hoff. lia.
      * intros Hall. apply Forall_app in Hall as [_ Hall]. by inversion Hall.
  - destruct (ts !! i) as [[t|]|] eqn:Hi; cbn [fst snd]; [|done|done].
    pose proof (lookup_lt_Some _ _ _ Hi) as Hlt.
    unfold commit, unrefTransaction, transactions, connected, nativeDbcHandle.
    destruct (committed_ t) eqn:Hc.
    + cbn [fst snd]. intros _ Hconn. destruct Hset as [Hoff _]; [done|].
      split; [done|]. intros Hall. by apply Forall_None_insert_Some in Hall.
    + pose proof (open_transactions_pos ts i t Hi Hc) as Hpos.
      destruct (Z.ltb_spec 0 (transactions_ c)) as [_|]; [|lia].
      cbn [set_transactions transactions_ connected_ conn_].
      destruct ((transactions_ c - 1 =? 0) && connected_ c) eqn:Hlast;
        cbn [SQLEndTran api]; change (negb (success SQL_SUCCESS)) with false;
        cbn [fst snd set_conn transactions_ connected_ conn_ made autocommit];
        intros _ Hconn; (destruct Hset as [Hoff _]; [done|]);
        (split; [intros; apply Hoff; lia|]);
        intros Hall; by apply Forall_None_insert_Some in Hall.
  - destruct (ts !! i) as [[t|]|] eqn:Hi; cbn [fst snd]; [|done|done].
    unfold Transaction.rollback. intros _.
    destruct (committed_ t); [done|]. cbn [rollback_set connected_ transactions_ conn_].
    intros Hconn. destruct Hset as [Hoff _]; [done|]. split; [done|].
    intros Hall. by apply Forall_None_lookup in Hi.
  - destruct (ts !! i) as [[t|]|] eqn:Hi; cbn [fst snd]; [|done|done].
    destruct (dtor_transactions t c) as [_ Hconn_eq].
    intros Hinv' Hconn'. rewrite Hconn_eq in Hconn'.
    destruct Hset as [Hoff _]; [done|].
    revert Hinv'. unfold TransactionImpl_dtor, unrefTransaction, transactions,
      connected, Connection.rollback, NANODBC_CALL, nativeDbcHandle.
    set (c1 := if negb (committed_ t) then _ else c).
    assert (Hc1 : connected_ c1 = true ∧ conn_ c1 = conn_ c ∧
                  transactions_ c1 ≤ transactions_ c).
    { subst c1. destruct (committed_ t); cbn [negb]; [split; [done|split; [done|lia]]|].
      cbn [rollback_set transactions_].
      destruct (Z.ltb_spec 0 (transactions_ c)); cbn; (split; [done|split; [done|lia]]). }
    destruct Hc1 as (Hconn1 & Hh1 & Ht1). clearbody c1.
    rewrite Hconn1. destruct (Z.eqb_spec (transactions_ c1) 0) as [H0|H0];
      cbn [andb].
    + intros _. destruct (rollback_ c1) eqn:Hrb;
        cbn [SQLSetConnectAttr SQLEndTran api fst set_conn rollback_set conn_
             transactions_ made autocommit rollback_];
        (split; [lia|]); intros _; (split; [vm_compute; reflexivity|done]).
    + intros Hinv'. split.
      * intros Hpos. rewrite Hh1. apply Hoff. lia.
      * intros Hall. apply Forall_None_open in Hall. lia.
  - cbn [fst snd]. unfold disconnect, connected.
    destruct (connected_ c) eqn:Hconn; cbn [SQLDisconnect api];
      change (negb (success SQL_SUCCESS)) with false; cbn [snd];
      intros _ Hconn'; cbn in Hconn'; congruence.
Qed.

Lemma client_run_settled ops log :
  Z.of_nat (length ops) < 2 ^ 64 →
  settled (client_run ops (idle log)).1 (client_run ops (idle log)).2.
Proof.
  induction ops as [|o ops IH] using rev_ind; intros Hlen.
  - intros _. cbn. split; [lia|done].
  - rewrite length_app in Hlen. cbn [length] in Hlen.
    destruct (client_run_counts ops (idle log) eq_refl ltac:(lia)) as [Hinv Hl].
    specialize (IH ltac:(lia)).
    rewrite client_run_snoc. destruct (client_run ops (idle log)) as [c ts].
    cbn [fst snd] in *. apply client_step_settled; [done|lia|done].
Qed.

(** X14. On the reference connection, starting in autocommit mode, after
    any sequence of calls of a client that leaves the connection connected:
    while a transaction object is alive and not committed, the handle is in
    manual-commit mode; and once every object has ended, the handle is back in
    autocommit mode, the rollback mark is cleared and the counter is 0. *)
Theorem autocommit_follows_open_transactions (ops : list client_call) log :
  Z.of_nat (length ops) < 2 ^ 64 →
  let c := (client_run ops (idle log)).1 in
  let ts := (client_run ops (idle log)).2 in
  connected c = true →
  (0 < open_transactions ts → autocommit (nativeDbcHandle c) = false) ∧
  (Forall (λ o, o = None) ts →
   autocommit (nativeDbcHandle c) = true ∧ Connection.rollback c = false ∧
   transactions c = 0).
Proof.
  intros Hlen c ts Hconn.
  destruct (client_run_counts ops (idle log) eq_refl Hlen) as [Hinv _].
  destruct (client_run_settled ops log Hlen Hconn) as [Hoff Hall].
  fold c ts in Hinv, Hoff, Hall. split.
  - intros Hpos. apply Hoff. lia.
  - intros Hnone. destruct (Hall Hnone) as [Ha Hr]. split; [done|]. split; [done|].
    unfold transactions. rewrite Hinv. by apply Forall_None_open.
Qed.

(** Scopes nested inside an open transaction make no call on the handle:
    all they leave is the rollback mark, set when one of them ended without
    [commit()]. *)
Lemma scoped_inside (inner : list bool) : ∀ c,
  connected_ c = true → 1 ≤ transactions_ c →
  transactions_ c + Z.of_nat (length inner) < 2 ^ 64 →
  scoped inner c
  = (Returns tt, rollback_set (rollback_ c || negb (forallb id inner)) c).
Proof.
  induction inner as [|commits inner IH]; intros [h cn m rb] Hconn Hge Hlt;
    cbn [connected_ transactions_ rollback_] in *; subst cn.
  - cbn. by rewrite orb_false_r.
  - cbn [length] in Hlt. rewrite Nat2Z.inj_succ in Hlt. cbn [scoped].
    assert (Hm0 : (m =? 0) = false) by (apply Z.eqb_neq; lia).
    assert (Hm1 : m + 1 - 1 = m) by lia.
    assert (Hpos : (0 <? m + 1) = true) by (apply Z.ltb_lt; lia).
    unfold TransactionImpl_ctor, transactions, connected, refTransaction.
    cbn [transactions_ connected_]. rewrite Hm0. cbn [andb snd].
    rewrite to_ulen_small by lia.
    rewrite IH; unfold set_transactions;
      cbn [connected_ transactions_ rollback_ conn_]; [|done|lia|lia].
    destruct commits;
      unfold commit, TransactionImpl_dtor, unrefTransaction, transactions,
        connected, Connection.rollback, rollback_set, set_transactions;
      repeat (progress cbn [connected_ transactions_ rollback_ conn_ committed_
                            negb andb orb forallb id fst snd]
              || rewrite Hpos || rewrite Hm1 || rewrite Hm0).
    + reflexivity.
    + by rewrite orb_true_r.
Qed.

(** X15. What nested transaction scopes send to the driver.  Whatever
    the inner scopes do, the handle sees autocommit OFF once at the start and
    autocommit ON once at the end.  If the outermost scope ends with
    [commit()], one COMMIT is sent, by that call; it is followed by a ROLLBACK
    exactly when some inner scope ended without [commit()].  If the outermost
    scope ends without [commit()], one ROLLBACK is sent and no COMMIT.  The
    connection is left as it was found. *)
Theorem nested_scopes (outer : bool) (inner : list bool) log :
  Z.of_nat (length inner) + 1 < 2 ^ 64 →
  scoped (outer :: inner) (idle log)
  = (Returns tt,
     idle (log ++ [SetConnectAttr SQL_ATTR_AUTOCOMMIT SQL_AUTOCOMMIT_OFF]
               ++ (if outer
                   then EndTran SQL_COMMIT
                        :: (if forallb id inner then []
                            else [EndTran SQL_ROLLBACK])
                   else [EndTran SQL_ROLLBACK])
               ++ [SetConnectAttr SQL_ATTR_AUTOCOMMIT SQL_AUTOCOMMIT_ON])).
Proof.
  intros Hlen. cbn [scoped].
  unfold TransactionImpl_ctor, idle, transactions, connected, nativeDbcHandle,
    refTransaction.
  cbn [transactions_ connected_ conn_ Z.eqb andb SQLSetConnectAttr api].
  change (negb (success SQL_SUCCESS)) with false.
  change (to_ulen (0 + 1)) with 1.
  unfold set_conn, set_transactions.
  cbn [snd transactions_ connected_ conn_ rollback_ Z.add].
  change (to_ulen (0 + 1)) with 1.
  rewrite scoped_inside; cbn [connected_ transactions_ rollback_ orb]; [|done|lia|lia].
  destruct outer, (forallb id inner); cbv -[app];
    rewrite <- ?app_assoc; reflexivity.
Qed.

End ReferenceConnection.

(** ** Parameter binding: the properties *)

Section Binding.
Import Statement.
Context {Stmt : Type} {sapi : StatementAPI Stmt} {platform : Platform}
  {limits : VectorLimits}.
Implicit Types st : StatementImpl Stmt.

Lemma for_elements_marks param v (g : nat → option bool) (keeps : list bool)
    size st m :
  bind_len_or_null_ st = <[param := replicate size SQL_NULL_DATA]> m →
  (length keeps ≤ size)%nat →
  (∀ i k, keeps !! i = Some k → g i = Some k) →
  foldl (λ acc i, st' ← acc; keep ← g i;
                  Some (if keep : bool then set_indicator param v st' i else st'))
    (Some st) (seq 0 (length keeps))
  = Some (set_bind_len_or_null
            (<[param := indicator_array v keeps size]> m) st).
Proof.
  intros Hm. induction keeps as [|k keeps IH] using rev_ind; intros Hlen Hg.
  - cbn. unfold indicator_array. cbn. rewrite Nat.sub_0_r.
    destruct st as [s b]. cbn in *. by subst b.
  - rewrite length_app in *. cbn [length] in *.
    rewrite Nat.add_1_r, seq_S, foldl_app. cbn [foldl].
    rewrite IH; [|lia|].
    2:{ intros i k' Hi. apply Hg. by apply lookup_app_l_Some. }
    cbn [mbind option_bind]. rewrite Nat.add_0_l.
    rewrite (Hg (length keeps) k); [|by rewrite lookup_app_r, Nat.sub_diag].
    cbn [mbind option_bind].
    assert (Hext : indicator_array v (keeps ++ [k]) size
                   = <[length keeps := if k then v else SQL_NULL_DATA]>
                       (indicator_array v keeps size)).
    { unfold indicator_array. rewrite fmap_app, length_app. cbn [length fmap list_fmap].
      replace (size - length keeps)%nat with (S (size - (length keeps + 1)))%nat by lia.
      cbn [replicate]. rewrite <- app_assoc. cbn [app].
      rewrite insert_app_r_alt by (rewrite length_fmap; lia).
      rewrite length_fmap, Nat.sub_diag. done. }
    rewrite Hext. f_equal.
    destruct k.
    + unfold set_indicator, indicators, set_bind_len_or_null.
      cbn [bind_len_or_null_ stmt_]. rewrite lookup_insert_eq. cbn [default].
      by rewrite insert_insert_eq.
    + f_equal. f_equal. symmetry. apply list_insert_id.
      unfold indicator_array. rewrite lookup_app_r by (rewrite length_fmap; lia).
      rewrite length_fmap, Nat.sub_diag.
      replace (size - length keeps)%nat with (S (size - (length keeps + 1)))%nat by lia.
      done.
Qed.

Lemma prepare_bind_ok param elements direction st :
  success (dp_rc (SQLDescribeParam (stmt_ st) (parameter_number param))) = true →
  Z.max 8 elements ≤ max_size →
  prepare_bind param elements direction st
  = (Ok (dp_dataType (SQLDescribeParam (stmt_ st) (parameter_number param)),
         param_type_from_direction direction,
         dp_parameterSize (SQLDescribeParam (stmt_ st) (parameter_number param)),
         dp_scale (SQLDescribeParam (stmt_ st) (parameter_number param))),
     set_bind_len_or_null
       (<[param := replicate (Z.to_nat (Z.max 8 elements)) SQL_NULL_DATA]>
          (bind_len_or_null_ st)) st).
Proof.
  intros Hok Hmax. unfold prepare_bind. rewrite Hok. cbn [negb].
  replace (if 8 <? elements then elements else 8) with (Z.max 8 elements)
    by (destruct (Z.ltb_spec 8 elements); lia).
  by replace (max_size <? Z.max 8 elements) with false
    by (symmetry; apply Z.ltb_ge; lia).
Qed.


Lemma bind_parameter_after {T} {bt : BoundType T} param data elements direction
    array st :
  let reply := SQLDescribeParam (stmt_ st) (parameter_number param) in
  bind_parameter param data elements (dp_dataType reply)
    (param_type_from_direction direction) (dp_parameterSize reply)
    (dp_scale reply)
    (set_bind_len_or_null (<[param := array]> (bind_len_or_null_ st)) st)
  = bound_with T (bind_call param data elements direction array st) param array st.
Proof.
  cbn zeta. unfold bind_parameter, bound_with, bind_call, indicators,
    set_bind_len_or_null, set_stmt.
  cbn [stmt_ bind_len_or_null_]. rewrite lookup_insert_eq. cbn [default].
  destruct (SQLBindParameter _ _) as [s rc]. cbn [fst snd].
  by destruct (success rc).
Qed.

Lemma set_bind_len_or_null_twice m m' st :
  set_bind_len_or_null m' (set_bind_len_or_null m st) = set_bind_len_or_null m' st.
Proof. done. Qed.

Lemma bind_nullable_marks {T} {bt : BoundType T} param values elements nulls
    nullSentry direction st (keeps : list bool) :
  success (dp_rc (SQLDescribeParam (stmt_ st) (parameter_number param))) = true →
  Z.max 8 elements ≤ max_size →
  length keeps = Z.to_nat elements →
  (∀ i k, keeps !! i = Some k → holds_value values nulls nullSentry i = Some k) →
  let array :=
    indicator_array
      (to_long (dp_parameterSize
                  (SQLDescribeParam (stmt_ st) (parameter_number param))))
      keeps (Z.to_nat (Z.max 8 elements)) in
  bind_nullable param values elements nulls nullSentry direction st
  = bound_with T (bind_call param values elements direction array st) param array st.
Proof.
  intros Hok Hmax Hlen Hkeeps array.
  unfold bind_nullable. rewrite prepare_bind_ok by done.
  unfold for_elements. rewrite <- Hlen.
  rewrite (for_elements_marks param _ _ keeps (Z.to_nat (Z.max 8 elements)) _
             (bind_len_or_null_ st)); [|done|lia|done].
  unfold set_bind_len_or_null at 1 2. cbn [stmt_ bind_len_or_null_].
  rewrite <- (bind_parameter_after param values elements direction array st).
  done.
Qed.

Lemma foldl_set_indicator param v st l :
  Some (foldl (set_indicator param v) st l)
  = foldl (λ acc i, st' ← acc; keep ← Some true;
                    Some (if keep : bool then set_indicator param v st' i else st'))
      (Some st) l.
Proof.
  revert st. induction l as [|i l IH]; intros st; [done|].
  cbn [foldl]. by rewrite IH.
Qed.

Lemma bind_marks {T} {bt : BoundType T} param values elements direction st :
  success (dp_rc (SQLDescribeParam (stmt_ st) (parameter_number param))) = true →
  Z.max 8 elements ≤ max_size →
  let array :=
    indicator_array
      (to_long (dp_parameterSize
                  (SQLDescribeParam (stmt_ st) (parameter_number param))))
      (replicate (Z.to_nat elements) true) (Z.to_nat (Z.max 8 elements)) in
  bind param values elements direction st
  = bound_with T (bind_call param values elements direction array st) param array st.
Proof.
  intros Hok Hmax array.
  unfold bind. rewrite prepare_bind_ok by done.
  pose proof (foldl_set_indicator param
    (to_long (dp_parameterSize (SQLDescribeParam (stmt_ st) (parameter_number param))))
    (set_bind_len_or_null
       (<[param:=replicate (Z.to_nat (Z.max 8 elements)) SQL_NULL_DATA]>
          (bind_len_or_null_ st)) st)
    (seq 0 (Z.to_nat elements))) as Hfold.
  rewrite <- (length_replicate (Z.to_nat elements) true) in Hfold at 2.
  rewrite (for_elements_marks param _ (λ _, Some true) _
             (Z.to_nat (Z.max 8 elements)) _ (bind_len_or_null_ st)) in Hfold.
  - injection Hfold as ->.
    unfold set_bind_len_or_null at 1 2. cbn [stmt_ bind_len_or_null_].
    by rewrite <- (bind_parameter_after param values elements direction array st).
  - done.
  - rewrite length_replicate. lia.
  - intros i k Hi. apply lookup_replicate in Hi as [-> _]. done.
Qed.

Lemma indicator_array_length v keeps size :
  (length keeps ≤ size)%nat → length (indicator_array v keeps size) = size.
Proof.
  intros Hle. unfold indicator_array.
  rewrite length_app, length_fmap, length_replicate. lia.
Qed.

Lemma indicator_array_lookup v keeps size i :
  (length keeps ≤ size)%nat → (i < size)%nat →
  indicator_array v keeps size !! i
  = Some (if default false (keeps !! i) then v else SQL_NULL_DATA).
Proof.
  intros Hle Hi. unfold indicator_array.
  destruct (keeps !! i) as [k|] eqn:Hk.
  - rewrite lookup_app_l by (rewrite length_fmap; by eapply lookup_lt_Some).
    rewrite list_lookup_fmap, Hk. done.
  - apply lookup_ge_None in Hk.
    rewrite lookup_app_r by (rewrite length_fmap; lia).
    rewrite length_fmap. cbn [default]. apply lookup_replicate. split; [done|lia].
Qed.

(** X17. [bind] of [elements] values.  The indicator array of the
    parameter has [max(8, elements)] entries; every one of the [elements]
    values is marked present, with the parameter size the driver described as
    its length, and the entries after them are [SQL_NULL_DATA].  The driver is
    handed the described type, size and scale, the buffer type of [T], the
    direction ([PARAM_RETURN] as an output parameter) and this array, or a
    null indicator pointer when one character string is bound.  The call fails
    exactly when [SQLBindParameter] does. *)
Theorem bind_marks_every_element {T} {bt : BoundType T} param
    (values : option (list T)) elements direction st :
  let reply := SQLDescribeParam (stmt_ st) (parameter_number param) in
  success (dp_rc reply) = true →
  0 ≤ elements → Z.max 8 elements ≤ max_size →
  ∃ array,
    bind param values elements direction st
    = bound_with T (bind_call param values elements direction array st)
        param array st ∧
    Z.of_nat (length array) = Z.max 8 elements ∧
    ∀ i, (i < length array)%nat →
      array !! i
      = Some (if Z.of_nat i <? elements then to_long (dp_parameterSize reply)
              else SQL_NULL_DATA).
Proof.
  intros reply Hok Hge Hmax.
  eexists. split; [by apply bind_marks|].
  assert (Hle : (length (replicate (Z.to_nat elements) true)
                 ≤ Z.to_nat (Z.max 8 elements))%nat)
    by (rewrite length_replicate; lia).
  rewrite indicator_array_length by done. split; [lia|].
  intros i Hi. rewrite indicator_array_lookup by done. f_equal.
  destruct (Z.ltb_spec (Z.of_nat i) elements) as [Hlt|Hnlt].
  - by rewrite lookup_replicate_2 by lia.
  - by rewrite lookup_ge_None_2 by (rewrite length_replicate; lia).
Qed.

(** X18. [bind] with null flags: element [i] is marked [SQL_NULL_DATA]
    exactly when [nulls[i]] is set; the other elements carry the described
    parameter size. *)
Theorem bind_flags_marks_flagged {T} {bt : BoundType T} param
    (values : option (list T)) elements (flags : list bool) direction st :
  let reply := SQLDescribeParam (stmt_ st) (parameter_number param) in
  success (dp_rc reply) = true →
  0 ≤ elements → Z.max 8 elements ≤ max_size →
  elements ≤ Z.of_nat (length flags) →
  ∃ array,
    Statement_bind_flags param values elements (Some flags) direction st
    = bound_with T (bind_call param values elements direction array st)
        param array st ∧
    Z.of_nat (length array) = Z.max 8 elements ∧
    ∀ i, (i < length array)%nat →
      array !! i
      = Some (if default true (flags !! i) || (elements <=? Z.of_nat i)
              then SQL_NULL_DATA else to_long (dp_parameterSize reply)).
Proof.
  intros reply Hok Hge Hmax Hflags.
  assert (Hlen : length (negb <$> take (Z.to_nat elements) flags)
                 = Z.to_nat elements)
    by (rewrite length_fmap, length_take; lia).
  eexists. split.
  - unfold Statement_bind_flags.
    apply (bind_nullable_marks _ _ _ _ _ _ _
             (negb <$> take (Z.to_nat elements) flags)); [done|done|done|].
    intros i k Hi. rewrite list_lookup_fmap in Hi.
    destruct (take (Z.to_nat elements) flags !! i) as [f|] eqn:Hf; [|done].
    injection Hi as <-. apply lookup_take_Some in Hf as [Hf _].
    unfold holds_value. cbn [mbind option_bind]. rewrite Hf. cbn.
    by rewrite orb_false_r.
  - rewrite indicator_array_length by lia. split; [lia|].
    intros i Hi. rewrite indicator_array_lookup by lia. f_equal.
    rewrite list_lookup_fmap.
    destruct (Z.leb_spec elements (Z.of_nat i)) as [Hout|Hin].
    + rewrite lookup_take_ge by lia. cbn. by rewrite orb_true_r.
    + rewrite lookup_take_lt by lia. rewrite orb_false_r.
      destruct (flags !! i) as [f|] eqn:Hf.
      * cbn. by destruct f.
      * apply lookup_ge_None in Hf. lia.
Qed.

(** X19. [bind] with a null sentry marks no element as null: the
    overload passes no flags, which makes the condition of the loop true for
    every element, so the call does what [bind] without sentry does, whatever
    the values and the sentry are. *)
Theorem bind_sentry_marks_nothing {T} {bt : BoundType T} param (vs : list T)
    elements (nullSentry : T) direction st :
  elements ≤ Z.of_nat (length vs) →
  Statement_bind_sentry param (Some vs) elements (Some nullSentry) direction st
  = Statement_bind_n param (Some vs) elements direction st.
Proof.
  intros Hvs. unfold Statement_bind_sentry, Statement_bind_n, bind_nullable, bind.
  destruct (prepare_bind param elements direction st) as [[[[[dt pt] ps] sc]|e| |] st1];
    try done.
  unfold for_elements.
  assert (Hsame : ∀ (l : list nat) (acc : option (StatementImpl Stmt)),
    (∀ i, i ∈ l → (i < length vs)%nat) →
    foldl (λ acc i, st' ← acc;
             keep ← holds_value (Some vs) None (Some nullSentry) i;
             Some (if keep : bool
                   then set_indicator param (to_long ps) st' i else st'))
      acc l
    = foldl (λ acc i, st' ← acc; keep ← Some true;
               Some (if keep : bool
                     then set_indicator param (to_long ps) st' i else st'))
        acc l).
  { induction l as [|i l IH]; intros acc Hl; [done|]. cbn [foldl].
    rewrite <- IH by (intros j Hj; apply Hl; by right).
    f_equal. destruct acc as [st'|]; [|done]. cbn [mbind option_bind].
    destruct (lookup_lt_is_Some_2 vs i (Hl i ltac:(left))) as [v Hv].
    unfold holds_value. cbn [mbind option_bind]. rewrite Hv. cbn.
    by destruct (equals v nullSentry). }
  rewrite Hsame; [by rewrite <- foldl_set_indicator|].
  intros i Hi. apply elem_of_seq in Hi. lia.
Qed.

Lemma foldl_option_ext {A} (f g : option A → nat → option A) (l : list nat) :
  (∀ acc i, i ∈ l → f acc i = g acc i) →
  ∀ acc, foldl f acc l = foldl g acc l.
Proof.
  induction l as [|i l IH]; intros Hfg acc; [done|]. cbn [foldl].
  rewrite (Hfg acc i) by (by left). apply IH. intros acc' j Hj. apply Hfg. by right.
Qed.

Lemma bindStrings_nullable_marks param values len elements nulls nullSentry
    direction st (g : nat → option bool) (v : Z) (keeps : list bool) :
  success (dp_rc (SQLDescribeParam (stmt_ st) (parameter_number param))) = true →
  Z.max 8 elements ≤ max_size →
  length keeps = Z.to_nat elements →
  (∀ i k, keeps !! i = Some k → g i = Some k) →
  (∀ st1,
     match nullSentry, nulls with
     | Some sentry, _ =>
         for_elements elements
           (λ st' i,
              s_lhs ← string_element values len i;
              s_rhs ← c_str_of sentry;
              Some (if strncmp_equal s_lhs s_rhs (Z.to_nat len)
                    then st'
                    else set_indicator param
                           (to_long (dp_parameterSize
                              (SQLDescribeParam (stmt_ st) (parameter_number param))))
                           st' i))
           st1
     | None, Some flags =>
         for_elements elements
           (λ st' i,
              flag ← flags !! i;
              Some (if flag : bool then st'
                    else set_indicator param SQL_NTS st' i)) st1
     | None, None => Some st1
     end
     = foldl (λ acc i, st' ← acc; keep ← g i;
                Some (if keep : bool then set_indicator param v st' i else st'))
         (Some st1) (seq 0 (Z.to_nat elements))) →
  let array := indicator_array v keeps (Z.to_nat (Z.max 8 elements)) in
  bindStrings_nullable param values len elements nulls nullSentry direction st
  = bound_with ascii (bind_call param values elements direction array st)
      param array st.
Proof.
  intros Hok Hmax Hlen Hkeeps Hloop array.
  unfold bindStrings_nullable. rewrite prepare_bind_ok by done.
  rewrite Hloop. rewrite <- Hlen.
  rewrite (for_elements_marks param _ _ keeps (Z.to_nat (Z.max 8 elements)) _
             (bind_len_or_null_ st)); [|done|lia|done].
  rewrite set_bind_len_or_null_twice.
  exact (bind_parameter_after (bt:=char_type) param values elements
           direction array st).
Qed.

End Binding.

Lemma c_str_of_spec (a s : list ascii) :
  Statement.c_str_of a = Some s →
  (NUL ∉ s) ∧ ∃ rest, a = s ++ NUL :: rest.
Proof.
  revert s. induction a as [|c a IH]; intros s; [done|].
  cbn [Statement.c_str_of]. destruct (Ascii.eqb c NUL) eqn:Hc.
  - apply Ascii.eqb_eq in Hc. subst c.
    intros [= <-]. split; [apply not_elem_of_nil|]. by exists a.
  - apply Ascii.eqb_neq in Hc.
    destruct (Statement.c_str_of a) as [s'|]; [|done]. intros [= <-].
    destruct (IH s' eq_refl) as (Hnul & rest & ->). split.
    + intros [Heq|Hin]%elem_of_cons; [by symmetry in Heq|by apply Hnul].
    + by exists rest.
Qed.

(** [strncmp] finds no difference exactly when the element holds the sentry
    and, where there is room, a zero after it. *)
Lemma strncmp_equal_spec (n : nat) : ∀ (a s : list ascii),
  NUL ∉ s → length a = n →
  Statement.strncmp_equal a s n
  = if decide (length s < n)%nat
    then bool_decide (take (S (length s)) a = s ++ [NUL])
    else bool_decide (a = take n s).
Proof.
  induction n as [|n IH]; intros a s Hnul Hlen.
  - destruct a; [|done]. cbn. destruct (decide _); [lia|].
    by rewrite take_0, bool_decide_true.
  - destruct a as [|ca a]; [done|]. injection Hlen as Hlen.
    cbn [Statement.strncmp_equal hd tl]. destruct s as [|c s].
    + cbn [hd length]. destruct (decide (0 < S n)%nat); [|lia].
      cbn [take app]. rewrite take_0.
      destruct (Ascii.eqb ca NUL) eqn:Hca.
      * apply Ascii.eqb_eq in Hca. subst ca. by rewrite bool_decide_true.
      * apply Ascii.eqb_neq in Hca. rewrite bool_decide_false; [done|].
        by intros [= ->].
    + assert (c ≠ NUL) as Hc by (intros Heq; apply Hnul; rewrite <- Heq; by left).
      assert (NUL ∉ s) as Hs by (intros Hin; apply Hnul; by right).
      cbn [hd tl length]. destruct (Ascii.eqb ca c) eqn:Hca.
      * apply Ascii.eqb_eq in Hca. subst ca.
        rewrite (proj2 (Ascii.eqb_neq c NUL) Hc). rewrite (IH a s Hs Hlen).
        destruct (decide (length s < n)%nat), (decide (S (length s) < S n)%nat);
          try lia; cbn [take app]; apply bool_decide_ext; split.
        -- by intros ->.
        -- by intros [= ->].
        -- by intros ->.
        -- by intros [= ->].
      * apply Ascii.eqb_neq in Hca. symmetry.
        destruct (decide _); cbn [take app]; apply bool_decide_eq_false;
          by intros [= -> _].
Qed.

Section StringBinding.
Import Statement.
Context {Stmt : Type} {sapi : StatementAPI Stmt} {platform : Platform}
  {limits : VectorLimits}.
Implicit Types st : StatementImpl Stmt.

Lemma string_element_inside (vs : list ascii) len elements (i : nat) :
  0 ≤ len → Z.of_nat i < elements →
  elements * len ≤ Z.of_nat (length vs) → Z.of_nat (length vs) < 2 ^ 64 →
  string_element (Some vs) len i
  = Some (take (Z.to_nat len) (drop (i * Z.to_nat len) vs)).
Proof.
  intros Hlen Hi Hvs Hsmall. unfold string_element.
  assert ((Z.of_nat i + 1) * len ≤ elements * len) by nia.
  assert (0 ≤ Z.of_nat i * len) by nia.
  rewrite !to_ulen_small by nia.
  replace (Z.of_nat i * len <=? (Z.of_nat i + 1) * len) with true
    by (symmetry; apply Z.leb_le; nia).
  replace ((Z.of_nat i + 1) * len <=? Z.of_nat (length vs)) with true
    by (symmetry; apply Z.leb_le; nia).
  cbn [andb]. f_equal. f_equal; [f_equal; lia|]. f_equal.
  rewrite Z2Nat.inj_mul by lia. by rewrite Nat2Z.id.
Qed.

(** X20. [bindStrings] with a null sentry: the element of [length]
    characters at index [i] is marked [SQL_NULL_DATA] exactly when it holds
    the sentry text followed by a zero character or, if the sentry has at
    least [length] characters, when it equals the first [length] characters of
    the sentry.  Every other element carries the described parameter size. *)
Theorem bindStrings_sentry_marks_matches param (vs sentry s : list ascii)
    len elements direction st :
  let reply := SQLDescribeParam (stmt_ st) (parameter_number param) in
  success (dp_rc reply) = true →
  0 ≤ elements → Z.max 8 elements ≤ max_size →
  0 ≤ len → elements * len ≤ Z.of_nat (length vs) →
  Z.of_nat (length vs) < 2 ^ 64 →
  c_str_of sentry = Some s →
  ∃ array,
    Statement_bindStrings_sentry param (Some vs) len elements (Some sentry)
      direction st
    = bound_with ascii
        (bind_call param (Some vs) elements direction array st) param array st ∧
    Z.of_nat (length array) = Z.max 8 elements ∧
    ∀ i, Z.of_nat i < elements →
      let element := take (Z.to_nat len) (drop (i * Z.to_nat len) vs) in
      array !! i
      = Some (if (if decide (length s < Z.to_nat len)%nat
                  then bool_decide (take (S (length s)) element = s ++ [NUL])
                  else bool_decide (element = take (Z.to_nat len) s))
              then SQL_NULL_DATA else to_long (dp_parameterSize reply)).
Proof.
  intros reply Hok Hge Hmax Hlen Hvs Hsmall Hs.
  destruct (c_str_of_spec sentry s Hs) as [Hnul _].
  set (element := λ i : nat, take (Z.to_nat len) (drop (i * Z.to_nat len) vs)).
  assert (Hel : ∀ i : nat, Z.of_nat i < elements →
                  length (element i) = Z.to_nat len).
  { intros i Hi. unfold element. rewrite length_take, length_drop. nia. }
  set (keeps := (λ i, negb (strncmp_equal (element i) s (Z.to_nat len)))
                <$> seq 0 (Z.to_nat elements)).
  assert (Hkl : length keeps = Z.to_nat elements)
    by (unfold keeps; by rewrite length_fmap, length_seq).
  exists (indicator_array (to_long (dp_parameterSize reply)) keeps
            (Z.to_nat (Z.max 8 elements))).
  split; [|split].
  - unfold Statement_bindStrings_sentry.
    apply (bindStrings_nullable_marks _ _ _ _ _ _ _ _
             (λ i, if bool_decide (Z.of_nat i < elements)
                   then Some (negb (strncmp_equal (element i) s (Z.to_nat len)))
                   else None));
      [done|done|done| |].
    + intros i k Hi. unfold keeps in Hi. rewrite list_lookup_fmap in Hi.
      destruct (seq 0 (Z.to_nat elements) !! i) as [j|] eqn:Hj; [|done].
      apply lookup_seq in Hj as [-> Hlt]. injection Hi as <-.
      by rewrite bool_decide_true by lia.
    + intros st1. unfold for_elements. apply foldl_option_ext.
      intros acc i Hi. apply elem_of_seq in Hi.
      destruct acc as [st'|]; [|done]. cbn [mbind option_bind].
      rewrite (string_element_inside vs len elements i) by lia.
      cbn [mbind option_bind]. rewrite Hs. cbn [mbind option_bind].
      rewrite bool_decide_true by lia. cbn [mbind option_bind].
      fold (element i). by destruct (strncmp_equal _ _ _).
  - rewrite indicator_array_length by lia. lia.
  - intros i Hi. cbn zeta. fold (element i).
    rewrite indicator_array_lookup by lia. f_equal.
    unfold keeps. rewrite list_lookup_fmap, lookup_seq_lt by lia. cbn.
    rewrite (strncmp_equal_spec _ _ _ Hnul (Hel i Hi)).
    by destruct (decide _), (bool_decide _).
Qed.

(** X21. [bindStrings] with null flags: a flagged element is
    [SQL_NULL_DATA], every other element is bound as a zero-terminated string
    ([SQL_NTS]), not with the parameter size that [bindStrings] without flags
    uses. *)
Theorem bindStrings_flags_marks_flagged param (values : option (list ascii))
    len elements (flags : list bool) direction st :
  let reply := SQLDescribeParam (stmt_ st) (parameter_number param) in
  success (dp_rc reply) = true →
  0 ≤ elements → Z.max 8 elements ≤ max_size →
  elements ≤ Z.of_nat (length flags) →
  ∃ array,
    Statement_bindStrings_flags param values len elements (Some flags)
      direction st
    = bound_with ascii
        (bind_call param values elements direction array st) param array st ∧
    Z.of_nat (length array) = Z.max 8 elements ∧
    ∀ i, (i < length array)%nat →
      array !! i
      = Some (if default true (flags !! i) || (elements <=? Z.of_nat i)
              then SQL_NULL_DATA else SQL_NTS).
Proof.
  intros reply Hok Hge Hmax Hflags.
  assert (Hlen : length (negb <$> take (Z.to_nat elements) flags)
                 = Z.to_nat elements)
    by (rewrite length_fmap, length_take; lia).
  exists (indicator_array SQL_NTS (negb <$> take (Z.to_nat elements) flags)
            (Z.to_nat (Z.max 8 elements))).
  split; [|split].
  - unfold Statement_bindStrings_flags.
    apply (bindStrings_nullable_marks _ _ _ _ _ _ _ _
             (λ i, negb <$> flags !! i)); [done|done|done| |].
    + intros i k Hi. rewrite list_lookup_fmap in Hi.
      destruct (take (Z.to_nat elements) flags !! i) as [f|] eqn:Hf; [|done].
      injection Hi as <-. apply lookup_take_Some in Hf as [Hf _]. by rewrite Hf.
    + intros st1. unfold for_elements. apply foldl_option_ext.
      intros acc i _. destruct acc as [st'|]; [|done]. cbn [mbind option_bind].
      by destruct (flags !! i) as [[]|].
  - rewrite indicator_array_length by lia. lia.
  - intros i Hi. rewrite indicator_array_length in Hi by lia.
    rewrite indicator_array_lookup by lia. f_equal.
    rewrite list_lookup_fmap.
    destruct (Z.leb_spec elements (Z.of_nat i)) as [Hout|Hin].
    + rewrite lookup_take_ge by lia. cbn. by rewrite orb_true_r.
    + rewrite lookup_take_lt by lia. rewrite orb_false_r.
      destruct (flags !! i) as [f|] eqn:Hf.
      * cbn. by destruct f.
      * apply lookup_ge_None in Hf. lia.
Qed.

End StringBinding.

Section Frame.
Import Statement.
Context {Stmt : Type} {sapi : StatementAPI Stmt} {platform : Platform}
  {limits : VectorLimits}.
Implicit Types st : StatementImpl Stmt.

Lemma prepare_bind_frame (param q : Z) elements direction st :
  q ≠ param →
  bind_len_or_null_ (prepare_bind param elements direction st).2 !! q
  = bind_len_or_null_ st !! q.
Proof.
  intros Hq. unfold prepare_bind.
  destruct (negb _); [done|]. destruct (max_size <? _); cbn;
    by rewrite lookup_insert_ne.
Qed.

Lemma set_indicator_frame (param q : Z) v st i :
  q ≠ param →
  bind_len_or_null_ (set_indicator param v st i) !! q = bind_len_or_null_ st !! q.
Proof. intros Hq. cbn. by rewrite lookup_insert_ne. Qed.

Lemma for_elements_frame (param q : Z) elements
    (body : StatementImpl Stmt → nat → option (StatementImpl Stmt)) st st' :
  (∀ st1 st2 i, body st1 i = Some st2 →
     bind_len_or_null_ st2 !! q = bind_len_or_null_ st1 !! q) →
  for_elements elements body st = Some st' →
  bind_len_or_null_ st' !! q = bind_len_or_null_ st !! q.
Proof.
  intros Hbody. unfold for_elements.
  generalize (seq 0 (Z.to_nat elements)). intros l. revert st'.
  induction l as [|i l IH] using rev_ind; intros st'.
  - by intros [= <-].
  - rewrite foldl_app. cbn [foldl].
    destruct (foldl _ (Some st) l) as [st1|]; [|done]. cbn [mbind option_bind].
    intros Hb. rewrite (Hbody _ _ _ Hb). by apply IH.
Qed.

Lemma foldl_set_indicator_frame (param q : Z) v st l :
  q ≠ param →
  bind_len_or_null_ (foldl (set_indicator param v) st l) !! q
  = bind_len_or_null_ st !! q.
Proof.
  intros Hq. revert st. induction l as [|i l IH]; intros st; [done|].
  cbn [foldl]. rewrite IH. by apply set_indicator_frame.
Qed.

Lemma bind_parameter_frame {T} {bt : BoundType T} param (data : option (list T))
    elements dt pt ps sc st :
  bind_len_or_null_ (bind_parameter param data elements dt pt ps sc st).2
  = bind_len_or_null_ st.
Proof.
  unfold bind_parameter. destruct (SQLBindParameter _ _) as [s rc].
  by destruct (negb (success rc)).
Qed.

(** X22. Binding a parameter leaves the indicator array of every other
    parameter as it was, whenever the call ends in a way the language
    defines: with success, with the error of a failing driver call, or with
    a length error.  Nothing is said of a call whose loop reads outside its
    arrays. *)
Theorem binding_leaves_other_parameters {T} {bt : BoundType T} (param q : Z)
    (values : option (list T)) (strings : option (list ascii)) len elements
    nulls (nullSentry : option T) (stringSentry : option (list ascii))
    direction st :
  q ≠ param →
  ((bind param values elements direction st).1 ≠ Undef →
   bind_len_or_null_ (bind param values elements direction st).2 !! q
   = bind_len_or_null_ st !! q) ∧
  ((bind_nullable param values elements nulls nullSentry direction st).1
   ≠ Undef →
   bind_len_or_null_
     (bind_nullable param values elements nulls nullSentry direction st).2 !! q
   = bind_len_or_null_ st !! q) ∧
  ((bindStrings_nullable param strings len elements nulls stringSentry
      direction st).1 ≠ Undef →
   bind_len_or_null_
     (bindStrings_nullable param strings len elements nulls stringSentry
        direction st).2 !! q
   = bind_len_or_null_ st !! q) ∧
  ((bind_null param elements st).1 ≠ Undef →
   bind_len_or_null_ (bind_null param elements st).2 !! q
   = bind_len_or_null_ st !! q).
Proof.
  intros Hq.
  pose proof (prepare_bind_frame param q elements direction st Hq) as Hprep.
  pose proof (prepare_bind_frame param q elements PARAM_IN st Hq) as Hprep_in.
  split; [|split; [|split]]; intros _.
  - unfold bind.
    destruct (prepare_bind param elements direction st)
      as [[[[[dt pt] ps] sc]|e| |] st1]; cbn [snd] in *; try done.
    rewrite bind_parameter_frame, foldl_set_indicator_frame by done. done.
  - unfold bind_nullable.
    destruct (prepare_bind param elements direction st)
      as [[[[[dt pt] ps] sc]|e| |] st1]; cbn [snd] in *; try done.
    destruct (for_elements _ _ _) as [st2|] eqn:Hloop; [|done].
    rewrite bind_parameter_frame.
    rewrite <- Hprep. eapply (for_elements_frame param q); [|exact Hloop].
    intros sa sb i Hb. cbn beta in Hb.
    destruct (holds_value values nulls nullSentry i) as [[]|]; [| |done].
    + injection Hb as <-. by apply set_indicator_frame.
    + by injection Hb as <-.
  - unfold bindStrings_nullable.
    destruct (prepare_bind param elements direction st)
      as [[[[[dt pt] ps] sc]|e| |] st1]; cbn [snd] in *; try done.
    destruct stringSentry as [sentry|]; [|destruct nulls as [flags|]].
    + destruct (for_elements _ _ _) as [st2|] eqn:Hloop; [|done].
      rewrite bind_parameter_frame.
      rewrite <- Hprep. eapply (for_elements_frame param q); [|exact Hloop].
      intros sa sb i Hb. cbn beta in Hb.
      destruct (string_element strings len i) as [e|]; [|done].
      destruct (c_str_of sentry) as [s|]; [|done]. cbn [mbind option_bind] in Hb.
      destruct (strncmp_equal e s (Z.to_nat len)); injection Hb as <-; [done|].
      by apply set_indicator_frame.
    + destruct (for_elements _ _ _) as [st2|] eqn:Hloop; [|done].
      rewrite bind_parameter_frame.
      rewrite <- Hprep. eapply (for_elements_frame param q); [|exact Hloop].
      intros sa sb i Hb. cbn beta in Hb.
      destruct (flags !! i) as [[]|]; [| |done];
        injection Hb as <-; [done|]. by apply set_indicator_frame.
    + by rewrite bind_parameter_frame.
  - unfold bind_null.
    destruct (prepare_bind param elements PARAM_IN st)
      as [[[[[dt pt] ps] sc]|e| |] st1]; cbn [snd] in *; try done.
    destruct (SQLBindParameter _ _) as [s rc].
    by destruct (negb (success rc)).
Qed.

End Frame.

(** ** The list of drivers: the properties *)

Section DriverText.
Import Drivers.

Lemma find_char_found c (seg : list ascii) : ∀ pre rest n,
  c ∉ seg → (length seg < n)%nat →
  find_char c (pre ++ seg ++ c :: rest) (length pre) n
  = Some (length pre + length seg)%nat.
Proof.
  induction seg as [|x seg IH]; intros pre rest n Hc Hn.
  - destruct n as [|n]; [cbn in Hn; lia|]. cbn [find_char app length].
    rewrite list_lookup_middle by done. rewrite Ascii.eqb_refl. f_equal. lia.
  - destruct n as [|n]; [cbn in Hn; lia|]. cbn [find_char length] in *.
    rewrite <- app_comm_cons. rewrite list_lookup_middle by done.
    assert (x ≠ c) as Hx by (intros ->; apply Hc; by left).
    rewrite (proj2 (Ascii.eqb_neq x c) Hx).
    replace (pre ++ x :: seg ++ c :: rest) with ((pre ++ [x]) ++ seg ++ c :: rest)
      by (by rewrite <- app_assoc).
    replace (S (length pre)) with (length (pre ++ [x]))
      by (rewrite length_app; cbn; lia).
    rewrite IH; [|intros Hin; apply Hc; by right|lia].
    f_equal. rewrite length_app. cbn. lia.
Qed.

Lemma find_char_absent c (seg : list ascii) : ∀ pre rest,
  c ∉ seg →
  find_char c (pre ++ seg ++ rest) (length pre) (length seg)
  = Some (length pre + length seg)%nat.
Proof.
  induction seg as [|x seg IH]; intros pre rest Hc.
  - cbn. f_equal. lia.
  - cbn [find_char length]. rewrite <- app_comm_cons.
    rewrite list_lookup_middle by done.
    assert (x ≠ c) as Hx by (intros ->; apply Hc; by left).
    rewrite (proj2 (Ascii.eqb_neq x c) Hx).
    replace (pre ++ x :: seg ++ rest) with ((pre ++ [x]) ++ seg ++ rest)
      by (by rewrite <- app_assoc).
    replace (S (length pre)) with (length (pre ++ [x]))
      by (rewrite length_app; cbn; lia).
    rewrite IH; [|intros Hin; apply Hc; by right].
    f_equal. rewrite length_app. cbn. lia.
Qed.

Lemma range_middle (pre seg rest : list ascii) :
  range (pre ++ seg ++ rest) (length pre) (length pre + length seg)
  = string_of_list_ascii seg.
Proof.
  unfold range. rewrite drop_app_length.
  replace (length pre + length seg - length pre)%nat with (length seg) by lia.
  by rewrite take_app_length.
Qed.

Lemma list_ascii_of_string_length' (s : string) :
  length (list_ascii_of_string s) = String.length s.
Proof. induction s as [|c s IH]; simpl; [done|]. by rewrite IH. Qed.

(** The loop reads the pairs at the start of the text one by one. *)
Lemma split_attributes_prefix (pairs : list Attribute) : ∀ pre more fuel end_,
  Forall plain_attribute pairs →
  (length pre + length (attribute_text pairs) ≤ end_)%nat →
  split_attributes (length pairs + fuel) (pre ++ attribute_text pairs ++ more)
    (length pre) end_
  = match
      split_attributes fuel (pre ++ attribute_text pairs ++ more)
        (length pre + length (attribute_text pairs)) end_
    with
    | Returns rest => Returns (pairs ++ rest)
    | other => other
    end.
Proof.
  induction pairs as [|a pairs IH]; intros pre more fuel end_ Hplain Hend.
  - cbn [attribute_text flat_map length app Nat.add]. rewrite Nat.add_0_r.
    by destruct (split_attributes _ _ _ _).
  - apply Forall_cons in Hplain as [(Hk0 & Hkeq & Hv0) Hplain].
    cbn [attribute_text flat_map] in *. fold (attribute_text pairs) in *.
    set (k := list_ascii_of_string (keyword a)) in *.
    set (v := list_ascii_of_string (value a)) in *.
    set (text := attribute_text pairs) in *.
    rewrite !length_app in Hend. cbn [length] in Hend.
    rewrite !length_app in Hend. cbn [length] in Hend.
    cbn [length Nat.add split_attributes].
    assert (Hseg : "="%char ≠ NUL) by done.
    (* the zero that ends the pair *)
    replace (pre ++ ((k ++ "="%char :: v ++ [NUL]) ++ text) ++ more)
      with (pre ++ (k ++ "="%char :: v) ++ NUL :: (text ++ more))
      by (rewrite <- !app_assoc; cbn; by rewrite <- !app_assoc).
    rewrite find_char_found; cycle 1.
    { intros Hin. apply elem_of_app in Hin as [Hin|Hin]; [done|].
      apply elem_of_cons in Hin as [Heq|Hin]; [by symmetry in Heq|done]. }
    { rewrite length_app. cbn [length]. lia. }
    rewrite length_app. cbn [length].
    replace (length pre + (length k + S (length v)) =? end_)%nat with false
      by (symmetry; apply Nat.eqb_neq; lia).
    (* the equals sign *)
    replace (length pre + (length k + S (length v)) - length pre)%nat
      with (length k + S (length v))%nat by lia.
    replace (pre ++ (k ++ "="%char :: v) ++ NUL :: text ++ more)
      with (pre ++ k ++ "="%char :: (v ++ NUL :: text ++ more))
      by (by rewrite <- !app_assoc).
    rewrite find_char_found by (done || lia).
    replace (length pre + length k =? end_)%nat with false
      by (symmetry; apply Nat.eqb_neq; lia).
    replace (length pre + (length k + S (length v)) <? length pre + length k + 1)%nat
      with false by (symmetry; apply Nat.ltb_ge; lia).
    (* the two strings *)
    rewrite range_middle.
    replace (pre ++ k ++ "="%char :: v ++ NUL :: text ++ more)
      with ((pre ++ k ++ ["="%char]) ++ v ++ (NUL :: text ++ more))
      by (rewrite <- !app_assoc; cbn; done).
    replace (length pre + length k + 1)%nat with (length (pre ++ k ++ ["="%char]))
      by (rewrite !length_app; cbn; lia).
    replace (length pre + (length k + S (length v)))%nat
      with (length (pre ++ k ++ ["="%char]) + length v)%nat
      by (rewrite !length_app; cbn; lia).
    rewrite range_middle.
    unfold k, v. rewrite !string_of_list_ascii_of_string. fold k v.
    (* the rest *)
    replace ((pre ++ k ++ ["="%char]) ++ v ++ NUL :: text ++ more)
      with ((pre ++ k ++ "="%char :: v ++ [NUL]) ++ text ++ more)
      by (rewrite <- !app_assoc; cbn; rewrite <- !app_assoc; done).
    replace (length (pre ++ k ++ ["="%char]) + length v + 1)%nat
      with (length (pre ++ k ++ "="%char :: v ++ [NUL]))
      by (rewrite !length_app; cbn; rewrite !length_app; cbn; lia).
    rewrite IH; [|done|].
    2:{ rewrite !length_app. cbn [length]. rewrite !length_app. cbn [length]. lia. }
    replace (length (pre ++ k ++ "="%char :: v ++ [NUL]) + length text)%nat
      with (length pre + (length k + S (length v + 1) + length text))%nat
      by (rewrite !length_app; cbn; rewrite !length_app; cbn; lia).
    replace (length pre + length ((k ++ "="%char :: v ++ [NUL]) ++ text))%nat
      with (length pre + (length k + S (length v + 1) + length text))%nat
      by (rewrite !length_app; cbn; rewrite !length_app; cbn; lia).
    destruct a as [ka va]. cbn [keyword value].
    by destruct (split_attributes _ _ _ _).
Qed.

Lemma attribute_text_length (pairs : list Attribute) :
  (length pairs ≤ length (attribute_text pairs))%nat.
Proof.
  induction pairs as [|a pairs IH]; [done|].
  cbn [attribute_text flat_map length]. fold (attribute_text pairs).
  rewrite length_app. rewrite length_app. cbn [length]. lia.
Qed.

Lemma split_attributes_text (pairs : list Attribute) (tail rest : list ascii) fuel :
  Forall plain_attribute pairs → NUL ∉ tail →
  (length (attribute_text pairs) < fuel)%nat →
  split_attributes fuel (attribute_text pairs ++ tail ++ rest) 0
    (length (attribute_text pairs) + length tail)
  = Returns pairs.
Proof.
  intros Hplain Htail Hfuel.
  pose proof (attribute_text_length pairs) as Hl.
  replace fuel with (length pairs + (fuel - length pairs))%nat by lia.
  rewrite (split_attributes_prefix pairs [] (tail ++ rest)); [|done|cbn; lia].
  cbn [length Nat.add app].
  destruct (fuel - length pairs)%nat as [|f] eqn:Hf; [lia|].
  cbn [split_attributes].
  replace (length (attribute_text pairs) + length tail
           - length (attribute_text pairs))%nat with (length tail) by lia.
  rewrite find_char_absent by done. rewrite Nat.eqb_refl.
  by rewrite app_nil_r.
Qed.

(** X23. The attribute loop of [listDrivers] reads back what the text
    [Key1=Value1\0Key2=Value2\0] says: for pairs without zero characters and
    without [=] in the keyword it returns exactly these pairs, in order,
    splitting each at its first [=]; characters after the last zero inside
    the reported length are dropped.  A zero-terminated piece without [=]
    inside the reported length, an empty one included, makes the value a
    string over a reversed range, which is undefined behaviour. *)
Theorem attribute_text_round_trip (pairs : list Attribute)
    (tail junk rest : list ascii) :
  Forall plain_attribute pairs →
  let text := attribute_text pairs in
  (NUL ∉ tail →
   split_attributes (S (length text + length tail)) (text ++ tail ++ rest) 0
     (length text + length tail)
   = Returns pairs) ∧
  (NUL ∉ junk → "="%char ∉ junk →
   split_attributes (S (length text + length junk + 1))
     (text ++ junk ++ NUL :: rest) 0 (length text + length junk + 1)
   = Undefined).
Proof.
  intros Hplain text. split.
  - intros Htail. apply split_attributes_text; [done|done|unfold text; lia].
  - intros Hnul Heq.
    pose proof (attribute_text_length pairs) as Hl. fold text in Hl.
    replace (S (length text + length junk + 1))
      with (length pairs + (S (length text + length junk + 1) - length pairs))%nat
      by lia.
    rewrite (split_attributes_prefix pairs [] (junk ++ NUL :: rest));
      [|done|cbn; fold text; lia].
    fold text. cbn [length Nat.add app].
    destruct (S (length text + length junk + 1) - length pairs)%nat
      as [|f] eqn:Hf; [lia|].
    cbn [split_attributes].
    rewrite (find_char_found NUL junk text rest) by (done || lia).
    replace (length text + length junk =? length text + length junk + 1)%nat
      with false by (symmetry; apply Nat.eqb_neq; lia).
    replace (length text + length junk - length text)%nat with (length junk)
      by lia.
    rewrite (find_char_absent "="%char junk text (NUL :: rest)) by done.
    replace (length text + length junk =? length text + length junk + 1)%nat
      with false by (symmetry; apply Nat.eqb_neq; lia).
    by replace (length text + length junk <? length text + length junk + 1)%nat
      with true by (symmetry; apply Nat.ltb_lt; lia).
Qed.

Lemma strarrlen_terminated (t rest : list ascii) :
  NUL ∉ t → strarrlen (t ++ NUL :: rest) = Some (length t).
Proof.
  induction t as [|c t IH]; intros Hnul; [done|].
  cbn [strarrlen app length].
  assert (c ≠ NUL) as Hc by (intros ->; apply Hnul; by left).
  rewrite (proj2 (Ascii.eqb_neq c NUL) Hc).
  rewrite IH by (intros Hin; apply Hnul; by right). done.
Qed.

Lemma written_text (t buf : list ascii) :
  (length t < length buf)%nat →
  written (t ++ [NUL]) buf = t ++ NUL :: drop (S (length t)) buf ∧
  length (written (t ++ [NUL]) buf) = length buf.
Proof.
  intros Hlt. unfold written. rewrite length_app. cbn [length].
  rewrite Nat.add_1_r, <- app_assoc. cbn [app].
  assert (Hall : length (t ++ NUL :: drop (S (length t)) buf) = length buf).
  { rewrite length_app. cbn [length]. rewrite length_drop. lia. }
  rewrite take_ge by lia. done.
Qed.

End DriverText.

Section ReferenceManager.
Import Drivers RefManager.
Context {platform : Platform}.

(** One round of the loop on a driver that fits the buffers. *)
Lemma listDrivers_round (m : manager) (d : Driver) direction descr attrs at_ :
  at_ = (if direction =? SQL_FETCH_FIRST then 0%nat else listed m) →
  installed m !! at_ = Some d → fits d →
  length descr = 1024%nat → length attrs = 1024%nat →
  ∃ descr1 attrs1,
    length descr1 = 1024%nat ∧ length attrs1 = 1024%nat ∧
    ∀ fuel acc,
      listDrivers_loop (S fuel) m direction descr attrs acc
      = listDrivers_loop fuel
          {| installed := installed m; listed := S at_; env := env m |}
          SQL_FETCH_NEXT descr1 attrs1 (acc ++ [d]).
Proof.
  intros Hat Hd (Hname & Hnl & Hplain & Htl) Hdl Hal.
  set (text := attribute_text (attributes d)) in *.
  set (nm := list_ascii_of_string (name d)) in *.
  assert (Hnml : length nm = String.length (name d))
    by apply list_ascii_of_string_length'.
  destruct (written_text nm descr ltac:(lia)) as [Hwd Hwdl].
  destruct (written_text text attrs ltac:(lia)) as [Hwa Hwal].
  exists (written (nm ++ [NUL]) descr), (written (text ++ [NUL]) attrs).
  split; [lia|]. split; [lia|]. intros fuel acc.
  cbn [listDrivers_loop SQLDrivers api]. unfold drivers.
  rewrite <- Hat, Hd. fold text nm.
  cbn [dr_rc dr_descr dr_attrs dr_attrs_len_ret].
  replace (SQL_SUCCESS =? SQL_SUCCESS) with true by done.
  rewrite !take_ge by lia.
  rewrite Hwd, Hwa. rewrite strarrlen_terminated by done.
  replace ((Z.of_nat (length text) <? 0) || (1024 <? Z.of_nat (length text)))
    with false
    by (symmetry; apply orb_false_iff; split; [apply Z.ltb_ge|apply Z.ltb_ge]; lia).
  rewrite Nat2Z.id.
  pose proof (split_attributes_text (attributes d) []
                (NUL :: drop (S (length text)) attrs) (S (length text))
                Hplain ltac:(apply not_elem_of_nil) ltac:(fold text; lia)) as Hsplit.
  fold text in Hsplit. cbn [app length] in Hsplit.
  rewrite Nat.add_0_r in Hsplit. rewrite Hsplit.
  pose proof (range_middle [] nm (NUL :: drop (S (length nm)) descr)) as Hr.
  cbn [app length Nat.add] in Hr. rewrite Hr.
  unfold nm. rewrite string_of_list_ascii_of_string.
  by destruct d.
Qed.

Lemma listDrivers_rest (k : nat) : ∀ (m : manager) descr attrs acc fuel,
  (listed m + k = length (installed m))%nat →
  Forall fits (installed m) →
  length descr = 1024%nat → length attrs = 1024%nat → (k < fuel)%nat →
  listDrivers_loop fuel m SQL_FETCH_NEXT descr attrs acc
  = (Returns (acc ++ drop (listed m) (installed m)),
     {| installed := installed m; listed := length (installed m);
        env := env m |}).
Proof.
  induction k as [|k IH]; intros m descr attrs acc fuel Hk Hfits Hdl Hal Hfuel;
    (destruct fuel as [|fuel]; [lia|]).
  - cbn [listDrivers_loop SQLDrivers api]. unfold drivers.
    replace (SQL_FETCH_NEXT =? SQL_FETCH_FIRST) with false by done.
    rewrite lookup_ge_None_2 by lia. cbn [no_data dr_rc].
    replace (SQL_NO_DATA =? SQL_SUCCESS) with false by done.
    replace (SQL_NO_DATA =? SQL_NO_DATA) with true by done. cbn [negb].
    rewrite drop_ge by lia. rewrite app_nil_r.
    destruct m as [ds l e]. cbn in *. do 2 f_equal. lia.
  - destruct (lookup_lt_is_Some_2 (installed m) (listed m) ltac:(lia)) as [d Hd].
    destruct (listDrivers_round m d SQL_FETCH_NEXT descr attrs (listed m))
      as (descr1 & attrs1 & Hdl1 & Hal1 & Hround);
      [done|done|by eapply Forall_lookup_1|done|done|].
    rewrite Hround. rewrite IH; cbn [installed listed env]; [|lia|done|done|done|lia].
    rewrite <- app_assoc. cbn [app].
    by rewrite (drop_S _ _ _ Hd).
Qed.

(** X24. On the reference driver manager, whose drivers fit the two
    buffers of 1024 characters, [listDrivers] returns the installed drivers in
    order, with their names and attributes, as soon as the fuel exceeds their
    number.  The environment handle it allocated stays allocated. *)
Theorem listDrivers_lists_installed (m : manager) (fuel : nat) :
  Forall fits (installed m) → (length (installed m) < fuel)%nat →
  ∃ m',
    listDrivers fuel m = (Returns (installed m), m') ∧
    installed m' = installed m ∧ env m' = S (env m).
Proof.
  intros Hfits Hfuel. unfold listDrivers, allocate_environment_handle.
  cbn [SQLAllocHandle_ENV SQLSetEnvAttr_ODBC_VERSION api].
  replace (negb (success SQL_SUCCESS)) with false by done.
  destruct m as [ds l e]. cbn [installed listed env] in *.
  destruct fuel as [|fuel]; [lia|].
  destruct ds as [|d ds].
  - eexists. split.
    + cbn [listDrivers_loop SQLDrivers api]. unfold drivers.
      replace (SQL_FETCH_FIRST =? SQL_FETCH_FIRST) with true by done.
      cbn [installed lookup list_lookup no_data dr_rc].
      replace (SQL_NO_DATA =? SQL_SUCCESS) with false by done.
      replace (SQL_NO_DATA =? SQL_NO_DATA) with true by done.
      cbn [negb]. reflexivity.
    + done.
  - destruct (listDrivers_round {| installed := d :: ds; listed := l; env := S e |}
                d SQL_FETCH_FIRST (replicate 1024 NUL)
                (replicate 1024 NUL) 0%nat)
      as (descr1 & attrs1 & Hdl1 & Hal1 & Hround).
    + done.
    + done.
    + by apply Forall_cons in Hfits as [Hd _].
    + by rewrite length_replicate.
    + by rewrite length_replicate.
    + rewrite Hround. cbn [installed env].
      rewrite listDrivers_rest with (k := length ds);
        cbn [installed listed env length] in *; [|lia|done|done|done|lia].
      eexists. split; [reflexivity|]. done.
Qed.

End ReferenceManager.

(** ** The statement handle: the properties *)

Section HandleAccounting.
Import StatementHandle RefHandles.
Context {platform : Platform}.
Variable cs : Z → bool.
Implicit Types st : StatementImpl.
Implicit Types w : world.

Lemma on_handle_accounted st w :
  accounted cs st w →
  on_handle w (stmt_ st)
  = (w, if open_ st then SQL_SUCCESS else SQL_INVALID_HANDLE).
Proof.
  intros (Hm & Hn & Hst). unfold on_handle, allocated.
  destruct (open_ st).
  - destruct Hst as (Hl & _ & _). rewrite Hl. cbn [one_of existsb].
    by rewrite Z.eqb_refl.
  - destruct Hst as (Hl & ->). rewrite Hl. cbn.
    destruct w as [l n m]. cbn in *. by subst.
Qed.

Lemma close_accounted st w :
  accounted cs st w →
  ∃ w', close cs st w
        = (Returns tt, {| stmt_ := 0; open_ := false; conn_ := conn_ st |}, w') ∧
        accounted cs {| stmt_ := 0; open_ := false; conn_ := conn_ st |} w' ∧
        next w' = next w.
Proof.
  intros Hacc. pose proof Hacc as (Hm & Hn & Hst).
  pose proof (on_handle_accounted st w Hacc) as Hon.
  unfold close, is_open, connected, resetParameters.
  cbn [SQLCancel SQLFreeStmt SQLFreeHandle_STMT api].
  destruct (open_ st) eqn:Hopen.
  - destruct Hst as (Hl & Hh & Hc). rewrite Hc. cbn [andb].
    rewrite Hon. replace (negb (success SQL_SUCCESS)) with false by done.
    rewrite Hon. cbn [fst].
    unfold free, allocated. rewrite Hl. cbn [one_of existsb].
    rewrite Z.eqb_refl. cbn [orb List.filter]. rewrite Z.eqb_refl. cbn [negb].
    replace (negb (success SQL_SUCCESS)) with false by done.
    eexists. split; [reflexivity|]. split; [|done].
    unfold accounted. cbn. done.
  - cbn [andb]. exists w. split; [done|]. split; [|done].
    unfold accounted. cbn. destruct Hst as (Hl & _). done.
Qed.

Lemma open_accounted conn st w :
  accounted cs st w → cs conn = true →
  ∃ st' w', open cs conn st w = (Returns tt, st', w') ∧ accounted cs st' w' ∧
            open_ st' = true.
Proof.
  intros Hacc Hconn.
  destruct (close_accounted st w Hacc) as (w1 & Hclose & (Hm & Hn & Hl & _) & Hnext).
  unfold open. rewrite Hclose. cbn [SQLAllocHandle_STMT api]. unfold alloc.
  replace (negb (success SQL_SUCCESS)) with false by done.
  eexists _, _. split; [reflexivity|]. split; [|done].
  unfold accounted. cbn [open_ stmt_ conn_ live next misused].
  replace (success SQL_SUCCESS) with true by done. rewrite Hl.
  repeat split; (done || lia).
Qed.

Lemma timeout_accounted t st w :
  accounted cs st w → ∃ o, timeout t st w = (o, st, w).
Proof.
  intros Hacc. unfold timeout. cbn [SQLSetStmtAttr api].
  rewrite (on_handle_accounted st w Hacc).
  destruct (_ && _); by eexists.
Qed.

Lemma prepare_accounted q t st w :
  accounted cs st w → ∃ o, prepare q t st w = (o, st, w).
Proof.
  intros Hacc. unfold prepare, is_open. destruct (open_ st) eqn:Hopen; cbn [negb].
  - cbn [SQLPrepare api]. rewrite (on_handle_accounted st w Hacc), Hopen.
    replace (negb (success SQL_SUCCESS) && negb (SQL_SUCCESS =? SQL_STILL_EXECUTING))
      with false by done.
    destruct (timeout_accounted t st w Hacc) as [o ->].
    destruct o; by eexists.
  - by eexists.
Qed.

(** One call of the client keeps the handle accounted for. *)
Lemma client_step_accounted st w (o : client_call) :
  accounted cs st w →
  (∀ conn, names o = Some conn → cs conn = true) →
  accounted cs (client_step cs (st, w) o).1 (client_step cs (st, w) o).2.
Proof.
  intros Hacc Hnames. destruct o as [conn| | |t|q t|conn q t|conn q b t|b t];
    cbn [client_step].
  - destruct (open_accounted conn st w Hacc (Hnames conn eq_refl))
      as (st' & w' & -> & Hacc' & _). done.
  - destruct (close_accounted st w Hacc) as (w' & -> & Hacc' & _). done.
  - unfold cancel. cbn [SQLCancel api]. rewrite (on_handle_accounted st w Hacc).
    by destruct (negb _).
  - destruct (timeout_accounted t st w Hacc) as [o ->]. done.
  - destruct (prepare_accounted q t st w Hacc) as [o ->]. done.
  - unfold prepare_on.
    destruct (open_accounted conn st w Hacc (Hnames conn eq_refl))
      as (st' & w' & -> & Hacc' & _).
    destruct (prepare_accounted q t st' w' Hacc') as [o ->]. by destruct o.
  - unfold justExecuteDirect.
    destruct (open_accounted conn st w Hacc (Hnames conn eq_refl))
      as (st' & w' & -> & Hacc' & Hopen').
    cbn [SQLSetStmtAttr SQLExecDirect api].
    rewrite (on_handle_accounted st' w' Hacc'), Hopen'.
    replace (negb (success SQL_SUCCESS)) with false by done.
    destruct (timeout_accounted t st' w' Hacc') as [o ->].
    destruct o; try done.
    rewrite (on_handle_accounted st' w' Hacc'), Hopen'.
    by replace (negb (success SQL_SUCCESS)) with false by done.
  - unfold justExecute, is_open. cbn [SQLFreeStmt SQLSetStmtAttr SQLExecute api].
    pose proof (on_handle_accounted st w Hacc) as Hon.
    destruct (timeout_accounted t st w Hacc) as [o Ht].
    destruct (open_ st) eqn:Hopen.
    + rewrite Hon. replace (negb (success SQL_SUCCESS)) with false by done.
      cbn [andb]. rewrite Hon.
      replace (negb (success SQL_SUCCESS)) with false by done. cbn [andb].
      rewrite Ht. destruct o; try done.
      rewrite Hon. by replace (negb (success SQL_SUCCESS)) with false by done.
    + rewrite Hon.
      by replace (negb (success SQL_INVALID_HANDLE)
                  && negb (SQL_INVALID_HANDLE =? SQL_NO_DATA)) with true by done.
Qed.

(** X25. The statement handle is accounted for.  On the reference
    driver manager, after [StatementImpl()] and any sequence of [open],
    [close], [cancel], [timeout], [prepare], [justExecuteDirect] and
    [justExecute] calls that name connected connections only: an open
    statement holds the one allocated handle, a closed one holds the null
    handle and nothing is allocated, and no call was ever made on a handle
    that had been freed.  The destructor then leaves no handle allocated. *)
Theorem statement_handle_accounting (conn : Z) (ops : list client_call) :
  forallb (on_connected cs) ops = true →
  let st := (client_run cs conn ops fresh).1 in
  let w := (client_run cs conn ops fresh).2 in
  misused w = false ∧
  live w = (if is_open st then [stmt_ st] else []) ∧
  (is_open st = false → stmt_ st = 0) ∧
  live (StatementImpl_dtor cs st w) = [] ∧
  misused (StatementImpl_dtor cs st w) = false.
Proof.
  intros Hall.
  assert (Hops : ∀ o c, o ∈ ops → names o = Some c → cs c = true).
  { intros o c Ho Hc. rewrite forallb_forall in Hall.
    specialize (Hall o ltac:(by apply list_elem_of_In)).
    unfold on_connected in Hall. by rewrite Hc in Hall. }
  clear Hall.
  assert (Hacc : accounted cs (client_run cs conn ops fresh).1
                   (client_run cs conn ops fresh).2).
  { unfold client_run. induction ops as [|o ops IH] using rev_ind.
    - cbn. unfold accounted. cbn. done.
    - rewrite foldl_app. cbn [foldl].
      destruct (foldl (client_step cs) _ ops) as [st w] eqn:Hrun.
      apply client_step_accounted.
      + apply IH. intros o' c Ho'. apply Hops. apply elem_of_app. by left.
      + intros c. apply Hops. apply elem_of_app. right. by left. }
  cbn zeta. destruct (client_run cs conn ops fresh) as [st w]. cbn [fst snd] in *.
  pose proof Hacc as (Hm & Hn & Hst). unfold is_open.
  split; [done|]. split; [|split; [|split]].
  - destruct (open_ st); by destruct Hst.
  - intros Hopen. rewrite Hopen in Hst. by destruct Hst.
  - unfold StatementImpl_dtor, is_open, connected, resetParameters.
    cbn [SQLCancel SQLFreeStmt SQLFreeHandle_STMT api].
    pose proof (on_handle_accounted st w Hacc) as Hon.
    destruct (open_ st) eqn:Hopen.
    + destruct Hst as (Hl & Hh & Hc). rewrite Hc. cbn [andb].
      rewrite Hon. cbn [fst]. rewrite Hon. cbn [fst].
      unfold free, allocated. rewrite Hl. cbn [one_of existsb].
      rewrite Z.eqb_refl. cbn [orb List.filter fst live]. by rewrite Z.eqb_refl.
    + cbn [andb]. by destruct Hst.
  - unfold StatementImpl_dtor, is_open, connected, resetParameters.
    cbn [SQLCancel SQLFreeStmt SQLFreeHandle_STMT api].
    pose proof (on_handle_accounted st w Hacc) as Hon.
    destruct (open_ st) eqn:Hopen.
    + destruct Hst as (Hl & Hh & Hc). rewrite Hc. cbn [andb].
      rewrite Hon. cbn [fst]. rewrite Hon. cbn [fst].
      unfold free, allocated. rewrite Hl. cbn [one_of existsb].
      rewrite Z.eqb_refl. cbn [orb fst misused]. done.
    + cbn [andb]. done.
Qed.

End HandleAccounting.

(** ** The result iterator: the properties *)

Section IteratorErrors.
Import ResultIterator.
Context {D : Type} {api : NativeAPI D} {platform : Platform}.
Implicit Types r : ResultImpl (D:=D).

Lemma increment_no_throw (result_ : bool) r e :
  (increment result_ r).1 ≠ Throws e.
Proof.
  unfold increment. destruct result_; [|done].
  by destruct (next r) as [[more|x| |] r'].
Qed.

Lemma range_for_loop_no_throw {A} (body : ResultImpl (D:=D) → A) (fuel : nat) :
  ∀ (result_ : bool) r e, (range_for_loop fuel body result_ r).1 ≠ Throws e.
Proof.
  induction fuel as [|fuel IH]; intros result_ r e; [done|].
  cbn [range_for_loop]. destruct (differs_from_end result_); [|done].
  pose proof (increment_no_throw result_ r) as Hinc.
  destruct (increment result_ r) as [[result1|x| |] r1]; cbn [fst] in *;
    [|by destruct (Hinc x)|done|done].
  pose proof (IH result1 r1) as Hrest.
  destruct (range_for_loop fuel body result1 r1) as [[rest|x| |] r2];
    cbn [fst] in *; [done|exact (Hrest e)|done|done].
Qed.

(** X27. On any driver, a range-based [for] loop over a [Result] never
    throws: [operator++] catches whatever [next()] throws and makes the
    iterator the end iterator.  A failing fetch therefore ends the loop like
    the end of the data: at once when it is the first fetch, after the rows
    seen so far otherwise. *)
Theorem range_for_swallows_errors {A} (body : ResultImpl (D:=D) → A)
    (fuel : nat) r :
  (∀ e, (range_for fuel body r).1 ≠ Throws e) ∧
  (∀ e r', next r = (Throws e, r') → (0 < fuel)%nat →
     range_for fuel body r = (Returns [], r')) ∧
  (∀ r1 e r2, next r = (Returns true, r1) → next r1 = (Throws e, r2) →
     (1 < fuel)%nat →
     range_for fuel body r = (Returns [body r1], r2)).
Proof.
  split; [|split].
  - intros e. unfold range_for, ResultIterator_ctor.
    pose proof (increment_no_throw true r) as Hinc.
    destruct (increment true r) as [[result1|x| |] r1]; cbn [fst] in *;
      [|by destruct (Hinc x)|done|done].
    apply range_for_loop_no_throw.
  - intros e r' Hn Hfuel. unfold range_for, ResultIterator_ctor, increment.
    rewrite Hn. destruct fuel as [|fuel]; [lia|]. done.
  - intros r1 e r2 Hn1 Hn2 Hfuel.
    unfold range_for, ResultIterator_ctor, increment. rewrite Hn1.
    destruct fuel as [|[|fuel]]; [lia|lia|].
    cbn [range_for_loop differs_from_end equal andb negb increment].
    by rewrite Hn2.
Qed.

End IteratorErrors.

Section RangeFor.
Import ResultIterator.
Context {platform : Platform}.
Implicit Types r : ResultImpl (D:=RefDriver.stmt).




End RangeFor.

(** ** The further properties at concrete inputs *)

Section FurtherEvaluation.
#[local] Existing Instance gcc_platform.

(** X4 on a statement with two results, the first read to its end. *)
Lemma nextResult_rebinds_witness :
  let r := first_result_read in
  nextResult r = (Returns true, (nextResult r).2) ∧
  at_end_ (nextResult r).2 = at_end_ r ∧
  atEnd (nextResult r).2 = true ∧
  bound_columns_size_ (nextResult r).2 = 3.
Proof.
  intros r.
  assert (Hnr : nextResult r = (Returns true, (nextResult r).2))
    by (vm_compute; reflexivity).
  destruct (nextResult_rebinds r true _ Hnr) as ((_ & _ & _ & He) & Hend & _ & _ & Hn & _).
  split; [exact Hnr|]. split; [exact He|]. split.
  - apply Hend. vm_compute. reflexivity.
  - rewrite Hn. vm_compute. reflexivity.
Defined.


(** X2 on the name [bio]. *)
Lemma name_lookup_round_trip_witness :
  let r := cursor_after person_table 2 [] in
  column "bio" (auto_bind r).2 = Returns 2 ∧
  columnName 2 (auto_bind r).2 = Returns "bio"%string ∧
  columnDatatype_by_name "bio" (auto_bind r).2 = columnDatatype 2 (auto_bind r).2.
Proof.
  intros r.
  assert (Hab : auto_bind r = (Returns tt, (auto_bind r).2))
    by (vm_compute; reflexivity).
  assert (Hcol : column "bio" (auto_bind r).2 = Returns 2)
    by (vm_compute; reflexivity).
  destruct (name_lookup_round_trip r _ "bio"%string 2 Hab Hcol)
    as (Hname & _ & _ & Htype & _).
  split; [exact Hcol|]. split; [exact Hname|exact Htype].
Defined.

(** X3 on the integer column [id] with batch size 2. *)
Lemma auto_bind_buffer_layout_witness :
  let r := cursor_after person_table 2 [] in
  ∃ c, bound_columns_ (auto_bind r).2 !! 0%nat = Some c ∧
       (ctype_ c = SQL_C_SBIGINT ∨ ctype_ c = SQL_C_DOUBLE →
        blob_ c = false ∧ clen_ c = 8).
Proof.
  intros r.
  assert (Hab : auto_bind r = (Returns tt, (auto_bind r).2))
    by (vm_compute; reflexivity).
  exists (default bound_column_ctor (bound_columns_ (auto_bind r).2 !! 0%nat)).
  assert (Hc : bound_columns_ (auto_bind r).2 !! 0%nat
               = Some (default bound_column_ctor
                         (bound_columns_ (auto_bind r).2 !! 0%nat)))
    by (vm_compute; reflexivity).
  split; [exact Hc|].
  exact (proj1 (proj2 (proj2 (auto_bind_buffer_layout r _ 0%nat _ Hab Hc)))).
Defined.

Lemma attached_second_row :
  attached 3 2 (cursor_after (id_table 3 []) 2 [First; Next]).
Proof.
  split; [exact bound_ok_second_row|]. vm_compute. repeat split.
Qed.

(** X5 on the second row of the first batch of three rows. *)
Lemma absolute_positioning_witness :
  let r := cursor_after (id_table 3 []) 2 [First; Next] in
  (∃ r', last r = (Returns true, r') ∧ rowset_position_ r' = 0 ∧
         position r' = Returns (Z.max 1 (3 - 2 + 1)) ∧ rows r' = Z.min 2 3) ∧
  (∃ r', move 3 r = (Returns true, r') ∧ rowset_position_ r' = 0 ∧
         position r' = Returns 3 ∧ rows r' = Z.min 2 (3 - 3 + 1)).
Proof.
  intros r.
  destruct (absolute_positioning 3 2 r 3) as (_ & Hlast & Hmove & _);
    [lia | lia | exact attached_second_row |].
  split; [exact Hlast|]. apply Hmove. lia.
Defined.



(** X7 on the first row of a batch of two. *)
Lemma prior_undoes_next_in_batch_witness :
  let r := cursor_after (id_table 3 []) 2 [First] in
  (next r).1 = Returns (rowset_position_ r + 1 <? rows r) ∧
  prior (next r).2 = (Returns true, r).
Proof.
  intros r.
  destruct (prior_undoes_next_in_batch r) as (Hn & _ & Hp & _).
  - vm_compute. intros H. discriminate H.
  - vm_compute. reflexivity.
  - split; [exact Hn|]. apply Hp. vm_compute. intros H. discriminate H.
Defined.

(** X8 on the third of three rows read in batches of two. *)
Lemma cursor_reads_current_row_witness :
  let cells := λ (k : Z) (_ : nat), (8, le_bytes 8 k) in
  ∃ r0 row,
    ResultImpl_ctor (RefDriver.executed [id_column] 3 cells) 2 = Returns r0 ∧
    let r := (run (nav_op <$> [First; Next; Next]) r0).2 in
    position r = Returns row ∧
    get (get_ref_impl id) 0 r
    = (Returns (VInt (le_signed (cell_slot 8 (cells row 0%nat).2))), r).
Proof.
  intros cells.
  destruct (cursor_reads_current_row [id_column] 3 cells 2 [First; Next; Next])
    as (r0 & Hctor & Hrow); [lia | lia | repeat constructor; vm_compute; congruence |].
  assert (Hr : (run (nav_op <$> [First; Next; Next]) r0).2
               = cursor_after (RefDriver.executed [id_column] 3 cells) 2
                   [First; Next; Next]).
  { unfold cursor_after, session. by rewrite Hctor. }
  destruct Hrow as (row & _ & Hpos & Hcells).
  { rewrite Hr. vm_compute. split; [intros H; discriminate H|reflexivity]. }
  exists r0, row. split; [exact Hctor|]. split; [exact Hpos|].
  destruct (Hcells 0%nat id_column eq_refl) as (_ & Hget).
  destruct Hget as (Hint & _); [vm_compute; intros H; discriminate H|].
  exact (Hint eq_refl native_value id).
Defined.

(** X9 on the [bio] of the first person, read in batches of one. *)
Lemma blob_read_returns_cell_witness :
  ∃ r0 row,
    ResultImpl_ctor (RefDriver.executed person_columns 3 person_cells) 1 = Returns r0 ∧
    let r := (run (nav_op <$> [First]) r0).2 in
    position r = Returns row ∧
    (get (get_ref_impl_string 2) 2 r).1
    = Returns (string_of_list_byte (person_cells row 2%nat).2).
Proof.
  destruct (blob_read_returns_cell person_columns 3 person_cells 1 [First] 2)
    as (r0 & Hctor & Hrow);
    [lia | lia | repeat constructor; vm_compute; congruence |].
  assert (Hr : (run (nav_op <$> [First]) r0).2
               = cursor_after (RefDriver.executed person_columns 3 person_cells) 1
                   [First]).
  { unfold cursor_after, session. by rewrite Hctor. }
  destruct Hrow as (row & Hrange & Hpos & Hcells).
  { rewrite Hr. vm_compute. reflexivity. }
  { rewrite Hr. vm_compute. reflexivity. }
  exists r0, row. split; [exact Hctor|]. split; [exact Hpos|].
  assert (Hrow1 : row = 1).
  { rewrite Hr in Hpos. vm_compute in Hpos. congruence. }
  subst row.
  destruct (Hcells 2%nat _ eq_refl) as (Hstr & _).
  - vm_compute. intros H. discriminate H.
  - vm_compute. reflexivity.
  - vm_compute. lia.
  - apply Hstr. right. split; reflexivity.
Defined.


(** X11 on the row of the reading table: its DATE column read as a
    timestamp and as a time, and its INTEGER column read as a date. *)
Lemma temporal_conversions_witness :
  ∃ r0,
    ResultImpl_ctor (RefDriver.executed reading_columns 1 reading_cells) 1
    = Returns r0 ∧
    let r := (run (nav_op <$> [First]) r0).2 in
    get get_ref_impl_timestamp 1 r
    = (Returns {| ts_year := 2024; ts_month := 2; ts_day := 29; ts_hour := 0;
                  ts_min := 0; ts_sec := 0; ts_fract := 0 |}, r) ∧
    get get_ref_impl_time 1 r = (Throws TypeIncompatipleError, r) ∧
    get get_ref_impl_date 0 r = (Throws TypeIncompatipleError, r).
Proof.
  destruct (temporal_conversions reading_columns 1 reading_cells 1 [First])
    as (r0 & Hctor & Hrow); [lia | lia | repeat constructor; vm_compute; congruence |].
  assert (Hr : (run (nav_op <$> [First]) r0).2
               = cursor_after (RefDriver.executed reading_columns 1 reading_cells) 1
                   [First]).
  { unfold cursor_after, session. by rewrite Hctor. }
  destruct Hrow as (row & _ & Hpos & Hcells).
  { rewrite Hr. vm_compute. split; [intros H; discriminate H|reflexivity]. }
  assert (Hrow1 : row = 1).
  { rewrite Hr in Hpos. vm_compute in Hpos. congruence. }
  subst row.
  exists r0. split; [exact Hctor|].
  destruct (Hcells 1%nat _ eq_refl) as (_ & Hdate & _);
    [vm_compute; intros H; discriminate H|].
  destruct (Hdate eq_refl) as [Hts Htime].
  destruct (Hcells 0%nat _ eq_refl) as (_ & _ & _ & Hother);
    [vm_compute; intros H; discriminate H|].
  destruct (Hother eq_refl) as (Hd & _).
  split; [exact Hts|]. split; [exact Htime|exact Hd].
Defined.

(** X12 on a record whose text cannot be fetched. *)
Lemma database_error_on_other_builds_witness :
  let d := {| dg_rc_len := SQL_SUCCESS; dg_rc_get := SQL_ERROR;
              dg_state := "HY000"; dg_native := 7;
              dg_text := list_ascii_of_string "lost" |} in
  let e := DatabaseError_ctor false [d; context_record] "IM001" 3 "query: " in
  message e = "query: "%string ∧ sqlState e = "00000"%string ∧ nativeError e = 0.
Proof.
  intros d e.
  apply (proj2 (database_error_on_other_builds [d; context_record]
                  "IM001" 3 "query: ") d [context_record]).
  - reflexivity.
  - vm_compute. intros H. discriminate H.
  - vm_compute. reflexivity.
Defined.

(** X13 on two transactions of which the second commits and ends. *)
Lemma transactions_counts_open_objects_witness :
  let ops := [Transaction.Begin; Transaction.Begin; Transaction.Commit 1;
              Transaction.End 1; Transaction.Rollback 0] in
  let st := Transaction.client_run ops (RefConnection.idle []) in
  Connection.transactions st.1 = Transaction.open_transactions st.2 ∧
  Transaction.open_transactions st.2 = 1.
Proof.
  intros ops st. split.
  - apply (transactions_counts_open_objects ops (RefConnection.idle [])).
    + reflexivity.
    + vm_compute. reflexivity.
  - vm_compute. reflexivity.
Defined.

(** X14 on the same client before the rollback mark. *)
Lemma autocommit_follows_open_transactions_witness :
  let ops := [Transaction.Begin; Transaction.Begin; Transaction.Commit 1;
              Transaction.End 1] in
  let c := (Transaction.client_run ops (RefConnection.idle [])).1 in
  RefConnection.autocommit (Connection.nativeDbcHandle c) = false.
Proof.
  intros ops c.
  destruct (autocommit_follows_open_transactions ops []) as [Hoff _].
  - vm_compute. reflexivity.
  - vm_compute. reflexivity.
  - apply Hoff. vm_compute. reflexivity.
Defined.

(** X15 on three scopes of which the innermost ends without [commit()]: the
    COMMIT of the outermost scope is sent, then a ROLLBACK. *)
Lemma nested_scopes_witness :
  Transaction.scoped [true; true; false] (RefConnection.idle [])
  = (Returns tt,
     RefConnection.idle
       [RefConnection.SetConnectAttr SQL_ATTR_AUTOCOMMIT SQL_AUTOCOMMIT_OFF;
        RefConnection.EndTran SQL_COMMIT; RefConnection.EndTran SQL_ROLLBACK;
        RefConnection.SetConnectAttr SQL_ATTR_AUTOCOMMIT SQL_AUTOCOMMIT_ON]).
Proof.
  apply (nested_scopes true [true; false] []). vm_compute. reflexivity.
Defined.

(** X16 on the handle that refuses every call. *)
Lemma failed_commit_is_final_witness :
  let c := {| Connection.conn_ := tt; Connection.connected_ := true;
              Connection.transactions_ := 1; Connection.rollback_ := false |} in
  ∃ e t1 c1,
    Transaction.commit (capi:=refusing_api) {| Transaction.committed_ := false |} c
    = (Throws (ThrowDatabaseError e), t1, c1) ∧
    Transaction.commit (capi:=refusing_api) t1 c1 = (Returns tt, t1, c1).
Proof.
  intros c.
  destruct (failed_commit_is_final (capi:=refusing_api)
              {| Transaction.committed_ := false |} c)
    as (e & t1 & c1 & Hthrow & _ & Hagain & _).
  - reflexivity.
  - reflexivity.
  - reflexivity.
  - reflexivity.
  - exists e, t1, c1. split; [exact Hthrow|exact Hagain].
Defined.

#[local] Existing Instance RefStatement.libstdcxx_limits.

(** X17 on three 64-bit integers bound to the first marker. *)
Lemma bind_marks_every_element_witness :
  ∃ array,
    Statement.bind (bt:=Statement.int64_type) 0 (Some [10; 20; 30]) 3
      Statement.PARAM_IN RefStatement.prepared
    = Statement.bound_with Z (bt:=Statement.int64_type)
        (Statement.bind_call (bt:=Statement.int64_type) 0 (Some [10; 20; 30]) 3
           Statement.PARAM_IN array RefStatement.prepared)
        0 array RefStatement.prepared ∧
    array = [10; 10; 10; SQL_NULL_DATA; SQL_NULL_DATA; SQL_NULL_DATA;
             SQL_NULL_DATA; SQL_NULL_DATA].
Proof.
  destruct (bind_marks_every_element (bt:=Statement.int64_type) 0
              (Some [10; 20; 30]) 3 Statement.PARAM_IN RefStatement.prepared)
    as (array & Hbind & Hlen & Hat).
  - vm_compute. reflexivity.
  - lia.
  - vm_compute. intros H. discriminate H.
  - exists array. split; [exact Hbind|].
    assert (Hl : length array = 8%nat) by (change (Z.max 8 3) with 8 in Hlen; lia).
    do 8 (destruct array as [|? array]; [discriminate Hl|]).
    destruct array; [|discriminate Hl].
    pose proof (Hat 0%nat ltac:(cbn; lia)) as H0.
    pose proof (Hat 1%nat ltac:(cbn; lia)) as H1.
    pose proof (Hat 2%nat ltac:(cbn; lia)) as H2.
    pose proof (Hat 3%nat ltac:(cbn; lia)) as H3.
    pose proof (Hat 4%nat ltac:(cbn; lia)) as H4.
    pose proof (Hat 5%nat ltac:(cbn; lia)) as H5.
    pose proof (Hat 6%nat ltac:(cbn; lia)) as H6.
    pose proof (Hat 7%nat ltac:(cbn; lia)) as H7.
    vm_compute in H0, H1, H2, H3, H4, H5, H6, H7.
    unfold SQL_NULL_DATA. congruence.
Defined.

(** X18 on the same values with the second one flagged. *)
Lemma bind_flags_marks_flagged_witness :
  ∃ array,
    Statement.Statement_bind_flags (bt:=Statement.int64_type) 0
      (Some [10; 20; 30]) 3 (Some [false; true; false]) Statement.PARAM_IN
      RefStatement.prepared
    = Statement.bound_with Z (bt:=Statement.int64_type)
        (Statement.bind_call (bt:=Statement.int64_type) 0 (Some [10; 20; 30]) 3
           Statement.PARAM_IN array RefStatement.prepared)
        0 array RefStatement.prepared ∧
    array !! 0%nat = Some 10 ∧ array !! 1%nat = Some SQL_NULL_DATA.
Proof.
  destruct (bind_flags_marks_flagged (bt:=Statement.int64_type) 0
              (Some [10; 20; 30]) 3 [false; true; false] Statement.PARAM_IN
              RefStatement.prepared)
    as (array & Hbind & Hlen & Hat).
  - vm_compute. reflexivity.
  - lia.
  - vm_compute. intros H. discriminate H.
  - vm_compute. intros H. discriminate H.
  - exists array. split; [exact Hbind|].
    assert (Hl : length array = 8%nat) by (change (Z.max 8 3) with 8 in Hlen; lia).
    split; [exact (Hat 0%nat ltac:(lia))|exact (Hat 1%nat ltac:(lia))].
Defined.

(** X19 on the same values with the sentry 20. *)
Lemma bind_sentry_marks_nothing_witness :
  Statement.Statement_bind_sentry (bt:=Statement.int64_type) 0
    (Some [10; 20; 30]) 3 (Some 20) Statement.PARAM_IN RefStatement.prepared
  = Statement.Statement_bind_n (bt:=Statement.int64_type) 0
      (Some [10; 20; 30]) 3 Statement.PARAM_IN RefStatement.prepared.
Proof.
  apply (bind_sentry_marks_nothing (bt:=Statement.int64_type)).
  vm_compute. intros H. discriminate H.
Defined.

(** X20 on the strings [ab] and [cd] in elements of three characters, with
    the sentry [cd]. *)
Lemma bindStrings_sentry_marks_matches_witness :
  let vs := list_ascii_of_string "ab" ++ [NUL] ++ list_ascii_of_string "cd"
            ++ [NUL] in
  let sentry := list_ascii_of_string "cd" ++ [NUL] in
  ∃ array,
    Statement.Statement_bindStrings_sentry 1 (Some vs) 3 2 (Some sentry)
      Statement.PARAM_IN RefStatement.prepared
    = Statement.bound_with ascii
        (Statement.bind_call 1 (Some vs) 2 Statement.PARAM_IN array
           RefStatement.prepared)
        1 array RefStatement.prepared ∧
    array !! 0%nat = Some 3 ∧ array !! 1%nat = Some SQL_NULL_DATA.
Proof.
  intros vs sentry.
  destruct (bindStrings_sentry_marks_matches 1 vs sentry
              (list_ascii_of_string "cd") 3 2 Statement.PARAM_IN
              RefStatement.prepared)
    as (array & Hbind & _ & Hat).
  - vm_compute. reflexivity.
  - lia.
  - vm_compute. intros H. discriminate H.
  - lia.
  - vm_compute. intros H. discriminate H.
  - vm_compute. reflexivity.
  - vm_compute. reflexivity.
  - exists array. split; [exact Hbind|].
    split; [exact (Hat 0%nat ltac:(lia))|exact (Hat 1%nat ltac:(lia))].
Defined.

(** X21 on two strings of which the first is flagged. *)
Lemma bindStrings_flags_marks_flagged_witness :
  let vs := list_ascii_of_string "ab" ++ [NUL] ++ list_ascii_of_string "cd"
            ++ [NUL] in
  ∃ array,
    Statement.Statement_bindStrings_flags 1 (Some vs) 3 2 (Some [true; false])
      Statement.PARAM_IN RefStatement.prepared
    = Statement.bound_with ascii
        (Statement.bind_call 1 (Some vs) 2 Statement.PARAM_IN array
           RefStatement.prepared)
        1 array RefStatement.prepared ∧
    array !! 0%nat = Some SQL_NULL_DATA ∧
    array !! 1%nat = Some Statement.SQL_NTS.
Proof.
  intros vs.
  destruct (bindStrings_flags_marks_flagged 1 (Some vs) 3 2 [true; false]
              Statement.PARAM_IN RefStatement.prepared)
    as (array & Hbind & Hlen & Hat).
  - vm_compute. reflexivity.
  - lia.
  - vm_compute. intros H. discriminate H.
  - vm_compute. intros H. discriminate H.
  - exists array. split; [exact Hbind|].
    assert (Hl : length array = 8%nat) by (change (Z.max 8 2) with 8 in Hlen; lia).
    split; [exact (Hat 0%nat ltac:(lia))|exact (Hat 1%nat ltac:(lia))].
Defined.

(** X22: binding the first parameter after the second leaves the indicator
    array of the second as it was. *)
Lemma binding_leaves_other_parameters_witness :
  let st := (Statement.bind_null 1 1 RefStatement.prepared).2 in
  Statement.bind_len_or_null_
    (Statement.bind (bt:=Statement.int64_type) 0 (Some [10; 20; 30]) 3
       Statement.PARAM_IN st).2 !! 1
  = Statement.bind_len_or_null_ st !! 1.
Proof.
  intros st.
  refine (proj1 (binding_leaves_other_parameters (bt:=Statement.int64_type)
                   0 1 (Some [10; 20; 30]) None 0 3 None None None
                   Statement.PARAM_IN st _) _).
  - intros H. discriminate H.
  - vm_compute. intros H. discriminate H.
Defined.

(** X23 on the attributes of the first reference driver, followed by
    characters that no zero ends. *)
Lemma attribute_text_round_trip_witness :
  let pairs := Drivers.attributes RefManager.sqlite_driver in
  let text := Drivers.attribute_text pairs in
  Drivers.split_attributes (S (length text + 3))
    (text ++ list_ascii_of_string "abc" ++ [NUL]) 0 (length text + 3)
  = Returns pairs.
Proof.
  intros pairs text.
  refine (proj1 (attribute_text_round_trip pairs (list_ascii_of_string "abc")
                   [] [NUL] _) _).
  - repeat constructor;
      apply (bool_decide_unpack _); vm_compute; exact I.
  - apply (bool_decide_unpack _). vm_compute. exact I.
Defined.

(** X24 on the manager with two drivers. *)
Lemma listDrivers_lists_installed_witness :
  ∃ m',
    Drivers.listDrivers 3 RefManager.two_drivers
    = (Returns [RefManager.sqlite_driver; RefManager.postgres_driver], m') ∧
    RefManager.env m' = 1%nat.
Proof.
  destruct (listDrivers_lists_installed RefManager.two_drivers 3)
    as (m' & Hlist & _ & Henv).
  - repeat constructor;
      try (apply (bool_decide_unpack _); vm_compute; exact I);
      vm_compute; lia.
  - vm_compute. lia.
  - exists m'. split; [exact Hlist|exact Henv].
Defined.

(** X25 on a client that opens, prepares, executes, closes, cancels the
    closed statement and prepares again. *)
Lemma statement_handle_accounting_witness :
  let cs := λ c : Z, c =? 7 in
  let ops := [StatementHandle.Open 7;
              StatementHandle.Prepare "select 1" 0;
              StatementHandle.JustExecute 1 0;
              StatementHandle.Close;
              StatementHandle.Cancel;
              StatementHandle.PrepareOn 7 "select 2" 5] in
  let st := (StatementHandle.client_run cs 7 ops RefHandles.fresh).1 in
  let w := (StatementHandle.client_run cs 7 ops RefHandles.fresh).2 in
  RefHandles.misused w = false ∧
  RefHandles.live w = [StatementHandle.stmt_ st] ∧
  RefHandles.live (StatementHandle.StatementImpl_dtor cs st w) = [].
Proof.
  intros cs ops st w.
  destruct (statement_handle_accounting cs 7 ops) as (Hm & Hl & _ & Hd & _).
  - vm_compute. reflexivity.
  - split; [exact Hm|]. split; [exact Hl|exact Hd].
Defined.


(** X27 on a statement whose connection is lost: the fetch of the first
    increment fails, and the loop ends without a row and without an
    exception. *)
Lemma range_for_swallows_errors_witness :
  ∃ e r',
    next LostStatement.cursor = (Throws e, r') ∧
    ResultIterator.range_for 1 position LostStatement.cursor = (Returns [], r').
Proof.
  eexists _, _. split; [vm_compute; reflexivity|].
  refine (proj1 (proj2 (range_for_swallows_errors position 1
                          LostStatement.cursor)) _ _ _ _).
  - vm_compute. reflexivity.
  - lia.
Defined.

End FurtherEvaluation.
